(* ===== verification/_CoqProject ===== *)
-Q . S2P
Prelude.v
Memory.v
Cmem.v
CmemSpec.v
Chksum.v
ChksumSpec.v
Unlzma.v
RangeCoder.v
UnlzmaSpec.v
Time.v
Utf8.v
World.v
Zbin.v
Bcj.v
ZbinSpec.v
Libprefix.v
LibprefixSpec.v
Romprefix.v
RomprefixSpec.v
Cstring.v
Printf.v
PrintfSpec.v
Object.v
ObjectSpec.v
Retry.v
Malloc.v
MallocSpec.v
MallocTrace.v
Uri.v
UriSpec.v
UriParse.v
Pci.v
Blockdev.v
Nvme.v
Sanboot.v
Biosint.v
E820.v
E820Spec.v
Memmap.v
MemmapSpec.v
Umalloc.v
UmallocSpec.v
PciBus.v
PciExtra.v
PciBusSpec.v
Startup.v
Acpi.v
AcpiSpec.v
Timer.v
TimerSpec.v
Int13.v
Xbft.v
Autoboot.v
Geometry.v
Int13Spec.v
Int13Type.v
AutobootSpec.v
NvmeIo.v
NvmeSpec.v
Controller.v
System.v
ReadPath.v
Int13Read.v
Disk.v
Boot.v
Main.v
Witness.v
WitnessLib.v
WitnessZbin.v
WitnessRom.v
Selftest.v
