(* ===== verification/Prelude.v ===== *)
(** * Verification of the NVMe INT 13 option ROM

    The program is an iPXE option ROM that makes an NVMe drive bootable on
    machines whose BIOS knows nothing of NVMe.  The build packs its sections
    into a ROM image; the BIOS calls the prefix of the ROM, which finds memory,
    and later unpacks and installs the sections.  At startup it initialises a
    heap, walks the PCI bus and probes the controller; it then parses the URI
    nvme:0, opens the drive as a SAN device, hooks INT 13, loads the boot
    sector through its own handler and jumps to it.  From then on it lives in
    memory that it hides from the operating system by hooking INT 15.

    ** The model

    C code is transcribed as a state-passing program [prog S A]
    ([S -> outcome S A]): it returns a value and a new state, meets undefined
    behaviour ([Undef]: a NULL or wild pointer, a division by zero, a read past
    the end of an array), or runs out of the iterations it is given ([Spin]).
    The state [world] (World.v) has physical memory, the heap's free list, one
    map per kind of structure, the global variables of each file and the
    hardware.  [wp m Q s] is total correctness: from [s] the program [m] returns,
    and in a state and with a result that satisfy [Q]; it excludes [Undef] and
    [Spin].  Integers are kept as [Z] with the wrap-around of their C type
    written out ([u8] to [u64]); the build is the 32-bit one.  Calls through
    function pointers go through the class [Methods] (Object.v), which
    System.v ties to the methods that the components register.  Hardware and
    code outside the sources are parameters: the class [Platform] (World.v:
    PCI configuration space, device memory, the interrupt handlers of the
    BIOS), the class [NvmeController] (NvmeIo.v: what the NVMe specification says
    of an I/O queue pair), the class [Ports] (Timer.v: port input and output,
    counters), and the contract [e820_bios] (E820Spec.v: INT 15,e820 of the
    BIOS).  Controller.v is an executable controller that meets the first two.

    ** Files

    Paths are relative to src/src/.

    - Foundations.  Prelude: integers, bytes, the program type and its logic.
      Memory: memory and read-over-write lemmas.  World: the structures and
      globals.
    - C library.  Cmem, CmemSpec: memory routines (core/string.c,
      arch/x86/core/x86_string.c, arch/x86/include/bits/string.h).  Chksum,
      ChksumSpec: checksum (net/tcpip.c, arch/x86/core/x86_tcpip.c).  Cstring:
      strings (core/string.c, core/ctype.c, core/basename.c).  Printf,
      PrintfSpec: formatted output (core/vsprintf.c).  Time: calendar
      (core/time.c).  Utf8: UTF-8 (core/utf8.c).
    - Objects.  Object, ObjectSpec: reference counts, interfaces, processes
      (core/refcnt.c, core/interface.c, core/process.c).  Retry: retry timers
      (net/retry.c, sleeping in core/timer.c).  Blockdev: calls over interfaces (core/blockdev.c,
      core/edd.c, core/acpi.c, core/device.c, core/xfer.c).
    - Memory.  Malloc, MallocSpec, MallocTrace: the heap (core/malloc.c).  E820, E820Spec:
      hidden memory (arch/x86/interface/pcbios/e820mangler.S, hidemem.c,
      basemem.c).  Memmap, MemmapSpec: the memory map and relocation
      (arch/x86/interface/pcbios/memmap.c, arch/x86/core/relocate.c).
      Umalloc, UmallocSpec: external memory
      (arch/x86/interface/pcbios/memtop_umalloc.c).
    - Buses and the driver.  Pci, PciBus, PciBusSpec, PciExtra: PCI
      (drivers/bus/pci.c, pciextra.c, pcibackup.c,
      arch/x86/interface/pcbios/pcibios.c).  Nvme, NvmeIo, NvmeSpec: the
      driver (drivers/block/nvme.c, nvme-int.h), its contract with the
      controller, its properties.
    - The SAN layer and INT 13.  Uri, UriSpec, UriParse: URIs (core/uri.c,
      core/cwuri.c).  Sanboot: SAN devices (core/sanboot.c, core/open.c,
      core/quiesce.c).  Biosint: interrupt vectors and real mode
      (arch/x86/interface/pcbios/biosint.c, arch/x86/include/realmode.h).
      Int13, Geometry, Int13Spec, Int13Type, Xbft: the emulation
      (arch/x86/interface/pcbios/int13.c).  Acpi, AcpiSpec: ACPI tables
      (core/acpi.c, arch/x86/interface/pcbios/rsdp.c, acpipwr.c).
    - The image and its prefix.  Zbin, Bcj, ZbinSpec: the tool that packs the
      image (util/zbin.c), the filter for branches, its properties.  Unlzma,
      RangeCoder, UnlzmaSpec: the decompressor (arch/x86/prefix/unlzma.S), the
      arithmetic of the coder, the format of a stream and its decoding.
      Libprefix, LibprefixSpec: installation (arch/x86/prefix/libprefix.S).
      Romprefix, RomprefixSpec: the option ROM's entry points
      (arch/x86/prefix/romprefix.S).  Their states are smaller than [world]:
      the buffers of the tool ([files]), the registers and memory of the
      decoder ([lzma_dec]), memory and the characters printed ([prefix]).
    - Timers.  Timer, TimerSpec: core/timer.c, arch/x86/core/pit8254.c,
      rdtsc_timer.c, cpuid.c, arch/x86/interface/pcbios/bios_timer.c,
      acpi_timer.c.
    - The program.  Startup: device tree, init and main (core/device.c,
      core/init.c, core/main.c).  Autoboot, AutobootSpec: the main flow and the
      call of the boot sector (usr/autoboot.c,
      arch/x86/image/bootsector.c).  System: method dispatch and the tables
      of the program.  ReadPath, Int13Read: reads from INT 13 down to the controller.
      Disk: the abstract drive and its refinement.  Controller, Boot, Main: an example
      controller and machine, its bring-up and the whole program on it.
      Witness, WitnessLib, WitnessZbin, WitnessRom: the theorems at concrete inputs.  Selftest: the
      program's own tests (tests/vsprintf_test.c, tests/uri_test.c) run on the
      definitions.

    ** What the theorems show

    - Reading.  INT 13,42 and INT 13,02 on a ready drive return exactly the
      blocks asked for, change nothing else that the caller can see and leave
      the drive ready (Int13Read), because every SAN command completes
      (ReadPath) and every transfer of a block does (NvmeIo).  Hence the
      drive refines an abstract one for every program that uses it (Disk).
      Every call preserves the widths of the registers and the parts of them
      that it does not answer in (Int13Type).
    - Booting.  On the machine of Boot.v, probing and hooking give a ready
      drive; [main] loads the boot sector and runs it, and whatever the boot
      sector does, it can read every block; when it gives up, the vectors are
      restored (Main, AutobootSpec).
    - The image.  What the tool packs, the decompressor unpacks at any address,
      for every encoder whose output is an LZMA stream of its input; the tool
      stays within its buffers and its fix-ups are exact or refused (ZbinSpec,
      UnlzmaSpec).  The prefix installs all sections where they belong
      (LibprefixSpec), allocates base memory that it can give back, and leaves
      a ROM with a good checksum at the runtime segment (RomprefixSpec).
    - INT 13 besides reads: unsupported functions, calls for other drives,
      remapped drives, drive counts, geometry, device paths, firmware tables
      (Int13Spec, Geometry, Xbft).
    - Memory: the heap allocates only what is free and never leaks (MallocSpec,
      MallocTrace); the edited memory map is that of the BIOS without the hidden
      regions (E820Spec), and so is the map that iPXE reads itself
      (MemmapSpec); relocation and the external heap stay within it
      (MemmapSpec, UmallocSpec), with the exceptions proved there.
    - Libraries: equivalence of assembly and portable versions (CmemSpec,
      ChksumSpec), round trips (UriSpec, UriParse, PrintfSpec, Utf8), the
      calendar (Time), ACPI and PCI searches with their termination (AcpiSpec,
      PciBusSpec, PciExtra), clocks and delays (TimerSpec).
    - Flaws: theorems about what the code does where that cannot be meant: the
      endless retry and the inverted full test of the driver, writes that
      report success without writing (NvmeSpec, NvmeIo), a geometry that divides
      by zero (Geometry), a ROM too large to be copied (RomprefixSpec), a second startup (Startup), uninitialised memory
      (Boot), overflowing delays (TimerSpec), relocation below the region and
      the stale fallback map (MemmapSpec), a heap that does not survive
      running out of space (UmallocSpec).

    ** Bounds

    - [methods f n] (System.v) nests [n] levels of calls through function
      pointers and gives every loop that waits for the hardware or the
      scheduler [f] rounds.  Theorems about reads hold for every [f] above the
      controller's latency, at least 3, and above the number of blocks (at
      most 255, so Disk.v asks for 256), and every [n] above the nesting depth
      of the path; the concrete machine uses 200 (or 300) and 8.
    - The scan of the PCI bus of the example runs with 600 rounds, more than
      the addresses of the buses that it meets.
    - INT 15,e820: a caller reads at most four entries for each of the BIOS's
      and each entry takes at most one call more than there are; the
      fuels of E820Spec.v and MemmapSpec.v are just above these numbers.
    - A delay of a millisecond polls the ACPI timer at most 3579 times, and the
      time stamp counter as often as it advances in that time.
    - The decompressor decodes at most one symbol for each byte of its output and
      the end marker, so a fuel above the length of the data is enough.
    - [get_pmm] takes one round for each handle that is in use already, and the
      wait for a key at most as many ticks as the banner's time; both have a
      fuel of their own.
    - Everything else is structural recursion or recursion with a bound that
      is proved sufficient where the function is used.

    ** Assumptions

    Nothing is allocated at address zero, and the heap is aligned to 16 bytes,
    as the linker script has it.  Structures and strings that only one owner
    changes are values in maps keyed by address; memory that hardware, the BIOS
    or the caller share (queues, DMA pages, real-mode memory, malloc's size
    words) is bytes.  Interrupts are off while C code runs, except where it waits.

    ** Not modelled

    - Console output and debugging messages, which have no effect on the rest.
    - The switch between real and protected mode (arch/x86/transitions), flat
      real mode and the A20 gate: code whose effect is on segment registers,
      descriptor tables and ports, which the model leaves implicit or takes as
      parameters of the prefix.
    - The INT 19 entry of the ROM, which only a BIOS without PnP calls, and the
      prefixes other than that of a ROM.
    - The reading and writing of files by the image tool.
    - The generators of firmware tables for network and other SAN protocols
      (iBFT, aBFT, sBFT), of which the build registers none for NVMe; the table
      installers are a parameter.
    - Settings and the shell: the main flow reads no setting and starts no
      shell.
    - The network stack, other drivers, file formats, cryptography, EFI and the
      other build tools, which the program does not use to boot from NVMe. *)

From stdpp Require Export base numbers list gmap countable.

(** ** Prelude

    Machine-width integers, little-endian byte strings and the state-passing
    monad in which the code is transcribed, with the tactics for both. *)

#[global] Open Scope Z_scope.
#[global] Set Default Goal Selector "!".

Declare Scope prog_scope.
Delimit Scope prog_scope with prog.

(** [lia] with division and remainder by constants written out. *)
Ltac dlia :=
  intros; Z.to_euclidean_division_equations;
  change (2 ^ 8) with 256 in *; change (2 ^ 16) with 65536 in *;
  change (2 ^ 32) with 4294967296 in *;
  change (2 ^ 64) with 18446744073709551616 in *; lia.

(** ** Machine-width integers

    An unsigned [w]-bit C integer is a [Z] in [[0, 2^w)]; the casts below write
    the wrap-around out where the C type forces it. *)

Definition u8 (x : Z) : Z := x mod 2 ^ 8.
Definition u16 (x : Z) : Z := x mod 2 ^ 16.
Definition u32 (x : Z) : Z := x mod 2 ^ 32.
Definition u64 (x : Z) : Z := x mod 2 ^ 64.

(** A [u32] read back as a (two's complement) [int]. *)
Definition s32 (x : Z) : Z :=
  let y := u32 x in if y <? 2 ^ 31 then y else y - 2 ^ 32.

(** Bitwise complement of a 32-bit operand. *)
Definition not32 (x : Z) : Z := u32 (Z.lnot x).

Definition bool_of_Z (x : Z) : bool := negb (x =? 0).
Definition Z_of_bool (b : bool) : Z := if b then 1 else 0.

Lemma u8_range x : 0 <= u8 x < 256.
Proof. unfold u8. dlia. Qed.

Lemma u16_range x : 0 <= u16 x < 65536.
Proof. unfold u16. dlia. Qed.

Lemma u32_range x : 0 <= u32 x < 4294967296.
Proof. unfold u32. dlia. Qed.

Lemma u64_range x : 0 <= u64 x < 18446744073709551616.
Proof. unfold u64. dlia. Qed.

Lemma u8_small x : 0 <= x < 256 -> u8 x = x.
Proof. unfold u8. dlia. Qed.

Lemma u16_small x : 0 <= x < 65536 -> u16 x = x.
Proof. unfold u16. dlia. Qed.

Lemma u32_small x : 0 <= x < 4294967296 -> u32 x = x.
Proof. unfold u32. dlia. Qed.

Lemma u64_small x : 0 <= x < 18446744073709551616 -> u64 x = x.
Proof. unfold u64. dlia. Qed.

Lemma u32_sub x y : u32 (u32 x - u32 y) = u32 (x - y).
Proof. unfold u32. rewrite <- Zminus_mod. reflexivity. Qed.

Lemma u32_sub_l x y : u32 (u32 x - y) = u32 (x - y).
Proof. unfold u32. rewrite Zminus_mod_idemp_l. reflexivity. Qed.

Create HintDb width.
#[export] Hint Resolve u8_range u16_range u32_range u64_range : width.
#[export] Hint Rewrite u8_small u16_small u32_small u64_small
  using lia : width.

(** ** Bit masks *)

Lemma not32_value x : 0 <= x < 2 ^ 32 -> not32 x = 2 ^ 32 - 1 - x.
Proof. intros Hx. unfold not32, u32, Z.lnot. dlia. Qed.

Lemma u32_neg x : - 2 ^ 32 <= x < 0 -> u32 x = x + 2 ^ 32.
Proof. intros Hx. unfold u32. dlia. Qed.

Lemma land_ones_mod x n : 0 <= n -> Z.land x (2 ^ n - 1) = x mod 2 ^ n.
Proof.
  intros Hn. rewrite <- Z.land_ones by lia.
  f_equal. rewrite Z.ones_equiv. lia.
Qed.

Lemma land_nonneg_le x y : 0 <= x -> 0 <= y -> 0 <= Z.land x y <= y.
Proof.
  intros Hx Hy. split; [apply Z.land_nonneg; lia|].
  destruct (Z.eq_dec y 0) as [->|Hy0]; [rewrite Z.land_0_r; lia|].
  pose proof (Z.log2_land x y Hx Hy) as Hlog.
  apply Z.ldiff_le; [lia|].
  apply Z.bits_inj'. intros i Hi.
  rewrite Z.ldiff_spec, Z.land_spec, Z.bits_0.
  destruct (Z.testbit x i), (Z.testbit y i); reflexivity.
Qed.

Lemma testbit_above a n i : 0 <= a < 2 ^ n -> n <= i -> Z.testbit a i = false.
Proof.
  intros Ha Hi. destruct (Z.eq_dec a 0) as [->|]; [apply Z.bits_0|].
  apply Z.bits_above_log2; [lia|].
  apply Z.log2_lt_pow2; [lia|].
  apply Z.lt_le_trans with (2 ^ n); [lia|apply Z.pow_le_mono_r; lia].
Qed.

(** Results of bit operations stay within [n] bits. *)
Lemma land_range a b n : 0 <= n -> 0 <= b < 2 ^ n -> 0 <= Z.land a b < 2 ^ n.
Proof.
  intros Hn Hb. replace (Z.land a b) with (Z.land (Z.land a b) (2 ^ n - 1)).
  - rewrite land_ones_mod by lia. apply Z.mod_pos_bound. lia.
  - rewrite <- Z.land_assoc. f_equal. rewrite land_ones_mod, Z.mod_small by lia. done.
Qed.

Lemma lor_range a b n :
  0 <= n -> 0 <= a < 2 ^ n -> 0 <= b < 2 ^ n -> 0 <= Z.lor a b < 2 ^ n.
Proof.
  intros Hn Ha Hb. replace (Z.lor a b) with (Z.land (Z.lor a b) (2 ^ n - 1)).
  - rewrite land_ones_mod by lia. apply Z.mod_pos_bound. lia.
  - rewrite Z.land_lor_distr_l, !land_ones_mod, !Z.mod_small by lia. done.
Qed.

(** A mask that does not start at bit 0. *)
Lemma land_shiftl_mask v m n : 0 <= n ->
  Z.land v (Z.shiftl m n) = Z.shiftl (Z.land (Z.shiftr v n) m) n.
Proof.
  intros Hn. apply Z.bits_inj'. intros i Hi. rewrite Z.land_spec.
  destruct (Z.ltb_spec i n).
  - rewrite !Z.shiftl_spec_low by lia. apply andb_false_r.
  - rewrite !Z.shiftl_spec, Z.land_spec, Z.shiftr_spec by lia.
    do 2 f_equal. lia.
Qed.

(** Disjoint bit fields may be joined with [+]. *)
Lemma lor_shiftl_add a b n :
  0 <= n -> 0 <= a < 2 ^ n -> Z.lor a (Z.shiftl b n) = a + b * 2 ^ n.
Proof.
  intros Hn Ha. rewrite <- Z.shiftl_mul_pow2 by lia.
  rewrite <- Z.lxor_lor; [rewrite <- Z.add_nocarry_lxor; [reflexivity|]|].
  all: apply Z.bits_inj'; intros i Hi; rewrite Z.land_spec, Z.bits_0.
  all: destruct (Z.lt_ge_cases i n);
    [rewrite Z.shiftl_spec_low by lia; apply andb_false_r|].
  all: rewrite (testbit_above a n i) by lia; reflexivity.
Qed.

(** Testing one bit by masking. *)
Lemma land_pow2 x n : 0 <= n -> Z.land x (2 ^ n) = if Z.testbit x n then 2 ^ n else 0.
Proof.
  intros Hn. apply Z.bits_inj'. intros i Hi. rewrite Z.land_spec.
  destruct (Z.eq_dec i n) as [->|Hne].
  - rewrite Z.pow2_bits_true by lia. destruct (Z.testbit x n); [|by rewrite Z.bits_0].
    by rewrite Z.pow2_bits_true by lia.
  - rewrite Z.pow2_bits_false, andb_false_r by lia.
    destruct (Z.testbit x n); [by rewrite Z.pow2_bits_false by lia|by rewrite Z.bits_0].
Qed.

Lemma bool_of_Z_land_pow2 x n :
  0 <= n -> bool_of_Z (Z.land x (2 ^ n)) = Z.testbit x n.
Proof.
  intros Hn. rewrite land_pow2 by exact Hn. pose proof (Z.pow_pos_nonneg 2 n).
  unfold bool_of_Z. destruct (Z.testbit x n); [|done].
  by rewrite (proj2 (Z.eqb_neq _ _)) by lia.
Qed.

(** Rounding down to a multiple of a power of two. *)
Lemma land_not32 n x : 0 <= n <= 32 -> 0 <= x < 2 ^ 32 ->
  Z.land x (not32 (2 ^ n - 1)) = x - x mod 2 ^ n.
Proof.
  intros Hn Hx. assert (0 < 2 ^ n) by (apply Z.pow_pos_nonneg; lia).
  replace (2 ^ n - 1) with (Z.ones n) by (rewrite Z.ones_equiv; lia). unfold not32, u32.
  rewrite <- Z.land_ones, Z.land_assoc, <- Z.ldiff_land by lia.
  rewrite Z.ldiff_ones_r, Z.shiftl_mul_pow2, Z.shiftr_div_pow2, Z.land_ones by lia.
  pose proof (Z.div_mod x (2 ^ n) ltac:(lia)). pose proof (Z.mod_pos_bound x (2 ^ n) ltac:(lia)).
  pose proof (Z.mod_le x (2 ^ n) ltac:(lia) ltac:(lia)).
  replace (x / 2 ^ n * 2 ^ n) with (x - x mod 2 ^ n) by lia. apply Z.mod_small. lia.
Qed.

Lemma land_not32_15 x : 0 <= x < 2 ^ 32 -> Z.land x (not32 (16 - 1)) = x - x mod 16.
Proof. apply (land_not32 4). lia. Qed.

(** ** Little-endian byte strings *)

Fixpoint le_split (n : nat) (v : Z) : list Z :=
  match n with
  | O => []
  | S n => v mod 256 :: le_split n (v / 256)
  end.

Fixpoint le_combine (l : list Z) : Z :=
  match l with
  | [] => 0
  | b :: l => b + 256 * le_combine l
  end.

Definition is_byte (b : Z) : Prop := 0 <= b < 256.

#[global] Instance is_byte_dec b : Decision (is_byte b).
Proof. unfold is_byte. apply _. Defined.

Lemma length_le_split n v : length (le_split n v) = n.
Proof. revert v. induction n; intros; cbn; auto. Qed.

Lemma le_combine_split n v :
  le_combine (le_split n v) = v mod 2 ^ (8 * Z.of_nat n).
Proof.
  revert v. induction n as [|n IH]; intros v; cbn [le_split le_combine].
  { rewrite Z.mod_1_r. reflexivity. }
  rewrite IH. replace (8 * Z.of_nat (S n)) with (8 + 8 * Z.of_nat n) by lia.
  rewrite Z.pow_add_r by lia. change (2 ^ 8) with 256.
  rewrite (Z.rem_mul_r v) by lia. reflexivity.
Qed.

Lemma le_split_combine l :
  Forall is_byte l -> le_split (length l) (le_combine l) = l.
Proof.
  induction 1 as [|b l Hb _ IH]; cbn [length le_split le_combine]; [done|].
  unfold is_byte in Hb. f_equal; [dlia|].
  replace ((b + 256 * le_combine l) / 256) with (le_combine l) by dlia.
  exact IH.
Qed.

Lemma le_split_bytes n v : Forall is_byte (le_split n v).
Proof.
  revert v. induction n; intros; cbn; constructor; auto. unfold is_byte. dlia.
Qed.

Lemma le_split_mod n v : le_split n (v mod 2 ^ (8 * Z.of_nat n)) = le_split n v.
Proof.
  rewrite <- le_combine_split, <- (length_le_split n v) at 1.
  apply le_split_combine, le_split_bytes.
Qed.

Lemma le_split_u32 v : le_split 4 (u32 v) = le_split 4 v.
Proof. apply (le_split_mod 4). Qed.

Lemma le_combine_app l k :
  le_combine (l ++ k) = le_combine l + 256 ^ Z.of_nat (length l) * le_combine k.
Proof.
  induction l as [|b l IH]; cbn [app length le_combine]; [lia|].
  rewrite IH, Nat2Z.inj_succ, Z.pow_succ_r by lia. lia.
Qed.

Lemma le_combine_range l :
  Forall is_byte l -> 0 <= le_combine l < 2 ^ (8 * Z.of_nat (length l)).
Proof.
  induction 1 as [|b l Hb _ IH]; cbn [length le_combine]; [cbn; lia|].
  unfold is_byte in Hb.
  replace (8 * Z.of_nat (S (length l))) with (8 + 8 * Z.of_nat (length l)) by lia.
  rewrite Z.pow_add_r by lia. change (2 ^ 8) with 256. lia.
Qed.

(** ** The monad of the transcribed code

    A C function is a function from the state to an [outcome].  [Undef] is the
    outcome of code whose behaviour C leaves undefined (a dereference of a
    pointer to no object, a division by zero, a store outside an object);
    [Spin] is the outcome of a loop or of a chain of calls that has not
    returned within the given number of iterations. *)

Inductive outcome (S A : Type) : Type :=
| Ret (a : A) (s : S)
| Undef
| Spin.
Arguments Ret {S A} a s.
Arguments Undef {S A}.
Arguments Spin {S A}.

Definition prog (S A : Type) : Type := S -> outcome S A.

Section monad.
Context {S : Type}.

Definition ret {A} (a : A) : prog S A := fun s => Ret a s.
Definition undef {A} : prog S A := fun _ => Undef.
Definition spin {A} : prog S A := fun _ => Spin.

Definition bind {A B} (m : prog S A) (k : A -> prog S B) : prog S B :=
  fun s => match m s with
           | Ret a s' => k a s'
           | Undef => Undef
           | Spin => Spin
           end.

Definition gets {A} (f : S -> A) : prog S A := fun s => Ret (f s) s.
Definition modify (f : S -> S) : prog S unit := fun s => Ret tt (f s).

(** Dereference of a pointer that may not point to an object. *)
Definition deref {A} (f : S -> option A) : prog S A :=
  fun s => match f s with Some a => Ret a s | None => Undef end.

Definition when (b : bool) (m : prog S unit) : prog S unit :=
  if b then m else ret tt.

(** [iterate n body x]: run [body] from loop state [x] until it yields
    [inr], at most [n] times. *)
Fixpoint iterate {X A} (n : nat) (body : X -> prog S (X + A)) (x : X)
  : prog S A :=
  match n with
  | O => spin
  | Datatypes.S n =>
      bind (body x) (fun r => match r with
                              | inl x' => iterate n body x'
                              | inr a => ret a
                              end)
  end.

(** [while n cond body]: a C [while] loop without loop-local variables. *)
Definition while (n : nat) (cond : prog S bool) (body : prog S unit)
  : prog S unit :=
  iterate n (fun _ : unit =>
    bind cond (fun b => if b then bind body (fun _ => ret (inl tt))
                        else ret (inr tt))) tt.

(** [for_each l body]: [list_for_each_entry] over a list that the body
    does not change. *)
Fixpoint for_each {A} (l : list A) (body : A -> prog S unit) : prog S unit :=
  match l with
  | [] => ret tt
  | a :: l => bind (body a) (fun _ => for_each l body)
  end.

Lemma bind_ret_l {A B} (a : A) (k : A -> prog S B) : bind (ret a) k = k a.
Proof. reflexivity. Qed.

Lemma bind_Ret {A B} (m : prog S A) (k : A -> prog S B) s a s' :
  m s = Ret a s' -> bind m k s = k a s'.
Proof. intros H. unfold bind. rewrite H. reflexivity. Qed.

Lemma bind_Undef {A B} (m : prog S A) (k : A -> prog S B) s :
  m s = Undef -> bind m k s = Undef.
Proof. intros H. unfold bind. rewrite H. reflexivity. Qed.

Lemma bind_Spin {A B} (m : prog S A) (k : A -> prog S B) s :
  m s = Spin -> bind m k s = Spin.
Proof. intros H. unfold bind. rewrite H. reflexivity. Qed.

Lemma bind_inv {A B} (m : prog S A) (k : A -> prog S B) s b s'' :
  bind m k s = Ret b s'' -> exists a s', m s = Ret a s' /\ k a s' = Ret b s''.
Proof. unfold bind. destruct (m s); naive_solver. Qed.

Lemma while_false n cond body s s' :
  cond s = Ret false s' -> while (Datatypes.S n) cond body s = Ret tt s'.
Proof.
  intros H. unfold while. cbn [iterate]. unfold bind. rewrite H.
  reflexivity.
Qed.

Lemma while_true n cond body s s' s'' :
  cond s = Ret true s' -> body s' = Ret tt s'' ->
  while (Datatypes.S n) cond body s = while n cond body s''.
Proof.
  intros H1 H2. unfold while. cbn [iterate]. unfold bind at 1 2 3.
  rewrite H1, H2. reflexivity.
Qed.

(** [wp m Q s]: run from [s], [m] returns, in a state and with a value that
    satisfy [Q].  In particular it neither is undefined nor spins. *)
Definition wp {A} (m : prog S A) (Q : A -> S -> Prop) (s : S) : Prop :=
  match m s with Ret a s' => Q a s' | _ => False end.

Lemma wp_run {A} (m : prog S A) (Q : A -> S -> Prop) s :
  wp m Q s <-> exists a s', m s = Ret a s' /\ Q a s'.
Proof.
  unfold wp. split.
  - destruct (m s); [eauto|tauto|tauto].
  - intros (a & s' & -> & HQ). exact HQ.
Qed.

Lemma wp_Ret {A} (m : prog S A) (Q : A -> S -> Prop) s a s' :
  m s = Ret a s' -> Q a s' -> wp m Q s.
Proof. unfold wp. intros ->. auto. Qed.

Lemma wp_mono {A} (m : prog S A) (P Q : A -> S -> Prop) s :
  wp m P s -> (forall a s', P a s' -> Q a s') -> wp m Q s.
Proof. unfold wp. destruct (m s); auto. Qed.

Lemma wp_bind {A B} (m : prog S A) (k : A -> prog S B) Q s :
  wp m (fun a s' => wp (k a) Q s') s -> wp (bind m k) Q s.
Proof. unfold wp, bind. destruct (m s); auto. Qed.

Lemma wp_bind_inv {A B} (m : prog S A) (k : A -> prog S B) Q s :
  wp (bind m k) Q s -> wp m (fun a s' => wp (k a) Q s') s.
Proof. unfold wp, bind. destruct (m s); auto. Qed.

Lemma wp_ret {A} (a : A) (Q : A -> S -> Prop) s : Q a s -> wp (ret a) Q s.
Proof. auto. Qed.

Lemma wp_gets {A} (f : S -> A) (Q : A -> S -> Prop) s :
  Q (f s) s -> wp (gets f) Q s.
Proof. auto. Qed.

Lemma wp_modify (f : S -> S) (Q : unit -> S -> Prop) s :
  Q tt (f s) -> wp (modify f) Q s.
Proof. auto. Qed.

Lemma wp_deref {A} (f : S -> option A) (Q : A -> S -> Prop) s a :
  f s = Some a -> Q a s -> wp (deref f) Q s.
Proof. unfold wp, deref. intros ->. auto. Qed.

(** Loops: one iteration, and an invariant with a number of iterations that
    is enough. *)
Lemma wp_iterate_S {X A} n (body : X -> prog S (X + A)) x Q s :
  wp (body x) (fun r s' => match r with
                           | inl x' => wp (iterate n body x') Q s'
                           | inr a => Q a s'
                           end) s ->
  wp (iterate (Datatypes.S n) body x) Q s.
Proof.
  intros H. cbn [iterate]. apply wp_bind. eapply wp_mono; [exact H|].
  intros [x'|a] s'; auto.
Qed.

Lemma wp_iterate_pos {X A} n (body : X -> prog S (X + A)) x Q s :
  (0 < n)%nat ->
  wp (body x) (fun r s' => match r with
                           | inl x' => wp (iterate (pred n) body x') Q s'
                           | inr a => Q a s'
                           end) s ->
  wp (iterate n body x) Q s.
Proof. destruct n; [lia|]. intros _. apply wp_iterate_S. Qed.

Lemma wp_iterate {X A} (I : nat -> X -> S -> Prop)
    (body : X -> prog S (X + A)) Q :
  (forall k x s, I k x s ->
     wp (body x) (fun r s' => match r with
                              | inl x' => exists j, (j < k)%nat /\ I j x' s'
                              | inr a => Q a s'
                              end) s) ->
  forall n k x s, (k < n)%nat -> I k x s -> wp (iterate n body x) Q s.
Proof.
  intros Hbody n. induction n as [|n IH]; intros k x s Hk HI; [lia|].
  apply wp_iterate_S. eapply wp_mono; [exact (Hbody k x s HI)|].
  intros [x'|a] s'; [|auto]. intros (j & Hj & HI'). apply (IH j); auto; lia.
Qed.
End monad.

Notation "x <- m ;; k" := (bind m (fun x => k))
  (at level 100, m at next level, k at level 200, right associativity)
  : prog_scope.
Notation "'let!' p ':=' m 'in' k" := (bind m (fun x => match x with p => k end))
  (at level 100, p pattern, m at next level, k at level 200,
   right associativity) : prog_scope.
Notation "m ;; k" := (bind m (fun _ => k))
  (at level 100, k at level 200, right associativity) : prog_scope.

#[global] Open Scope prog_scope.

(** Run the head of a sequence whose outcome is known. *)
Ltac pstep H := erewrite bind_Ret; [|eapply H].

(** Run a program on a part of the state. *)
Definition zoom {S T A} (get : S -> T) (put : T -> S -> S) (m : prog T A) : prog S A :=
  fun s => match m (get s) with
           | Ret a t => Ret a (put t s)
           | Undef => Undef
           | Spin => Spin
           end.

Lemma wp_zoom {S T A} (get : S -> T) put (m : prog T A) Q s :
  wp m (fun a t => Q a (put t s)) (get s) -> wp (zoom get put m) Q s.
Proof. unfold wp, zoom. by destruct (m (get s)). Qed.

(** One step of a weakest precondition, for the primitives. *)
Ltac wp_prim :=
  lazymatch goal with
  | |- wp (bind _ _) _ _ => apply wp_bind
  | |- wp (ret _) _ _ => apply wp_ret
  | |- wp (gets _) _ _ => apply wp_gets
  | |- wp (modify _) _ _ => apply wp_modify
  | |- wp (deref _) _ _ => eapply wp_deref; [solve [eauto]|]
  | |- wp (when ?b ?m) _ _ =>
      change (when b m) with (if b then m else ret tt); cbn [negb andb orb]
  end.

(** Use the specification [H] of the program at the head of the goal. *)
Ltac wp_use H := eapply wp_mono; [eapply H|].

(** Case analysis on the scrutinee of the first [match] of the goal. *)
Ltac dmatch :=
  match goal with
  | |- context [match ?x with _ => _ end] => destruct x eqn:?
  end.

(** ** Results

    What a program returns, whenever it returns. *)

(** Whatever [m] returns satisfies [P]. *)
Definition returns {S A} (P : A -> Prop) (m : prog S A) : Prop :=
  forall s, match m s with Ret a _ => P a | _ => True end.

Lemma returns_ret {S A} (P : A -> Prop) (a : A) : P a -> returns P (ret (S := S) a).
Proof. intros HP s. exact HP. Qed.

Lemma returns_undef {S A} (P : A -> Prop) : returns P (undef : prog S A).
Proof. intros s. exact I. Qed.

Lemma returns_bind {S A B} (Q : A -> Prop) (P : B -> Prop) (m : prog S A) (k : A -> prog S B) :
  returns Q m -> (forall a, Q a -> returns P (k a)) -> returns P (bind m k).
Proof.
  intros Hm Hk s. unfold bind. specialize (Hm s). destruct (m s) as [a s'| |]; try done.
  apply (Hk a Hm s').
Qed.

Lemma returns_any {S A B} (P : B -> Prop) (m : prog S A) (k : A -> prog S B) :
  (forall a, returns P (k a)) -> returns P (bind m k).
Proof. intros Hk. apply (returns_bind (fun _ => True)); [|auto]. intros s. by destruct (m s). Qed.

(** Follow a function to each of its results. *)
Ltac returns_step :=
  match goal with
  | |- returns _ (bind _ _) => apply returns_any; intros ?
  | |- returns _ (ret _) => apply returns_ret
  | |- returns _ undef => apply returns_undef
  | |- returns _ (let _ := _ in _) => intros
  | |- returns _ (if ?b then _ else _) => destruct b
  | |- returns _ (match ?x with _ => _ end) => destruct x
  end.

(** A property of the numbers below a bound, by trying them all. *)
Lemma check_below (P : Z -> bool) (n : nat) (v : Z) :
  forallb P (map Z.of_nat (seq 0 n)) = true -> 0 <= v < Z.of_nat n -> P v = true.
Proof.
  intros G Hv. rewrite forallb_forall in G. apply G, in_map_iff.
  exists (Z.to_nat v). split; [lia|]. apply in_seq. lia.
Qed.
