(* ===== verification/Memory.v ===== *)
(** * Memory

    Physical memory as a function from addresses to bytes, with the loads,
    stores, fills and copies the C code performs on it, and the
    read-over-write lemmas the component proofs share. *)

From S2P Require Import Prelude.

Definition mem : Type := Z -> Z.

(** [x] lies in the [n] bytes at [a]. *)
Definition in_range (a n x : Z) : bool := (a <=? x) && (x <? a + n).

(** Bytes [a, a+n). *)
Definition load (n : nat) (a : Z) (m : mem) : list Z :=
  map (fun i => m (a + Z.of_nat i)) (seq 0 n).

(** Store the byte string [bs] at [a]. *)
Definition store (a : Z) (bs : list Z) (m : mem) : mem :=
  fun x => if in_range a (Z.of_nat (length bs)) x
           then nth (Z.to_nat (x - a)) bs 0 else m x.

Definition ld8 (a : Z) (m : mem) : Z := m a.
Definition ld16 (a : Z) (m : mem) : Z := le_combine (load 2 a m).
Definition ld32 (a : Z) (m : mem) : Z := le_combine (load 4 a m).
Definition ld64 (a : Z) (m : mem) : Z := le_combine (load 8 a m).

Definition st8 (a v : Z) (m : mem) : mem := store a (le_split 1 v) m.
Definition st16 (a v : Z) (m : mem) : mem := store a (le_split 2 v) m.
Definition st32 (a v : Z) (m : mem) : mem := store a (le_split 4 v) m.
Definition st64 (a v : Z) (m : mem) : mem := store a (le_split 8 v) m.

(** [memset] and (non-overlapping) [memcpy]. *)
Definition fill (a v n : Z) (m : mem) : mem :=
  fun x => if in_range a n x then v else m x.
Definition copy (dst src n : Z) (m : mem) : mem :=
  fun x => if in_range dst n x then m (x - dst + src) else m x.

(** The two ranges do not meet. *)
Definition disjoint (a n b k : Z) : Prop := a + n <= b \/ b + k <= a.

(** Memories that agree outside the [n] bytes at [a]. *)
Definition mem_eq_except (a n : Z) (m m' : mem) : Prop :=
  forall x, in_range a n x = false -> m' x = m x.

(** All of memory holds bytes. *)
Definition byte_mem (m : mem) : Prop := forall x, is_byte (m x).

Lemma in_range_spec a n x : in_range a n x = true <-> a <= x < a + n.
Proof. unfold in_range. rewrite andb_true_iff. lia. Qed.

Lemma in_range_false a n x : in_range a n x = false <-> x < a \/ a + n <= x.
Proof.
  destruct (in_range a n x) eqn:E.
  - apply in_range_spec in E. split; [discriminate|lia].
  - split; [intros _|done].
    assert (~ a <= x < a + n); [|lia].
    intros H. apply in_range_spec in H. congruence.
Qed.

Lemma length_load n a m : length (load n a m) = n.
Proof. unfold load. rewrite length_map, length_seq. reflexivity. Qed.

Lemma load_ext n a m m' :
  (forall x, a <= x < a + Z.of_nat n -> m x = m' x) -> load n a m = load n a m'.
Proof.
  intros H. unfold load. apply map_ext_in. intros i Hi.
  apply in_seq in Hi. apply H. lia.
Qed.

Lemma nth_load n a m i d :
  (i < n)%nat -> nth i (load n a m) d = m (a + Z.of_nat i).
Proof.
  intros Hi. unfold load.
  rewrite (nth_indep _ d (m (a + Z.of_nat 0)))
    by (rewrite length_map, length_seq; exact Hi).
  rewrite (map_nth (fun i => m (a + Z.of_nat i)) (seq 0 n) 0%nat i).
  rewrite seq_nth by exact Hi. reflexivity.
Qed.

Lemma load_store_same a bs m : load (length bs) a (store a bs m) = bs.
Proof.
  apply (nth_ext _ _ 0 0); rewrite length_load; [reflexivity|].
  intros i Hi. rewrite nth_load by exact Hi. unfold store.
  replace (in_range a (Z.of_nat (length bs)) (a + Z.of_nat i)) with true
    by (symmetry; apply in_range_spec; lia).
  f_equal. lia.
Qed.

Lemma load_store_disjoint n b a bs m :
  disjoint a (Z.of_nat (length bs)) b (Z.of_nat n) ->
  load n b (store a bs m) = load n b m.
Proof.
  intros H. apply load_ext. intros x Hx. unfold store.
  replace (in_range a (Z.of_nat (length bs)) x) with false; [done|].
  symmetry. apply in_range_false. unfold disjoint in H. lia.
Qed.

Lemma load_eq_except n b a k m m' :
  mem_eq_except a k m m' -> disjoint a k b (Z.of_nat n) ->
  load n b m' = load n b m.
Proof.
  intros H Hd. apply load_ext. intros x Hx. apply H.
  apply in_range_false. unfold disjoint in Hd. lia.
Qed.

Lemma load_fill n b a v k m :
  disjoint a k b (Z.of_nat n) -> load n b (fill a v k m) = load n b m.
Proof.
  intros H. apply (load_eq_except n b a k); [|exact H].
  intros x Hx. unfold fill. rewrite Hx. reflexivity.
Qed.

Lemma nth_replicate {A} n (v d : A) i : (i < n)%nat -> nth i (replicate n v) d = v.
Proof. revert i. induction n; intros [|i] Hi; cbn; try lia; auto. apply IHn. lia. Qed.

Lemma load_fill_inside n b a v k m :
  a <= b -> b + Z.of_nat n <= a + k ->
  load n b (fill a v k m) = replicate n v.
Proof.
  intros H1 H2. apply (nth_ext _ _ 0 0); rewrite length_load, ?length_replicate; [done|].
  intros i Hi. rewrite nth_load by exact Hi. unfold fill.
  replace (in_range a k (b + Z.of_nat i)) with true
    by (symmetry; apply in_range_spec; lia).
  by rewrite nth_replicate.
Qed.

Lemma load_copy n dst src m :
  disjoint dst (Z.of_nat n) src (Z.of_nat n) ->
  load n dst (copy dst src (Z.of_nat n) m) = load n src m.
Proof.
  intros H. apply (nth_ext _ _ 0 0); rewrite !length_load; [reflexivity|].
  intros i Hi. rewrite !nth_load by exact Hi. unfold copy.
  replace (in_range dst (Z.of_nat n) (dst + Z.of_nat i)) with true
    by (symmetry; apply in_range_spec; lia).
  f_equal. lia.
Qed.

Lemma load_app n k a m :
  load (n + k) a m = load n a m ++ load k (a + Z.of_nat n) m.
Proof.
  apply (nth_ext _ _ 0 0); rewrite ?length_app, !length_load; [reflexivity|].
  intros i Hi. rewrite nth_load by exact Hi.
  destruct (Nat.lt_ge_cases i n).
  - rewrite app_nth1, nth_load by (rewrite ?length_load; lia). reflexivity.
  - rewrite app_nth2, length_load, nth_load by (rewrite ?length_load; lia).
    f_equal. lia.
Qed.

Lemma load_S k a m : load (S k) a m = m a :: load k (a + 1) m.
Proof.
  unfold load. cbn [seq map]. rewrite Z.add_0_r. f_equal.
  rewrite <- seq_shift, map_map. apply map_ext. intros i. f_equal. lia.
Qed.

Lemma load_snoc k a m : load (S k) a m = load k a m ++ [m (a + Z.of_nat k)].
Proof.
  replace (S k) with (k + 1)%nat by lia. rewrite load_app. unfold load at 2. cbn. by rewrite Z.add_0_r.
Qed.

Lemma load_1 a m : le_combine (load 1 a m) = m a.
Proof. change (load 1 a m) with [m (a + 0)]. rewrite Z.add_0_r. cbn [le_combine]. lia. Qed.

Lemma take_load k n a m : (k <= n)%nat -> take k (load n a m) = load k a m.
Proof.
  intros Hk. replace n with (k + (n - k))%nat by lia.
  rewrite load_app. rewrite <- (length_load k a m) at 1. apply take_app_length.
Qed.

Lemma drop_load k n a m :
  (k <= n)%nat -> drop k (load n a m) = load (n - k) (a + Z.of_nat k) m.
Proof.
  intros Hk. replace n with (k + (n - k))%nat at 1 by lia.
  rewrite load_app. rewrite <- (length_load k a m) at 1. apply drop_app_length.
Qed.

(** A store into the middle of a loaded range. *)
Lemma load_store_within n a k bs m :
  (k + length bs <= n)%nat ->
  load n a (store (a + Z.of_nat k) bs m) =
  take k (load n a m) ++ bs ++ drop (k + length bs) (load n a m).
Proof.
  intros Hk. rewrite take_load, drop_load by lia.
  replace n with (k + (length bs + (n - (k + length bs))))%nat at 1 by lia.
  rewrite !load_app, load_store_same.
  rewrite load_store_disjoint by (unfold disjoint; lia). do 2 f_equal.
  rewrite load_store_disjoint by (unfold disjoint; lia). f_equal. lia.
Qed.

Lemma load_store_part k o a bs m :
  (o + k <= length bs)%nat ->
  load k (a + Z.of_nat o) (store a bs m) = take k (drop o bs).
Proof.
  intros Hk. rewrite <- (load_store_same a bs m) at 2.
  rewrite drop_load, take_load by lia. reflexivity.
Qed.

Lemma mem_eq_except_refl a n m : mem_eq_except a n m m.
Proof. intros x _. reflexivity. Qed.

Lemma mem_eq_except_store a bs m b n :
  b <= a -> a + Z.of_nat (length bs) <= b + n ->
  mem_eq_except b n m (store a bs m).
Proof.
  intros H1 H2 x Hx. unfold store.
  replace (in_range a (Z.of_nat (length bs)) x) with false; [done|].
  symmetry. apply in_range_false. apply in_range_false in Hx. lia.
Qed.

(** The typed loads over the typed stores. *)

Lemma mem_eq_except_trans a n m1 m2 m3 :
  mem_eq_except a n m1 m2 -> mem_eq_except a n m2 m3 -> mem_eq_except a n m1 m3.
Proof. intros H1 H2 x Hx. rewrite (H2 x Hx). apply H1, Hx. Qed.

Lemma mem_eq_except_mono a n b k m m' :
  mem_eq_except a n m m' -> b <= a -> a + n <= b + k -> mem_eq_except b k m m'.
Proof.
  intros H H1 H2 x Hx. apply H. apply in_range_false in Hx. apply in_range_false. lia.
Qed.

Lemma ld32_st32_same a v m : ld32 a (st32 a v m) = u32 v.
Proof.
  unfold ld32, st32. rewrite <- (length_le_split 4 v) at 1.
  rewrite load_store_same. apply le_combine_split.
Qed.

Lemma ld64_st64_same a v m : ld64 a (st64 a v m) = u64 v.
Proof.
  unfold ld64, st64. rewrite <- (length_le_split 8 v) at 1.
  rewrite load_store_same. apply le_combine_split.
Qed.

Lemma ld16_st16_same a v m : ld16 a (st16 a v m) = u16 v.
Proof.
  unfold ld16, st16. rewrite <- (length_le_split 2 v) at 1.
  rewrite load_store_same. apply le_combine_split.
Qed.

Lemma load_bytes n a m : byte_mem m -> Forall is_byte (load n a m).
Proof.
  intros H. unfold load. rewrite Forall_map. apply Forall_forall.
  intros i _. apply H.
Qed.

Lemma byte_mem_store a bs m :
  Forall is_byte bs -> byte_mem m -> byte_mem (store a bs m).
Proof.
  intros Hb Hm x. unfold store. destruct (in_range _ _ x) eqn:E; [|apply Hm].
  apply in_range_spec in E.
  rewrite Forall_forall in Hb. apply Hb.
  apply nth_In. lia.
Qed.

Lemma byte_mem_fill a v n m : is_byte v -> byte_mem m -> byte_mem (fill a v n m).
Proof. intros Hv Hm x. unfold fill. destruct (in_range _ _ x); auto. Qed.

Lemma byte_mem_copy d s n m : byte_mem m -> byte_mem (copy d s n m).
Proof. intros Hm x. unfold copy. destruct (in_range _ _ x); apply Hm. Qed.
