(* ===== verification/Cmem.v ===== *)
(** * Cmem

    Copying, filling and comparing memory: the generic routines of
    core/string.c and the ones that replace them on x86
    (arch/x86/core/x86_string.c, arch/x86/include/bits/string.h), which are
    built from string instructions.  The regions do not wrap around the end of
    the address space. *)

From S2P Require Import Prelude.
From S2P Require Import Memory.

(** ** Generic routines *)

Fixpoint generic_memset (dest character : Z) (len : nat) (m : mem) : mem :=
  match len with
  | O => m
  | S len => generic_memset (dest + 1) character len (store dest [u8 character] m)
  end.

Fixpoint generic_memcpy (dest src : Z) (len : nat) (m : mem) : mem :=
  match len with
  | O => m
  | S len => generic_memcpy (dest + 1) (src + 1) len (store dest (load 1 src m) m)
  end.

(** [dest] and [src] are the ends of the regions. *)
Fixpoint generic_memcpy_down (dest src : Z) (len : nat) (m : mem) : mem :=
  match len with
  | O => m
  | S len => generic_memcpy_down (dest - 1) (src - 1) len (store (dest - 1) (load 1 (src - 1) m) m)
  end.

Definition generic_memcpy_reverse (dest src : Z) (len : nat) (m : mem) : mem :=
  generic_memcpy_down (dest + Z.of_nat len) (src + Z.of_nat len) len m.

Definition generic_memmove (dest src : Z) (len : nat) (m : mem) : mem :=
  if dest <? src then generic_memcpy dest src len m
  else generic_memcpy_reverse dest src len m.

Fixpoint memcmp (first second : Z) (len : nat) (m : mem) : Z :=
  match len with
  | O => 0
  | S len =>
      let diff := m first - m second in
      if negb (diff =? 0) then diff else memcmp (first + 1) (second + 1) len m
  end.

(** The address of the character, if it is found. *)
Fixpoint memchr (src character : Z) (len : nat) (m : mem) : option Z :=
  match len with
  | O => None
  | S len => if m src =? character then Some src else memchr (src + 1) character len m
  end.

Fixpoint memswap (first second : Z) (len : nat) (m : mem) : mem :=
  match len with
  | O => m
  | S len =>
      let temp := m first in
      let m := store first [m second] m in
      memswap (first + 1) (second + 1) len (store second [temp] m)
  end.

Fixpoint strnlen (src : Z) (max : nat) (m : mem) : nat :=
  match max with
  | O => O
  | S max => if m src =? 0 then O else S (strnlen (src + 1) max m)
  end.

Fixpoint strncpy (dest src : Z) (max : nat) (m : mem) : mem :=
  match max with
  | O => m
  | S max' =>
      let m' := store dest (load 1 src m) m in
      if m' dest =? 0 then generic_memset (dest + 1) 0 max' m'
      else strncpy (dest + 1) (src + 1) max' m'
  end.

(** ** String instructions *)

(** Memory with EDI and ESI. *)
Definition string_state : Type := mem * Z * Z.

(** MOVSB, MOVSW and MOVSL (1, 2 and 4 bytes) with the direction flag clear;
    MOVSB with the flag set. *)
Definition movs (k : nat) (s : string_state) : string_state :=
  let '(m, edi, esi) := s in
  (store edi (load k esi m) m, edi + Z.of_nat k, esi + Z.of_nat k).
Definition movsb_down (s : string_state) : string_state :=
  let '(m, edi, esi) := s in (store edi (load 1 esi m) m, edi - 1, esi - 1).

(** STOSB, STOSW and STOSL of a register with all its bytes equal. *)
Definition stos (k : nat) (al : Z) (s : mem * Z) : mem * Z :=
  let '(m, edi) := s in (store edi (replicate k al) m, edi + Z.of_nat k).

(** REP with ECX = n. *)
Fixpoint rep {A} (n : nat) (instruction : A -> A) (s : A) : A :=
  match n with
  | O => s
  | S n => rep n instruction (instruction s)
  end.

Definition state_mem (s : string_state) : mem := s.1.1.

Definition __memcpy (dest src len : Z) (m : mem) : mem :=
  let s := rep (Z.to_nat (Z.shiftr len 2)) (movs 4) (m, dest, src) in
  state_mem (rep (Z.to_nat (Z.land len 3)) (movs 1) s).

Definition __memcpy_reverse (dest src len : Z) (m : mem) : mem :=
  state_mem (rep (Z.to_nat len) movsb_down (m, dest + len - 1, src + len - 1)).

Definition __memmove (dest src len : Z) (m : mem) : mem :=
  if dest <=? src then __memcpy dest src len m else __memcpy_reverse dest src len m.

(** An instruction under a condition. *)
Definition cond {A} (b : bool) (instruction : A -> A) (s : A) : A :=
  if b then instruction s else s.

Definition __constant_memcpy (dest src len : Z) (m : mem) : mem :=
  (* Assignment of a field of [k] bytes at offset [o] *)
  let mov o k m := store (dest + o) (load k (src + o) m) m in
  if len =? 0 then m
  else if len =? 1 then mov 0 1%nat m
  else if len =? 2 then mov 0 2%nat m
  else if len =? 4 then mov 0 4%nat m
  else if len =? 3 then mov 2 1%nat (mov 0 2%nat m)
  else if len =? 5 then mov 4 1%nat (mov 0 4%nat m)
  else if len =? 6 then mov 4 2%nat (mov 0 4%nat m)
  else if len =? 8 then mov 4 4%nat (mov 0 4%nat m)
  else if 26 <=? len then __memcpy dest src len m
  else
    let s := (m, dest, src) in
    let s := cond (6 * 4 <=? len) (movs 4) s in
    let s := cond (5 * 4 <=? len) (movs 4) s in
    let s := cond (4 * 4 <=? len) (movs 4) s in
    let s := cond (3 * 4 <=? len) (movs 4) s in
    let s := cond (2 * 4 <=? len) (movs 4) s in
    let s := cond (1 * 4 <=? len) (movs 4) s in
    let s := cond (2 <=? len mod 4) (movs 2) s in
    let s := cond (1 <=? len mod 2) (movs 1) s in
    state_mem s.

(** [len_constant] and [offset_constant]: whether the compiler knows the
    length and the distance of the regions. *)
Definition memcpy (len_constant : bool) (dest src len : Z) (m : mem) : mem :=
  if len_constant then __constant_memcpy dest src len m else __memcpy dest src len m.

Definition memmove (len_constant offset_constant : bool) (dest src len : Z) (m : mem) : mem :=
  if offset_constant then
    if dest - src <=? 0 then memcpy len_constant dest src len m
    else __memcpy_reverse dest src len m
  else __memmove dest src len m.

Definition __memset (dest fill len : Z) (m : mem) : mem :=
  (rep (Z.to_nat len) (stos 1 (u8 fill)) (m, dest)).1.

Definition __constant_memset_zero (dest len : Z) (m : mem) : mem :=
  let clear o k m := store (dest + o) (replicate k 0) m in
  if len =? 0 then m
  else if len =? 1 then clear 0 1%nat m
  else if len =? 2 then clear 0 2%nat m
  else if len =? 4 then clear 0 4%nat m
  else if len =? 3 then clear 2 1%nat (clear 0 2%nat m)
  else if len =? 5 then clear 4 1%nat (clear 0 4%nat m)
  else if len =? 6 then clear 4 2%nat (clear 0 4%nat m)
  else if len =? 8 then clear 4 4%nat (clear 0 4%nat m)
  else if 26 <=? len then __memset dest 0 len m
  else
    let s := (m, dest) in
    let s := cond (6 * 4 <=? len) (stos 4 0) s in
    let s := cond (5 * 4 <=? len) (stos 4 0) s in
    let s := cond (4 * 4 <=? len) (stos 4 0) s in
    let s := cond (3 * 4 <=? len) (stos 4 0) s in
    let s := cond (2 * 4 <=? len) (stos 4 0) s in
    let s := cond (1 * 4 <=? len) (stos 4 0) s in
    let s := cond (2 <=? len mod 4) (stos 2 0) s in
    let s := cond (1 <=? len mod 2) (stos 1 0) s in
    s.1.

Definition memset (fill_zero len_constant : bool) (dest fill len : Z) (m : mem) : mem :=
  if fill_zero && (fill =? 0) && len_constant then __constant_memset_zero dest len m
  else __memset dest fill len m.
