(* ===== verification/CmemSpec.v ===== *)
(** * CmemSpec

    The memory routines against the reference operations [copy] and [fill]:
    whatever instructions they are built from, copying moves a whole region at
    once, also onto itself. *)

From S2P Require Import Prelude.
From S2P Require Import Memory.
From S2P Require Import Cmem.

(** ** Equality of memories *)

Definition mem_eq : relation mem := pointwise_relation Z eq.
Infix "≡m" := mem_eq (at level 70, no associativity).

#[export] Instance mem_eq_equiv : Equivalence mem_eq.
Proof. unfold mem_eq. apply _. Qed.

#[export] Instance store_proper a bs : Proper (mem_eq ==> mem_eq) (store a bs).
Proof. intros m m' E x. unfold store. destruct (in_range _ _ _); [done|apply E]. Qed.

#[export] Instance load_proper n a : Proper (mem_eq ==> eq) (load n a).
Proof. intros m m' E. apply load_ext. intros x _. apply E. Qed.

#[export] Instance copy_proper dst src n : Proper (mem_eq ==> mem_eq) (copy dst src n).
Proof. intros m m' E x. unfold copy. destruct (in_range _ _ _); apply E. Qed.

#[export] Instance fill_proper a v n : Proper (mem_eq ==> mem_eq) (fill a v n).
Proof. intros m m' E x. unfold fill. destruct (in_range _ _ _); [done|apply E]. Qed.

(** Evaluate a memory at an address. *)
Ltac mem_cases :=
  unfold store, copy, fill, in_range in *;
  repeat match goal with
  | |- context [?a <=? ?x] => destruct (Z.leb_spec a x); cbn [andb]; try lia
  | |- context [?x <? ?b] => destruct (Z.ltb_spec x b); cbn [andb]; try lia
  end.

Lemma copy_zero dst src m : copy dst src 0 m ≡m m.
Proof. intros x. by mem_cases. Qed.

Lemma fill_zero a v m : fill a v 0 m ≡m m.
Proof. intros x. by mem_cases. Qed.

(** A region that can be copied upwards. *)
Definition upwards (dst src len : Z) : Prop := dst <= src \/ src + len <= dst.

(** Copying [k] more bytes at the end, or at the start, of what was copied. *)
Lemma copy_more dst src n k m :
  0 <= n -> upwards dst src (n + Z.of_nat k) ->
  store (dst + n) (load k (src + n) (copy dst src n m)) (copy dst src n m)
    ≡m copy dst src (n + Z.of_nat k) m.
Proof.
  intros Hn Hu x. unfold upwards in Hu. unfold store. rewrite length_load.
  destruct (in_range (dst + n) (Z.of_nat k) x) eqn:E.
  - apply in_range_spec in E. rewrite nth_load by lia. rewrite Z2Nat.id by lia.
    mem_cases; f_equal; lia.
  - apply in_range_false in E. by mem_cases.
Qed.

Lemma copy_more_down dst src n len m :
  0 <= n < len -> src <= dst ->
  store (dst + len - 1 - n) (load 1 (src + len - 1 - n) (copy (dst + len - n) (src + len - n) n m))
    (copy (dst + len - n) (src + len - n) n m)
    ≡m copy (dst + len - (n + 1)) (src + len - (n + 1)) (n + 1) m.
Proof.
  intros Hn Hs x. unfold store. rewrite length_load. change (Z.of_nat 1) with 1.
  destruct (in_range (dst + len - 1 - n) 1 x) eqn:E.
  - apply in_range_spec in E. rewrite nth_load by lia. rewrite Z2Nat.id by lia.
    mem_cases; f_equal; lia.
  - apply in_range_false in E. mem_cases; f_equal; lia.
Qed.

Lemma fill_more a v n k m :
  0 <= n -> store (a + n) (replicate k v) (fill a v n m) ≡m fill a v (n + Z.of_nat k) m.
Proof.
  intros Hn x. unfold store. rewrite length_replicate.
  destruct (in_range (a + n) (Z.of_nat k) x) eqn:E.
  - apply in_range_spec in E. rewrite nth_replicate by lia. by mem_cases.
  - apply in_range_false in E. by mem_cases.
Qed.

Lemma rep_ind {A} (P : nat -> A -> Prop) (f : A -> A) n s :
  P O s -> (forall k s, (k < n)%nat -> P k s -> P (S k) (f s)) -> P n (rep n f s).
Proof.
  revert P s. induction n as [|n IH]; intros P s H0 HS; [done|]. cbn [rep].
  apply (IH (fun k => P (S k))); [apply HS; [lia|done]|]. intros k s' Hk. apply HS. lia.
Qed.

(** ** Copying *)

Section copying.
Context (dst src : Z) (m : mem).

(** [n] bytes have been copied upwards, or downwards from the end of [len]. *)
Definition copied (n : Z) (s : string_state) : Prop :=
  let '(m', edi, esi) := s in
  edi = dst + n /\ esi = src + n /\ m' ≡m copy dst src n m.
Definition copied_down (len n : Z) (s : string_state) : Prop :=
  let '(m', edi, esi) := s in
  edi = dst + len - 1 - n /\ esi = src + len - 1 - n /\
  m' ≡m copy (dst + len - n) (src + len - n) n m.

Lemma copied_start : copied 0 (m, dst, src).
Proof. cbn. split_and!; [lia..|]. by rewrite copy_zero. Qed.

Lemma copied_movs n k s :
  copied n s -> 0 <= n -> upwards dst src (n + Z.of_nat k) -> copied (n + Z.of_nat k) (movs k s).
Proof.
  destruct s as [[m' edi] esi]. intros (-> & -> & E) Hn Hu. cbn. split_and!; [lia..|].
  rewrite (store_proper _ _ _ _ E). rewrite E. by apply copy_more.
Qed.

Lemma copied_cond (b : bool) n k s :
  copied n s -> 0 <= n -> (b = true -> upwards dst src (n + Z.of_nat k)) ->
  copied (n + if b then Z.of_nat k else 0) (cond b (movs k) s).
Proof.
  intros Hs Hn Hu. destruct b; cbn [cond]; [by apply copied_movs; auto|]. by rewrite Z.add_0_r.
Qed.

Lemma copied_rep n k r s :
  copied n s -> 0 <= n -> upwards dst src (n + Z.of_nat (r * k)) ->
  copied (n + Z.of_nat (r * k)) (rep r (movs k) s).
Proof.
  intros Hs Hn Hu. apply (rep_ind (fun r s => copied (n + Z.of_nat (r * k)) s)).
  - by rewrite Z.add_0_r.
  - intros j s' Hj Hc. replace (n + Z.of_nat (S j * k)) with (n + Z.of_nat (j * k) + Z.of_nat k) by lia.
    apply copied_movs; [done|lia|]. unfold upwards in *. nia.
Qed.

Lemma memcpy_dwords len :
  0 <= len -> upwards dst src len -> __memcpy dst src len m ≡m copy dst src len m.
Proof.
  intros Hl Hu. unfold __memcpy. set (s := rep _ (movs 4) _).
  assert (Ed : Z.shiftr len 2 = len / 4) by (rewrite Z.shiftr_div_pow2 by lia; done).
  assert (Em : Z.land len 3 = len mod 4)
    by (change 3 with (2 ^ 2 - 1); rewrite land_ones_mod by lia; done).
  rewrite Em. assert (Hs : copied (4 * (len / 4)) s).
  { unfold s. rewrite Ed.
    replace (4 * (len / 4)) with (0 + Z.of_nat (Z.to_nat (len / 4) * 4)) by dlia.
    apply copied_rep; [apply copied_start|lia|]. unfold upwards in *. dlia. }
  pose proof (copied_rep _ 1 (Z.to_nat (len mod 4)) s Hs ltac:(dlia)) as Hr.
  destruct (rep (Z.to_nat (len mod 4)) (movs 1) s) as [[m' edi] esi]. cbn [state_mem fst].
  destruct Hr as (_ & _ & E); [unfold upwards in *; dlia|].
  replace (4 * (len / 4) + Z.of_nat (Z.to_nat (len mod 4) * 1)) with len in E by dlia. exact E.
Qed.

Lemma memcpy_down len : 0 <= len -> src <= dst -> __memcpy_reverse dst src len m ≡m copy dst src len m.
Proof.
  intros Hl Hs. unfold __memcpy_reverse.
  assert (Hc : copied_down len (Z.of_nat (Z.to_nat len))
    (rep (Z.to_nat len) movsb_down (m, dst + len - 1, src + len - 1))).
  { apply (rep_ind (fun k s => copied_down len (Z.of_nat k) s)).
    - cbn. split_and!; [lia..|]. by rewrite copy_zero.
    - intros k [[m' edi] esi] Hk (-> & -> & E). cbn. split_and!; [lia..|].
      rewrite (store_proper _ _ _ _ E), E, Nat2Z.inj_succ, <- Z.add_1_r.
      apply copy_more_down; [lia|done]. }
  destruct (rep (Z.to_nat len) movsb_down _) as [[m' edi] esi]. destruct Hc as (_ & _ & E).
  rewrite Z2Nat.id in E by lia. cbn [state_mem fst]. rewrite E.
  replace (dst + len - len) with dst by lia. by replace (src + len - len) with src by lia.
Qed.

Lemma field_copied n k m' :
  m' ≡m copy dst src n m -> 0 <= n -> upwards dst src (n + Z.of_nat k) ->
  store (dst + n) (load k (src + n) m') m' ≡m copy dst src (n + Z.of_nat k) m.
Proof. intros E Hn Hu. rewrite (store_proper _ _ _ _ E), E. by apply copy_more. Qed.

Lemma memcpy_unrolled len :
  0 <= len < 26 -> upwards dst src len ->
  copied len
    (cond (1 <=? len mod 2) (movs 1) (cond (2 <=? len mod 4) (movs 2)
    (cond (1 * 4 <=? len) (movs 4) (cond (2 * 4 <=? len) (movs 4) (cond (3 * 4 <=? len) (movs 4)
    (cond (4 * 4 <=? len) (movs 4) (cond (5 * 4 <=? len) (movs 4) (cond (6 * 4 <=? len) (movs 4)
      (m, dst, src))))))))).
Proof.
  intros Hl Hu.
  assert (Hstep : forall n k s, copied (n - Z.of_nat k) s -> Z.of_nat k <= n <= len -> copied n (movs k s)).
  { intros n k s Hs Hn. replace n with (n - Z.of_nat k + Z.of_nat k) by lia.
    apply copied_movs; [done|lia|]. unfold upwards in *. lia. }
  repeat match goal with
  | |- context [?a <=? ?b] => destruct (Z.leb_spec a b); try (exfalso; dlia)
  end; cbn [cond];
  repeat (apply Hstep; [|cbn; dlia]); match goal with |- copied ?n _ => replace n with 0 by dlia end;
  apply copied_start.
Qed.

Lemma constant_memcpy_copies len :
  0 <= len -> upwards dst src len -> __constant_memcpy dst src len m ≡m copy dst src len m.
Proof.
  intros Hl Hu. unfold __constant_memcpy.
  assert (Hstart : m ≡m copy dst src 0 m) by by rewrite copy_zero.
  repeat match goal with
  | |- (if len =? ?k then _ else _) ≡m _ => destruct (Z.eqb_spec len k) as [->|]
  end.
  1: exact Hstart.
  1-3: by apply field_copied.
  1-4: apply field_copied; [apply field_copied; [exact Hstart|lia|]|lia|]; unfold upwards in *; lia.
  destruct (Z.leb_spec 26 len); [by apply memcpy_dwords|].
  pose proof (memcpy_unrolled len ltac:(lia) Hu) as Hc. cbv zeta.
  destruct (cond _ _ _) as [[m' edi] esi]. by destruct Hc as (_ & _ & E).
Qed.

Lemma generic_memcpy_rep len m' d s :
  generic_memcpy d s len m' = state_mem (rep len (movs 1) (m', d, s)).
Proof. revert m' d s. induction len as [|len IH]; intros m' d s; [done|]. apply IH. Qed.

Lemma generic_memcpy_down_rep len m' d s :
  generic_memcpy_down d s len m' = state_mem (rep len movsb_down (m', d - 1, s - 1)).
Proof.
  revert m' d s. induction len as [|len IH]; intros m' d s; [done|]. apply IH.
Qed.

Lemma generic_memmove_copies len : generic_memmove dst src len m ≡m copy dst src (Z.of_nat len) m.
Proof.
  unfold generic_memmove, generic_memcpy_reverse. destruct (Z.ltb_spec dst src).
  - rewrite generic_memcpy_rep. pose proof (copied_rep 0 1 len _ copied_start ltac:(lia)) as Hc.
    destruct (rep len (movs 1) _) as [[m' edi] esi].
    destruct Hc as (_ & _ & E); [unfold upwards; lia|]. by rewrite Nat.mul_1_r in E.
  - rewrite generic_memcpy_down_rep. rewrite <- memcpy_down by lia. unfold __memcpy_reverse.
    by rewrite Nat2Z.id.
Qed.
End copying.

(** ** Filling *)

Section filling.
Context (dst v : Z) (m : mem).

Definition filled (n : Z) (s : mem * Z) : Prop := s.2 = dst + n /\ s.1 ≡m fill dst v n m.

Lemma filled_start : filled 0 (m, dst).
Proof. split; cbn; [lia|]. by rewrite fill_zero. Qed.

Lemma filled_stos n k s : filled n s -> 0 <= n -> filled (n + Z.of_nat k) (stos k v s).
Proof.
  destruct s as [m' edi]. intros [E1 E2] Hn. cbn in *. subst. split; cbn; [lia|].
  rewrite (store_proper _ _ _ _ E2). by apply fill_more.
Qed.

Lemma filled_rep r : filled (Z.of_nat r) (rep r (stos 1 v) (m, dst)).
Proof.
  apply (rep_ind (fun r s => filled (Z.of_nat r) s)); [apply filled_start|].
  intros k s _ Hs. rewrite Nat2Z.inj_succ, <- Z.add_1_r. apply (filled_stos _ 1); [done|lia].
Qed.

Lemma field_filled n k m' :
  m' ≡m fill dst v n m -> 0 <= n ->
  store (dst + n) (replicate k v) m' ≡m fill dst v (n + Z.of_nat k) m.
Proof. intros E Hn. rewrite (store_proper _ _ _ _ E). by apply fill_more. Qed.

Lemma memset_unrolled len :
  0 <= len < 26 ->
  filled len
    (cond (1 <=? len mod 2) (stos 1 v) (cond (2 <=? len mod 4) (stos 2 v)
    (cond (1 * 4 <=? len) (stos 4 v) (cond (2 * 4 <=? len) (stos 4 v) (cond (3 * 4 <=? len) (stos 4 v)
    (cond (4 * 4 <=? len) (stos 4 v) (cond (5 * 4 <=? len) (stos 4 v) (cond (6 * 4 <=? len) (stos 4 v)
      (m, dst))))))))).
Proof.
  intros Hl.
  assert (Hstep : forall n k s, filled (n - Z.of_nat k) s -> Z.of_nat k <= n -> filled n (stos k v s)).
  { intros n k s Hs Hn. replace n with (n - Z.of_nat k + Z.of_nat k) by lia.
    apply filled_stos; [done|lia]. }
  repeat match goal with
  | |- context [?a <=? ?b] => destruct (Z.leb_spec a b); try (exfalso; dlia)
  end; cbn [cond];
  repeat (apply Hstep; [|cbn; dlia]); match goal with |- filled ?n _ => replace n with 0 by dlia end;
  apply filled_start.
Qed.
End filling.

Lemma memset_fills dst c len m : 0 <= len -> __memset dst c len m ≡m fill dst (u8 c) len m.
Proof.
  intros Hl. unfold __memset. pose proof (filled_rep dst (u8 c) m (Z.to_nat len)) as [_ E].
  by rewrite Z2Nat.id in E by lia.
Qed.

Lemma generic_memset_fills dst c len m :
  generic_memset dst c len m ≡m fill dst (u8 c) (Z.of_nat len) m.
Proof.
  assert (E : forall len m' d, generic_memset d c len m' = (rep len (stos 1 (u8 c)) (m', d)).1).
  { clear. induction len as [|len IH]; intros m' d; [done|]. apply IH. }
  rewrite E. apply filled_rep.
Qed.

Lemma constant_memset_zero_fills dst len m :
  0 <= len -> __constant_memset_zero dst len m ≡m fill dst 0 len m.
Proof.
  intros Hl. unfold __constant_memset_zero.
  assert (Hstart : m ≡m fill dst 0 0 m) by by rewrite fill_zero.
  repeat match goal with
  | |- (if len =? ?k then _ else _) ≡m _ => destruct (Z.eqb_spec len k) as [->|]
  end.
  1: exact Hstart.
  1-3: by apply field_filled.
  1-4: apply field_filled; [by apply field_filled|lia].
  destruct (Z.leb_spec 26 len); [by apply memset_fills|].
  apply (memset_unrolled dst 0 m len). lia.
Qed.

Lemma memmove_copies dst src len m : 0 <= len -> __memmove dst src len m ≡m copy dst src len m.
Proof.
  intros Hl. unfold __memmove.
  destruct (Z.leb_spec dst src); [apply memcpy_dwords; [lia|by left]|apply memcpy_down; lia].
Qed.

(** C20. The memory routines of the x86 build, with their string instructions
    and their unrolled variants for lengths and distances that the compiler
    knows, against the reference: [memmove] copies a region as if through a
    buffer, however the regions overlap, and agrees with the portable version;
    [memcpy] does so if the regions are apart or the copy goes downwards;
    [memset] fills its region. *)
Theorem memory_routines_correct c c' dst src v len m :
  0 <= len ->
  memmove c c' dst src len m ≡m copy dst src len m /\
  generic_memmove dst src (Z.to_nat len) m ≡m copy dst src len m /\
  (upwards dst src len -> memcpy c dst src len m ≡m copy dst src len m) /\
  memset c c' dst v len m ≡m fill dst (u8 v) len m /\
  generic_memset dst v (Z.to_nat len) m ≡m fill dst (u8 v) len m.
Proof.
  intros Hl.
  assert (Hcpy : forall c, upwards dst src len -> memcpy c dst src len m ≡m copy dst src len m).
  { intros []; cbn [memcpy]; auto using constant_memcpy_copies, memcpy_dwords. }
  split_and!; auto.
  - unfold memmove. destruct c'; [|by apply memmove_copies].
    destruct (Z.leb_spec (dst - src) 0); [apply Hcpy; left; lia|apply memcpy_down; lia].
  - rewrite generic_memmove_copies. by rewrite Z2Nat.id by lia.
  - unfold memset. destruct (c && (v =? 0) && c') eqn:E; [|by apply memset_fills].
    apply andb_prop in E as [[_ ->%Z.eqb_eq]%andb_prop _]. by apply constant_memset_zero_fills.
  - rewrite generic_memset_fills. by rewrite Z2Nat.id by lia.
Qed.

(** ** Comparing, searching and exchanging *)

Lemma load_cons k a m : load (S k) a m = m a :: load k (a + 1) m.
Proof.
  change (S k) with (1 + k)%nat. rewrite load_app. change (load 1 a m) with [m (a + Z.of_nat 0)].
  by rewrite Z.add_0_r.
Qed.

(** The comparison is decided by the first bytes that differ. *)
Lemma memcmp_correct first second len m :
  (memcmp first second len m = 0 <-> load len first m = load len second m) /\
  (memcmp first second len m <> 0 -> exists k, (k < len)%nat /\
     load k first m = load k second m /\
     memcmp first second len m = m (first + Z.of_nat k) - m (second + Z.of_nat k)).
Proof.
  revert first second. induction len as [|len IH]; intros first second; cbn [memcmp].
  { split; [done|]. intros E. done. }
  rewrite !load_cons. destruct (IH (first + 1) (second + 1)) as [IH1 IH2].
  destruct (Z.eqb_spec (m first - m second) 0) as [E|E]; cbn [negb].
  - assert (m first = m second) as E' by lia. rewrite E'. split.
    + rewrite IH1. split; [by intros ->|]. by injection 1.
    + intros Hne. destruct (IH2 Hne) as (k & Hk & El & ->). exists (S k).
      rewrite !load_cons, E', El. split_and!; [lia|done|]. f_equal; f_equal; lia.
  - split.
    + split; [done|]. injection 1. lia.
    + intros _. exists O. split_and!; [lia|done|]. by rewrite !Z.add_0_r.
Qed.

Lemma memchr_correct src c len m :
  match memchr src c len m with
  | Some a => src <= a < src + Z.of_nat len /\ m a = c /\ forall x, src <= x < a -> m x <> c
  | None => forall x, src <= x < src + Z.of_nat len -> m x <> c
  end.
Proof.
  revert src. induction len as [|len IH]; intros src; cbn [memchr]; [lia|].
  destruct (Z.eqb_spec (m src) c) as [E|E]; [split_and!; lia || done|].
  specialize (IH (src + 1)). destruct (memchr (src + 1) c len m) as [a|].
  - destruct IH as (Ha & Hc & Hx). split_and!; [lia..|done|]. intros x Hx'.
    destruct (decide (x = src)) as [->|]; [done|]. apply Hx. lia.
  - intros x Hx'. destruct (decide (x = src)) as [->|]; [done|]. apply IH. lia.
Qed.

Lemma memswap_correct first second len m :
  disjoint first (Z.of_nat len) second (Z.of_nat len) ->
  memswap first second len m ≡m
    (fun x => if in_range first (Z.of_nat len) x then m (x - first + second)
              else if in_range second (Z.of_nat len) x then m (x - second + first) else m x).
Proof.
  revert first second m. induction len as [|len IH]; intros first second m Hd x; cbn [memswap].
  { by mem_cases. }
  rewrite IH by (unfold disjoint in *; lia). unfold disjoint in Hd.
  assert (Hs : forall a v m' y, store a [v] m' y = if y =? a then v else m' y).
  { intros a v m' y. unfold store. change (Z.of_nat (length [v])) with 1.
    destruct (Z.eqb_spec y a) as [->|].
    - replace (in_range a 1 a) with true by (symmetry; apply in_range_spec; lia).
      by replace (a - a) with 0 by lia.
    - by replace (in_range a 1 y) with false by (symmetry; apply in_range_false; lia). }
  rewrite !Hs. rewrite Nat2Z.inj_succ. unfold in_range.
  repeat match goal with
  | |- context [?a =? ?b] => destruct (Z.eqb_spec a b); try lia
  | |- context [?a <=? ?b] => destruct (Z.leb_spec a b); cbn [andb]; try lia
  | |- context [?a <? ?b] => destruct (Z.ltb_spec a b); cbn [andb]; try lia
  end; f_equal; lia.
Qed.

(** What [strncpy] writes: the string, padded with zeroes. *)
Fixpoint padded (max : nat) (s : list Z) : list Z :=
  match max, s with
  | O, _ => []
  | S max, c :: s => if c =? 0 then replicate (S max) 0 else c :: padded max s
  | S max, [] => replicate (S max) 0
  end.

Lemma strncpy_correct dst src max m :
  disjoint dst (Z.of_nat max) src (Z.of_nat max) ->
  load max dst (strncpy dst src max m) = padded max (load max src m) /\
  mem_eq_except dst (Z.of_nat max) m (strncpy dst src max m).
Proof.
  revert dst src m. induction max as [|max IH]; intros dst src m Hd; [by split|].
  cbn [strncpy]. set (m' := store dst (load 1 src m) m).
  assert (Hm : forall x, m' x = if x =? dst then m src else m x).
  { intros x. unfold m', store. rewrite length_load. change (Z.of_nat 1) with 1.
    destruct (Z.eqb_spec x dst) as [->|].
    - replace (in_range dst 1 dst) with true by (symmetry; apply in_range_spec; lia).
      rewrite nth_load by lia. f_equal. lia.
    - by replace (in_range dst 1 x) with false by (symmetry; apply in_range_false; lia). }
  unfold disjoint in Hd.
  assert (Hsrc : load max (src + 1) m' = load max (src + 1) m).
  { apply load_ext. intros x Hx. rewrite Hm. destruct (Z.eqb_spec x dst); [lia|done]. }
  rewrite (load_cons max src). cbn [padded]. rewrite (Hm dst), Z.eqb_refl.
  destruct (Z.eqb_spec (m src) 0) as [E|E].
  - assert (Hf : generic_memset (dst + 1) 0 max m' ≡m fill dst 0 (Z.of_nat (S max)) m).
    { intros x. transitivity (fill (dst + 1) 0 (Z.of_nat max) m' x).
      - apply generic_memset_fills.
      - unfold fill. rewrite Hm. destruct (Z.eqb_spec x dst) as [->|]; mem_cases; done || lia. }
    split.
    + rewrite (load_proper _ _ _ _ Hf), load_fill_inside by lia. done.
    + intros x Hx. rewrite (Hf x). unfold fill. by rewrite Hx.
  - destruct (IH (dst + 1) (src + 1) m') as [H1 H2]; [unfold disjoint; lia|]. split.
    + rewrite load_cons, H1, Hsrc. f_equal. rewrite H2 by (apply in_range_false; lia).
      by rewrite Hm, Z.eqb_refl.
    + intros x Hx%in_range_false. rewrite H2 by (apply in_range_false; lia). rewrite Hm.
      destruct (Z.eqb_spec x dst); [lia|done].
Qed.
