(* ===== verification/Chksum.v ===== *)
(** * Chksum

    The TCP/IP checksum: the portable version of net/tcpip.c and the one in
    assembly that replaces it on x86 (arch/x86/core/x86_tcpip.c, 32-bit
    build), which sums machine words with the carry flag.  They agree. *)

From S2P Require Import Prelude.
From S2P Require Import Memory.
From S2P Require Import Cmem.

(** ** The portable version *)

(** The loop, from byte number [i] on. *)
Fixpoint chksum_loop (i cksum : Z) (data : list Z) : Z :=
  match data with
  | [] => cksum
  | b :: data =>
      let value := if bool_of_Z (Z.land i 1)
                   then Z.lor (Z.shiftr b 8) (Z.shiftl (Z.land b 0xff) 8) else b in
      let cksum := cksum + value in
      let cksum := if 0xffff <? cksum then cksum - 0xffff else cksum in
      chksum_loop (i + 1) cksum data
  end.

Definition generic_tcpip_continue_chksum (partial : Z) (data : list Z) : Z :=
  let cksum := Z.land (not32 partial) 0xffff in
  u16 (not32 (chksum_loop 0 cksum data)).

(** ** The x86 version *)

(** The registers: the sum, the carry flag, and the data that ESI points to. *)
Definition chksum_state : Type := Z * bool * list Z.

(** ADC of [w] bits. *)
Definition adc (w dst src : Z) (cf : bool) : Z * bool :=
  let v := dst + src + Z_of_bool cf in (v mod 2 ^ w, 2 ^ w <=? v).

(** ADC to the low [w] bits of a register. *)
Definition adc_low (w sum src : Z) (cf : bool) : Z * bool :=
  let '(low, cf) := adc w (sum mod 2 ^ w) src cf in (sum - sum mod 2 ^ w + low, cf).

(** LODSW, ADCW and LODSL, ADCL. *)
Definition sum_word (s : chksum_state) : chksum_state :=
  let '(sum, cf, data) := s in
  let '(sum, cf) := adc_low 16 sum (le_combine (take 2 data)) cf in
  (sum, cf, drop 2 data).
Definition sum_dword (s : chksum_state) : chksum_state :=
  let '(sum, cf, data) := s in
  let '(sum, cf) := adc 32 sum (le_combine (take 4 data)) cf in
  (sum, cf, drop 4 data).

(** ADCB of the last byte, and of the carry to the second byte. *)
Definition sum_byte (s : chksum_state) : chksum_state :=
  let '(sum, cf, data) := s in
  let '(sum, cf) := adc_low 8 sum (nth 0 data 0) cf in
  let '(high, cf) := adc 8 (sum / 2 ^ 8 mod 2 ^ 8) 0 cf in
  (sum - (sum / 2 ^ 8 mod 2 ^ 8) * 2 ^ 8 + high * 2 ^ 8, cf, drop 1 data).

(** Fold the sum down to 16 bits, and add the carry. *)
Definition fold_sum (s : chksum_state) : Z :=
  let '(sum, cf, _) := s in
  let '(low, cf) := adc 16 (sum mod 2 ^ 16) (sum / 2 ^ 16) cf in
  let '(low, cf) := adc 16 low 0 cf in
  (adc 16 low 0 cf).1.

(** [address]: that of the data, which decides on its alignment. *)
Definition tcpip_continue_chksum (partial address : Z) (data : list Z) : Z :=
  let sum := Z.land (not32 partial) 0xffff in
  let len := Z.of_nat (length data) in
  let initial_word_count :=
    if 4 <=? len then Z.shiftr (Z.land (u32 (- address)) 3) 1 else 0 in
  let len := len - initial_word_count * 2 in
  let loop_count := len / (4 * 16) in
  let loop_partial_count := (len mod (4 * 16)) / 4 in
  let final_word_count := (len mod 4) / 2 in
  let final_byte := Z.land len 1 in
  let s := (sum, false, data) in
  let s := rep (Z.to_nat initial_word_count) sum_word s in
  (* The unrolled loop is entered so that the first pass is partial *)
  let s := rep (Z.to_nat loop_partial_count) sum_dword s in
  let s := rep (Z.to_nat loop_count) (rep 16 sum_dword) s in
  let s := rep (Z.to_nat final_word_count) sum_word s in
  let s := cond (bool_of_Z final_byte) sum_byte s in
  Z.land (not32 (fold_sum s)) 0xffff.

Definition TCPIP_EMPTY_CSUM : Z := 0x0000.

Definition tcpip_chksum (address : Z) (data : list Z) : Z :=
  tcpip_continue_chksum TCPIP_EMPTY_CSUM address data.
