(* ===== verification/ChksumSpec.v ===== *)
(** * ChksumSpec

    Both versions of the TCP/IP checksum compute the one's complement of the
    one's complement sum of the 16-bit words of the data. *)

From S2P Require Import Prelude.
From S2P Require Import Memory.
From S2P Require Import Cmem.
From S2P Require Import CmemSpec.
From S2P Require Import Chksum.

(** The sum of the little-endian words, the last one padded with a zero. *)
Fixpoint word_sum (data : list Z) : Z :=
  match data with
  | [] => 0
  | [b] => b
  | b0 :: b1 :: data => b0 + 256 * b1 + word_sum data
  end.

(** [v] represents the sum [t]: it is congruent to it modulo 0xffff, and zero
    only if the sum is. *)
Definition represents (v t : Z) : Prop :=
  0 <= v /\ 0 <= t /\ v mod 65535 = t mod 65535 /\ (v = 0 <-> t = 0).

Lemma represents_refl t : 0 <= t -> represents t t.
Proof. unfold represents. lia. Qed.

Lemma represents_unique v v' t :
  represents v t -> represents v' t -> v <= 65535 -> v' <= 65535 -> v = v'.
Proof. unfold represents. intros. dlia. Qed.

(** One step of a sum in which a carry of weight [k] multiples of 0xffff
    comes back in. *)
Lemma represents_step v t v' t' x y c k :
  represents v t -> 0 <= x -> 0 <= y -> x mod 65535 = y mod 65535 -> (x = 0 <-> y = 0) ->
  v' = v + x - 65535 * k * c -> 0 <= c <= v' -> 0 <= k -> t' = t + y ->
  (c = 0 \/ 0 < c) -> represents v' t'.
Proof.
  unfold represents. intros (Hv & Ht & Hm & Hz) Hx Hy Hxy Hxz -> Hc Hk -> Hcc.
  split; [lia|]. split; [lia|]. split.
  - replace (v + x - 65535 * k * c) with (v + x + (- (k * c)) * 65535) by lia.
    rewrite Z.mod_add by lia. rewrite Z.add_mod, Hm, Hxy, <- Z.add_mod by lia. done.
  - destruct Hcc as [->|]; lia.
Qed.

(** ** The x86 version *)

Lemma adc_spec w dst src cf :
  0 <= w -> 0 <= dst < 2 ^ w -> 0 <= src < 2 ^ w ->
  let '(v, cf') := adc w dst src cf in
  v = dst + src + Z_of_bool cf - 2 ^ w * Z_of_bool cf' /\ 0 <= v < 2 ^ w.
Proof.
  intros Hw Hd Hs. unfold adc. set (p := 2 ^ w) in *.
  assert (0 <= Z_of_bool cf <= 1) by (destruct cf; cbn; lia).
  destruct (Z.leb_spec p (dst + src + Z_of_bool cf)); cbn [Z_of_bool].
  - rewrite <- (Z.mod_unique _ p 1 (dst + src + Z_of_bool cf - p)) by lia. lia.
  - rewrite Z.mod_small by lia. lia.
Qed.

Lemma adc_low_spec w sum src cf :
  0 <= w <= 32 -> 0 <= sum < 2 ^ 32 -> 0 <= src < 2 ^ w ->
  let '(v, cf') := adc_low w sum src cf in
  v = sum + src + Z_of_bool cf - 2 ^ w * Z_of_bool cf' /\ 0 <= v < 2 ^ 32.
Proof.
  intros Hw Hs Hsrc. unfold adc_low.
  assert (Hp : 0 < 2 ^ w) by (apply Z.pow_pos_nonneg; lia).
  pose proof (Z.mod_pos_bound sum (2 ^ w) Hp) as Hm.
  pose proof (adc_spec w (sum mod 2 ^ w) src cf ltac:(lia) Hm Hsrc) as Ha.
  destruct (adc w (sum mod 2 ^ w) src cf) as [v cf']. destruct Ha as [-> Hv].
  assert (E : 2 ^ 32 = 2 ^ w * 2 ^ (32 - w)) by (rewrite <- Z.pow_add_r by lia; f_equal; lia).
  assert (Hq : sum = 2 ^ w * (sum / 2 ^ w) + sum mod 2 ^ w) by (apply Z.div_mod; lia).
  assert (sum / 2 ^ w < 2 ^ (32 - w)) by (apply Z.div_lt_upper_bound; lia).
  assert (0 <= sum / 2 ^ w) by (apply Z.div_pos; lia). nia.
Qed.

(** The state of the x86 version when [n] bytes are left of data whose sum,
    with the initial value, is [total]. *)
Definition summing (total n : Z) (s : chksum_state) : Prop :=
  let '(sum, cf, rest) := s in
  0 <= sum < 2 ^ 32 /\ Forall is_byte rest /\ Z.of_nat (length rest) = n /\
  exists t, represents (sum + Z_of_bool cf) t /\ t + word_sum rest = total.

Lemma Z_of_bool_range b : Z_of_bool b = 0 \/ Z_of_bool b = 1.
Proof. destruct b; auto. Qed.

Lemma summing_word total n s : summing total n s -> 2 <= n -> summing total (n - 2) (sum_word s).
Proof.
  destruct s as [[sum cf] [|b0 [|b1 rest]]]; intros (Hs & Hb & Hl & t & Hr & Ht) Hn;
    cbn [length] in Hl; [lia..|].
  inversion Hb as [|? ? H0 Hb']; subst. inversion Hb' as [|? ? H1 Hb'']; subst. unfold is_byte in *.
  cbn [sum_word]. change (take 2 (b0 :: b1 :: rest)) with [b0; b1].
  assert (E : le_combine [b0; b1] = b0 + 256 * b1) by (cbn; lia).
  pose proof (adc_low_spec 16 sum (le_combine [b0; b1]) cf ltac:(lia) Hs ltac:(lia)) as Ha.
  destruct (adc_low 16 sum (le_combine [b0; b1]) cf) as [v cf']. destruct Ha as [Hv Hv'].
  cbn [skipn]. rewrite drop_0. split; [done|]. split; [done|]. split; [lia|].
  exists (t + (b0 + 256 * b1)). split; [|cbn [word_sum] in *; lia].
  pose proof (Z_of_bool_range cf'). change (2 ^ 16) with 65536 in *.
  eapply (represents_step _ t _ _ (b0 + 256 * b1) (b0 + 256 * b1) (Z_of_bool cf') 1); eauto; lia.
Qed.

Lemma summing_dword total n s : summing total n s -> 4 <= n -> summing total (n - 4) (sum_dword s).
Proof.
  destruct s as [[sum cf] [|b0 [|b1 [|b2 [|b3 rest]]]]]; intros (Hs & Hb & Hl & t & Hr & Ht) Hn;
    cbn [length] in Hl; [lia..|].
  apply (Forall_app _ [b0; b1; b2; b3]) in Hb as [Hb Hb'].
  assert (Hbs : is_byte b0 /\ is_byte b1 /\ is_byte b2 /\ is_byte b3)
    by (repeat (apply Forall_cons_1 in Hb as [? Hb]); auto).
  unfold is_byte in Hbs. cbn [sum_dword]. change (take 4 _) with [b0; b1; b2; b3].
  assert (E : le_combine [b0; b1; b2; b3] = b0 + 256 * b1 + 65536 * (b2 + 256 * b3)) by (cbn; lia).
  pose proof (adc_spec 32 sum (le_combine [b0; b1; b2; b3]) cf ltac:(lia) Hs ltac:(lia)) as Ha.
  destruct (adc 32 sum _ cf) as [v cf']. destruct Ha as [Hv Hv'].
  cbn [skipn]. rewrite drop_0. split; [done|]. split; [done|]. split; [lia|].
  exists (t + (b0 + 256 * b1 + (b2 + 256 * b3))). split; [|cbn [word_sum] in *; lia].
  pose proof (Z_of_bool_range cf'). change (2 ^ 32) with (65535 * 65537 + 1) in *.
  eapply (represents_step _ t _ _ (le_combine [b0; b1; b2; b3])
    (b0 + 256 * b1 + (b2 + 256 * b3)) (Z_of_bool cf') 65537); eauto; try lia.
  rewrite E. dlia.
Qed.

Lemma summing_byte total s : summing total 1 s -> summing total 0 (sum_byte s).
Proof.
  destruct s as [[sum cf] [|b0 [|b1 rest]]]; intros (Hs & Hb & Hl & t & Hr & Ht);
    cbn [length] in Hl; [lia| |lia].
  apply Forall_cons_1 in Hb as [Hb _]. unfold is_byte in Hb. cbn [sum_byte nth].
  pose proof (adc_low_spec 8 sum b0 cf ltac:(lia) Hs Hb) as Ha.
  destruct (adc_low 8 sum b0 cf) as [v1 c1]. destruct Ha as [Hv1 Hr1].
  pose proof (adc_spec 8 (v1 / 2 ^ 8 mod 2 ^ 8) 0 c1 ltac:(lia)
    ltac:(apply Z.mod_pos_bound; lia) ltac:(lia)) as Ha.
  destruct (adc 8 _ 0 c1) as [high c2]. destruct Ha as [Hv2 Hr2].
  pose proof (Z_of_bool_range c1). pose proof (Z_of_bool_range c2).
  change (2 ^ 8) with 256 in *. change (2 ^ 32) with 4294967296 in *.
  cbn [skipn]. split; [clear - Hr1 Hr2; dlia|]. split; [done|]. split; [done|].
  exists (t + b0). split; [|cbn [word_sum] in *; lia].
  eapply (represents_step _ t _ _ b0 b0 (Z_of_bool c2) 1); eauto; try lia.
  unfold represents in Hr. destruct Hr as [Hr _]. clear - Hr2 Hr1 H H0 Hr Hv1 Hv2. dlia.
Qed.

Lemma fold_sum_spec total s :
  summing total 0 s -> represents (fold_sum s) total /\ fold_sum s <= 65535.
Proof.
  destruct s as [[sum cf] [|b rest]]; intros (Hs & _ & Hl & t & Hr & Ht);
    cbn [length] in Hl; [|lia].
  cbn [word_sum] in Ht. replace total with t by lia. cbn [fold_sum].
  pose proof (adc_spec 16 (sum mod 2 ^ 16) (sum / 2 ^ 16) cf ltac:(lia)
    ltac:(apply Z.mod_pos_bound; lia) ltac:(clear - Hs; dlia)) as Ha.
  destruct (adc 16 _ _ cf) as [v1 c1]. destruct Ha as [Hv1 Hr1].
  pose proof (adc_spec 16 v1 0 c1 ltac:(lia) Hr1 ltac:(lia)) as Ha.
  destruct (adc 16 v1 0 c1) as [v2 c2]. destruct Ha as [Hv2 Hr2].
  pose proof (adc_spec 16 v2 0 c2 ltac:(lia) Hr2 ltac:(lia)) as Ha.
  destruct (adc 16 v2 0 c2) as [v3 c3]. destruct Ha as [Hv3 Hr3].
  pose proof (Z_of_bool_range cf). pose proof (Z_of_bool_range c1).
  pose proof (Z_of_bool_range c2). pose proof (Z_of_bool_range c3).
  unfold represents in *. cbn [fst]. change (2 ^ 16) with 65536 in *. change (2 ^ 32) with 4294967296 in *.
  destruct Hr as (_ & Ht0 & Hmod & Hz).
  assert (Hc3 : Z_of_bool c3 = 0) by dlia.
  split; [|lia]. split; [lia|]. split; [lia|]. split; [|clear Hmod; dlia].
  rewrite <- Hmod. clear Hmod Hz. dlia.
Qed.

Lemma summing_rep total f k c n s :
  0 <= k -> (forall n s, summing total n s -> k <= n -> summing total (n - k) (f s)) ->
  summing total n s -> k * Z.of_nat c <= n -> summing total (n - k * Z.of_nat c) (rep c f s).
Proof.
  intros Hk Hf. revert n s. induction c as [|c IH]; intros n s Hs Hc; cbn [rep].
  - by replace (n - k * Z.of_nat 0) with n by lia.
  - replace (n - k * Z.of_nat (S c)) with (n - k - k * Z.of_nat c) by lia.
    apply IH; [apply Hf; [done|nia]|nia].
Qed.

Lemma summing_block total n s :
  summing total n s -> 64 <= n -> summing total (n - 64) (rep 16 sum_dword s).
Proof.
  intros Hs Hn. apply (summing_rep total sum_dword 4 16 n s); auto using summing_dword with lia.
Qed.

Lemma initial_word_count_bound x n :
  0 <= (if 4 <=? n then Z.shiftr (Z.land x 3) 1 else 0) <= 1 /\
  2 * (if 4 <=? n then Z.shiftr (Z.land x 3) 1 else 0) <= Z.max n 0.
Proof.
  change 3 with (Z.ones 2). rewrite Z.land_ones, Z.shiftr_div_pow2 by lia.
  destruct (Z.leb_spec 4 n); dlia.
Qed.

(** Whatever the alignment, every byte is summed exactly once. *)
Lemma tcpip_continue_chksum_sum partial address data :
  Forall is_byte data ->
  exists v, tcpip_continue_chksum partial address data = Z.land (not32 v) 0xffff /\
    represents v (Z.land (not32 partial) 0xffff + word_sum data) /\ v <= 65535.
Proof.
  intros Hb. unfold tcpip_continue_chksum. set (sum := Z.land (not32 partial) 0xffff).
  set (total := sum + word_sum data). set (len := Z.of_nat (length data)).
  pose proof (initial_word_count_bound (u32 (- address)) len) as [Hi Hi2].
  set (ini := if 4 <=? len then _ else 0) in *.
  eexists. split; [reflexivity|]. apply fold_sum_spec.
  assert (H0 : summing total len (sum, false, data)).
  { assert (0 <= sum < 2 ^ 16) by (unfold sum; change 0xffff with (Z.ones 16);
      rewrite Z.land_ones by lia; apply Z.mod_pos_bound; lia).
    split; [lia|]. split; [done|]. split; [done|]. exists sum.
    split; [|done]. cbn [Z_of_bool]. rewrite Z.add_0_r. apply represents_refl. lia. }
  eapply (summing_rep _ sum_word 2 (Z.to_nat ini)) in H0; [|lia|apply summing_word|lia].
  rewrite Z2Nat.id in H0 by lia. replace (len - 2 * ini) with (len - ini * 2) in H0 by lia.
  assert (Hn : 0 <= len - ini * 2) by lia. set (n := len - ini * 2) in *. clearbody n.
  change (4 * 16) with 64.
  eapply (summing_rep _ sum_dword 4 (Z.to_nat (n mod 64 / 4))) in H0;
    [|lia|apply summing_dword|dlia].
  eapply (summing_rep _ (rep 16 sum_dword) 64 (Z.to_nat (n / 64))) in H0;
    [|lia|apply summing_block|dlia].
  eapply (summing_rep _ sum_word 2 (Z.to_nat (n mod 4 / 2))) in H0;
    [|lia|apply summing_word|dlia].
  match type of H0 with summing _ ?r _ => assert (Hr : r = n mod 2) by dlia; rewrite Hr in H0 end.
  change 1 with (Z.ones 1). rewrite Z.land_ones by lia. change (2 ^ 1) with 2.
  destruct (Z.eq_dec (n mod 2) 0) as [E|E]; [by rewrite E in *|].
  assert (E' : n mod 2 = 1) by dlia. rewrite E' in *. by apply summing_byte.
Qed.

(** ** The portable version *)

Lemma chksum_value_odd b : is_byte b ->
  Z.lor (Z.shiftr b 8) (Z.shiftl (Z.land b 0xff) 8) = 256 * b.
Proof.
  unfold is_byte. intros Hb. change 0xff with (Z.ones 8).
  rewrite Z.land_ones, Z.mod_small, Z.shiftl_mul_pow2, Z.shiftr_div_pow2, Z.div_small by lia.
  change (Z.lor 0 (b * 256) = 256 * b). rewrite Z.lor_0_l. lia.
Qed.

Lemma chksum_wrap_spec cksum value t :
  represents cksum t -> cksum <= 65535 -> 0 <= value <= 65535 ->
  let cksum := if 0xffff <? cksum + value then cksum + value - 0xffff else cksum + value in
  represents cksum (t + value) /\ cksum <= 65535.
Proof. unfold represents. intros Hr Hc Hv. destruct (Z.ltb_spec 0xffff (cksum + value)); dlia. Qed.

Lemma bool_of_Z_land_1 i : bool_of_Z (Z.land i 1) = negb (Z.even i).
Proof.
  change 1 with (Z.ones 1). rewrite Z.land_ones by lia. change (2 ^ 1) with 2.
  rewrite Zmod_even. by destruct (Z.even i).
Qed.

Lemma chksum_loop_spec data : forall i cksum t,
  Forall is_byte data -> Z.even i = true -> represents cksum t -> cksum <= 65535 ->
  represents (chksum_loop i cksum data) (t + word_sum data) /\
  chksum_loop i cksum data <= 65535.
Proof.
  induction data as [data IH] using (induction_ltof1 _ (@length Z)). unfold ltof in IH.
  intros i cksum t Hb Hi Hr Hc.
  destruct data as [|b0 data]; [cbn [chksum_loop word_sum]; by rewrite Z.add_0_r|].
  apply Forall_cons_1 in Hb as [H0 Hb]. cbn [chksum_loop].
  rewrite bool_of_Z_land_1, Hi. cbn [negb].
  pose proof (chksum_wrap_spec cksum b0 t Hr Hc ltac:(unfold is_byte in H0; lia)) as Hs.
  cbv zeta in Hs. set (c0 := if 0xffff <? cksum + b0 then _ else _) in *. destruct Hs as [Hr0 Hc0].
  destruct data as [|b1 data]; [done|].
  apply Forall_cons_1 in Hb as [H1 Hb]. cbn [chksum_loop word_sum].
  rewrite bool_of_Z_land_1, (Z.add_1_r i), Z.even_succ, <- Z.negb_even, Hi. cbn [negb].
  rewrite chksum_value_odd by done.
  pose proof (chksum_wrap_spec c0 (256 * b1) (t + b0) Hr0 Hc0 ltac:(unfold is_byte in H1; lia)) as Hs.
  cbv zeta in Hs. set (c1 := if 0xffff <? c0 + 256 * b1 then _ else _) in *. destruct Hs as [Hr1 Hc1].
  replace (t + (b0 + 256 * b1 + word_sum data)) with (t + b0 + 256 * b1 + word_sum data) by lia.
  apply IH; try done; [cbn [length]; lia|].
  by rewrite Z.add_1_r, Z.even_succ, Z.odd_succ.
Qed.

Lemma u16_not32 v : 0 <= v <= 65535 -> u16 (not32 v) = 65535 - v.
Proof.
  intros Hv. unfold u16, not32, u32, Z.lnot, Z.pred.
  change (2 ^ 32) with 4294967296. change (2 ^ 16) with 65536. dlia.
Qed.

Lemma land_not32_ffff v : 0 <= v <= 65535 -> Z.land (not32 v) 0xffff = 65535 - v.
Proof.
  intros Hv. change 0xffff with (Z.ones 16). rewrite Z.land_ones by lia. by apply u16_not32.
Qed.

(** What the checksum of a partial checksum and data is: the complement of
    the only value up to 0xffff that represents their sum. *)
Lemma tcpip_continue_chksum_value partial address data :
  Forall is_byte data -> 0 <= partial <= 65535 ->
  let c := tcpip_continue_chksum partial address data in
  represents (65535 - c) (65535 - partial + word_sum data) /\ 0 <= c <= 65535.
Proof.
  intros Hb Hp. destruct (tcpip_continue_chksum_sum partial address data Hb) as (v & Ev & Hr & Hv).
  rewrite land_not32_ffff in Hr by lia. cbv zeta. rewrite Ev.
  assert (0 <= v) by apply Hr. rewrite land_not32_ffff by lia.
  split; [by replace (65535 - (65535 - v)) with v by lia|lia].
Qed.

Lemma word_sum_app d1 d2 :
  Z.even (Z.of_nat (length d1)) = true -> word_sum (d1 ++ d2) = word_sum d1 + word_sum d2.
Proof.
  induction d1 as [d1 IH] using (induction_ltof1 _ (@length Z)). unfold ltof in IH.
  intros He. destruct d1 as [|b0 [|b1 d1]]; [done|discriminate He|].
  cbn [app word_sum length] in *. rewrite IH; [lia|lia|].
  by rewrite !Nat2Z.inj_succ, Z.even_succ, Z.odd_succ in He.
Qed.

Lemma word_sum_nonneg data : Forall is_byte data -> 0 <= word_sum data.
Proof.
  induction data as [data IH] using (induction_ltof1 _ (@length Z)). unfold ltof in IH.
  intros Hb. destruct data as [|b0 [|b1 data]]; [done|..]; cbn [word_sum];
    apply Forall_cons_1 in Hb as [H0 Hb]; unfold is_byte in H0; [lia|].
  apply Forall_cons_1 in Hb as [H1 Hb]. unfold is_byte in H1.
  specialize (IH data ltac:(cbn; lia) Hb). lia.
Qed.

(** C21. The checksum in assembly, at any address and for data of any
    length, is that of the portable version; it can be continued over data in
    pieces, as long as all but the last have an even length; and a packet
    whose checksum field (at an even offset) holds its checksum has the
    checksum zero, which is how a receiver checks it. *)
Theorem tcpip_chksum_correct (partial address : Z) (data : list Z) :
  Forall is_byte data -> 0 <= partial <= 0xffff ->
  tcpip_continue_chksum partial address data = generic_tcpip_continue_chksum partial data /\
  (forall address' more, Forall is_byte more -> Z.even (Z.of_nat (length data)) = true ->
    tcpip_continue_chksum (tcpip_continue_chksum partial address data) address' more =
    tcpip_continue_chksum partial address (data ++ more)) /\
  (forall address' before after, data = before ++ [0; 0] ++ after ->
    Z.even (Z.of_nat (length before)) = true ->
    tcpip_chksum address' (before ++ le_split 2 (tcpip_chksum address data) ++ after) = 0).
Proof.
  intros Hb Hp. split; [|split].
  - destruct (tcpip_continue_chksum_sum partial address data Hb) as (v & -> & Hr & Hv).
    assert (0 <= v) by apply Hr. rewrite land_not32_ffff by lia.
    unfold generic_tcpip_continue_chksum. rewrite (land_not32_ffff partial) in * by lia.
    destruct (chksum_loop_spec data 0 (65535 - partial) (65535 - partial)) as [Hg Hg'];
      [done..|apply represents_refl; lia|lia|].
    rewrite u16_not32 by (split; [apply Hg|done]). f_equal. by eapply represents_unique.
  - intros address' more Hm He.
    destruct (tcpip_continue_chksum_value partial address data Hb Hp) as [H1 H1'].
    set (c1 := tcpip_continue_chksum partial address data) in *.
    destruct (tcpip_continue_chksum_value c1 address' more Hm H1') as [H2 H2'].
    destruct (tcpip_continue_chksum_value partial address (data ++ more)) as [H3 H3'];
      [by apply Forall_app|done|].
    rewrite word_sum_app in H3 by done.
    pose proof (word_sum_nonneg data Hb). pose proof (word_sum_nonneg more Hm).
    unfold represents in *. clear He. dlia.
  - intros address' before after -> He. unfold tcpip_chksum, TCPIP_EMPTY_CSUM.
    apply Forall_app in Hb as [Hb1 Hb]. apply Forall_app in Hb as [Hb0 Hb2].
    set (data := before ++ [0; 0] ++ after) in *.
    destruct (tcpip_continue_chksum_value 0 address data) as [H1 H1'];
      [unfold data; rewrite !Forall_app; done|lia|].
    set (c := tcpip_continue_chksum 0 address data) in *.
    assert (Hs : Forall is_byte (le_split 2 c)) by (repeat constructor; unfold is_byte; dlia).
    destruct (tcpip_continue_chksum_value 0 address' (before ++ le_split 2 c ++ after))
      as [H2 H2']; [rewrite !Forall_app; done|lia|].
    unfold data in H1. rewrite !word_sum_app in H1, H2 by done.
    assert (Ec : word_sum (le_split 2 c) = c) by (cbn; dlia). rewrite Ec in H2.
    pose proof (word_sum_nonneg before Hb1). pose proof (word_sum_nonneg after Hb2).
    cbn [word_sum] in H1. unfold represents in *. clear He. dlia.
Qed.
