(* ===== verification/Unlzma.v ===== *)
(** * Unlzma

    The decompressor of the prefix (arch/x86/prefix/unlzma.S): the range
    decoder, the decoding of LZMA symbols, the removal of the branch filter and
    the verification of the checksum.

    Registers are arguments and results.  The parameter block on the stack is
    the record of its fields; the probabilities in it are a function of their
    byte offset within the block, as the code addresses them, and an access
    outside of them is undefined. *)

From S2P Require Import Prelude.
From S2P Require Import Memory.
From S2P Require Import Cmem.

(** ** Parameters and data structures *)

Definition STATE_LIT_LIT : Z := 0x00.
Definition STATE_LIT_MAX : Z := 0x06.
Definition STATE_LIT_MATCH : Z := 0x07.
Definition STATE_LIT_LONGREP : Z := 0x08.
Definition STATE_LIT_SHORTREP : Z := 0x09.
Definition STATE_NONLIT_MATCH : Z := 0x0a.
Definition STATE_NONLIT_REP : Z := 0x0b.

Definition LZMA_LC : Z := 2.

(** Offsets in [lzma_len_dec]. *)
Definition choice : Z := 0.
Definition choice2 : Z := choice + 2.
Definition low : Z := choice2 + 2.
Definition mid : Z := low + 2 * 2 ^ 3.
Definition high : Z := mid + 2 * 2 ^ 3.
Definition sizeof__lzma_len_dec : Z := high + 2 * 2 ^ 8.

(** Offsets of the probabilities in [lzma_dec]. *)
Definition probs : Z := 30.
Definition is_match : Z := probs.
Definition is_rep : Z := is_match + 2 * 12.
Definition is_rep0 : Z := is_rep + 2 * 12.
Definition is_rep1 : Z := is_rep0 + 2 * 12.
Definition is_rep2 : Z := is_rep1 + 2 * 12.
Definition is_rep0_long : Z := is_rep2 + 2 * 12.
Definition dist_slot : Z := is_rep0_long + 2 * 12.
Definition dist_special : Z := dist_slot + 2 * (4 * 2 ^ 6).
Definition dist_align : Z := dist_special + 2 * (2 ^ (14 / 2) - 14).
Definition match_len_dec : Z := dist_align + 2 * 2 ^ 4.
Definition rep_len_dec : Z := match_len_dec + sizeof__lzma_len_dec.
Definition literal : Z := rep_len_dec + sizeof__lzma_len_dec.
Definition sizeof__lzma_dec : Z := 8188.

(** The range decoder: the input pointer, and its fields of the block. *)
Record rc_dec : Type := mkRc {
  rc_esi : Z;
  rc_code : Z;
  rc_range : Z;
  rc_probs : Z -> Z
}.

(** Everything: memory, the output pointer, and the other fields. *)
Record lzma_dec : Type := mkDec {
  l_mem : mem;
  l_rc : rc_dec;
  l_edi : Z;
  out_start : Z;
  len : Z;
  reps : list Z
}.

Definition set_l_mem (m : mem) (s : lzma_dec) : lzma_dec :=
  mkDec m (l_rc s) (l_edi s) (out_start s) (len s) (reps s).
Definition set_l_rc (r : rc_dec) (s : lzma_dec) : lzma_dec :=
  mkDec (l_mem s) r (l_edi s) (out_start s) (len s) (reps s).
Definition set_l_edi (v : Z) (s : lzma_dec) : lzma_dec :=
  mkDec (l_mem s) (l_rc s) v (out_start s) (len s) (reps s).
Definition set_len (v : Z) (s : lzma_dec) : lzma_dec :=
  mkDec (l_mem s) (l_rc s) (l_edi s) (out_start s) v (reps s).
Definition set_reps (l : list Z) (s : lzma_dec) : lzma_dec :=
  mkDec (l_mem s) (l_rc s) (l_edi s) (out_start s) (len s) l.

(** ** Range decoder *)

Notation rprog := (prog rc_dec).

(** The iterations of a loop that ends with LOOP, for CX on entry. *)
Definition loop_count (cx : Z) : nat := Z.to_nat (if cx =? 0 then 0x10000 else cx).

Section range_decoder.
(** The decoder reads the input from memory. *)
Context (m : mem).

Definition rc_normalise : rprog Z :=
  r <- gets (fun r => r) ;;
  (* Check if rc_range is less than 1<<24 *)
  if negb (Z.land (Z.shiftr (rc_range r) 24) 0xff =? 0) then ret (rc_range r) else
  (* If it is, shift in a new byte from the compressed input data *)
  let range := u32 (Z.shiftl (rc_range r) 8) in
  let code := Z.lor (u32 (Z.shiftl (rc_code r) 8)) (m (rc_esi r)) in
  modify (fun r => mkRc (u32 (rc_esi r + 1)) code range (rc_probs r)) ;;
  (* Return current range *)
  ret range.

(** Is there a probability at an offset of the block? *)
Definition is_prob (ebx : Z) : bool :=
  (probs <=? ebx) && (ebx <? sizeof__lzma_dec) && Z.even ebx.

Definition set_prob (ebx v : Z) (p : Z -> Z) : Z -> Z := fun x => if x =? ebx then v else p x.

(** CF: the decoded bit. *)
Definition rc_bit (ebx : Z) : rprog bool :=
  (* Perform normalisation *)
  eax <- rc_normalise ;;
  if negb (is_prob ebx) then undef else
  r <- gets (fun r => r) ;;
  (* Calculate bound *)
  let dx := rc_probs r ebx in
  let bound := u32 (Z.shiftr eax 11 * dx) in
  (* Compare code against bound *)
  if rc_code r <? bound then
    let p := u16 (dx + Z.shiftr (u16 (2 ^ 11 - dx)) 5) in
    modify (fun r => mkRc (rc_esi r) (rc_code r) bound (set_prob ebx p (rc_probs r))) ;;
    ret false
  else
    let p := u16 (dx - Z.shiftr dx 5) in
    modify (fun r => mkRc (rc_esi r) (u32 (rc_code r - bound)) (u32 (rc_range r - bound))
                       (set_prob ebx p (rc_probs r))) ;;
    ret true.

Fixpoint rc_bittree_loop (n : nat) (edi eax : Z) : rprog Z :=
  match n with
  | O => ret eax
  | S n =>
      bit <- rc_bit (u16 (edi + 2 * eax)) ;;
      rc_bittree_loop n edi (u16 (2 * eax + Z_of_bool bit))
  end.

(** EAX, and the high bit of the result that is cleared in it and left in CF. *)
Definition rc_bittree (ebx cx : Z) : rprog (Z * bool) :=
  eax <- rc_bittree_loop (loop_count cx) ebx 1 ;;
  ret (Z.clearbit eax (cx mod 16), Z.testbit eax (cx mod 16)).

(** RCRB and RCLB: move the bits of AL to AH. *)
Fixpoint reverse_loop (n : nat) (cf : bool) (al ah : Z) : Z :=
  match n with
  | O => ah
  | S n =>
      let cf' := Z.odd al in
      let al := Z.lor (Z.shiftl (Z_of_bool cf) 7) (Z.shiftr al 1) in
      let cf := Z.testbit ah 7 in
      let ah := u8 (2 * ah + Z_of_bool cf') in
      reverse_loop n cf al ah
  end.

Definition rc_bittree_reverse (ebx cx : Z) : rprog Z :=
  (* Decode bittree *)
  let! (eax, cf) := rc_bittree ebx cx in
  (* Reverse result *)
  ret (reverse_loop (loop_count cx) cf (u8 eax) (u8 (Z.shiftr eax 8))).

(** [cl]: match byte; [ch]: 1 to use it. *)
Definition rc_bittree_match (ebx cl ch : Z) : rprog Z :=
  iterate 9 (fun '(ax, cl, ch) =>
    (* Decode bit *)
    let cl := u8 (Z.lor (Z.shiftl cl 1) (Z.shiftr cl 7)) in
    let match_bit := Z.land cl ch in
    let bx := u16 (256 * u8 (ch + match_bit) + ax) in
    bit <- rc_bit (u16 (ebx + 2 * bx)) ;;
    let ax := u16 (2 * ax + Z_of_bool bit) in
    (* offset &= ( match_bit ^ bit ) *)
    let ch := Z.land ch (Z.lxor match_bit (Z.lxor (u8 ax) 0xff)) in
    ret (if Z.shiftr ax 8 =? 0 then inl (ax, cl, ch) else inr (u8 ax)))
  (1, cl, ch).

Fixpoint rc_direct_loop (n : nat) (edx : Z) : rprog Z :=
  match n with
  | O => ret edx
  | S n =>
      (* Perform normalisation *)
      eax <- rc_normalise ;;
      (* Decode bit *)
      let eax := Z.shiftr eax 1 in
      r <- gets (fun r => r) ;;
      let ebx := u32 (rc_code r - eax) in
      let sign := Z.testbit ebx 31 in
      modify (fun r => mkRc (rc_esi r) (if sign then rc_code r else ebx) eax (rc_probs r)) ;;
      rc_direct_loop n (Z.lxor (u32 (2 * edx + Z_of_bool sign)) 1)
  end.

Definition rc_direct (cx : Z) : rprog Z := rc_direct_loop (loop_count cx) 0.
End range_decoder.

(** ** Symbols *)

Notation lprog := (prog lzma_dec).

Definition with_rc {A} (p : mem -> rprog A) : lprog A := fun s => zoom l_rc set_l_rc (p (l_mem s)) s.

(** The results of the decoders are the LZMA state (EDX) and CF, which tells
    that the end of the payload was found. *)
Definition lzma_literal (edx : Z) : lprog (Z * bool) :=
  s <- gets (fun s => s) ;;
  (* Get most recent output byte, if available *)
  let bh := if out_start s =? l_edi s then 0 else l_mem s (l_edi s - 1) in
  (* Locate probability estimate set *)
  let bh := u8 (Z.shiftl (Z.shiftr bh (8 - LZMA_LC)) 1) in
  let bx := u16 (literal + 3 * (256 * bh)) in
  (* Get match byte, if applicable *)
  let '(cl, ch) :=
    if edx <=? STATE_LIT_MAX then (0, 0)
    else (l_mem s (u32 (l_edi s + not32 (nth 0 (reps s) 0))), 1) in
  (* Decode bittree *)
  al <- with_rc (fun m => rc_bittree_match m bx cl ch) ;;
  (* Store output byte *)
  modify (fun s => set_l_edi (u32 (l_edi s + 1)) (set_l_mem (store (l_edi s) [al] (l_mem s)) s)) ;;
  (* Update LZMA state *)
  let dl := u8 (edx - 3) in
  let dl := if Z.testbit dl 7 then 0 else dl in
  let dl := if dl <? 7 then dl else dl - 3 in
  ret (dl, false).

(** [ebx]: [match_len_dec] or [rep_len_dec]. *)
Definition lzma_len (ebx : Z) : lprog unit :=
  (* Check low-length choice bit *)
  bit <- with_rc (fun m => rc_bit m (ebx + choice)) ;;
  if negb bit then
    (* Three bits and a base length of 2 *)
    let! (eax, _) := with_rc (fun m => rc_bittree m (ebx + low) 3) in
    modify (set_len (u16 (2 + eax)))
  else
    (* Check high-length choice bit *)
    bit <- with_rc (fun m => rc_bit m (ebx + choice2)) ;;
    if negb bit then
      let! (eax, _) := with_rc (fun m => rc_bittree m (ebx + mid) 3) in
      modify (set_len (u16 (10 + eax)))
    else
      let! (eax, _) := with_rc (fun m => rc_bittree m (ebx + high) 8) in
      modify (set_len (u16 (18 + eax))).

(** Move the first ECX entries of the repeated match list up. *)
Fixpoint shift_reps (ecx : nat) (l : list Z) : list Z :=
  match ecx with
  | O => l
  | S n => shift_reps n (<[S n := nth n l 0]> l)
  end.

Definition copy_match (eax : Z) : lprog bool :=
  s <- gets (fun s => s) ;;
  (* Abort with CF set if match distance is out of range *)
  if u32 (l_edi s - out_start s - 1) <? eax then ret true else
  (* Perform copy *)
  let esi := u32 (l_edi s + not32 eax) in
  modify (fun s => set_l_edi (u32 (l_edi s + len s))
    (set_l_mem (state_mem (rep (Z.to_nat (len s)) (movs 1) (l_mem s, l_edi s, esi))) s)) ;;
  ret false.

(** A match, given its distance. *)
Definition match_ (eax : Z) : lprog bool :=
  modify (fun s => set_reps (<[0%nat := eax]> (shift_reps 3 (reps s))) s) ;;
  copy_match eax.

(** A repeated match, given the index of its distance. *)
Definition match_rep (cl : nat) : lprog bool :=
  eax <- gets (fun s => nth cl (reps s) 0) ;;
  when (negb (cl =? 0)%nat)
    (modify (fun s => set_reps (<[0%nat := eax]> (shift_reps cl (reps s))) s)) ;;
  copy_match eax.

(** The distance in a slot. *)
Definition lzma_slot_distance (eax : Z) : lprog Z :=
  (* Distance slots 0-3 are literal distances *)
  if eax <? 4 then ret eax else
  (* Determine initial bits: 10/11 for even/odd distance codes *)
  let edi := Z.lor (Z.land eax 1) 2 in
  (* Determine number of context-encoded bits *)
  let cl := Z.shiftr eax 1 - 1 in
  (* Select context to be used in absence of fixed-probability bits *)
  let bx := u16 (u16 (Z.shiftl edi cl) - eax) in
  let bx := u16 (dist_special - 2 + (bx + bx)) in
  (* Decode fixed-probability bits, if any *)
  let! (edi, cl, ebx) :=
    (if cl <? 6 then ret (edi, cl, bx) else
     let edi := u32 (Z.shiftl edi (cl - 4)) in
     direct <- with_rc (fun m => rc_direct m (cl - 4)) ;;
     (* Select context to be used in presence of fixed-probability bits *)
     ret (Z.lor edi direct, 4, dist_align)) in
  (* Decode context-encoded bits *)
  let edi := u32 (Z.shiftl edi cl) in
  eax <- with_rc (fun m => rc_bittree_reverse m ebx cl) ;;
  ret (Z.lor edi eax).

Definition lzma_match (edx : Z) : lprog (Z * bool) :=
  (* Update LZMA state *)
  let dl := if edx <=? STATE_LIT_MAX then STATE_LIT_MATCH else STATE_NONLIT_MATCH in
  (* Decode length *)
  lzma_len match_len_dec ;;
  (* Decode distance slot *)
  length_ <- gets len ;;
  let bx := u16 (length_ - 2) in
  let bx := if bx <? 4 then bx else 3 in
  let! (eax, _) := with_rc (fun m => rc_bittree m (u16 (Z.shiftl bx 7 + dist_slot)) 6) in
  distance <- lzma_slot_distance eax ;;
  cf <- match_ distance ;;
  ret (dl, cf).

Definition lzma_rep_match (edx : Z) : lprog (Z * bool) :=
  let bit field := with_rc (fun m => rc_bit m (field + 2 * edx)) in
  (* Get is_rep0 bit *)
  rep0 <- bit is_rep0 ;;
  let! (cl, ch) :=
    (if negb rep0 then
       (* Get is_rep0_long bit *)
       long <- bit is_rep0_long ;;
       if negb long then modify (set_len 1) ;; ret (0%nat, STATE_LIT_SHORTREP)
       else lzma_len rep_len_dec ;; ret (0%nat, STATE_LIT_LONGREP)
     else
       (* Get is_rep1 bit *)
       rep1 <- bit is_rep1 ;;
       if negb rep1 then lzma_len rep_len_dec ;; ret (1%nat, STATE_LIT_LONGREP)
       else
         (* Get is_rep2 bit *)
         rep2 <- bit is_rep2 ;;
         lzma_len rep_len_dec ;;
         ret (if rep2 then 3%nat else 2%nat, STATE_LIT_LONGREP)) in
  (* Update LZMA state *)
  let dl := if edx <=? STATE_LIT_MAX then ch else STATE_NONLIT_REP in
  cf <- match_rep cl ;;
  ret (dl, cf).

Definition lzma_decode (edx : Z) : lprog (Z * bool) :=
  (* Get is_match bit *)
  bit <- with_rc (fun m => rc_bit m (is_match + 2 * edx)) ;;
  if negb bit then lzma_literal edx else
  (* Get is_rep bit *)
  bit <- with_rc (fun m => rc_bit m (is_rep + 2 * edx)) ;;
  if negb bit then lzma_match edx else lzma_rep_match edx.

(** ** Branch filter and checksum *)

(** One iteration of the loop below, at ESI. *)
Definition bcj_loop (start ecx esi : Z) : prog mem (Z + unit) :=
  let ebx := u32 (esi - start) in
  (* Check for end of data *)
  if ecx <? ebx then ret (inr tt) else
  (* Check for an opcode which would be followed by a rel32 address *)
  al <- gets (fun m => m esi) ;;
  let esi := u32 (esi + 1) in
  if negb (Z.land al 0xfe =? 0xe8) then ret (inl esi) else
  (* Get current jump target value *)
  eax <- gets (fun m => ld32 esi m) ;;
  (* Convert absolute addresses back to relative addresses *)
  when (eax <? ecx) (modify (fun m => st32 esi (u32 (ld32 esi m - ebx)) m)) ;;
  (* Convert negative numbers back to positive numbers *)
  when (not32 eax <? ebx) (modify (fun m => st32 esi (u32 (ld32 esi m + ecx)) m)) ;;
  ret (inl (u32 (esi + 4))).

(** Undo the filter on the data from [start] to [end_]. *)
Definition bcj_filter (fuel : nat) (start end_ : Z) : prog mem unit :=
  (* Calculate limit *)
  let ecx := u32 (end_ - start - 5) in
  iterate fuel (bcj_loop start ecx) start.

Definition CRCPOLY : Z := 0xedb88320.
Definition CRCSEED : Z := 0xffffffff.

(** RCRL, and the exclusive or, which clears CF. *)
Definition crc_bit (s : Z * bool) : Z * bool :=
  let '(ebx, cf) := s in
  let ebx' := Z.lor (Z.shiftl (Z_of_bool cf) 31) (Z.shiftr ebx 1) in
  if Z.odd ebx then (Z.lxor ebx' CRCPOLY, false) else (ebx', false).

Fixpoint crc_loop (n : nat) (esi ebx : Z) (m : mem) : Z :=
  match n with
  | O => ebx
  | S n =>
      let '(ebx, _) := rep 8 crc_bit (Z.lxor ebx (m esi), false) in
      crc_loop n (u32 (esi + 1)) ebx m
  end.

(** CF, for EDX bytes at ESI; the loop ends when the end is reached. *)
Definition verify_crc32 (esi edx : Z) (m : mem) : bool :=
  negb (crc_loop (Z.to_nat (if edx =? 0 then 2 ^ 32 else edx)) esi CRCSEED m =? 0).

(** ** Decompression *)

(** The block after its initialisation. *)
Definition init_block (esi edi code : Z) (m : mem) : lzma_dec :=
  mkDec m
    (mkRc esi code (u32 (0 - 1))
       (fun ebx => if (probs <=? ebx) && (ebx <? sizeof__lzma_dec) then 2 ^ 11 / 2 else 0))
    edi edi 0 [0; 0; 0; 0].

(** ESI, EDI and CF.  [fuel]: the symbols that may be decoded before it counts
    as spinning, and the iterations of the filter. *)
Definition decompress (fuel : nat) (esi edi : Z) : prog mem (Z * Z * bool) := fun m =>
  (* Verify CRC32 *)
  let edx := ld32 esi m in
  let esi := u32 (esi + 4) in
  if verify_crc32 esi edx m then Ret (esi, edi, true) m else
  (* Discard initial byte *)
  let esi := u32 (esi + 1) in
  let code := le_combine (rev (load 4 esi m)) in
  let esi := u32 (esi + 4) in
  (* Decompress until we reach end of buffer *)
  let run :=
    iterate fuel (fun edx =>
      let! (edx, cf) := lzma_decode edx in
      ret (if cf then inr tt else inl edx)) STATE_LIT_LIT ;;
    with_rc rc_normalise ;;
    (* Undo BCJ filter *)
    s <- gets (fun s => s) ;;
    zoom l_mem set_l_mem (bcj_filter fuel (out_start s) (l_edi s)) ;;
    (* Skip CRC *)
    ret (u32 (rc_esi (l_rc s) + 4), l_edi s, false) in
  match run (init_block esi edi code m) with
  | Ret r s => Ret r (l_mem s)
  | Undef => Undef
  | Spin => Spin
  end.
