(* ===== verification/RangeCoder.v ===== *)
(** * RangeCoder

    Range coding.  A sequence of binary decisions, each with an adaptive
    probability or with equal odds, is coded as a number in an interval that
    each decision narrows; the reference encoder computes the interval.  The
    range decoder of unlzma.S, reading any number in the interval, decodes the
    decisions. *)

From S2P Require Import Prelude.
From S2P Require Import Memory.
From S2P Require Import Unlzma.

(** ** The reference encoder *)

Inductive decision : Type :=
  | Prob (offset : Z) (bit : bool)
  | Direct (bit : bool).

(** The probability (that a bit is 0, in units of 2^-11) after a bit. *)
Definition adapt (bit : bool) (p : Z) : Z :=
  if bit then p - p / 32 else p + (2048 - p) / 32.

Definition update (d : decision) (p : Z -> Z) : Z -> Z :=
  match d with
  | Prob offset bit => set_prob offset (adapt bit (p offset)) p
  | Direct _ => p
  end.

(** The part of a range of size [r] that a decision selects: where it starts,
    and its size. *)
Definition narrow (d : decision) (p : Z -> Z) (r : Z) : Z * Z :=
  match d with
  | Prob offset bit =>
      let bound := r / 2048 * p offset in if bit then (bound, r - bound) else (0, bound)
  | Direct bit => (if bit then r / 2 else 0, r / 2)
  end.

(** A range that has become small is scaled by 256, at the cost of one more
    byte. *)
Definition normal (r : Z) : Z * nat := if r <? 2 ^ 24 then (r * 256, 1%nat) else (r, 0%nat).

(** The interval of a sequence of decisions in a range of size [r], before the
    next scaling: its start and size, and the number of scalings. *)
Fixpoint interval (p : Z -> Z) (r : Z) (ds : list decision) : Z * Z * nat :=
  let '(r, k0) := normal r in
  match ds with
  | [] => (0, r, k0)
  | d :: ds =>
      let '(start, r) := narrow d p r in
      let '(low, width, k) := interval (update d p) r ds in
      (start * 256 ^ Z.of_nat k + low, width, (k0 + k)%nat)
  end.

(** The same by the rule that encoders use: [low] and [range] are updated with
    each decision. *)
Fixpoint encode (p : Z -> Z) (low range : Z) (k : nat) (ds : list decision) : Z * Z * nat :=
  let '(low, k) := if range <? 2 ^ 24 then (low * 256, S k) else (low, k) in
  let range := (normal range).1 in
  match ds with
  | [] => (low, range, k)
  | d :: ds =>
      let '(start, range) := narrow d p range in
      encode (update d p) (low + start) range k ds
  end.

Lemma encode_interval ds p low range k :
  encode p low range k ds =
  let '(low', width, k') := interval p range ds in
  (low * 256 ^ Z.of_nat k' + low', width, (k + k')%nat).
Proof.
  revert p low range k. induction ds as [|d ds IH]; intros p low range k; cbn [encode interval];
    unfold normal; destruct (range <? 2 ^ 24); cbn [fst].
  - repeat f_equal; lia.
  - repeat f_equal; lia.
  - destruct (narrow d p (range * 256)) as [start r]. rewrite IH.
    destruct (interval (update d p) r ds) as [[low' width] k']. f_equal; [f_equal|lia].
    change (1 + k')%nat with (S k'). rewrite Nat2Z.inj_succ, Z.pow_succ_r by lia. lia.
  - destruct (narrow d p range) as [start r]. rewrite IH.
    destruct (interval (update d p) r ds) as [[low' width] k']. f_equal. f_equal. cbn. lia.
Qed.

(** ** Ranges and probabilities *)

Definition prob_ok (p : Z) : Prop := 31 <= p <= 2017.
Definition probs_ok (p : Z -> Z) : Prop := forall x, is_prob x = true -> prob_ok (p x).
Definition range_ok (r : Z) : Prop := 2 ^ 16 <= r < 2 ^ 32.

Lemma adapt_ok bit p : prob_ok p -> prob_ok (adapt bit p).
Proof. unfold prob_ok, adapt. destruct bit; dlia. Qed.

Lemma update_ok d p : probs_ok p -> probs_ok (update d p).
Proof.
  intros Hp. destruct d as [a bit|bit]; [|done]. intros x Hx. cbn. unfold set_prob.
  destruct (Z.eqb_spec x a) as [->|]; [by apply adapt_ok, Hp|by apply Hp].
Qed.

(** Decisions that refer to probabilities of the block. *)
Definition decision_ok (d : decision) : Prop :=
  match d with Prob a _ => is_prob a = true | Direct _ => True end.

Lemma normal_ok r : range_ok r -> range_ok (normal r).1 /\ 2 ^ 24 <= (normal r).1 /\
  (normal r).1 = r * 256 ^ Z.of_nat (normal r).2.
Proof. unfold range_ok, normal. destruct (Z.ltb_spec r (2 ^ 24)); cbn; lia. Qed.

Lemma narrow_ok d p r : decision_ok d -> probs_ok p -> 2 ^ 24 <= r < 2 ^ 32 ->
  let '(start, r') := narrow d p r in range_ok r' /\ 0 <= start /\ start + r' <= r.
Proof.
  intros Hd Hp Hr. unfold range_ok. destruct d as [a bit|bit]; cbn.
  - pose proof (Hp a Hd) as Ha. unfold prob_ok in Ha.
    assert (2 ^ 13 <= r / 2048 < 2 ^ 21) by dlia. assert (r / 2048 * 2048 <= r) by dlia.
    set (q := r / 2048) in *. clearbody q. destruct bit; nia.
  - destruct bit; dlia.
Qed.

Lemma interval_ok ds : Forall decision_ok ds -> forall p r, probs_ok p -> range_ok r ->
  let '(low, width, k) := interval p r ds in
  0 <= low /\ 0 < width /\ low + width <= r * 256 ^ Z.of_nat k.
Proof.
  induction 1 as [|d ds Hd _ IH]; intros p r Hp Hr; cbn [interval];
    destruct (normal_ok r Hr) as (Hn & H24 & Hr1); destruct (normal r) as [r1 k0]; cbn [fst snd] in *.
  { unfold range_ok in Hn. lia. }
  pose proof (narrow_ok d p r1 Hd Hp ltac:(unfold range_ok in Hn; lia)) as Hnw.
  destruct (narrow d p r1) as [start r2]. destruct Hnw as (Hr2 & Hst & Hle).
  specialize (IH (update d p) r2 (update_ok d p Hp) Hr2).
  destruct (interval (update d p) r2 ds) as [[low width] k]. destruct IH as (H1 & H2 & H3).
  rewrite Nat2Z.inj_add, Z.pow_add_r by lia. set (b := 256 ^ Z.of_nat k) in *.
  assert (0 < b) by (unfold b; lia). split; [nia|]. split; [done|]. rewrite Z.mul_assoc, <- Hr1. nia.
Qed.

(** ** The decoder *)

Definition be_combine (l : list Z) : Z := le_combine (rev l).

Lemma be_combine_cons b l : be_combine (b :: l) = b * 256 ^ Z.of_nat (length l) + be_combine l.
Proof.
  unfold be_combine. cbn [rev]. rewrite le_combine_app, length_rev. cbn [le_combine]. lia.
Qed.

Lemma be_combine_range l : Forall is_byte l -> 0 <= be_combine l < 256 ^ Z.of_nat (length l).
Proof.
  induction 1 as [|b l Hb _ IH]; [cbn; lia|]. unfold is_byte in Hb. rewrite be_combine_cons.
  cbn [length]. rewrite Nat2Z.inj_succ, Z.pow_succ_r by lia. nia.
Qed.

(** The decoder [r] is about to decode [ds]: the number made up of its code and
    the rest of the input, between [b] and [e], is in the interval of [ds]. *)
Record pending (m : mem) (b e : Z) (ds : list decision) (r : rc_dec) : Prop := {
  pd_decisions : Forall decision_ok ds;
  pd_probs : probs_ok (rc_probs r);
  pd_range : range_ok (rc_range r);
  pd_code : 0 <= rc_code r;
  pd_esi : b <= rc_esi r;
  pd_end : e < 2 ^ 32;
  pd_value : let '(low, width, k) := interval (rc_probs r) (rc_range r) ds in
    rc_esi r + Z.of_nat k = e /\
    low <= rc_code r * 256 ^ Z.of_nat k + be_combine (load k (rc_esi r) m) < low + width
}.

(** The number that a list of bits denotes, most significant bit first, behind
    the bits of [acc]. *)
Definition bits_value (acc : Z) (bits : list bool) : Z :=
  fold_left (fun v b => 2 * v + Z_of_bool b) bits acc.

(** The low [n] bits of a number, from the most or from the least significant
    one on. *)
Fixpoint msb (n : nat) (v : Z) : list bool :=
  match n with O => [] | S n => Z.testbit v (Z.of_nat n) :: msb n v end.
Definition lsb (n : nat) (v : Z) : list bool := rev (msb n v).

Lemma length_msb n v : length (msb n v) = n.
Proof. induction n; cbn; [done|by f_equal]. Qed.

Lemma bits_value_msb n v acc : bits_value acc (msb n v) = acc * 2 ^ Z.of_nat n + v mod 2 ^ Z.of_nat n.
Proof.
  revert acc. induction n as [|n IH]; intros acc; cbn [msb bits_value fold_left];
    [rewrite Z.mod_1_r; cbn; lia|].
  change (fold_left _ ?l ?x) with (bits_value x l). rewrite IH, Nat2Z.inj_succ, Z.pow_succ_r by lia.
  rewrite (Z.mul_comm 2 (2 ^ _)), (Z.rem_mul_r v) by lia.
  assert (E : Z_of_bool (Z.testbit v (Z.of_nat n)) = (v / 2 ^ Z.of_nat n) mod 2).
  { rewrite Z.testbit_odd, Z.shiftr_div_pow2, Zmod_odd by lia. by destruct (Z.odd _). }
  rewrite E. lia.
Qed.

(** A number coded as a path in a binary tree of probabilities at [a]: the node
    of a bit is given by the bits before it. *)
Fixpoint tree (a x : Z) (bits : list bool) : list decision :=
  match bits with
  | [] => []
  | b :: bits => Prob (a + 2 * x) b :: tree a (2 * x + Z_of_bool b) bits
  end.

Lemma is_prob_spec a : is_prob a = true <-> 30 <= a < 8188 /\ Z.even a = true.
Proof. unfold is_prob, probs, sizeof__lzma_dec. rewrite !andb_true_iff, Z.leb_le, Z.ltb_lt. tauto. Qed.

Lemma lxor_1_bit v b : Z.lxor (2 * v + Z_of_bool (negb b)) 1 = 2 * v + Z_of_bool b.
Proof.
  apply Z.bits_inj'. intros i Hi. rewrite Z.lxor_spec.
  destruct (Z.eq_dec i 0) as [->|].
  - rewrite !Z.bit0_odd, !Z.odd_add, !Z.odd_mul. by destruct b.
  - replace i with (Z.succ (i - 1)) by lia.
    replace (Z.testbit 1 (Z.succ (i - 1))) with false
      by (symmetry; apply (Z.bits_above_log2 1); cbn; lia).
    rewrite xorb_false_r. destruct b; cbn [negb Z_of_bool];
      rewrite ?Z.add_0_r, ?Z.testbit_even_succ, ?Z.testbit_odd_succ by lia; done.
Qed.

Lemma clear_top n v : 0 <= v < 2 ^ Z.of_nat n ->
  (Z.clearbit (1 * 2 ^ Z.of_nat n + v) (Z.of_nat n), Z.testbit (1 * 2 ^ Z.of_nat n + v) (Z.of_nat n))
  = (v, true).
Proof.
  intros Hv. rewrite Z.mul_1_l.
  assert (Hb : forall i, 0 <= i -> Z.testbit (2 ^ Z.of_nat n + v) i =
    (i =? Z.of_nat n) || Z.testbit v i).
  { intros i Hi. replace (2 ^ Z.of_nat n + v) with (Z.lor v (Z.shiftl 1 (Z.of_nat n)))
      by (rewrite lor_shiftl_add; lia).
    rewrite Z.shiftl_mul_pow2, Z.mul_1_l, Z.lor_spec, Z.pow2_bits_eqb by lia.
    rewrite (Z.eqb_sym i). apply orb_comm. }
  f_equal; [|rewrite Hb by lia; by rewrite Z.eqb_refl].
  apply Z.bits_inj'. intros i Hi. rewrite Z.clearbit_eqb, Hb by lia.
  rewrite (Z.eqb_sym i). destruct (Z.eqb_spec (Z.of_nat n) i) as [<-|]; cbn.
  - rewrite (testbit_above v (Z.of_nat n)) by lia. done.
  - apply andb_true_r.
Qed.

Lemma bits_value_acc bits acc :
  bits_value acc bits = acc * 2 ^ Z.of_nat (length bits) + bits_value 0 bits.
Proof.
  revert acc. induction bits as [|b bits IH]; intros acc; cbn [bits_value fold_left length]; [cbn; lia|].
  change (fold_left _ ?l ?x) with (bits_value x l).
  rewrite (IH (2 * acc + _)), (IH (2 * 0 + _)), Nat2Z.inj_succ, Z.pow_succ_r by lia. lia.
Qed.

Lemma bits_value_range bits : 0 <= bits_value 0 bits < 2 ^ Z.of_nat (length bits).
Proof.
  induction bits as [|b bits IH]; [cbn; lia|]. cbn [bits_value fold_left length].
  change (fold_left _ ?l ?x) with (bits_value x l).
  rewrite bits_value_acc, Nat2Z.inj_succ, Z.pow_succ_r by lia. destruct b; cbn [Z_of_bool]; lia.
Qed.

(** The rotations put the bits of a short number in the opposite order. *)
Lemma reverse_lsb n v : (0 < n < 6)%nat -> 0 <= v < 2 ^ Z.of_nat n ->
  reverse_loop (loop_count (Z.of_nat n)) true (u8 (bits_value 0 (lsb n v)))
    (u8 (Z.shiftr (bits_value 0 (lsb n v)) 8)) = v.
Proof.
  intros Hn Hv.
  assert (G : forall k, In k [1; 2; 3; 4; 5]%nat -> forallb (fun v =>
    reverse_loop (loop_count (Z.of_nat k)) true (u8 (bits_value 0 (lsb k v)))
      (u8 (Z.shiftr (bits_value 0 (lsb k v)) 8)) =? v) (map Z.of_nat (seq 0 (2 ^ k))) = true)
    by (apply Forall_forall; repeat constructor; vm_compute; reflexivity).
  apply Z.eqb_eq, (check_below (fun v => _ =? v) _ _ (G n ltac:(cbn; lia))).
  rewrite Nat2Z.inj_pow. exact Hv.
Qed.

(** The bits of a literal, with the bits of the byte it is compared with for as
    long as they agree. *)
Fixpoint lit_tree (a x : Z) (mb : list bool) (bits : list bool) : list decision :=
  match bits with
  | [] => []
  | b :: bits =>
      match mb with
      | [] => Prob (a + 2 * x) b :: lit_tree a (2 * x + Z_of_bool b) [] bits
      | c :: mb =>
          Prob (a + 2 * (256 * (1 + Z_of_bool c) + x)) b ::
          lit_tree a (2 * x + Z_of_bool b) (if Bool.eqb c b then mb else []) bits
      end
  end.

(** What the decoder keeps of the byte to compare with, after [i] bits. *)
Definition rol8 (cl : Z) : Z := u8 (Z.lor (Z.shiftl cl 1) (Z.shiftr cl 7)).

Definition match_state (i : nat) (cl ch : Z) (mb : list bool) : Prop :=
  exists v, 0 <= v < 256 /\ cl = Nat.iter i rol8 v /\
    (ch = 0 /\ mb = [] \/ ch = 1 /\ mb = msb (8 - i) v).

(** The lowest bit after rotations. *)
Lemma rol8_bit i v : (i < 8)%nat -> 0 <= v < 256 ->
  Z.land (Nat.iter (S i) rol8 v) 1 = Z_of_bool (Z.testbit v (Z.of_nat (7 - i))).
Proof.
  intros Hi Hv.
  assert (G : forall k, In k (seq 0 8) -> forallb (fun v =>
    Z.land (Nat.iter (S k) rol8 v) 1 =? Z_of_bool (Z.testbit v (Z.of_nat (7 - k))))
      (map Z.of_nat (seq 0 256)) = true)
    by (apply Forall_forall; repeat constructor; vm_compute; reflexivity).
  apply Z.eqb_eq, (check_below (fun v => _ =? Z_of_bool (Z.testbit v _)) _ _ (G i ltac:(apply in_seq; lia))). lia.
Qed.

Section decoding.
Context (m : mem) (b0 e : Z) (Hm : byte_mem m) (Hb0 : 0 <= b0).

(** The code is below the range. *)
Lemma pending_code ds r : pending m b0 e ds r -> rc_code r < rc_range r.
Proof.
  intros [Hds Hp Hr Hc _ _ Hv]. pose proof (interval_ok ds Hds _ _ Hp Hr) as Hi.
  destruct (interval (rc_probs r) (rc_range r) ds) as [[low width] k]. destruct Hv as [_ Hv].
  pose proof (be_combine_range _ (load_bytes k (rc_esi r) m Hm)) as Hb. rewrite length_load in Hb.
  assert (0 < 256 ^ Z.of_nat k) by lia. nia.
Qed.

Lemma interval_normal ds p r : range_ok r ->
  let '(low, width, k) := interval p r ds in
  exists k', interval p (normal r).1 ds = (low, width, k') /\ k = ((normal r).2 + k')%nat.
Proof.
  intros Hr. destruct (normal_ok r Hr) as (_ & H24 & _).
  destruct ds as [|d ds]; cbn [interval]; destruct (normal r) as [r1 k0] eqn:E; cbn [fst snd] in *;
    unfold normal; rewrite (proj2 (Z.ltb_ge r1 (2 ^ 24)) H24).
  - exists 0%nat. split; [done|lia].
  - destruct (narrow d p r1) as [start r2]. destruct (interval _ r2 ds) as [[low width] k].
    exists k. split; done.
Qed.

Lemma wp_rc_normalise ds r : pending m b0 e ds r ->
  wp (rc_normalise m) (fun eax r' => eax = rc_range r' /\ 2 ^ 24 <= rc_range r' /\
    rc_probs r' = rc_probs r /\ pending m b0 e ds r') r.
Proof.
  intros Hpd. pose proof (pending_code _ _ Hpd) as Hcode. destruct Hpd as [Hds Hp Hr Hc He Hend Hv].
  pose proof Hr as Hr'. unfold range_ok in Hr'. unfold rc_normalise. repeat wp_prim.
  pose proof (interval_normal ds (rc_probs r) (rc_range r) Hr) as Hi.
  pose proof (normal_ok _ Hr) as (Hn & H24 & _).
  destruct (interval (rc_probs r) (rc_range r) ds) as [[low width] k] eqn:E.
  destruct Hi as (k' & Ei & Hk). destruct Hv as [Hv1 Hv2].
  assert (Htest : Z.land (Z.shiftr (rc_range r) 24) 255 = rc_range r / 2 ^ 24).
  { rewrite Z.shiftr_div_pow2, (land_ones_mod _ 8), Z.mod_small by dlia. done. }
  rewrite Htest. clear Htest. unfold normal in *.
  destruct (Z.ltb_spec (rc_range r) (2 ^ 24)) as [Hlt|Hge]; cbn [fst snd] in *.
  - rewrite Z.div_small by lia. cbn [Z.eqb negb]. repeat wp_prim. cbn [rc_range rc_probs].
    rewrite !Z.shiftl_mul_pow2 by lia. change (2 ^ 8) with 256.
    subst k. cbn [plus] in *. unfold u32. rewrite !Z.mod_small by lia.
    split_and!; [done|lia|done|]. rewrite load_S in Hv2.
    pose proof (Hm (rc_esi r)) as Hb. unfold is_byte in Hb.
    replace (Z.lor (rc_code r * 256) (m (rc_esi r))) with (rc_code r * 256 + m (rc_esi r)).
    2: { rewrite Z.lor_comm. change 256 with (2 ^ 8). rewrite <- Z.shiftl_mul_pow2 by lia.
         rewrite lor_shiftl_add, Z.shiftl_mul_pow2 by lia. lia. }
    constructor; cbn [rc_probs rc_range rc_code rc_esi]; [done|done|done|lia|lia|done|].
    rewrite Ei. split; [lia|]. rewrite be_combine_cons, length_load in Hv2.
    rewrite Nat2Z.inj_succ, Z.pow_succ_r in Hv2 by lia. rewrite Z.mul_add_distr_r. lia.
  - rewrite (proj2 (Z.eqb_neq (rc_range r / 2 ^ 24) 0)) by dlia. cbn [negb]. repeat wp_prim.
    split_and!; try done. constructor; try done. rewrite E. done.
Qed.

(** After scaling, the code is in the part of the range that the next decision
    selects. *)
Lemma pending_narrow d ds r : pending m b0 e (d :: ds) r -> 2 ^ 24 <= rc_range r ->
  let '(start, r2) := narrow d (rc_probs r) (rc_range r) in
  0 <= start /\ start <= rc_code r < start + r2 /\
  pending m b0 e ds (mkRc (rc_esi r) (rc_code r - start) r2 (update d (rc_probs r))).
Proof.
  intros [Hds Hp Hr Hc Hesi Hend Hv] H24. apply Forall_cons_1 in Hds as [Hd Hds].
  pose proof (narrow_ok d (rc_probs r) (rc_range r) Hd Hp ltac:(unfold range_ok in Hr; lia)) as Hn.
  cbn [interval] in Hv. unfold normal in Hv. rewrite (proj2 (Z.ltb_ge (rc_range r) (2 ^ 24)) H24) in Hv.
  destruct (narrow d (rc_probs r) (rc_range r)) as [start r2]. destruct Hn as (Hr2 & Hst & _).
  pose proof (interval_ok ds Hds _ r2 (update_ok d _ Hp) Hr2) as Hi.
  destruct (interval (update d (rc_probs r)) r2 ds) as [[low width] k] eqn:Ei.
  destruct Hv as [He Hv]. cbn [plus] in He, Hv. destruct Hi as (Hlow & Hw & Hle).
  pose proof (be_combine_range _ (load_bytes k (rc_esi r) m Hm)) as Hb. rewrite length_load in Hb.
  assert (HB : 0 < 256 ^ Z.of_nat k) by lia.
  assert (start <= rc_code r < start + r2) by (set (B := 256 ^ Z.of_nat k) in *; clearbody B; nia).
  split; [done|]. split; [done|].
  constructor; cbn [rc_probs rc_range rc_code rc_esi]; try done; [by apply update_ok|lia|].
  rewrite Ei. split; [done|]. rewrite Z.mul_sub_distr_r. lia.
Qed.

(** Reading a bit with the probability that it was coded with. *)
Lemma wp_rc_bit a b ds r : pending m b0 e (Prob a b :: ds) r ->
  wp (rc_bit m a) (fun b' r' => b' = b /\ pending m b0 e ds r') r.
Proof.
  intros Hpd. unfold rc_bit. wp_prim. eapply wp_mono; [apply (wp_rc_normalise _ _ Hpd)|].
  intros eax r1 (-> & H24 & _ & H1). clear Hpd. pose proof (pending_narrow _ _ _ H1 H24) as Hn.
  pose proof (pending_code _ _ H1) as Hcode. destruct H1 as [Hds Hp Hr Hc _ _ _].
  apply Forall_cons_1 in Hds as [Ha _]. cbn [decision_ok] in Ha. rewrite Ha. cbn [negb]. repeat wp_prim.
  pose proof (Hp a Ha) as Hpa. unfold range_ok in Hr.
  rewrite Z.shiftr_div_pow2 by lia. change (2 ^ 11) with 2048 in *. cbn [narrow update] in Hn.
  assert (Hbound : 0 <= rc_range r1 / 2048 * rc_probs r1 a < 2 ^ 32).
  { unfold prob_ok in Hpa. assert (0 <= rc_range r1 / 2048 /\ rc_range r1 / 2048 * 2048 <= rc_range r1) by dlia.
    set (q := rc_range r1 / 2048) in *. clearbody q. nia. }
  set (bound := rc_range r1 / 2048 * rc_probs r1 a) in *. clearbody bound.
  rewrite (u32_small bound) by done.
  assert (Hadapt : forall b, u16 (adapt b (rc_probs r1 a)) = adapt b (rc_probs r1 a)).
  { intros b1. apply Z.mod_small. pose proof (adapt_ok b1 _ Hpa) as Hx. unfold prob_ok in Hx. lia. }
  unfold adapt in Hadapt, Hn.
  destruct b; destruct Hn as (_ & Hin & Hpd); (destruct (Z.ltb_spec (rc_code r1) bound); [try lia|try lia]);
    repeat wp_prim; (split; [done|]).
  - rewrite !u32_small, Z.shiftr_div_pow2 by lia. change (2 ^ 5) with 32. rewrite (Hadapt true). exact Hpd.
  - rewrite Z.shiftr_div_pow2, (u16_small (2048 - _)) by (unfold prob_ok in Hpa; lia).
    change (2 ^ 5) with 32. rewrite (Hadapt false). rewrite Z.sub_0_r in Hpd. exact Hpd.
Qed.

(** Bits without a probability. *)
Lemma wp_rc_direct_loop bits ds edx r :
  0 <= edx -> (edx + 1) * 2 ^ Z.of_nat (length bits) <= 2 ^ 32 ->
  pending m b0 e (map Direct bits ++ ds) r ->
  wp (rc_direct_loop m (length bits) edx)
    (fun v r' => v = bits_value edx bits /\ pending m b0 e ds r') r.
Proof.
  revert edx r. induction bits as [|b bits IH]; intros edx r He Hle Hpd; cbn [rc_direct_loop length].
  { wp_prim. split; [done|exact Hpd]. }
  cbn [length] in Hle. rewrite Nat2Z.inj_succ, Z.pow_succ_r in Hle by lia.
  wp_prim. eapply wp_mono; [apply (wp_rc_normalise _ _ Hpd)|].
  intros eax r1 (-> & H24 & _ & H1). clear Hpd. cbn [map app] in H1.
  pose proof (pending_narrow _ _ _ H1 H24) as Hn. cbn [narrow update] in Hn.
  pose proof (pd_range _ _ _ _ _ H1) as Hr. unfold range_ok in Hr. clear H1. repeat wp_prim.
  rewrite Z.shiftr_div_pow2 by lia. change (2 ^ 1) with 2. set (h := rc_range r1 / 2) in *.
  assert (Hh : 0 <= h < 2 ^ 31) by (unfold h; dlia). clearbody h.
  assert (Hsign : Z.testbit (u32 (rc_code r1 - h)) 31 = negb b).
  { destruct Hn as (_ & Hin & _). rewrite Z.testbit_odd, Z.shiftr_div_pow2 by lia. unfold u32. destruct b.
    - rewrite Z.mod_small, Z.div_small by lia. done.
    - replace (rc_code r1 - h) with ((rc_code r1 - h + 2 ^ 32) + (-1) * 2 ^ 32) by lia.
      rewrite Z.mod_add, Z.mod_small by lia.
      replace ((rc_code r1 - h + 2 ^ 32) / 2 ^ 31) with 1; [done|]. apply (Z.div_unique _ _ _ (rc_code r1 - h + 2 ^ 31)); lia. }
  rewrite Hsign. cbn [bits_value fold_left].
  assert (0 < 2 ^ Z.of_nat (length bits)) by lia.
  assert (Hx : Z.lxor (u32 (2 * edx + Z_of_bool (negb b))) 1 = 2 * edx + Z_of_bool b).
  { rewrite u32_small by (destruct b; cbn; nia). by apply lxor_1_bit. }
  rewrite Hx. apply IH; [destruct b; cbn; lia|destruct b; cbn; nia|].
  destruct Hn as (_ & Hin & Hpd). destruct b; cbn [negb].
  - rewrite u32_small by lia. exact Hpd.
  - rewrite Z.sub_0_r in Hpd. exact Hpd.
Qed.

(** ** Bit trees *)

Lemma wp_rc_bittree_loop bits ds a x r : 0 <= a -> 0 <= x ->
  pending m b0 e (tree a x bits ++ ds) r ->
  wp (rc_bittree_loop m (length bits) a x)
    (fun v r' => v = bits_value x bits /\ pending m b0 e ds r') r.
Proof.
  revert x r. induction bits as [|b bits IH]; intros x r Ha Hx Hpd; cbn [rc_bittree_loop length].
  { wp_prim. split; [done|exact Hpd]. }
  pose proof (pd_decisions _ _ _ _ _ Hpd) as Hds. cbn [tree app] in Hds, Hpd.
  apply Forall_cons_1 in Hds as [Hd _]. cbn [decision_ok] in Hd. apply is_prob_spec in Hd.
  rewrite u16_small by lia. wp_prim. eapply wp_mono; [apply (wp_rc_bit _ _ _ _ Hpd)|].
  intros b' r1 [-> H1]. rewrite u16_small by (destruct b; cbn; lia).
  apply IH; [done|destruct b; cbn; lia|exact H1].
Qed.

Lemma wp_rc_bittree bits ds a r : 0 <= a -> (0 < length bits < 16)%nat ->
  pending m b0 e (tree a 1 bits ++ ds) r ->
  wp (rc_bittree m a (Z.of_nat (length bits)))
    (fun out r' => out = (bits_value 0 bits, true) /\ pending m b0 e ds r') r.
Proof.
  intros Ha Hn Hpd. unfold rc_bittree, loop_count.
  rewrite (proj2 (Z.eqb_neq (Z.of_nat (length bits)) 0)), Nat2Z.id by lia. wp_prim.
  eapply wp_mono; [apply (wp_rc_bittree_loop _ ds a 1 r Ha ltac:(lia) Hpd)|].
  intros eax r1 [-> H1]. wp_prim. split; [|exact H1]. rewrite (Z.mod_small _ 16) by lia.
  rewrite bits_value_acc. apply clear_top, bits_value_range.
Qed.

(** A number coded in a tree, least significant bit first. *)
Lemma wp_rc_bittree_reverse n v ds a r : 0 <= a -> (0 < n < 6)%nat -> 0 <= v < 2 ^ Z.of_nat n ->
  pending m b0 e (tree a 1 (lsb n v) ++ ds) r ->
  wp (rc_bittree_reverse m a (Z.of_nat n)) (fun v' r' => v' = v /\ pending m b0 e ds r') r.
Proof.
  intros Ha Hn Hv Hpd. unfold rc_bittree_reverse. wp_prim.
  assert (Hlen : length (lsb n v) = n) by (unfold lsb; by rewrite length_rev, length_msb).
  rewrite <- Hlen at 1. eapply wp_mono; [apply (wp_rc_bittree (lsb n v) ds a r Ha ltac:(lia) Hpd)|].
  intros out r1 [-> H1]. wp_prim. split; [|exact H1]. apply reverse_lsb; [done|lia].
Qed.

(** ** Literals *)

(** One bit of a literal. *)
Lemma match_step i cl ch mb x b : (i < 8)%nat -> 0 <= x < 256 -> match_state i cl ch mb ->
  let match_bit := Z.land (rol8 cl) ch in
  let x' := 2 * x + Z_of_bool b in
  exists mb',
    (forall a bits, lit_tree a x mb (b :: bits) =
       Prob (a + 2 * (256 * u8 (ch + match_bit) + x)) b :: lit_tree a x' mb' bits) /\
    0 <= u8 (ch + match_bit) <= 2 /\
    match_state (S i) (rol8 cl) (Z.land ch (Z.lxor match_bit (Z.lxor (u8 x') 0xff))) mb'.
Proof.
  intros Hi Hx (v & Hv & -> & [[-> ->]|[-> ->]]); cbv zeta.
  - rewrite Z.land_0_r, Z.land_0_l. exists []. split; [done|]. split; [by vm_compute|].
    exists v. auto.
  - change (rol8 (Nat.iter i rol8 v)) with (Nat.iter (S i) rol8 v). rewrite rol8_bit by done.
    replace (8 - i)%nat with (S (7 - i)) by lia. cbn [msb].
    set (c := Z.testbit v (Z.of_nat (7 - i))) in *.
    exists (if Bool.eqb c b then msb (7 - i) v else []).
    assert (Hu : u8 (1 + Z_of_bool c) = 1 + Z_of_bool c) by by destruct c.
    rewrite Hu. split; [done|]. split; [destruct c; cbn; lia|].
    assert (Hch : Z.land 1 (Z.lxor (Z_of_bool c) (Z.lxor (u8 (2 * x + Z_of_bool b)) 255)) =
      Z_of_bool (Bool.eqb c b)).
    { rewrite Z.land_comm. change 1 with (Z.ones 1). rewrite Z.land_ones, Zmod_odd by lia.
      rewrite <- Z.bit0_odd, !Z.lxor_spec, !Z.bit0_odd.
      replace (Z.odd (u8 (2 * x + Z_of_bool b))) with b.
      - by destruct b, c.
      - unfold u8. rewrite <- Z.bit0_odd, Z.mod_pow2_bits_low, Z.bit0_odd, Z.odd_add, Z.odd_mul by lia. by destruct b. }
    rewrite Hch. exists v. split; [done|]. split; [done|]. replace (8 - S i)%nat with (7 - i)%nat by lia.
    destruct (Bool.eqb c b); cbn; auto.
Qed.

Lemma wp_rc_bittree_match bits i n mb ds a cl ch x r :
  0 <= a -> (length bits = 8 - i)%nat -> (i < 8)%nat -> (8 - i <= n)%nat -> 2 ^ Z.of_nat i <= x < 2 ^ Z.of_nat (S i) ->
  match_state i cl ch mb -> pending m b0 e (lit_tree a x mb bits ++ ds) r ->
  wp (iterate n (fun '(ax, cl, ch) =>
    let cl := rol8 cl in
    let match_bit := Z.land cl ch in
    let bx := u16 (256 * u8 (ch + match_bit) + ax) in
    bit <- rc_bit m (u16 (a + 2 * bx)) ;;
    let ax := u16 (2 * ax + Z_of_bool bit) in
    let ch := Z.land ch (Z.lxor match_bit (Z.lxor (u8 ax) 0xff)) in
    ret (if Z.shiftr ax 8 =? 0 then inl (ax, cl, ch) else inr (u8 ax))) (x, cl, ch))
    (fun v r' => v = bits_value x bits - 256 /\ pending m b0 e ds r') r.
Proof.
  revert i n mb cl ch x r. induction bits as [|b bits IH]; intros i n mb cl ch x r Ha Hlen Hi Hn Hx Hms Hpd;
    [cbn in Hlen; lia|].
  destruct n as [|n]; [lia|]. apply wp_iterate_S. cbv zeta.
  assert (Hx8 : 2 ^ Z.of_nat (S i) <= 256).
  { change 256 with (2 ^ Z.of_nat 8). apply Z.pow_le_mono_r; lia. }
  destruct (match_step i cl ch mb x b Hi ltac:(lia) Hms) as (mb' & Hcons & Hoff & Hms').
  rewrite Hcons in Hpd. cbn [app] in Hpd.
  pose proof (pd_decisions _ _ _ _ _ Hpd) as Hds. apply Forall_cons_1 in Hds as [Hd _].
  cbn [decision_ok] in Hd. apply is_prob_spec in Hd.
  rewrite (u16_small (256 * _ + _)), u16_small by lia. wp_prim.
  eapply wp_mono; [apply (wp_rc_bit _ _ _ _ Hpd)|]. intros b' r1 [-> H1].
  rewrite u16_small by (destruct b; cbn; lia). wp_prim.
  rewrite Z.shiftr_div_pow2 by lia. change (2 ^ 8) with 256. cbn [length] in Hlen.
  rewrite Nat2Z.inj_succ, Z.pow_succ_r in Hx, Hx8 by lia.
  destruct (decide (i = 7%nat)) as [->|Hi7].
  - destruct bits; [|cbn in Hlen; lia]. change (2 ^ Z.of_nat 7) with 128 in *.
    rewrite (proj2 (Z.eqb_neq _ 0)) by (destruct b; cbn; dlia). split; [|exact H1].
    cbn [bits_value fold_left]. unfold u8. destruct b; cbn [Z_of_bool]; dlia.
  - assert (H : 2 ^ Z.of_nat (S (S i)) <= 256).
    { change 256 with (2 ^ Z.of_nat 8). apply Z.pow_le_mono_r; lia. }
    rewrite !Nat2Z.inj_succ, !Z.pow_succ_r in H by lia.
    rewrite Z.div_small by (destruct b; cbn; lia). cbn [Z.eqb].
    apply (IH (S i)) with (mb := mb'); try done; try lia.
    rewrite !Nat2Z.inj_succ, !Z.pow_succ_r by lia. destruct b; cbn; lia.
Qed.
End decoding.
