(* ===== verification/UnlzmaSpec.v ===== *)
(** * UnlzmaSpec

    The LZMA format, as a sequence of symbols that each are coded by decisions
    of the range coder, and the decompressor of unlzma.S: it decodes every
    stream of the format. *)

From S2P Require Import Prelude.
From S2P Require Import Memory.
From S2P Require Import Cmem.
From S2P Require Import Unlzma.
From S2P Require Import RangeCoder.

(** ** Symbols *)

(** Distances are counted from zero, the last byte. *)
Inductive symbol : Type :=
  | Literal (byte : Z)
  | Match (length distance : Z)
  | ShortRep
  | LongRep (index : nat) (length : Z).

(** What the coder knows: the data so far, the last four distances, and the
    kinds of the last symbols. *)
Record history : Type := mkHistory {
  h_data : list Z;
  h_reps : list Z;
  h_state : Z
}.

Definition start : history := mkHistory [] [0; 0; 0; 0] 0.

(** The byte at a distance. *)
Definition back (data : list Z) (distance : Z) : Z :=
  nth (length data - 1 - Z.to_nat distance) data 0.

Fixpoint repeat_copy (n : nat) (distance : Z) (data : list Z) : list Z :=
  match n with
  | O => data
  | S n => repeat_copy n distance (data ++ [back data distance])
  end.

Definition after_literal (s : Z) : Z := if s <? 4 then 0 else if s <? 10 then s - 3 else s - 6.
Definition after_match (lit nonlit s : Z) : Z := if s <? 7 then lit else nonlit.

Definition step (h : history) (s : symbol) : history :=
  match s with
  | Literal byte => mkHistory (h_data h ++ [byte]) (h_reps h) (after_literal (h_state h))
  | Match len distance =>
      mkHistory (repeat_copy (Z.to_nat len) distance (h_data h)) (distance :: take 3 (h_reps h))
        (after_match 7 10 (h_state h))
  | ShortRep =>
      mkHistory (repeat_copy 1 (nth 0 (h_reps h) 0) (h_data h)) (h_reps h) (after_match 9 11 (h_state h))
  | LongRep i len =>
      let distance := nth i (h_reps h) 0 in
      mkHistory (repeat_copy (Z.to_nat len) distance (h_data h))
        (distance :: take i (h_reps h) ++ drop (S i) (h_reps h)) (after_match 8 11 (h_state h))
  end.

(** Matches lie within the data. *)
Definition inside (h : history) (distance : Z) : Prop :=
  0 <= distance < Z.of_nat (length (h_data h)).

Definition valid (h : history) (s : symbol) : Prop :=
  match s with
  | Literal byte => is_byte byte
  | Match len distance => 2 <= len <= 273 /\ inside h distance
  | ShortRep => inside h (nth 0 (h_reps h) 0)
  | LongRep i len => (i < 4)%nat /\ 2 <= len <= 273 /\ inside h (nth i (h_reps h) 0)
  end.

(** ** Coding of symbols *)

Definition last_byte (h : history) : Z := List.last (h_data h) 0.

Definition length_decisions (a len : Z) : list decision :=
  if len <? 10 then Prob (a + choice) false :: tree (a + low) 1 (msb 3 (len - 2))
  else Prob (a + choice) true ::
    if len <? 18 then Prob (a + choice2) false :: tree (a + mid) 1 (msb 3 (len - 10))
    else Prob (a + choice2) true :: tree (a + high) 1 (msb 8 (len - 18)).

(** The slot of a distance: its two highest bits and their position. *)
Definition slot (distance : Z) : Z :=
  if distance <? 4 then distance
  else 2 * Z.log2 distance + (distance / 2 ^ (Z.log2 distance - 1)) mod 2.

(** The bits of a distance below those of its slot: all with probabilities of
    their own for the small slots, and else only the lowest four. *)
Definition footer_decisions (distance : Z) : list decision :=
  if distance <? 4 then [] else
  let s := slot distance in
  let n := Z.log2 distance - 1 in
  let base := (2 + s mod 2) * 2 ^ n in
  if s <? 14
  then tree (dist_special + 2 * (base - s - 1)) 1 (lsb (Z.to_nat n) (distance - base))
  else map Direct (msb (Z.to_nat (n - 4)) ((distance - base) / 16)) ++
       tree dist_align 1 (lsb 4 (distance mod 16)).

Definition distance_decisions (len distance : Z) : list decision :=
  tree (dist_slot + 128 * Z.min (len - 2) 3) 1 (msb 6 (slot distance)) ++ footer_decisions distance.

Definition rep_decisions (i : nat) (s : Z) : list decision :=
  match i with
  | O => [Prob (is_rep0 + 2 * s) false; Prob (is_rep0_long + 2 * s) true]
  | 1%nat => [Prob (is_rep0 + 2 * s) true; Prob (is_rep1 + 2 * s) false]
  | _ => [Prob (is_rep0 + 2 * s) true; Prob (is_rep1 + 2 * s) true;
          Prob (is_rep2 + 2 * s) (negb (i =? 2)%nat)]
  end.

(** A match to any distance, also outside of the data. *)
Definition match_decisions (s len distance : Z) : list decision :=
  [Prob (is_match + 2 * s) true; Prob (is_rep + 2 * s) false] ++
  length_decisions match_len_dec len ++ distance_decisions len distance.

Definition decisions (h : history) (sym : symbol) : list decision :=
  let s := h_state h in
  match sym with
  | Literal byte =>
      Prob (is_match + 2 * s) false ::
      lit_tree (literal + 2 * (0x300 * (last_byte h / 64))) 1
        (if s <? 7 then [] else msb 8 (back (h_data h) (nth 0 (h_reps h) 0))) (msb 8 byte)
  | Match len distance => match_decisions s len distance
  | ShortRep =>
      [Prob (is_match + 2 * s) true; Prob (is_rep + 2 * s) true;
       Prob (is_rep0 + 2 * s) false; Prob (is_rep0_long + 2 * s) false]
  | LongRep i len =>
      [Prob (is_match + 2 * s) true; Prob (is_rep + 2 * s) true] ++
      rep_decisions i s ++ length_decisions rep_len_dec len
  end.

(** The decisions of a sequence of symbols, with the marker at its end. *)
Fixpoint coded (h : history) (syms : list symbol) : list decision :=
  match syms with
  | [] => match_decisions (h_state h) 2 0xffffffff
  | sym :: syms => decisions h sym ++ coded (step h sym) syms
  end.

Fixpoint all_valid (h : history) (syms : list symbol) : Prop :=
  match syms with
  | [] => True
  | sym :: syms => valid h sym /\ all_valid (step h sym) syms
  end.

Definition expand (syms : list symbol) : list Z := h_data (fold_left step syms start).

(** ** Slots *)

(** What a slot says of a distance. *)
Lemma slot_spec d : 4 <= d < 2 ^ 32 ->
  let n := Z.log2 d - 1 in
  exists c, (c = 0 \/ c = 1) /\ slot d = 2 * (n + 1) + c /\ slot d mod 2 = c /\
    1 <= n <= 30 /\ 0 <= d - (2 + c) * 2 ^ n < 2 ^ n.
Proof.
  intros Hd. cbv zeta. unfold slot. rewrite (proj2 (Z.ltb_ge d 4)) by lia.
  pose proof (Z.log2_spec d ltac:(lia)) as Hl.
  assert (HL : 2 <= Z.log2 d < 32).
  { split; [apply (Z.log2_le_pow2 d 2); lia|apply Z.log2_lt_pow2; lia]. }
  set (n := Z.log2 d - 1) in *. assert (En : Z.log2 d = n + 1) by (subst n; lia). rewrite En in *. clearbody n.
  replace (Z.succ (n + 1)) with (2 + n) in Hl by lia. rewrite Z.add_1_r, Z.pow_succ_r, Z.pow_add_r in Hl by lia.
  change (2 ^ 2) with 4 in Hl. assert (0 < 2 ^ n) by lia. pose proof (Z.div_mod d (2 ^ n) ltac:(lia)) as Hdm.
  pose proof (Z.mod_pos_bound d (2 ^ n) ltac:(lia)) as Hmod.
  assert (d / 2 ^ n = 2 \/ d / 2 ^ n = 3) as Hq by (set (q := d / 2 ^ n) in *; clearbody q; nia).
  destruct Hq as [Hq|Hq]; rewrite Hq in *; [exists 0|exists 1]; change (2 mod 2) with 0; change (3 mod 2) with 1;
    (split; [auto|]); (split; [lia|]); (split; [dlia|]); lia.
Qed.

Lemma slot_range d : 0 <= d < 2 ^ 32 -> 0 <= slot d < 64.
Proof.
  intros Hd. destruct (Z.ltb_spec d 4) as [Hlt|Hge].
  - unfold slot. rewrite (proj2 (Z.ltb_lt d 4) Hlt). lia.
  - destruct (slot_spec d ltac:(lia)) as (c & Hc & -> & _ & Hnn & _). lia.
Qed.

(** The offset of a slot in its probabilities. *)
Lemma slot_context k c : c = 0 \/ c = 1 -> 1 <= k <= 30 -> k < 6 ->
  2 * (k + 1) + c <= (2 + c) * 2 ^ k /\ (2 + c) * 2 ^ k <= 96.
Proof.
  intros Hc H1 Hk. assert (k = 1 \/ k = 2 \/ k = 3 \/ k = 4 \/ k = 5) as Hks by lia.
  destruct Hc as [->| ->]; repeat destruct Hks as [->|Hks]; subst; by vm_compute.
Qed.

(** ** Copies *)

Lemma length_repeat_copy n d data : length (repeat_copy n d data) = (length data + n)%nat.
Proof.
  revert data. induction n as [|n IH]; intros data; cbn; [lia|].
  rewrite IH, length_app. cbn. lia.
Qed.

Lemma back_load data d o m : load (length data) o m = data -> 0 <= d < Z.of_nat (length data) ->
  back data d = m (o + Z.of_nat (length data) - 1 - d).
Proof.
  intros Hl Hd. unfold back. rewrite <- Hl at 2. rewrite nth_load by lia. f_equal. lia.
Qed.

(** A copy one byte at a time repeats the data at a distance that is shorter
    than the copy. *)
Lemma rep_movs_back n d data o m :
  load (length data) o m = data -> 0 <= d < Z.of_nat (length data) ->
  let edi := o + Z.of_nat (length data) in
  let m' := state_mem (rep n (movs 1) (m, edi, edi - 1 - d)) in
  load (length data + n) o m' = repeat_copy n d data /\
  mem_eq_except edi (Z.of_nat n) m m' /\ (byte_mem m -> byte_mem m').
Proof.
  revert data m. induction n as [|n IH]; intros data m Hl Hd; cbv zeta.
  { cbn. rewrite Nat.add_0_r. split; [done|]. split; [by intros x _|done]. }
  set (edi := o + Z.of_nat (length data)). cbn [rep movs]. change (Z.of_nat 1) with 1.
  set (m1 := store edi (load 1 (edi - 1 - d) m) m).
  assert (Hb : load 1 (edi - 1 - d) m = [back data d]).
  { rewrite (back_load data d o m Hl Hd). unfold load, edi. cbn. do 2 f_equal. lia. }
  assert (Hl1 : load (length (data ++ [back data d])) o m1 = data ++ [back data d]).
  { rewrite length_app, Nat.add_comm. cbn [length plus]. rewrite load_snoc. unfold m1. rewrite Hb. f_equal.
    - rewrite load_store_disjoint; [done|]. unfold edi, disjoint. cbn. lia.
    - fold edi. f_equal. unfold store. cbn [length].
      rewrite (proj2 (in_range_spec edi (Z.of_nat 1) edi)) by lia. by rewrite Z.sub_diag. }
  destruct (IH (data ++ [back data d]) m1 Hl1) as (H1 & H2 & H3); [rewrite length_app; cbn; lia|].
  rewrite length_app in *. cbn [length] in *.
  replace (o + Z.of_nat (length data + 1)) with (edi + 1) in * by (unfold edi; lia).
  replace (edi + 1 - 1 - d) with (edi - 1 - d + 1) in * by lia.
  replace (length data + S n)%nat with (length data + 1 + n)%nat by lia.
  split; [exact H1|]. split.
  - intros x Hx. apply in_range_false in Hx. rewrite H2 by (apply in_range_false; lia).
    unfold m1, store. rewrite (proj2 (in_range_false edi _ x)); [done|]. rewrite length_load. lia.
  - intros Hm. apply H3, byte_mem_store; [|done]. by apply load_bytes.
Qed.

(** ** The decoder *)

Section decoder.
(** The input lies between [b] and [e], the output is of [size] bytes at [o]. *)
Context (b e o size : Z) (Hb : 0 <= b) (Ho : 0 <= o) (Hsize : o + size < 2 ^ 32).
Context (Hapart : e <= o \/ o + size <= b).

(** The decoder [s] has decoded [h] and is about to decode [ds], starting from
    memory [m0]. *)
Record decoding (m0 : mem) (h : history) (ds : list decision) (s : lzma_dec) : Prop := {
  dc_bytes : byte_mem (l_mem s);
  dc_pending : pending (l_mem s) b e ds (l_rc s);
  dc_start : out_start s = o;
  dc_edi : l_edi s = o + Z.of_nat (length (h_data h));
  dc_size : Z.of_nat (length (h_data h)) <= size;
  dc_data : load (length (h_data h)) o (l_mem s) = h_data h;
  dc_reps : reps s = h_reps h;
  dc_four : length (h_reps h) = 4%nat;
  dc_state : 0 <= h_state h < 12;
  dc_rep0 : 7 <= h_state h -> inside h (nth 0 (h_reps h) 0);
  dc_frame : mem_eq_except o size m0 (l_mem s)
}.

Lemma pending_mem ds r m m' : (forall x, b <= x < e -> m' x = m x) ->
  pending m b e ds r -> pending m' b e ds r.
Proof.
  intros Hx [H1 H2 H3 H4 H5 H6 H7]. constructor; try done.
  destruct (interval (rc_probs r) (rc_range r) ds) as [[lo w] k]. destruct H7 as [H7 H8]. split; [done|].
  rewrite (load_ext k (rc_esi r) m' m); [done|]. intros x Hin. apply Hx. lia.
Qed.

Context (m0 : mem).

(** Reading from the range decoder leaves the rest alone. *)
Lemma wp_with_rc {A} (p : mem -> rprog A) (P : A -> Prop) h ds ds' s :
  decoding m0 h ds s ->
  wp (p (l_mem s)) (fun a r => P a /\ pending (l_mem s) b e ds' r) (l_rc s) ->
  wp (with_rc p) (fun a s' => P a /\ decoding m0 h ds' s' /\ len s' = len s) s.
Proof.
  intros [? ? ? ? ? ? ? ? ? ? ?] Hp. unfold with_rc. apply wp_zoom. eapply wp_mono; [exact Hp|].
  intros a r [Ha Hr]. split; [done|]. split; [|done]. by constructor.
Qed.

Lemma wp_bit a bit h ds s : decoding m0 h (Prob a bit :: ds) s ->
  wp (with_rc (fun m => rc_bit m a))
    (fun bit' s' => bit' = bit /\ decoding m0 h ds s' /\ len s' = len s) s.
Proof.
  intros Hd. apply (wp_with_rc _ (fun bit' => bit' = bit) _ _ _ _ Hd).
  destruct Hd. by apply wp_rc_bit.
Qed.

Lemma wp_tree n v a h ds s : 0 <= a -> (0 < n < 16)%nat -> 0 <= v < 2 ^ Z.of_nat n ->
  decoding m0 h (tree a 1 (msb n v) ++ ds) s ->
  wp (with_rc (fun m => rc_bittree m a (Z.of_nat n)))
    (fun out s' => out = (v, true) /\ decoding m0 h ds s' /\ len s' = len s) s.
Proof.
  intros Ha Hn Hv Hd. apply (wp_with_rc _ (fun out => out = (v, true)) _ _ _ _ Hd). destruct Hd.
  rewrite <- (length_msb n v) at 1.
  eapply wp_mono; [apply (wp_rc_bittree _ b e dc_bytes0 Hb (msb n v) ds a)|];
    [done|by rewrite length_msb|done|].
  intros out r [-> Hr]. split; [|exact Hr]. rewrite bits_value_msb, Z.mod_small by done. done.
Qed.

Lemma decoding_len h ds s v : decoding m0 h ds s -> decoding m0 h ds (set_len v s).
Proof. intros [? ? ? ? ? ? ? ? ? ? ?]. by constructor. Qed.

Lemma wp_lzma_len a n h ds s : 0 <= a -> 2 <= n <= 273 ->
  decoding m0 h (length_decisions a n ++ ds) s ->
  wp (lzma_len a) (fun _ s' => len s' = n /\ decoding m0 h ds s') s.
Proof.
  intros Ha Hn Hd. unfold lzma_len, length_decisions in *. unfold high, mid, low, choice2, choice in *.
  assert (Hend : forall base k v s, (0 < k < 16)%nat -> 0 <= v < 2 ^ Z.of_nat k -> base + v = n ->
    forall a, 0 <= a -> decoding m0 h (tree a 1 (msb k v) ++ ds) s ->
    wp (let! (eax, _) := with_rc (fun m => rc_bittree m a (Z.of_nat k)) in
        modify (set_len (u16 (base + eax)))) (fun _ s' => len s' = n /\ decoding m0 h ds s') s).
  { intros base k v s1 Hk Hv Hbase a1 Ha1 Hd1. wp_prim.
    eapply wp_mono; [apply (wp_tree k v a1 h ds s1 Ha1 Hk Hv Hd1)|]. intros out s2 (-> & H2 & _).
    wp_prim. rewrite Hbase, u16_small by lia. split; [done|]. by apply decoding_len. }
  destruct (Z.ltb_spec n 10); [|destruct (Z.ltb_spec n 18)]; cbn [app] in Hd;
    (wp_prim; eapply wp_mono; [apply (wp_bit _ _ _ _ _ Hd)|]; intros bit s1 (-> & H1 & _); cbn [negb]).
  - refine (Hend 2 3%nat (n - 2) s1 ltac:(lia) ltac:(change (2 ^ Z.of_nat 3) with (2 ^ 3); lia) ltac:(lia) _ _ H1); lia.
  - wp_prim. eapply wp_mono; [apply (wp_bit _ _ _ _ _ H1)|]. intros bit s2 (-> & H2 & _). cbn [negb].
    refine (Hend 10 3%nat (n - 10) s2 ltac:(lia) ltac:(change (2 ^ Z.of_nat 3) with (2 ^ 3); lia) ltac:(lia) _ _ H2); lia.
  - wp_prim. eapply wp_mono; [apply (wp_bit _ _ _ _ _ H1)|]. intros bit s2 (-> & H2 & _). cbn [negb].
    refine (Hend 18 8%nat (n - 18) s2 ltac:(lia) ltac:(change (2 ^ Z.of_nat 8) with (2 ^ 8); lia) ltac:(lia) _ _ H2); lia.
Qed.

(** Copying a match. *)
Lemma inside_repeat n d x h l state : inside h x ->
  inside (mkHistory (repeat_copy n d (h_data h)) l state) x.
Proof. unfold inside. cbn [h_data]. rewrite length_repeat_copy. lia. Qed.

(** A match that starts after [s0], whose distances it replaces by [l]. *)
Lemma wp_copy_match d h ds s0 l state n : inside h d -> 0 <= n -> len s0 = n ->
  Z.of_nat (length (h_data h)) + n <= size -> length l = 4%nat -> nth 0 l 0 = d -> 0 <= state < 12 ->
  decoding m0 h ds s0 ->
  wp (copy_match d) (fun cf s' => cf = false /\
    decoding m0 (mkHistory (repeat_copy (Z.to_nat n) d (h_data h)) l state) ds s') (set_reps l s0).
Proof.
  intros Hd H0 Hlen Hn Hl Hl0 Hstate [Hm Hp Hs He Hsz Hdata Hr H4 Hst Hr0 Hf].
  pose proof (inside_repeat (Z.to_nat n) d d h l state Hd) as Hin. unfold inside in Hd.
  set (s := set_reps l s0). change (l_mem s0) with (l_mem s) in *. change (l_rc s0) with (l_rc s) in *.
  change (out_start s0) with (out_start s) in *. change (l_edi s0) with (l_edi s) in *.
  change (len s0) with (len s) in *. assert (Hrs : reps s = l) by done. clearbody s. subst n.
  unfold copy_match. repeat wp_prim. rewrite Hs, He, not32_value by lia.
  rewrite (u32_small (o + _ - o - 1)) by lia.
  destruct (Z.ltb_spec (o + Z.of_nat (length (h_data h)) - o - 1) d) as [|_]; [lia|]. repeat wp_prim. split; [done|].
  set (n := Z.to_nat (len s)). replace (len s) with (Z.of_nat n) in * by lia. rewrite Nat2Z.id in *.
  replace (u32 (o + Z.of_nat (length (h_data h)) + (2 ^ 32 - 1 - d)))
    with (o + Z.of_nat (length (h_data h)) - 1 - d) by (unfold u32; dlia).
  rewrite u32_small, ?He by lia.
  destruct (rep_movs_back n d (h_data h) o (l_mem s) Hdata Hd) as (H1 & H2 & H3).
  cbn [l_mem l_rc out_start l_edi reps set_l_edi set_l_mem].
  set (m' := state_mem _) in *. clearbody m'.
  assert (Hframe : mem_eq_except o size m0 m').
  { eapply mem_eq_except_trans; [exact Hf|]. eapply mem_eq_except_mono; [exact H2|lia|lia]. }
  constructor; cbn [l_mem l_rc out_start l_edi reps set_l_edi set_l_mem h_data h_reps h_state];
    rewrite ?length_repeat_copy; try done; try lia; [auto| |intros _; rewrite Hl0; exact Hin].
  apply (pending_mem _ _ (l_mem s)); [|exact Hp]. intros x Hx. apply H2, in_range_false. lia.
Qed.

(** ** Literals *)

Lemma last_nth (l : list Z) : List.last l 0 = nth (length l - 1) l 0.
Proof.
  destruct l as [|x l] using rev_ind; [done|]. rewrite last_last, length_app, app_nth2; cbn; [|lia].
  replace (length l + 1 - 1 - length l)%nat with 0%nat by lia. done.
Qed.

(** Storing the byte that was decoded. *)
Lemma decoding_literal byte h ds s : is_byte byte -> Z.of_nat (length (h_data h)) < size ->
  decoding m0 h ds s ->
  decoding m0 (step h (Literal byte)) ds
    (set_l_edi (u32 (l_edi s + 1)) (set_l_mem (store (l_edi s) [byte] (l_mem s)) s)).
Proof.
  intros Hbyte Hlt [Hm Hp Hs He Hsz Hdata Hr H4 Hst Hr0 Hf]. rewrite He.
  assert (Hout : forall x, x <> o + Z.of_nat (length (h_data h)) ->
    store (o + Z.of_nat (length (h_data h))) [byte] (l_mem s) x = l_mem s x).
  { intros x Hx. unfold store. rewrite (proj2 (in_range_false _ _ x)); [done|]. cbn. lia. }
  constructor; cbn [l_mem l_rc out_start l_edi reps set_l_edi set_l_mem step h_data h_reps h_state];
    rewrite ?length_app; cbn [length]; try done; try lia.
  - apply byte_mem_store; [by constructor|done].
  - apply (pending_mem _ _ (l_mem s)); [|exact Hp]. intros x Hx. apply Hout. lia.
  - rewrite u32_small; lia.
  - rewrite Nat.add_1_r, load_snoc. f_equal.
    + rewrite load_store_disjoint; [done|]. unfold disjoint. cbn. lia.
    + f_equal. unfold store. rewrite (proj2 (in_range_spec _ _ _)) by (cbn; lia). by rewrite Z.sub_diag.
  - unfold after_literal. destruct (Z.ltb_spec (h_state h) 4), (Z.ltb_spec (h_state h) 10); lia.
  - unfold after_literal. destruct (Z.ltb_spec (h_state h) 4), (Z.ltb_spec (h_state h) 10); lia.
  - intros x Hx. apply in_range_false in Hx. rewrite Hout by lia. apply Hf, in_range_false. lia.
Qed.

Lemma wp_lzma_literal byte h ds s : is_byte byte -> Z.of_nat (length (h_data h)) < size ->
  decoding m0 h (lit_tree (literal + 2 * (0x300 * (last_byte h / 64))) 1
    (if h_state h <? 7 then [] else msb 8 (back (h_data h) (nth 0 (h_reps h) 0))) (msb 8 byte) ++ ds) s ->
  wp (lzma_literal (h_state h)) (fun out s' =>
    out = (h_state (step h (Literal byte)), false) /\ decoding m0 (step h (Literal byte)) ds s') s.
Proof.
  intros Hbyte Hlt Hd. pose proof Hd as [Hm Hp Hs He Hsz Hdata Hr H4 Hst Hr0 Hf].
  unfold lzma_literal. repeat wp_prim. rewrite Hs, He, Hr.
  assert (Hlast : (if o =? o + Z.of_nat (length (h_data h)) then 0
                   else l_mem s (o + Z.of_nat (length (h_data h)) - 1)) = last_byte h /\ is_byte (last_byte h)).
  { unfold last_byte. destruct (decide (h_data h = [])) as [E|E].
    - rewrite E. cbn [length]. rewrite Z.add_0_r, Z.eqb_refl. done.
    - assert (0 < length (h_data h))%nat by (destruct (h_data h); [done|cbn; lia]).
      rewrite (proj2 (Z.eqb_neq o _)) by lia. rewrite last_nth.
      pose proof (back_load (h_data h) 0 o (l_mem s) Hdata ltac:(lia)) as Hbk. unfold back in Hbk.
      rewrite Nat.sub_0_r in Hbk. rewrite Hbk, Z.sub_0_r. split; [done|apply Hm]. }
  destruct Hlast as [-> Hlb]. unfold is_byte in Hlb. rewrite Z.shiftr_div_pow2 by (unfold LZMA_LC; lia).
  change (2 ^ (8 - LZMA_LC)) with 64. rewrite Z.shiftl_mul_pow2 by lia. unfold u8.
  rewrite (Z.mod_small (last_byte h / 64 * 2 ^ 1)) by dlia.
  replace (literal + 3 * (256 * (last_byte h / 64 * 2 ^ 1))) with (literal + 2 * (0x300 * (last_byte h / 64))) by lia.
  set (a := literal + _) in *. assert (Ha : literal <= a < literal + 0x1800) by (unfold a; dlia).
  change literal with 2042 in Ha. clearbody a. rewrite u16_small by lia.
  set (mb := if h_state h <? 7 then [] else _) in *.
  set (cc := if h_state h <=? STATE_LIT_MAX then _ else _).
  assert (Hms : match_state 0 cc.1 cc.2 mb).
  { subst cc mb. unfold STATE_LIT_MAX. destruct (Z.leb_spec (h_state h) 6), (Z.ltb_spec (h_state h) 7); try lia.
    - exists 0. auto with lia.
    - pose proof (Hr0 ltac:(lia)) as Hin. unfold inside in Hin. cbn [fst snd].
      rewrite (back_load _ _ _ _ Hdata Hin), not32_value by lia.
      replace (u32 (o + Z.of_nat (length (h_data h)) + (2 ^ 32 - 1 - nth 0 (h_reps h) 0)))
        with (o + Z.of_nat (length (h_data h)) - 1 - nth 0 (h_reps h) 0) by (unfold u32; dlia).
      eexists. split; [|by auto]. apply Hm. }
  destruct cc as [cl ch]. cbn [fst snd] in Hms. wp_prim.
  eapply wp_mono.
  { apply (wp_with_rc _ (fun v => v = byte) _ _ ds _ Hd).
    eapply wp_mono; [apply (wp_rc_bittree_match _ b e Hm Hb (msb 8 byte) 0 9 mb ds a cl ch 1); try done; try lia|].
    intros v r [-> Hpd]. split; [|exact Hpd]. rewrite bits_value_msb. unfold is_byte in Hbyte.
    change (2 ^ Z.of_nat 8) with 256. rewrite Z.mod_small by lia. lia. }
  intros v s1 (-> & Hd1 & _). repeat wp_prim. split; [|by apply decoding_literal].
  f_equal. cbn [step h_state]. unfold after_literal, u8.
  assert (0 <= h_state h < 12) as Hst2 by done. clear -Hst2.
  apply Z.eqb_eq, (check_below (fun s => let dl := (s - 3) mod 2 ^ 8 in
    let dl := if Z.testbit dl 7 then 0 else dl in
    (if dl <? 7 then dl else dl - 3) =? (if s <? 4 then 0 else if s <? 10 then s - 3 else s - 6)) 12);
    [by vm_compute|lia].
Qed.

(** ** Matches *)

Lemma wp_direct bits cx h ds s : cx = Z.of_nat (length bits) -> 0 < cx <= 32 ->
  decoding m0 h (map Direct bits ++ ds) s ->
  wp (with_rc (fun m => rc_direct m cx))
    (fun v s' => v = bits_value 0 bits /\ decoding m0 h ds s' /\ len s' = len s) s.
Proof.
  intros -> Hn Hd. apply (wp_with_rc _ (fun v => v = bits_value 0 bits) _ _ _ _ Hd). destruct Hd.
  unfold rc_direct, loop_count. rewrite (proj2 (Z.eqb_neq _ 0)), Nat2Z.id by lia.
  apply (wp_rc_direct_loop _ b e dc_bytes0 Hb); [lia| |done].
  rewrite Z.mul_1_l. apply Z.pow_le_mono_r; lia.
Qed.

Lemma wp_reverse n cx v a h ds s : cx = Z.of_nat n -> 0 <= a -> 0 < cx < 6 -> 0 <= v < 2 ^ cx ->
  decoding m0 h (tree a 1 (lsb n v) ++ ds) s ->
  wp (with_rc (fun m => rc_bittree_reverse m a cx))
    (fun v' s' => v' = v /\ decoding m0 h ds s' /\ len s' = len s) s.
Proof.
  intros -> Ha Hn Hv Hd. apply (wp_with_rc _ (fun v' => v' = v) _ _ _ _ Hd). destruct Hd.
  apply (wp_rc_bittree_reverse _ b e); try done; lia.
Qed.

Lemma wp_lzma_slot_distance d h ds s : 0 <= d < 2 ^ 32 ->
  decoding m0 h (footer_decisions d ++ ds) s ->
  wp (lzma_slot_distance (slot d)) (fun d' s' => d' = d /\ decoding m0 h ds s' /\ len s' = len s) s.
Proof.
  intros Hd H1. unfold lzma_slot_distance, footer_decisions in *.
  destruct (Z.ltb_spec d 4) as [Hlt|Hge].
  { unfold slot. rewrite (proj2 (Z.ltb_lt d 4) Hlt). rewrite (proj2 (Z.ltb_lt d 4) Hlt). wp_prim. auto. }
  destruct (slot_spec d ltac:(lia)) as (c & Hc & Hs & Hsc & Hnn & Hrest). rewrite Hsc in H1.
  set (k := Z.log2 d - 1) in *. clearbody k. rewrite (proj2 (Z.ltb_ge (slot d) 4)) by lia. cbv zeta in *.
  assert (Hedi : Z.lor (Z.land (slot d) 1) 2 = 2 + c).
  { rewrite (land_ones_mod _ 1) by lia. change (2 ^ 1) with 2. rewrite Hsc. by destruct Hc as [->| ->]. }
  assert (Hcl : Z.shiftr (slot d) 1 - 1 = k).
  { rewrite Z.shiftr_div_pow2, Hs by lia. change (2 ^ 1) with 2. destruct Hc as [->| ->]; dlia. }
  rewrite Hedi, Hcl. replace (slot d <? 14) with (k <? 6) in H1
    by (destruct (Z.ltb_spec k 6), (Z.ltb_spec (slot d) 14); lia).
  rewrite (Z.shiftl_mul_pow2 (2 + c) k) by lia. set (base := (2 + c) * 2 ^ k) in *.
  assert (Ebase : base = (2 + c) * 2 ^ k) by done. clearbody base.
  destruct (Z.ltb_spec k 6) as [Hk|Hk]; repeat wp_prim.
  - destruct (slot_context k c Hc Hnn Hk) as [Hb1 Hb2]. rewrite <- Hs, <- Ebase in *.
    change dist_special with 686 in *. rewrite (u16_small base), (u16_small (base - _)), u16_small by lia.
    replace (686 - 2 + (base - slot d + (base - slot d))) with (686 + 2 * (base - slot d - 1)) by lia.
    eapply wp_mono; [apply (wp_reverse (Z.to_nat k) k (d - base) _ h ds s); [lia|lia|lia|done|exact H1]|].
    intros v s2 (-> & H2 & Hlen). wp_prim. split; [|done].
    rewrite (u32_small (Z.shiftl _ _)) by (rewrite Z.shiftl_mul_pow2 by lia; lia).
    rewrite Z.lor_comm, lor_shiftl_add by lia. lia.
  - rewrite <- app_assoc in H1. set (rest := d - base) in *.
    assert (Hpow : 2 ^ k = 16 * 2 ^ (k - 4)) by (rewrite <- (Z.pow_add_r 2 4) by lia; f_equal; lia).
    assert (2 ^ k <= 2 ^ 30) by (apply Z.pow_le_mono_r; lia).
    assert (Hq : 0 <= rest / 16 < 2 ^ (k - 4)) by dlia.
    eapply wp_mono; [eapply (wp_direct _ _ h _ s); [|lia|exact H1]; rewrite length_msb; lia|].
    intros v s2 (-> & H2 & Hlen). repeat wp_prim. rewrite bits_value_msb, Z2Nat.id, (Z.mod_small (rest / 16)) by lia.
    rewrite (Z.shiftl_mul_pow2 (2 + c)), (u32_small ((2 + c) * _)) by lia.
    rewrite <- (Z.shiftl_mul_pow2 (2 + c)), Z.lor_comm, Z.mul_0_l, Z.add_0_l, lor_shiftl_add by lia.
    assert (Hmod : 0 <= d mod 16 < 2 ^ 4) by dlia.
    eapply wp_mono; [apply (wp_reverse 4 4 (d mod 16) _ h ds s2); [done|by vm_compute|lia|done|exact H2]|].
    intros v s3 (-> & H3 & Hlen3). wp_prim. split; [|split; [done|congruence]].
    set (t := (2 + c) * 2 ^ (k - 4)) in *. assert (Et : d = rest + 16 * t) by (subst t rest; lia).
    clearbody t rest. clear -Et Hd Hmod Hq.
    rewrite (u32_small (Z.shiftl _ _)) by (rewrite Z.shiftl_mul_pow2 by lia; dlia).
    rewrite Z.lor_comm, lor_shiftl_add by lia. dlia.
Qed.


(** A match, up to the copy. *)
Lemma wp_lzma_match n d h ds s Q : 2 <= n <= 273 -> 0 <= d < 2 ^ 32 ->
  decoding m0 h ((length_decisions match_len_dec n ++ distance_decisions n d) ++ ds) s ->
  (forall s', decoding m0 h ds s' -> len s' = n ->
     wp (match_ d) (fun cf => Q (after_match 7 10 (h_state h), cf)) s') ->
  wp (lzma_match (h_state h)) Q s.
Proof.
  intros Hn Hd H0 HQ. unfold lzma_match. rewrite <- app_assoc in H0. wp_prim.
  eapply wp_mono; [apply (wp_lzma_len match_len_dec n _ _ _ ltac:(by vm_compute) Hn H0)|].
  intros _ s1 [Hlen1 H1]. unfold distance_decisions in H1. rewrite <- app_assoc in H1.
  repeat wp_prim. rewrite Hlen1, (u16_small (n - 2)) by lia.
  replace (if n - 2 <? 4 then n - 2 else 3) with (Z.min (n - 2) 3)
    by (destruct (Z.ltb_spec (n - 2) 4); lia).
  rewrite Z.shiftl_mul_pow2 by lia. change (2 ^ 7) with 128. rewrite Z.mul_comm, Z.add_comm.
  set (a := dist_slot + _) in *. assert (Ha : 174 <= a <= 558) by (unfold a; change dist_slot with 174; lia).
  clearbody a. rewrite u16_small by lia.
  assert (Hslot : 0 <= slot d < 2 ^ Z.of_nat 6) by (apply slot_range; lia).
  eapply wp_mono; [apply (wp_tree 6 (slot d) a h _ s1 ltac:(lia) ltac:(lia) Hslot H1)|].
  intros out s2 (-> & H2 & Hlen2). wp_prim.
  eapply wp_mono; [apply (wp_lzma_slot_distance d h ds s2 Hd H2)|]. intros d' s3 (-> & H3 & Hlen3).
  wp_prim. eapply wp_mono; [apply (HQ s3 H3); congruence|]. intros cf s4 H4. wp_prim.
  unfold after_match, STATE_LIT_MAX, STATE_LIT_MATCH, STATE_NONLIT_MATCH in *.
  destruct (Z.leb_spec (h_state h) 6), (Z.ltb_spec (h_state h) 7); try lia; exact H4.
Qed.

Lemma four_reps (l : list Z) : length l = 4%nat -> exists a b c d, l = [a; b; c; d].
Proof. intros H. destruct l as [|a [|b1 [|c [|d [|]]]]]; try done. eauto. Qed.

Lemma after_match_range lit nonlit s : 0 <= lit < 12 -> 0 <= nonlit < 12 -> 0 <= after_match lit nonlit s < 12.
Proof. unfold after_match. destruct (s <? 7); lia. Qed.

Lemma wp_match n d h ds s : inside h d -> 0 <= n -> len s = n ->
  Z.of_nat (length (h_data h)) + n <= size -> decoding m0 h ds s ->
  wp (match_ d) (fun cf s' => cf = false /\ decoding m0 (step h (Match n d)) ds s') s.
Proof.
  intros Hin H0 Hlen Hn Hd. unfold match_. repeat wp_prim.
  destruct (four_reps _ (dc_four _ _ _ _ Hd)) as (r0 & r1 & r2 & r3 & Er).
  rewrite (dc_reps _ _ _ _ Hd), Er. cbn [step]. rewrite Er. cbn [take shift_reps nth].
  apply wp_copy_match; try done. by apply after_match_range.
Qed.

(** The marker at the end. *)
Lemma wp_match_end h ds s : h_data h <> [] -> decoding m0 h ds s ->
  wp (match_ 0xffffffff) (fun cf s' => cf = true /\
    exists h', h_data h' = h_data h /\ decoding m0 h' ds s') s.
Proof.
  intros Hne [Hm Hp Hs He Hsz Hdata Hr H4 Hst Hr0 Hf].
  assert (0 < length (h_data h))%nat by (destruct (h_data h); [done|cbn; lia]).
  unfold match_, copy_match. repeat wp_prim.
  cbn [l_edi out_start set_reps]. rewrite Hs, He, (u32_small (o + _ - o - 1)) by lia.
  rewrite (proj2 (Z.ltb_lt (o + Z.of_nat (length (h_data h)) - o - 1) 0xffffffff)) by lia.
  wp_prim. split; [done|]. rewrite Hr. destruct (four_reps _ H4) as (r0 & r1 & r2 & r3 & Er). rewrite Er.
  exists (mkHistory (h_data h) [0xffffffff; r0; r1; r2] 0). split; [done|].
  constructor; cbn; try done.
Qed.

Lemma set_reps_same s : set_reps (reps s) s = s.
Proof. by destruct s. Qed.

Lemma wp_match_rep i n h ds s : (i < 4)%nat -> inside h (nth i (h_reps h) 0) -> 0 <= n -> len s = n ->
  Z.of_nat (length (h_data h)) + n <= size -> decoding m0 h ds s ->
  forall state, 0 <= state < 12 -> let d := nth i (h_reps h) 0 in
  wp (match_rep i) (fun cf s' => cf = false /\
    decoding m0 (mkHistory (repeat_copy (Z.to_nat n) d (h_data h))
      (d :: take i (h_reps h) ++ drop (S i) (h_reps h)) state) ds s') s.
Proof.
  intros Hi Hin H0 Hlen Hn Hd state Hstate d. unfold match_rep. repeat wp_prim.
  destruct (four_reps _ (dc_four _ _ _ _ Hd)) as (r0 & r1 & r2 & r3 & Er).
  rewrite (dc_reps _ _ _ _ Hd). fold d.
  destruct i as [|i]; cbn [Nat.eqb negb]; repeat wp_prim.
  - rewrite <- (set_reps_same s), (dc_reps _ _ _ _ Hd).
    replace (d :: take 0 (h_reps h) ++ drop 1 (h_reps h)) with (h_reps h) by (unfold d; by rewrite Er).
    apply wp_copy_match; try done. by rewrite Er.
  - match goal with |- context [set_reps ?l s] =>
      replace l with (d :: take (S i) (h_reps h) ++ drop (S (S i)) (h_reps h)) end.
    + apply wp_copy_match; try done. cbn. rewrite Er. do 3 (destruct i as [|i]; [done|]). lia.
    + unfold d. rewrite (dc_reps _ _ _ _ Hd), Er. do 3 (destruct i as [|i]; [done|]). lia.
Qed.

(** ** Symbols *)

Lemma wp_lzma_short_rep h ds s : valid h ShortRep -> Z.of_nat (length (h_data h)) < size ->
  decoding m0 h (Prob (is_rep0 + 2 * h_state h) false :: Prob (is_rep0_long + 2 * h_state h) false :: ds) s ->
  wp (lzma_rep_match (h_state h)) (fun out s' =>
    out = (h_state (step h ShortRep), false) /\ decoding m0 (step h ShortRep) ds s') s.
Proof.
  intros Hv Hlt H0. unfold lzma_rep_match. wp_prim.
  eapply wp_mono; [apply (wp_bit _ _ _ _ _ H0)|]. intros b1 s1 (-> & H1 & _). cbn [negb]. repeat wp_prim.
  eapply wp_mono; [apply (wp_bit _ _ _ _ _ H1)|]. intros b2 s2 (-> & H2 & _). cbn [negb]. repeat wp_prim.
  apply (decoding_len _ _ _ 1) in H2. pose proof (dc_four _ _ _ _ H2) as H4.
  eapply wp_mono.
  { apply (wp_match_rep 0 1 h ds (set_len 1 s2) ltac:(lia) Hv ltac:(lia) eq_refl ltac:(lia) H2
      (after_match 9 11 (h_state h)) ltac:(by apply after_match_range)). }
  intros cf s3 [-> H3]. wp_prim. split.
  - unfold after_match, STATE_LIT_MAX, STATE_LIT_SHORTREP, STATE_NONLIT_REP. cbn [step h_state]. unfold after_match.
    destruct (Z.leb_spec (h_state h) 6), (Z.ltb_spec (h_state h) 7); try lia; done.
  - destruct (four_reps _ H4) as (r0 & r1 & r2 & r3 & Er).
    replace (step h ShortRep) with (mkHistory (repeat_copy (Z.to_nat 1) (nth 0 (h_reps h) 0) (h_data h))
      (nth 0 (h_reps h) 0 :: take 0 (h_reps h) ++ drop 1 (h_reps h)) (after_match 9 11 (h_state h))); [done|].
    unfold step. f_equal. by rewrite Er.
Qed.

(** The bits that select a distance used before, and the length. *)
Lemma wp_lzma_long_rep i n h ds s : valid h (LongRep i n) -> Z.of_nat (length (h_data h)) + n <= size ->
  decoding m0 h ((rep_decisions i (h_state h) ++ length_decisions rep_len_dec n) ++ ds) s ->
  wp (lzma_rep_match (h_state h)) (fun out s' =>
    out = (h_state (step h (LongRep i n)), false) /\ decoding m0 (step h (LongRep i n)) ds s') s.
Proof.
  intros (Hi & Hn & Hin) Hle H0. unfold lzma_rep_match. wp_prim. rewrite <- app_assoc in H0.
  assert (Hend : forall s1, decoding m0 h (length_decisions rep_len_dec n ++ ds) s1 ->
    wp (lzma_len rep_len_dec ;; ret (i, STATE_LIT_LONGREP)) (fun '(cl, ch) =>
      wp (cf <- match_rep cl ;; ret (if h_state h <=? STATE_LIT_MAX then ch else STATE_NONLIT_REP, cf))
        (fun out s' => out = (h_state (step h (LongRep i n)), false) /\
          decoding m0 (step h (LongRep i n)) ds s')) s1).
  { intros s1 H1. repeat wp_prim.
    eapply wp_mono; [apply (wp_lzma_len rep_len_dec n _ _ _ ltac:(by vm_compute) Hn H1)|].
    intros _ s2 [Hlen2 H2]. repeat wp_prim.
    eapply wp_mono; [apply (wp_match_rep i n h ds s2 Hi Hin ltac:(lia) Hlen2 Hle H2
      (after_match 8 11 (h_state h)) ltac:(by apply after_match_range))|].
    intros cf s3 [-> H3]. wp_prim. split; [|exact H3].
    unfold STATE_LIT_MAX, STATE_LIT_LONGREP, STATE_NONLIT_REP. cbn [step h_state]. unfold after_match.
    destruct (Z.leb_spec (h_state h) 6), (Z.ltb_spec (h_state h) 7); try lia; done. }
  assert (H4 : i = 0%nat \/ i = 1%nat \/ i = 2%nat \/ i = 3%nat) by lia.
  destruct H4 as [->|[->|[->| ->]]]; cbn [rep_decisions app Nat.eqb negb] in H0, Hend;
    (eapply wp_mono; [apply (wp_bit _ _ _ _ _ H0)|]; intros b1 s1 (-> & H1 & _); cbn [negb];
     wp_prim; wp_prim; eapply wp_mono; [apply (wp_bit _ _ _ _ _ H1)|]; intros b2 s2 (-> & H2 & _); cbn [negb]).
  - eapply wp_mono; [apply (Hend s2 H2)|]. intros [cl ch] s3 H3. exact H3.
  - eapply wp_mono; [apply (Hend s2 H2)|]. intros [cl ch] s3 H3. exact H3.
  - wp_prim. eapply wp_mono; [apply (wp_bit _ _ _ _ _ H2)|]; intros b3 s3 (-> & H3 & _).
    eapply wp_mono; [apply (Hend s3 H3)|]. intros [cl ch] s4 H4. exact H4.
  - wp_prim. eapply wp_mono; [apply (wp_bit _ _ _ _ _ H2)|]; intros b3 s3 (-> & H3 & _).
    eapply wp_mono; [apply (Hend s3 H3)|]. intros [cl ch] s4 H4. exact H4.
Qed.
Lemma wp_lzma_decode sym h ds s : valid h sym -> Z.of_nat (length (h_data (step h sym))) <= size ->
  decoding m0 h (decisions h sym ++ ds) s ->
  wp (lzma_decode (h_state h)) (fun out s' =>
    out = (h_state (step h sym), false) /\ decoding m0 (step h sym) ds s') s.
Proof.
  intros Hv Hle H0. unfold lzma_decode. wp_prim.
  destruct sym as [byte|n d| |i n]; cbn [decisions match_decisions app] in H0;
    (eapply wp_mono; [apply (wp_bit _ _ _ _ _ H0)|]; intros b1 s1 (-> & H1 & _); cbn [negb]);
    cbn [step h_data] in Hle; rewrite ?length_app, ?length_repeat_copy in Hle; cbn [length] in Hle.
  - apply wp_lzma_literal; [done|lia|done].
  - wp_prim. eapply wp_mono; [apply (wp_bit _ _ _ _ _ H1)|]; intros b2 s2 (-> & H2 & _); cbn [negb].
    destruct Hv as [Hn Hin]. pose proof Hin as Hin'. unfold inside in Hin'.
    apply (wp_lzma_match n d h ds); [done|lia|exact H2|]. intros s3 H3 Hlen.
    eapply wp_mono; [apply (wp_match n d h ds); try done; lia|]. intros cf s4 [-> H4]. done.
  - wp_prim. eapply wp_mono; [apply (wp_bit _ _ _ _ _ H1)|]; intros b2 s2 (-> & H2 & _); cbn [negb].
    apply wp_lzma_short_rep; [done|lia|done].
  - wp_prim. eapply wp_mono; [apply (wp_bit _ _ _ _ _ H1)|]; intros b2 s2 (-> & H2 & _); cbn [negb].
    destruct Hv as (Hi & Hn & Hin). apply wp_lzma_long_rep; [done|lia|]. by rewrite <- app_assoc in *.
Qed.

Lemma wp_lzma_decode_end h s : h_data h <> [] -> decoding m0 h (match_decisions (h_state h) 2 0xffffffff) s ->
  wp (lzma_decode (h_state h)) (fun out s' => out.2 = true /\
    exists h', h_data h' = h_data h /\ decoding m0 h' [] s') s.
Proof.
  intros Hne H0. unfold lzma_decode. wp_prim. unfold match_decisions in H0. cbn [app] in H0.
  eapply wp_mono; [apply (wp_bit _ _ _ _ _ H0)|]; intros b1 s1 (-> & H1 & _). cbn [negb]. wp_prim.
  eapply wp_mono; [apply (wp_bit _ _ _ _ _ H1)|]; intros b2 s2 (-> & H2 & _). cbn [negb].
  rewrite <- (app_nil_r (length_decisions _ _ ++ _)) in H2.
  apply (wp_lzma_match 2 0xffffffff h [] s2); [lia|lia|exact H2|]. intros s3 H3 _.
  eapply wp_mono; [apply (wp_match_end h [] s3 Hne H3)|]. intros cf s4 [-> H4]. done.
Qed.

Lemma length_step h sym : valid h sym -> (length (h_data h) < length (h_data (step h sym)))%nat.
Proof.
  destruct sym; cbn; rewrite ?length_app, ?length_repeat_copy; cbn; try lia.
Qed.

Lemma length_steps h syms : all_valid h syms ->
  (length (h_data h) + length syms <= length (h_data (fold_left step syms h)))%nat.
Proof.
  revert h. induction syms as [|sym syms IH]; intros h; cbn [all_valid fold_left length]; [lia|].
  intros [Hv Hs]. specialize (IH _ Hs). pose proof (length_step h sym Hv). lia.
Qed.

(** A stream up to its end. *)
Lemma wp_lzma_stream syms fuel h s : let h1 := fold_left step syms h in
  all_valid h syms -> Z.of_nat (length (h_data h1)) <= size -> h_data h1 <> [] -> (length syms < fuel)%nat ->
  decoding m0 h (coded h syms) s ->
  wp (iterate fuel (fun edx =>
      let! (edx, cf) := lzma_decode edx in
      ret (if cf then inr tt else inl edx)) (h_state h))
    (fun _ s' => exists h', h_data h' = h_data h1 /\ decoding m0 h' [] s') s.
Proof.
  revert fuel h s. induction syms as [|sym syms IH]; intros fuel h s h1 Hv Hle Hne Hf H0;
    (destruct fuel as [|fuel]; [lia|]); apply wp_iterate_S; wp_prim; cbn [coded] in H0.
  - eapply wp_mono; [apply (wp_lzma_decode_end h s Hne H0)|].
    intros [edx cf] s1 [Hcf H1]. cbn [snd] in Hcf. subst cf. repeat wp_prim. exact H1.
  - destruct Hv as [Hv Hvs]. pose proof (length_steps _ _ Hvs) as Hlen.
    eapply wp_mono; [eapply (wp_lzma_decode sym h _ s Hv); [|exact H0]|].
    { unfold h1 in Hle. cbn [fold_left] in Hle. lia. }
    intros [edx cf] s1 [E H1]. injection E as -> ->. repeat wp_prim.
    apply IH; try done. cbn [length] in Hf. lia.
Qed.
End decoder.

(** ** The probabilities of a stream *)

Lemma even_add_double a x : Z.even a = true -> Z.even (a + 2 * x) = true.
Proof. intros Ha. rewrite Z.even_add_mul_2. exact Ha. Qed.

Lemma tree_ok bits : forall a x, Z.even a = true -> 30 <= a -> 0 <= x ->
  a + (x + 1) * 2 ^ Z.of_nat (length bits) <= 8188 -> Forall decision_ok (tree a x bits).
Proof.
  induction bits as [|c bits IH]; intros a x Ha H30 Hx Hle; cbn [tree]; constructor.
  - cbn [decision_ok length] in *. rewrite Nat2Z.inj_succ, Z.pow_succ_r in Hle by lia.
    apply is_prob_spec. split; [|by apply even_add_double]. assert (0 < 2 ^ Z.of_nat (length bits)) by lia. nia.
  - cbn [length] in Hle. rewrite Nat2Z.inj_succ, Z.pow_succ_r in Hle by lia.
    assert (0 < 2 ^ Z.of_nat (length bits)) by lia. destruct c; apply IH; cbn [Z_of_bool]; try done; nia.
Qed.

Lemma lit_tree_ok bits : forall a x mb, Z.even a = true -> 30 <= a <= 6650 -> 0 <= x ->
  (x + 1) * 2 ^ Z.of_nat (length bits) <= 512 -> Forall decision_ok (lit_tree a x mb bits).
Proof.
  induction bits as [|c bits IH]; intros a x mb Ha H30 Hx Hle; cbn [lit_tree]; [constructor|].
  cbn [length] in Hle. rewrite Nat2Z.inj_succ, Z.pow_succ_r in Hle by lia.
  assert (0 < 2 ^ Z.of_nat (length bits)) by lia. assert (x < 256) by nia.
  assert (Hnext : forall mb, Forall decision_ok (lit_tree a (2 * x + Z_of_bool c) mb bits)).
  { intros mb'. apply IH; try done; destruct c; cbn [Z_of_bool]; nia. }
  destruct mb as [|c' mb]; constructor; try apply Hnext; apply is_prob_spec;
    (split; [destruct c' || idtac; cbn [Z_of_bool]; lia|by apply even_add_double]).
Qed.

Lemma length_decisions_ok a n : a = match_len_dec \/ a = rep_len_dec -> 2 <= n <= 273 ->
  Forall decision_ok (length_decisions a n).
Proof.
  intros Ha Hn. unfold length_decisions, high, mid, low, choice2, choice.
  assert (Hp : 946 <= a <= 1494 /\ Z.even a = true).
  { destruct Ha as [->| ->]; change match_len_dec with 946; change rep_len_dec with 1494; split; try lia; done. }
  destruct Hp as [Hp He]. assert (Hev : forall k, Z.even k = true -> Z.even (a + k) = true)
    by (intros k Hk; rewrite Z.even_add, He, Hk; done).
  destruct (n <? 10), (n <? 18);
    repeat match goal with |- Forall _ (_ :: _) =>
      apply Forall_cons_2; [apply is_prob_spec; split; [lia|by apply Hev]|] end;
    apply tree_ok; rewrite ?length_msb; try (by apply Hev); try lia;
    change (2 ^ Z.of_nat 3) with 8; change (2 ^ Z.of_nat 8) with 256; lia.
Qed.

Lemma distance_decisions_ok n d : 2 <= n -> 0 <= d < 2 ^ 32 -> Forall decision_ok (distance_decisions n d).
Proof.
  intros Hn Hd. unfold distance_decisions. apply Forall_app. split.
  { apply tree_ok; rewrite ?length_msb; change dist_slot with 174; change (2 ^ Z.of_nat 6) with 64; try lia.
    replace (128 * _) with (2 * (64 * Z.min (n - 2) 3)) by lia. by apply even_add_double. }
  unfold footer_decisions. destruct (Z.ltb_spec d 4) as [|Hge]; [constructor|].
  destruct (slot_spec d ltac:(lia)) as (c & Hc & Hs & Hsc & Hnn & _). rewrite Hsc.
  set (k := Z.log2 d - 1) in *. clearbody k. destruct (Z.ltb_spec (slot d) 14) as [Hlt|_].
  - destruct (slot_context k c Hc Hnn ltac:(lia)) as [H1 H2]. rewrite <- Hs in H1.
    assert (Hp : 2 * 2 ^ k <= (2 + c) * 2 ^ k) by nia. change dist_special with 686.
    apply tree_ok; unfold lsb; rewrite ?length_rev, ?length_msb, ?Z2Nat.id by lia; try lia.
    by apply even_add_double.
  - apply Forall_app. split; [by apply Forall_map, Forall_true|].
    apply tree_ok; unfold lsb; rewrite ?length_rev, ?length_msb; by vm_compute.
Qed.

Lemma state_prob_ok f s bit : In f [is_match; is_rep; is_rep0; is_rep1; is_rep2; is_rep0_long] ->
  0 <= s < 12 -> decision_ok (Prob (f + 2 * s) bit).
Proof.
  intros Hf Hs. apply is_prob_spec. assert (Hr : 30 <= f <= 150 /\ Z.even f = true).
  { revert f Hf. apply List.Forall_forall. repeat constructor; by vm_compute. }
  split; [lia|]. apply even_add_double. apply Hr.
Qed.

Lemma decisions_ok h sym : 0 <= h_state h < 12 -> Forall is_byte (h_data h) ->
  Z.of_nat (length (h_data h)) < 2 ^ 32 -> valid h sym -> Forall decision_ok (decisions h sym).
Proof.
  intros Hs Hb Hlen Hv. unfold decisions.
  assert (Hst : forall f bit, In f [is_match; is_rep; is_rep0; is_rep1; is_rep2; is_rep0_long] ->
    decision_ok (Prob (f + 2 * h_state h) bit)) by (intros; by apply state_prob_ok).
  destruct sym as [byte|n d| |i n]; unfold match_decisions; cbn [app].
  - apply Forall_cons_2; [apply Hst; cbn; tauto|].
    assert (Hl : 0 <= last_byte h < 256).
    { unfold last_byte. destruct (h_data h) as [|x l] using rev_ind; [cbn; lia|]. rewrite last_last.
      apply Forall_app in Hb as [_ Hb]. by apply Forall_cons_1 in Hb as [Hb _]. }
    apply lit_tree_ok; rewrite ?length_msb; change literal with 2042; [by apply even_add_double|dlia|lia|done].
  - destruct Hv as [Hn Hin]. unfold inside in Hin. do 2 (apply Forall_cons_2; [apply Hst; cbn; tauto|]).
    apply Forall_app. split; [apply length_decisions_ok; auto|apply distance_decisions_ok; lia].
  - do 4 (apply Forall_cons_2; [apply Hst; cbn; tauto|]). constructor.
  - destruct Hv as (Hi & Hn & _). do 2 (apply Forall_cons_2; [apply Hst; cbn; tauto|]).
    apply Forall_app. split; [|apply length_decisions_ok; auto].
    destruct i as [|[|i]]; cbn [rep_decisions]; repeat (apply Forall_cons_2; [apply Hst; cbn; tauto|]); constructor.
Qed.

Lemma back_byte data d : Forall is_byte data -> is_byte (back data d).
Proof.
  intros Hb. unfold back. destruct (nth_in_or_default (length data - 1 - Z.to_nat d) data 0) as [Hin|E].
  - rewrite List.Forall_forall in Hb. by apply Hb.
  - rewrite E. done.
Qed.

Lemma repeat_copy_bytes n d data : Forall is_byte data -> Forall is_byte (repeat_copy n d data).
Proof.
  revert data. induction n as [|n IH]; intros data Hb; cbn; [done|].
  apply IH, Forall_app. split; [done|]. constructor; [by apply back_byte|constructor].
Qed.

Lemma step_ok h sym : 0 <= h_state h < 12 -> Forall is_byte (h_data h) -> valid h sym ->
  0 <= h_state (step h sym) < 12 /\ Forall is_byte (h_data (step h sym)).
Proof.
  intros Hs Hb Hv. destruct sym as [byte|n d| |i n]; cbn [step h_state h_data];
    (split; [first [by apply after_match_range|unfold after_literal]|try by apply repeat_copy_bytes]).
  - destruct (Z.ltb_spec (h_state h) 4), (Z.ltb_spec (h_state h) 10); lia.
  - apply Forall_app. split; [done|]. by constructor.
Qed.

Lemma expand_ok syms : forall h, 0 <= h_state h < 12 -> Forall is_byte (h_data h) -> all_valid h syms ->
  Forall is_byte (h_data (fold_left step syms h)).
Proof.
  induction syms as [|sym syms IH]; intros h Hs Hb Hv; cbn [fold_left]; [done|].
  destruct Hv as [Hv Hvs]. destruct (step_ok h sym Hs Hb Hv). by apply IH.
Qed.

(** All decisions of a stream are about probabilities of the block. *)
Lemma coded_ok syms : forall h, 0 <= h_state h < 12 -> Forall is_byte (h_data h) -> all_valid h syms ->
  Z.of_nat (length (h_data (fold_left step syms h))) < 2 ^ 32 -> Forall decision_ok (coded h syms).
Proof.
  induction syms as [|sym syms IH]; intros h Hs Hb Hv Hlen; cbn [coded fold_left] in *.
  - unfold match_decisions. cbn [app]. do 2 (apply Forall_cons_2; [apply state_prob_ok; cbn; tauto|]).
    apply Forall_app. split; [apply length_decisions_ok; auto with lia|by apply distance_decisions_ok].
  - destruct Hv as [Hv Hvs]. destruct (step_ok h sym Hs Hb Hv). pose proof (length_steps _ _ Hvs).
    pose proof (length_step _ _ Hv). apply Forall_app. split; [apply decisions_ok; try done; lia|by apply IH].
Qed.

(** ** Streams *)

(** A stream of the format, with its end marked: a byte that is ignored, and the
    number that codes the symbols, with all probabilities at one half in the
    beginning. *)
Definition lzma_stream (data packed : list Z) : Prop :=
  exists syms b bytes, packed = b :: bytes /\ Forall is_byte packed /\
    all_valid start syms /\ expand syms = data /\
    let '(low, width, k) := interval (fun _ => 1024) (2 ^ 32 - 1) (coded start syms) in
    length bytes = (4 + k)%nat /\ low <= be_combine bytes < low + width.

Lemma be_combine_app l k : be_combine (l ++ k) = be_combine l * 256 ^ Z.of_nat (length k) + be_combine k.
Proof.
  unfold be_combine. rewrite rev_app_distr, le_combine_app, length_rev. lia.
Qed.

Lemma interval_ext ds : forall p q r, Forall decision_ok ds -> (forall x, is_prob x = true -> p x = q x) ->
  interval p r ds = interval q r ds.
Proof.
  induction ds as [|d ds IH]; intros p q r Hds Hpq; cbn [interval]; [done|].
  apply Forall_cons_1 in Hds as [Hd Hds]. destruct (normal r) as [r1 k0].
  assert (En : narrow d p r1 = narrow d q r1).
  { destruct d as [a bit|]; cbn [narrow decision_ok] in *; [by rewrite (Hpq a Hd)|done]. }
  rewrite En. destruct (narrow d q r1) as [start r2]. rewrite (IH (update d p) (update d q) r2 Hds); [done|].
  intros x Hx. destruct d as [a bit|]; cbn [update decision_ok] in *; [|by apply Hpq].
  unfold set_prob. rewrite (Hpq a Hd). destruct (x =? a); [done|by apply Hpq].
Qed.

(** The decompressor, before the filter is undone. *)
Lemma wp_decompress_stream fuel esi edi m data packed :
  lzma_stream data packed -> data <> [] -> byte_mem m ->
  load (length packed) esi m = packed -> 0 <= esi -> 0 <= edi ->
  let e := esi + Z.of_nat (length packed) in let n := Z.of_nat (length data) in
  e < 2 ^ 32 -> edi + n < 2 ^ 32 -> e <= edi \/ edi + n <= esi -> (length data < fuel)%nat ->
  wp (iterate fuel (fun edx =>
        let! (edx, cf) := lzma_decode edx in
        ret (if cf then inr tt else inl edx)) STATE_LIT_LIT ;;
      with_rc rc_normalise)
    (fun _ s => out_start s = edi /\ l_edi s = edi + n /\ rc_esi (l_rc s) = e /\
       byte_mem (l_mem s) /\ load (length data) edi (l_mem s) = data /\ mem_eq_except edi n m (l_mem s))
    (init_block (esi + 5) edi (le_combine (rev (load 4 (esi + 1) m))) m).
Proof.
  intros (syms & b & bytes & -> & Hbytes & Hv & Hexp & Hint) Hne Hm Hload Hesi Hedi e n He Hn Hapart Hfuel.
  cbn [length] in *. rewrite load_S in Hload. injection Hload as Hb Hload. unfold expand in Hexp.
  pose proof (length_steps _ _ Hv) as Hsyms. rewrite Hexp in Hsyms. cbn [start h_data length] in Hsyms.
  assert (Hco : Forall decision_ok (coded start syms)).
  { apply coded_ok; try done. rewrite Hexp. lia. }
  set (p0 := rc_probs (l_rc (init_block (esi + 5) edi 0 m))).
  assert (Hp0 : forall x, is_prob x = true -> p0 x = 1024).
  { intros x Hx. apply is_prob_spec in Hx. unfold p0. cbn [init_block l_rc rc_probs].
    unfold probs, sizeof__lzma_dec. rewrite (proj2 (Z.leb_le 30 x)), (proj2 (Z.ltb_lt x 8188)) by lia. done. }
  rewrite <- (interval_ext _ p0 (fun _ => 1024) _ Hco Hp0) in Hint.
  assert (Hd : decoding esi e edi n m start (coded start syms)
    (init_block (esi + 5) edi (le_combine (rev (load 4 (esi + 1) m))) m)).
  { constructor; try done; cbn [init_block l_mem l_rc l_edi out_start reps start h_data h_reps h_state length]; try lia.
    constructor; cbn [rc_esi rc_code rc_range rc_probs]; try done; try lia.
    - intros x Hx. change (prob_ok (p0 x)). rewrite Hp0 by done. unfold prob_ok. lia.
    - pose proof (le_combine_range (rev (load 4 (esi + 1) m))) as Hr.
      apply Hr, Forall_rev, load_bytes, Hm.
    - change (u32 (0 - 1)) with (2 ^ 32 - 1).
      match goal with |- context [interval ?p _ _] => change p with p0 end. destruct (interval p0 _ _) as [[low width] k].
      destruct Hint as [Hlen Hin]. split; [unfold e; lia|].
      rewrite <- Hload, Hlen, load_app, be_combine_app, length_load in Hin.
      replace (esi + 1 + Z.of_nat 4) with (esi + 5) in Hin by lia. exact Hin. }
  wp_prim. eapply wp_mono.
  { eapply (wp_lzma_stream esi e edi n Hesi Hedi Hn Hapart m syms fuel start); try done; rewrite ?Hexp; try done. lia. }
  intros u s (h' & Eh & Hd'). rewrite Hexp in Eh.
  destruct Hd' as [Hm' Hp' Hs' He' _ Hdata' _ _ _ _ Hf']. rewrite Eh in He', Hdata'.
  unfold with_rc. apply wp_zoom. eapply wp_mono; [apply (wp_rc_normalise _ esi e Hm' Hesi [] _ Hp')|].
  intros eax r (_ & H24 & _ & Hr). cbn [out_start l_edi rc_esi l_rc l_mem set_l_rc].
  split_and!; try done. pose proof (pd_value _ _ _ _ _ Hr) as Hval. cbn [interval] in Hval.
  unfold normal in Hval. rewrite (proj2 (Z.ltb_ge (rc_range r) (2 ^ 24)) H24) in Hval. lia.
Qed.
