(* ===== verification/Time.v ===== *)
(** * Time

    Calendar arithmetic (core/time.c): [mktime] counts days of the Gregorian
    calendar.  The [int]s stay far below their limit for any year below a
    million, so their arithmetic is that of integers; division truncates
    towards zero. *)

From S2P Require Import Prelude.

Record tm : Type := mkTm {
  tm_sec : Z;
  tm_min : Z;
  tm_hour : Z;
  tm_mday : Z;
  tm_mon : Z;
  tm_year : Z;
  tm_wday : Z;
  tm_yday : Z
}.

Definition is_leap_year (tm_year : Z) : bool :=
  let leap_year := false in
  let leap_year := if Z.rem tm_year 4 =? 0 then true else leap_year in
  let leap_year := if Z.rem tm_year 100 =? 0 then false else leap_year in
  let leap_year := if Z.rem tm_year 400 =? 100 then true else leap_year in
  leap_year.

Definition leap_years_to_end (tm_year : Z) : Z :=
  Z.quot tm_year 4 - Z.quot tm_year 100 + Z.quot (tm_year + 300) 400.

Definition day_of_week (tm_year tm_mon tm_mday : Z) : Z :=
  let offset := [1; 4; 3; 6; 1; 4; 6; 2; 5; 0; 3; 5] in
  let pseudo_year := if tm_mon <? 2 then tm_year - 1 else tm_year in
  Z.rem (pseudo_year + leap_years_to_end pseudo_year + nth (Z.to_nat tm_mon) offset 0 + tm_mday) 7.

Definition days_to_month_start : list Z :=
  [0; 31; 59; 90; 120; 151; 181; 212; 243; 273; 304; 334].

(** The time, and the structure with the fields that are filled in. *)
Definition mktime (t : tm) : Z * tm :=
  (* Calculate day of year *)
  let yday := tm_mday t - 1 + nth (Z.to_nat (tm_mon t)) days_to_month_start 0 in
  let yday := if (2 <=? tm_mon t) && is_leap_year (tm_year t) then yday + 1 else yday in
  (* Calculate day of week *)
  let wday := day_of_week (tm_year t) (tm_mon t) (tm_mday t) in
  (* Calculate seconds since the Epoch *)
  let days_since_epoch := yday + 365 * tm_year t - 25567 + leap_years_to_end (tm_year t - 1) in
  let seconds_since_day := (tm_hour t * 60 + tm_min t) * 60 + tm_sec t in
  (days_since_epoch * 86400 + seconds_since_day,
   mkTm (tm_sec t) (tm_min t) (tm_hour t) (tm_mday t) (tm_mon t) (tm_year t) wday yday).

(** ** The calendar *)

(** A day: year, month and day of the month, counted as people do. *)
Definition date : Type := Z * Z * Z.

Definition gregorian_leap (year : Z) : bool :=
  (year mod 4 =? 0) && negb (year mod 100 =? 0) || (year mod 400 =? 0).

Definition month_length (year month : Z) : Z :=
  if month =? 2 then (if gregorian_leap year then 29 else 28)
  else if (month =? 4) || (month =? 6) || (month =? 9) || (month =? 11) then 30 else 31.

Definition next_day (d : date) : date :=
  let '(year, month, day) := d in
  if day <? month_length year month then (year, month, day + 1)
  else if month <? 12 then (year, month + 1, 1)
  else (year + 1, 1, 1).

Definition valid_date (d : date) : Prop :=
  let '(year, month, day) := d in
  1900 <= year /\ 1 <= month <= 12 /\ 1 <= day <= month_length year month.

(** The structure for a date and a time of day. *)
Definition tm_of (d : date) (hour min sec wday yday : Z) : tm :=
  let '(year, month, day) := d in mkTm sec min hour day (month - 1) (year - 1900) wday yday.

(** The number of the day, its day of the week and its day of the year, as
    [mktime] has them. *)
Definition day_number (d : date) : Z := (mktime (tm_of d 0 0 0 0 0)).1 / 86400.
Definition weekday (d : date) : Z := tm_wday (mktime (tm_of d 0 0 0 0 0)).2.
Definition yearday (d : date) : Z := tm_yday (mktime (tm_of d 0 0 0 0 0)).2.

Lemma mktime_day d hour min sec wday yday :
  mktime (tm_of d hour min sec wday yday) =
  (day_number d * 86400 + hour * 3600 + min * 60 + sec,
   tm_of d hour min sec (weekday d) (yearday d)).
Proof.
  destruct d as [[year month] day]. unfold day_number, weekday, yearday, mktime, tm_of.
  cbn [tm_sec tm_min tm_hour tm_mday tm_mon tm_year tm_wday tm_yday fst snd].
  rewrite Z.add_0_r, Z.div_mul by lia. f_equal. lia.
Qed.

Lemma valid_next_day d : valid_date d -> valid_date (next_day d).
Proof.
  destruct d as [[year month] day]. unfold valid_date, next_day. intros (Hy & Hm & Hd).
  assert (Hl : forall y m, 28 <= month_length y m).
  { intros y m. unfold month_length. repeat case_match; lia. }
  destruct (Z.ltb_spec day (month_length year month)); [lia|].
  pose proof (Hl year (month + 1)). pose proof (Hl (year + 1) 1).
  destruct (Z.ltb_spec month 12); lia.
Qed.

Lemma is_leap_year_gregorian y : 0 <= y -> is_leap_year y = gregorian_leap (y + 1900).
Proof.
  intros Hy. unfold is_leap_year, gregorian_leap. rewrite !Z.rem_mod_nonneg by lia.
  replace ((y + 1900) mod 4) with (y mod 4) by dlia.
  replace ((y + 1900) mod 100) with (y mod 100) by dlia.
  assert (E : ((y + 1900) mod 400 =? 0) = (y mod 400 =? 100)).
  { destruct (Z.eqb_spec ((y + 1900) mod 400) 0), (Z.eqb_spec (y mod 400) 100); dlia. }
  rewrite E. destruct (y mod 4 =? 0), (y mod 100 =? 0), (y mod 400 =? 100); reflexivity.
Qed.

Lemma div_pred y k : 1 < k -> y / k = (y - 1) / k + Z_of_bool (y mod k =? 0).
Proof.
  intros Hk. pose proof (Z.div_mod y k ltac:(lia)) as E. pose proof (Z.mod_pos_bound y k ltac:(lia)).
  destruct (Z.eqb_spec (y mod k) 0) as [Hz|Hz]; cbn [Z_of_bool].
  - rewrite <- (Z.div_unique (y - 1) k (y / k - 1) (k - 1)); lia.
  - rewrite <- (Z.div_unique (y - 1) k (y / k) (y mod k - 1)); lia.
Qed.

(** The years of the century rule are among those divisible by four, and
    those of its exception among them. *)
Lemma leap_rules y : (y mod 400 = 100 -> y mod 100 = 0) /\ (y mod 100 = 0 -> y mod 4 = 0).
Proof. split; dlia. Qed.

Lemma leap_years_step y : 0 <= y ->
  leap_years_to_end y = leap_years_to_end (y - 1) + Z_of_bool (gregorian_leap (y + 1900)).
Proof.
  intros Hy. destruct (Z.eq_dec y 0) as [->|]; [reflexivity|].
  rewrite <- is_leap_year_gregorian by done.
  unfold leap_years_to_end, is_leap_year. rewrite !Z.rem_mod_nonneg, !Z.quot_div_nonneg by lia.
  rewrite (div_pred y 4), (div_pred y 100), (div_pred (y + 300) 400) by lia.
  replace (y + 300 - 1) with (y - 1 + 300) by lia.
  assert (E : ((y + 300) mod 400 =? 0) = (y mod 400 =? 100)).
  { destruct (Z.eqb_spec ((y + 300) mod 400) 0), (Z.eqb_spec (y mod 400) 100); dlia. }
  rewrite E. destruct (leap_rules y) as [H1 H2].
  destruct (Z.eqb_spec (y mod 4) 0), (Z.eqb_spec (y mod 100) 0), (Z.eqb_spec (y mod 400) 100);
    cbn [Z_of_bool]; lia.
Qed.

(** ** Successive days *)

Lemma months month : 1 <= month <= 12 ->
  In month [1; 2; 3; 4; 5; 6; 7; 8; 9; 10; 11; 12].
Proof. intros Hm. cbn. lia. Qed.

(** The days before a month, and of the pseudo-year that starts in March. *)
Definition month_start (year month : Z) : Z :=
  nth (Z.to_nat (month - 1)) days_to_month_start 0 +
  (if (2 <=? month - 1) && gregorian_leap year then 1 else 0).

Lemma month_start_next year month :
  1 <= month < 12 -> month_start year (month + 1) = month_start year month + month_length year month.
Proof.
  intros Hm. assert (Hin := months month ltac:(lia)). unfold month_start, month_length.
  generalize (gregorian_leap year). intros leap. cbn in Hin.
  repeat (destruct Hin as [<-|Hin]; [first [lia | destruct leap; vm_compute; reflexivity]|]).
  done.
Qed.

Lemma day_number_start year month day : 1900 <= year ->
  yearday (year, month, day) = day - 1 + month_start year month /\
  day_number (year, month, day) = yearday (year, month, day) + 365 * (year - 1900) - 25567 +
    leap_years_to_end (year - 1900 - 1).
Proof.
  intros Hy. unfold day_number, yearday, mktime, tm_of, month_start.
  cbn [tm_sec tm_min tm_hour tm_mday tm_mon tm_year tm_wday tm_yday fst snd].
  rewrite Z.add_0_r, Z.div_mul, is_leap_year_gregorian by lia.
  replace (year - 1900 + 1900) with year by lia. split; [|done]. case_match; lia.
Qed.

Lemma day_number_next d : valid_date d ->
  day_number (next_day d) = day_number d + 1 /\
  yearday (next_day d) = if decide (next_day d = ((d.1.1 + 1), 1, 1)) then 0 else yearday d + 1.
Proof.
  destruct d as [[year month] day]. intros (Hy & Hm & Hd). cbn [fst]. unfold next_day.
  destruct (Z.ltb_spec day (month_length year month)); [|destruct (Z.ltb_spec month 12)].
  - rewrite decide_False by (intros [= ? ? ?]; lia).
    destruct (day_number_start year month (day + 1) Hy), (day_number_start year month day Hy). lia.
  - rewrite decide_False by (intros [= ? ?]; lia).
    destruct (day_number_start year (month + 1) 1 Hy), (day_number_start year month day Hy).
    rewrite month_start_next in * by lia. lia.
  - rewrite decide_True by done. replace month with 12 in * by lia.
    change (month_length year 12) with 31 in *.
    destruct (day_number_start (year + 1) 1 1 ltac:(lia)), (day_number_start year 12 day Hy).
    replace (year + 1 - 1900 - 1) with (year - 1900) in * by lia.
    pose proof (leap_years_step (year - 1900) ltac:(lia)) as Hl.
    replace (year - 1900 + 1900) with year in Hl by lia.
    change (month_start (year + 1) 1) with 0 in *.
    assert (month_start year 12 = 334 + Z_of_bool (gregorian_leap year))
      by (unfold month_start; generalize (gregorian_leap year); by intros []).
    destruct (gregorian_leap year); cbn [Z_of_bool] in *; lia.
Qed.

Lemma leap_years_nonneg y : -1 <= y -> 0 <= leap_years_to_end y.
Proof.
  intros Hy. destruct (Z.eq_dec y (-1)) as [->|]; [done|]. unfold leap_years_to_end.
  rewrite !Z.quot_div_nonneg by lia.
  assert (y / 100 <= y / 4) by (apply Z.div_le_compat_l; lia).
  assert (0 <= (y + 300) / 400) by (apply Z.div_pos; lia). lia.
Qed.

(** Evaluate the tables and tests at a given month. *)
Ltac month_constants :=
  repeat match goal with
  | |- context [nth (Z.to_nat (?m - 1)) ?l 0] =>
      let v := eval vm_compute in (nth (Z.to_nat (m - 1)) l 0) in
      change (nth (Z.to_nat (m - 1)) l 0) with v
  | |- context [?m - 1 <? 2] =>
      let v := eval vm_compute in (m - 1 <? 2) in change (m - 1 <? 2) with v
  | |- context [2 <=? ?m - 1] =>
      let v := eval vm_compute in (2 <=? m - 1) in change (2 <=? m - 1) with v
  end.

(** The day of the week, computed on its own, is that of the day number: day
    zero was a Thursday. *)
Lemma weekday_day_number d : valid_date d -> weekday d = (day_number d + 4) mod 7.
Proof.
  destruct d as [[year month] day]. intros (Hy & Hm & Hd).
  destruct (day_number_start year month day Hy) as [E1 E2]. rewrite E1 in E2. rewrite E2. clear E1 E2.
  unfold weekday, mktime, tm_of, day_of_week. cbn [tm_mday tm_mon tm_year tm_wday snd].
  pose proof (leap_years_nonneg (year - 1900 - 1) ltac:(lia)) as Hn.
  pose proof (leap_years_step (year - 1900) ltac:(lia)) as Hl.
  replace (year - 1900 + 1900) with year in Hl by lia. unfold month_start.
  set (y := year - 1900) in *. assert (0 <= y) by lia. clearbody y.
  revert Hl. generalize (gregorian_leap year). intros leap Hl.
  assert (Hin := months month Hm). cbn in Hin. clear Hy Hm.
  repeat (destruct Hin as [<-|Hin];
    [month_constants; cbn [andb]; rewrite ?Hl; destruct leap; cbn [Z_of_bool];
     rewrite Z.rem_mod_nonneg by lia; dlia|]).
  done.
Qed.

(** The calendar: counting days from Monday, 1 January 1900 by the rules
    of the Gregorian calendar, the [n]-th day is valid, [mktime] numbers it [n]
    (less 25567, so that the Epoch is zero), gives it the day of the week that
    follows that of the day before, and numbers the days of each year from
    zero; the time of day is added in seconds. *)
Theorem mktime_counts_days (n : nat) (hour min sec wday yday : Z) :
  let d := Nat.iter n next_day (1900, 1, 1) in
  valid_date d /\
  exists yday', mktime (tm_of d hour min sec wday yday) =
    ((Z.of_nat n - 25567) * 86400 + hour * 3600 + min * 60 + sec,
     tm_of d hour min sec ((Z.of_nat n + 1) mod 7) yday') /\
  exists yday'', (mktime (tm_of (next_day d) hour min sec wday yday)).2 =
    tm_of (next_day d) hour min sec ((Z.of_nat n + 2) mod 7) yday'' /\
    yday'' = if decide (next_day d = (d.1.1 + 1, 1, 1)) then 0 else yday' + 1.
Proof.
  cbv zeta. set (d := Nat.iter n next_day (1900, 1, 1)).
  assert (Hd : valid_date d /\ day_number d = Z.of_nat n - 25567).
  { unfold d. clear d. induction n as [|n [IHv IHn]]; [done|].
    change (Nat.iter (S n) next_day (1900, 1, 1)) with (next_day (Nat.iter n next_day (1900, 1, 1))).
    split; [by apply valid_next_day|]. destruct (day_number_next _ IHv) as [-> _]. lia. }
  destruct Hd as [Hv Hn]. split; [done|]. exists (yearday d). rewrite !mktime_day.
  destruct (day_number_next d Hv) as [Hn' Hy].
  rewrite weekday_day_number, Hn by done. split; [f_equal; f_equal; dlia|].
  exists (yearday (next_day d)). cbn [snd].
  rewrite weekday_day_number, Hn', Hn by by apply valid_next_day. split; [f_equal; dlia|done].
Qed.
