(* ===== verification/Utf8.v ===== *)
(** * Utf8

    Accumulation of Unicode characters from UTF-8 bytes (core/utf8.c). *)

From S2P Require Import Prelude.

Definition UTF8_MAX_LEN : Z := 4.
Definition UTF8_MIN_TWO : Z := 0x80.
Definition UTF8_MIN_THREE : Z := 0x800.
Definition UTF8_MIN_FOUR : Z := 0x10000.
Definition UTF8_HIGH_BIT : Z := 0x80.
Definition UTF8_CONTINUATION_BITS : Z := 6.
Definition UTF8_CONTINUATION_MASK : Z := Z.shiftl 1 UTF8_CONTINUATION_BITS - 1.
Definition UTF8_CONTINUATION : Z := 0x80.
Definition UTF8_INVALID : Z := 0xfffd.

Definition UTF8_IS_CONTINUATION (byte : Z) : bool :=
  Z.land byte (not32 UTF8_CONTINUATION_MASK) =? UTF8_CONTINUATION.
Definition UTF8_IS_ASCII (byte : Z) : bool := negb (bool_of_Z (Z.land byte UTF8_HIGH_BIT)).

Record utf8_accumulator : Type := mkUtf8 {
  character : Z;
  remaining : Z;
  min : Z
}.

(** The [while] loop that counts the bytes of a sequence: a byte is shifted
    out after at most eight steps. *)
Fixpoint utf8_count (n : nat) (tmp len : Z) : Z * Z :=
  match n with
  | O => (tmp, len)
  | S n =>
      if bool_of_Z (Z.land tmp UTF8_HIGH_BIT)
      then utf8_count n (u8 (Z.shiftl tmp 1)) (len + 1)
      else (tmp, len)
  end.

(** The character, or 0 if incomplete, and the new state. *)
Definition utf8_accumulate (utf8 : utf8_accumulator) (byte : Z) : Z * utf8_accumulator :=
  (* Handle continuation bytes *)
  if UTF8_IS_CONTINUATION byte then
    (* Fail if this is an unexpected continuation byte *)
    if remaining utf8 =? 0 then (UTF8_INVALID, utf8) else
    (* Apply continuation byte *)
    let character := u32 (Z.shiftl (character utf8) UTF8_CONTINUATION_BITS) in
    let character := Z.lor character (Z.land byte UTF8_CONTINUATION_MASK) in
    let utf8 := mkUtf8 character (remaining utf8 - 1) (min utf8) in
    (* Return 0 if more continuation bytes are expected *)
    if negb (remaining utf8 =? 0) then (0, utf8)
    (* Fail if sequence is illegal *)
    else if character <? min utf8 then (UTF8_INVALID, utf8)
    (* Return completed character *)
    else (character, utf8)
  else
    (* Reset state if this is an unexpected non-continuation byte *)
    let utf8 := if negb (remaining utf8 =? 0) then mkUtf8 (character utf8) 0 (min utf8) else utf8 in
    (* Handle initial bytes *)
    if negb (UTF8_IS_ASCII byte) then
      let '(tmp, len) := utf8_count 8 byte 0 in
      (* Check for illegal length *)
      if UTF8_MAX_LEN <? len then (UTF8_INVALID, utf8) else
      (* Store initial bits, number of bytes remaining and minimum legal value *)
      (0, mkUtf8 (Z.shiftr tmp len) (len - 1)
            (nth (Z.to_nat (len - 1 - 1)) [UTF8_MIN_TWO; UTF8_MIN_THREE; UTF8_MIN_FOUR] 0))
    (* Handle ASCII bytes *)
    else (byte, utf8).

(** ** Specification *)

(** The shortest encoding of a character below 2^21. *)
Definition utf8_encode (c : Z) : list Z :=
  if c <? 0x80 then [c]
  else if c <? 0x800 then [0xc0 + c / 2 ^ 6; 0x80 + c mod 2 ^ 6]
  else if c <? 0x10000 then [0xe0 + c / 2 ^ 12; 0x80 + c / 2 ^ 6 mod 2 ^ 6; 0x80 + c mod 2 ^ 6]
  else [0xf0 + c / 2 ^ 18; 0x80 + c / 2 ^ 12 mod 2 ^ 6; 0x80 + c / 2 ^ 6 mod 2 ^ 6;
        0x80 + c mod 2 ^ 6].

(** The characters that come out of a string of bytes. *)
Fixpoint utf8_decode (utf8 : utf8_accumulator) (bytes : list Z) : list Z * utf8_accumulator :=
  match bytes with
  | [] => ([], utf8)
  | byte :: bytes =>
      let '(c, utf8) := utf8_accumulate utf8 byte in
      let '(cs, utf8) := utf8_decode utf8 bytes in
      (if c =? 0 then cs else c :: cs, utf8)
  end.

(** The lengths of sequences, the first byte of each and its least
    character. *)
Definition utf8_lead (len : Z) : Z := if len =? 2 then 0xc0 else if len =? 3 then 0xe0 else 0xf0.
Definition utf8_least (len : Z) : Z :=
  if len =? 2 then 0x80 else if len =? 3 then 0x800 else 0x10000.

(** What happens on a byte, by what the byte is. *)
Definition utf8_accumulate_spec (utf8 : utf8_accumulator) (byte : Z) : Z * utf8_accumulator :=
  let idle := mkUtf8 (character utf8) 0 (min utf8) in
  if byte <? 0x80 then (byte, idle)
  else if byte <? 0xc0 then
    if remaining utf8 =? 0 then (UTF8_INVALID, utf8) else
    let c := character utf8 * 64 + (byte - 0x80) in
    let utf8 := mkUtf8 c (remaining utf8 - 1) (min utf8) in
    if negb (remaining utf8 =? 0) then (0, utf8)
    else if c <? min utf8 then (UTF8_INVALID, utf8) else (c, utf8)
  else if byte <? 0xe0 then (0, mkUtf8 (byte - 0xc0) 1 0x80)
  else if byte <? 0xf0 then (0, mkUtf8 (byte - 0xe0) 2 0x800)
  else if byte <? 0xf8 then (0, mkUtf8 (byte - 0xf0) 3 0x10000)
  else (UTF8_INVALID, idle).

Lemma byte_table (P : Z -> bool) :
  forallb (fun k => P (Z.of_nat k)) (seq 0 256) = true -> forall b, is_byte b -> P b = true.
Proof.
  intros T b Hb. unfold is_byte in Hb. rewrite forallb_forall in T. specialize (T (Z.to_nat b)).
  rewrite in_seq, Z2Nat.id in T by lia. apply T. lia.
Qed.

Lemma utf8_class byte : is_byte byte ->
  UTF8_IS_CONTINUATION byte = (0x80 <=? byte) && (byte <? 0xc0) /\
  UTF8_IS_ASCII byte = (byte <? 0x80) /\
  Z.land byte UTF8_CONTINUATION_MASK = byte mod 64 /\
  (0xc0 <= byte -> let '(tmp, len) := utf8_count 8 byte 0 in
     if byte <? 0xe0 then len = 2 /\ Z.shiftr tmp len = byte - 0xc0
     else if byte <? 0xf0 then len = 3 /\ Z.shiftr tmp len = byte - 0xe0
     else if byte <? 0xf8 then len = 4 /\ Z.shiftr tmp len = byte - 0xf0
     else 4 < len).
Proof.
  intros Hb.
  pose proof (byte_table (fun byte =>
    eqb (UTF8_IS_CONTINUATION byte) ((0x80 <=? byte) && (byte <? 0xc0)) &&
    eqb (UTF8_IS_ASCII byte) (byte <? 0x80) &&
    (Z.land byte UTF8_CONTINUATION_MASK =? byte mod 64) &&
    ((byte <? 0xc0) || let '(tmp, len) := utf8_count 8 byte 0 in
       if byte <? 0xe0 then (len =? 2) && (Z.shiftr tmp len =? byte - 0xc0)
       else if byte <? 0xf0 then (len =? 3) && (Z.shiftr tmp len =? byte - 0xe0)
       else if byte <? 0xf8 then (len =? 4) && (Z.shiftr tmp len =? byte - 0xf0)
       else 4 <? len)) ltac:(vm_compute; reflexivity) byte Hb) as T.
  apply andb_prop in T as [T T4]. apply andb_prop in T as [T T3]. apply andb_prop in T as [T1 T2].
  apply eqb_prop in T1, T2. apply Z.eqb_eq in T3. split_and!; [done..|]. intros Hc.
  destruct (Z.ltb_spec byte 0xc0); [lia|]. cbn [orb] in T4.
  destruct (utf8_count 8 byte 0) as [tmp len].
  destruct (byte <? 0xe0), (byte <? 0xf0), (byte <? 0xf8);
    try (apply andb_prop in T4 as [? ?]); lia.
Qed.

(** ** The accumulator implements the specification of a byte *)

Lemma idle_eta utf8 : remaining utf8 = 0 -> mkUtf8 (character utf8) 0 (min utf8) = utf8.
Proof. destruct utf8. cbn. by intros ->. Qed.

Lemma utf8_accumulate_eq utf8 byte :
  is_byte byte -> (remaining utf8 <> 0 -> 0 <= character utf8 < 2 ^ 26) ->
  utf8_accumulate utf8 byte = utf8_accumulate_spec utf8 byte.
Proof.
  intros Hb Hc. destruct (utf8_class byte Hb) as (Ec & Ea & Em & El). unfold is_byte in Hb.
  unfold utf8_accumulate, utf8_accumulate_spec. rewrite Ec, Ea, Em.
  set (idle := if negb (remaining utf8 =? 0) then _ else utf8).
  assert (Ei : idle = mkUtf8 (character utf8) 0 (min utf8)).
  { unfold idle. destruct (Z.eqb_spec (remaining utf8) 0); [by rewrite idle_eta|done]. }
  rewrite Ei. clear idle Ei.
  destruct (Z.leb_spec 0x80 byte), (Z.ltb_spec byte 0x80); try lia; cbn [andb negb]; [|done].
  destruct (Z.ltb_spec byte 0xc0).
  - destruct (Z.eqb_spec (remaining utf8) 0) as [|Hr]; [done|]. specialize (Hc Hr).
    rewrite u32_small by (rewrite Z.shiftl_mul_pow2; unfold UTF8_CONTINUATION_BITS; lia).
    unfold UTF8_CONTINUATION_BITS. rewrite Z.lor_comm, lor_shiftl_add by dlia.
    replace (byte mod 64 + character utf8 * 2 ^ 6) with (character utf8 * 64 + (byte - 0x80)) by dlia.
    done.
  - specialize (El ltac:(lia)). destruct (utf8_count 8 byte 0) as [tmp len]. unfold UTF8_MAX_LEN.
    destruct (byte <? 0xe0); [|destruct (byte <? 0xf0); [|destruct (byte <? 0xf8)]].
    1-3: by destruct El as [-> ->].
    destruct (Z.ltb_spec 4 len); [done|lia].
Qed.

(** ** Decoding *)

(** States in the middle of a character, with the bytes of it so far. *)
Inductive partial : utf8_accumulator -> list Z -> Prop :=
  | partial_two a : 0 <= a < 32 -> partial (mkUtf8 a 1 0x80) [0xc0 + a]
  | partial_three a : 0 <= a < 16 -> partial (mkUtf8 a 2 0x800) [0xe0 + a]
  | partial_three_1 a b : 0 <= a < 16 -> 0 <= b < 64 ->
      partial (mkUtf8 (a * 64 + b) 1 0x800) [0xe0 + a; 0x80 + b]
  | partial_four a : 0 <= a < 8 -> partial (mkUtf8 a 3 0x10000) [0xf0 + a]
  | partial_four_1 a b : 0 <= a < 8 -> 0 <= b < 64 ->
      partial (mkUtf8 (a * 64 + b) 2 0x10000) [0xf0 + a; 0x80 + b]
  | partial_four_2 a b c : 0 <= a < 8 -> 0 <= b < 64 -> 0 <= c < 64 ->
      partial (mkUtf8 ((a * 64 + b) * 64 + c) 1 0x10000) [0xf0 + a; 0x80 + b; 0x80 + c].

(** The accumulator is idle, or holds what ends the bytes seen so far. *)
Definition tracks (utf8 : utf8_accumulator) (bytes : list Z) : Prop :=
  remaining utf8 = 0 \/ exists before p, bytes = before ++ p /\ partial utf8 p.

Definition shortest (c : Z) (bytes : list Z) : Prop :=
  0 < c < 2 ^ 21 /\ exists before, bytes = before ++ utf8_encode c.

Lemma tracks_start utf8 p bytes byte : partial utf8 p -> p = [byte] -> tracks utf8 (bytes ++ [byte]).
Proof. intros Hp ->. right. by exists bytes, [byte]. Qed.

Lemma tracks_continue utf8 p before bytes byte :
  bytes = before ++ p -> partial utf8 (p ++ [byte]) -> tracks utf8 (bytes ++ [byte]).
Proof. intros -> Hp. right. exists before, (p ++ [byte]). by rewrite app_assoc. Qed.

Lemma shortest_end c p before bytes byte :
  bytes = before ++ p -> 0 < c < 2 ^ 21 -> p ++ [byte] = utf8_encode c -> shortest c (bytes ++ [byte]).
Proof. intros -> Hc E. split; [done|]. exists before. by rewrite <- E, app_assoc. Qed.

Lemma tracks_range utf8 bytes :
  tracks utf8 bytes -> remaining utf8 <> 0 -> 0 <= character utf8 < 2 ^ 26.
Proof. intros [?|(? & p & _ & Hp)] Hr; [done|]. destruct Hp; cbn [character] in *; lia. Qed.

(** Encodings, from their six-bit digits. *)
Lemma encode_two a b : 0 <= a < 32 -> 0 <= b < 64 -> 0x80 <= a * 64 + b ->
  utf8_encode (a * 64 + b) = [0xc0 + a; 0x80 + b].
Proof.
  intros. unfold utf8_encode. change (2 ^ 6) with 64.
  destruct (Z.ltb_spec (a * 64 + b) 0x80), (Z.ltb_spec (a * 64 + b) 0x800); try lia.
  repeat f_equal; dlia.
Qed.

Lemma encode_three a b c : 0 <= a < 16 -> 0 <= b < 64 -> 0 <= c < 64 ->
  0x800 <= (a * 64 + b) * 64 + c ->
  utf8_encode ((a * 64 + b) * 64 + c) = [0xe0 + a; 0x80 + b; 0x80 + c].
Proof.
  intros. unfold utf8_encode. set (v := (a * 64 + b) * 64 + c) in *.
  change (2 ^ 6) with 64. change (2 ^ 12) with (64 * 64). rewrite <- Z.div_div by lia.
  destruct (Z.ltb_spec v 0x80), (Z.ltb_spec v 0x800), (Z.ltb_spec v 0x10000); try lia.
  replace (v / 64) with (a * 64 + b) by dlia. repeat f_equal; dlia.
Qed.

Lemma encode_four a b c d : 0 <= a < 8 -> 0 <= b < 64 -> 0 <= c < 64 -> 0 <= d < 64 ->
  0x10000 <= ((a * 64 + b) * 64 + c) * 64 + d ->
  utf8_encode (((a * 64 + b) * 64 + c) * 64 + d) = [0xf0 + a; 0x80 + b; 0x80 + c; 0x80 + d].
Proof.
  intros. unfold utf8_encode. set (v := ((a * 64 + b) * 64 + c) * 64 + d) in *.
  change (2 ^ 6) with 64. change (2 ^ 12) with (64 * 64). change (2 ^ 18) with (64 * (64 * 64)).
  rewrite <- !Z.div_div by lia.
  destruct (Z.ltb_spec v 0x80), (Z.ltb_spec v 0x800), (Z.ltb_spec v 0x10000); try lia.
  replace (v / 64) with ((a * 64 + b) * 64 + c) by dlia.
  replace (((a * 64 + b) * 64 + c) / 64) with (a * 64 + b) by dlia. repeat f_equal; dlia.
Qed.

(** ** One byte at a time *)

Lemma utf8_continue utf8 p before bytes byte :
  bytes = before ++ p -> partial utf8 p -> 0x80 <= byte < 0xc0 ->
  let c := character utf8 * 64 + (byte - 0x80) in
  if remaining utf8 =? 1
  then min utf8 <= c -> shortest c (bytes ++ [byte])
  else tracks (mkUtf8 c (remaining utf8 - 1) (min utf8)) (bytes ++ [byte]).
Proof.
  intros Hb Hp Hr. assert (exists d, byte = 0x80 + d /\ 0 <= d < 64) as (d & -> & Hd)
    by (exists (byte - 0x80); lia).
  replace (0x80 + d - 0x80) with d by lia. destruct Hp; cbn [character remaining min Z.eqb];
    change (2 =? 1) with false; change (3 =? 1) with false; change (1 =? 1) with true; cbv zeta iota.
  - intros Hm. eapply shortest_end; [done|lia|]. rewrite encode_two by lia. done.
  - eapply tracks_continue; [done|]. by constructor.
  - intros Hm. eapply shortest_end; [done|lia|]. rewrite encode_three by lia. done.
  - eapply tracks_continue; [done|]. by constructor.
  - eapply tracks_continue; [done|]. by constructor.
  - intros Hm. eapply shortest_end; [done|lia|]. rewrite encode_four by lia. done.
Qed.

Lemma utf8_step utf8 bytes byte :
  tracks utf8 bytes -> is_byte byte ->
  let '(c, utf8') := utf8_accumulate utf8 byte in
  tracks utf8' (bytes ++ [byte]) /\
  (c = 0 \/ c = UTF8_INVALID \/ shortest c (bytes ++ [byte])).
Proof.
  intros Ht Hb. rewrite utf8_accumulate_eq by eauto using tracks_range. unfold is_byte in Hb.
  unfold utf8_accumulate_spec. destruct (Z.ltb_spec byte 0x80).
  { split; [by left|]. destruct (Z.eq_dec byte 0) as [|]; [by left|]. right. right.
    split; [lia|]. exists bytes. unfold utf8_encode. destruct (Z.ltb_spec byte 0x80); [done|lia]. }
  destruct (Z.ltb_spec byte 0xc0).
  { destruct Ht as [E|(before & p & -> & Hp)]; [rewrite E; split; [by left|auto]|].
    pose proof (utf8_continue utf8 p before _ byte eq_refl Hp ltac:(lia)) as Hc. cbv zeta in Hc.
    cbn [remaining min]. set (c := character utf8 * 64 + (byte - 0x80)) in *.
    destruct (Z.eqb_spec (remaining utf8) 0); [destruct Hp; discriminate|].
    destruct (Z.eqb_spec (remaining utf8) 1) as [E|E].
    - rewrite E. change (1 - 1) with 0. cbn [Z.eqb negb].
      destruct (Z.ltb_spec c (min utf8)); (split; [by left|]); [auto|]. right. right. auto.
    - destruct (Z.eqb_spec (remaining utf8 - 1) 0); [lia|]. cbn [negb]. auto. }
  destruct (Z.ltb_spec byte 0xe0); [|destruct (Z.ltb_spec byte 0xf0); [|destruct (Z.ltb_spec byte 0xf8)]].
  4: { split; [by left|auto]. }
  all: split; [|auto]; eapply tracks_start; [constructor; lia|f_equal; lia].
Qed.

Lemma accumulate_lead len a utf8 bytes :
  2 <= len <= 4 -> 0 <= a < 2 ^ (7 - len) -> tracks utf8 bytes ->
  utf8_accumulate utf8 (utf8_lead len + a) = (0, mkUtf8 a (len - 1) (utf8_least len)).
Proof.
  intros Hl Ha Ht. assert (Hin : len = 2 \/ len = 3 \/ len = 4) by lia.
  destruct Hin as [ -> | [ -> | -> ] ]; cbn in Ha; unfold utf8_lead, utf8_least; cbn [Z.eqb Pos.eqb];
    rewrite utf8_accumulate_eq by (unfold is_byte; eauto using tracks_range with lia);
    unfold utf8_accumulate_spec;
    repeat match goal with |- context [?x <? ?y] => destruct (Z.ltb_spec x y); try lia end;
    repeat f_equal; lia.
Qed.

Lemma accumulate_continuation v r m b :
  0 <= v < 2 ^ 26 -> 0 < r -> 0 <= b < 64 ->
  utf8_accumulate (mkUtf8 v r m) (0x80 + b) =
  let utf8 := mkUtf8 (v * 64 + b) (r - 1) m in
  (if negb (r =? 1) then 0 else if v * 64 + b <? m then UTF8_INVALID else v * 64 + b, utf8).
Proof.
  intros Hv Hr Hb. rewrite utf8_accumulate_eq by (unfold is_byte; cbn [character]; lia).
  unfold utf8_accumulate_spec. cbn [character remaining min]. replace (0x80 + b - 0x80) with b by lia.
  destruct (Z.ltb_spec (0x80 + b) 0x80), (Z.ltb_spec (0x80 + b) 0xc0), (Z.eqb_spec r 0); try lia.
  destruct (Z.eqb_spec (r - 1) 0), (Z.eqb_spec r 1); try lia; [|done].
  cbn [negb]. by destruct (v * 64 + b <? m).
Qed.

Lemma decode_cons utf8 byte bytes c utf8' :
  utf8_accumulate utf8 byte = (c, utf8') ->
  utf8_decode utf8 (byte :: bytes) =
  ((if c =? 0 then [] else [c]) ++ (utf8_decode utf8' bytes).1, (utf8_decode utf8' bytes).2).
Proof.
  intros E. cbn [utf8_decode]. rewrite E. destruct (utf8_decode utf8' bytes). by destruct (c =? 0).
Qed.

(** The digits of a character that takes more than one byte. *)
Lemma encode_digits c : 0x80 <= c < 2 ^ 21 ->
  (exists a b, 0 <= a < 32 /\ 0 <= b < 64 /\ 0x80 <= a * 64 + b /\ c = a * 64 + b) \/
  (exists a b d, 0 <= a < 16 /\ 0 <= b < 64 /\ 0 <= d < 64 /\ 0x800 <= (a * 64 + b) * 64 + d /\
     c = (a * 64 + b) * 64 + d) \/
  (exists a b d e, 0 <= a < 8 /\ 0 <= b < 64 /\ 0 <= d < 64 /\ 0 <= e < 64 /\
     0x10000 <= ((a * 64 + b) * 64 + d) * 64 + e /\ c = ((a * 64 + b) * 64 + d) * 64 + e).
Proof.
  intros Hc. destruct (Z.lt_ge_cases c 0x800); [|destruct (Z.lt_ge_cases c 0x10000)].
  - left. exists (c / 64), (c mod 64). dlia.
  - right. left. exists (c / 64 / 64), (c / 64 mod 64), (c mod 64). dlia.
  - right. right. exists (c / 64 / 64 / 64), (c / 64 / 64 mod 64), (c / 64 mod 64), (c mod 64). dlia.
Qed.

Lemma utf8_decode_encode utf8 before c rest :
  tracks utf8 before -> 0 < c < 2 ^ 21 ->
  exists utf8', remaining utf8' = 0 /\
    utf8_decode utf8 (utf8_encode c ++ rest) =
    (c :: (utf8_decode utf8' rest).1, (utf8_decode utf8' rest).2).
Proof.
  intros Ht Hc. destruct (Z.lt_ge_cases c 0x80) as [Hs|Hs].
  { unfold utf8_encode. destruct (Z.ltb_spec c 0x80); [|lia].
    exists (mkUtf8 (character utf8) 0 (min utf8)). split; [done|]. cbn [app].
    rewrite (decode_cons _ _ _ c (mkUtf8 (character utf8) 0 (min utf8))).
    - destruct (Z.eqb_spec c 0); [lia|done].
    - rewrite utf8_accumulate_eq by (unfold is_byte; eauto using tracks_range with lia).
      unfold utf8_accumulate_spec. destruct (Z.ltb_spec c 0x80); [done|lia]. }
  assert (Hz : forall c, 0x80 <= c -> (if c =? 0 then [] else [c]) = [c])
    by (intros x Hx; destruct (Z.eqb_spec x 0); [lia|done]).
  destruct (encode_digits c ltac:(lia)) as [(a & b & Ha & Hb & Hm & ->)|
    [(a & b & d & Ha & Hb & Hd & Hm & ->)|(a & b & d & e & Ha & Hb & Hd & He & Hm & ->)]].
  - rewrite encode_two by done. cbn [app].
    rewrite (decode_cons _ _ _ _ _ (accumulate_lead 2 a utf8 before ltac:(lia) Ha Ht)).
    rewrite (decode_cons _ _ _ _ _ (accumulate_continuation a 1 0x80 b ltac:(lia) ltac:(lia) Hb)).
    exists (mkUtf8 (a * 64 + b) 0 0x80). split; [done|]. cbn [negb Z.eqb Pos.eqb app fst snd]. destruct (Z.ltb_spec (a * 64 + b) 0x80); [lia|].
    by rewrite Hz by lia.
  - rewrite encode_three by done. cbn [app].
    rewrite (decode_cons _ _ _ _ _ (accumulate_lead 3 a utf8 before ltac:(lia) Ha Ht)).
    rewrite (decode_cons _ _ _ _ _ (accumulate_continuation a 2 0x800 b ltac:(lia) ltac:(lia) Hb)).
    rewrite (decode_cons _ _ _ _ _
      (accumulate_continuation (a * 64 + b) 1 0x800 d ltac:(lia) ltac:(lia) Hd)).
    exists (mkUtf8 ((a * 64 + b) * 64 + d) 0 0x800). split; [done|]. cbn [negb Z.eqb Pos.eqb app fst snd]. destruct (Z.ltb_spec ((a * 64 + b) * 64 + d) 0x800); [lia|].
    by rewrite Hz by lia.
  - rewrite encode_four by done. cbn [app].
    rewrite (decode_cons _ _ _ _ _ (accumulate_lead 4 a utf8 before ltac:(lia) Ha Ht)).
    rewrite (decode_cons _ _ _ _ _ (accumulate_continuation a 3 0x10000 b ltac:(lia) ltac:(lia) Hb)).
    rewrite (decode_cons _ _ _ _ _
      (accumulate_continuation (a * 64 + b) 2 0x10000 d ltac:(lia) ltac:(lia) Hd)).
    rewrite (decode_cons _ _ _ _ _
      (accumulate_continuation ((a * 64 + b) * 64 + d) 1 0x10000 e ltac:(lia) ltac:(lia) He)).
    exists (mkUtf8 (((a * 64 + b) * 64 + d) * 64 + e) 0 0x10000). split; [done|]. cbn [negb Z.eqb Pos.eqb app fst snd].
    destruct (Z.ltb_spec (((a * 64 + b) * 64 + d) * 64 + e) 0x10000); [lia|].
    by rewrite Hz by lia.
Qed.

Lemma decode_tracks utf8 before bytes :
  tracks utf8 before -> Forall is_byte bytes -> tracks (utf8_decode utf8 bytes).2 (before ++ bytes).
Proof.
  revert utf8 before. induction bytes as [|byte bytes IH]; intros utf8 before Ht Hb;
    [by rewrite app_nil_r|]. apply Forall_cons_1 in Hb as [Hb Hbs].
  pose proof (utf8_step utf8 before byte Ht Hb) as Hs. cbn [utf8_decode].
  destruct (utf8_accumulate utf8 byte) as [c utf8']. destruct Hs as [Ht' _].
  specialize (IH utf8' (before ++ [byte]) Ht' Hbs). rewrite <- app_assoc in IH.
  by destruct (utf8_decode utf8' bytes).
Qed.

(** C35. Decoding of UTF-8, from an accumulator that is not in the middle of
    a character.  Whatever bytes came before, malformed ones included, an
    encoded string of characters is decoded to these characters.  Nothing
    else is decoded: each character that comes out (other than the
    replacement character, which reports an error) is the one whose shortest
    encoding the bytes just ended with. *)
Theorem utf8_decode_correct (utf8 : utf8_accumulator) (bytes : list Z) :
  remaining utf8 = 0 -> Forall is_byte bytes ->
  (forall cs, Forall (fun c => 0 < c < 2 ^ 21) cs ->
     (utf8_decode (utf8_decode utf8 bytes).2 (flat_map utf8_encode cs)).1 = cs) /\
  (forall byte, is_byte byte ->
     let c := (utf8_accumulate (utf8_decode utf8 bytes).2 byte).1 in
     c = 0 \/ c = UTF8_INVALID \/
     0 < c < 2 ^ 21 /\ exists before, bytes ++ [byte] = before ++ utf8_encode c).
Proof.
  intros Hr Hb. assert (Ht : tracks (utf8_decode utf8 bytes).2 bytes)
    by (apply (decode_tracks utf8 [] bytes); [by left|done]).
  split.
  - intros cs Hcs. clear Hr Hb. set (utf8' := (utf8_decode utf8 bytes).2) in *. clearbody utf8'.
    revert utf8' bytes Ht. induction Hcs as [|c cs Hc Hcs IH]; intros utf8' before Ht; [done|]. cbn [flat_map].
    destruct (utf8_decode_encode utf8' before c (flat_map utf8_encode cs) Ht Hc) as (utf8'' & H0 & ->).
    cbn [fst]. f_equal. apply (IH utf8'' []). by left.
  - intros byte Hby. pose proof (utf8_step _ _ byte Ht Hby) as Hs.
    destruct (utf8_accumulate (utf8_decode utf8 bytes).2 byte) as [c utf8']. by destruct Hs.
Qed.
