(* ===== verification/World.v ===== *)
(** * World

    The data of the program: the C structures of the SAN boot path as records,
    the globals of each component, and the record of everything the code can
    change.  Structures allocated from the heap are named by their address;
    interfaces, reference counters, processes and timers embedded in them are
    named by their containing structure, so that [container_of] and
    [intf_object] are projections. *)

From S2P Require Import Prelude.
From S2P Require Import Memory.
From stdpp Require Import strings.
#[global] Open Scope Z_scope.

(** ** Error numbers (the POSIX part of the numbers of include/errno.h)

    Functions that can fail return 0 or a negative number, as in C. *)

Definition EADDRINUSE : Z := 0x03.
Definition EBUSY : Z := 0x0a.
Definition ECANCELED : Z := 0x0b.
Definition ECONNRESET : Z := 0x0f.
Definition EINPROGRESS : Z := 0x1a.
Definition EINVAL : Z := 0x1c.
Definition EIO : Z := 0x1d.
Definition ENODEV : Z := 0x2c.
Definition ENOENT : Z := 0x2d.
Definition ENOEXEC : Z := 0x2e.
Definition ENOMEM : Z := 0x31.
Definition ENOSPC : Z := 0x34.
Definition ENOTCONN : Z := 0x38.
Definition ENOTSUP : Z := 0x3c.
Definition ENOTTY : Z := 0x3d.
Definition EOPNOTSUPP : Z := 0x3f.
Definition ETIMEDOUT : Z := 0x4c.

(** The NULL pointer. *)
Definition NULL : Z := 0.

(** ** Strings: NUL-terminated C strings without their terminator *)

Definition cstring : Type := list Z.

Fixpoint cs (s : string) : cstring :=
  match s with
  | EmptyString => []
  | String c s => Z.of_N (Ascii.N_of_ascii c) :: cs s
  end.

(** ** Object interfaces (include/ipxe/interface.h) *)

(** The interfaces of the SAN boot path, by address. *)
Inductive intf_id : Type :=
| I_NULL                            (* the NULL pointer *)
| I_null                            (* &null_intf *)
| I_dummy                           (* &dummy of nvme.c *)
| I_nvme_block (nvme : Z)           (* &nvme->block *)
| I_sandev_command (sandev : Z)     (* &sandev->command *)
| I_sanpath_block (sandev i : Z).   (* &sandev->path[i].block *)

#[global] Instance intf_id_eq_dec : EqDecision intf_id.
Proof. solve_decision. Defined.

#[global] Instance intf_id_countable : Countable intf_id.
Proof.
  refine (inj_countable'
    (fun i => match i with
              | I_NULL => (0, 0, 0) | I_null => (1, 0, 0) | I_dummy => (2, 0, 0)
              | I_nvme_block a => (3, a, 0)
              | I_sandev_command s => (4, s, 0)
              | I_sanpath_block s j => (5, s, j)
              end)
    (fun p => match p with
              | (0, _, _) => I_NULL | (1, _, _) => I_null | (2, _, _) => I_dummy
              | (3, a, _) => I_nvme_block a
              | (4, s, _) => I_sandev_command s
              | (_, s, j) => I_sanpath_block s j
              end) _).
  intros []; reflexivity.
Defined.

(** The operation types that are looked up by [intf_get_dest_op]. *)
Inductive op_type : Type :=
| op_intf_close
| op_block_read
| op_block_write
| op_block_read_capacity
| op_block_capacity
| op_edd_describe
| op_acpi_describe
| op_identify_device
| op_xfer_window
| op_xfer_window_changed.

#[global] Instance op_type_eq_dec : EqDecision op_type.
Proof. solve_decision. Defined.

(** Interface descriptors. *)
Inductive intf_desc : Type :=
| null_intf_desc
| nvme_block_desc
| sandev_command_desc
| sanpath_block_desc.

#[global] Instance intf_desc_eq_dec : EqDecision intf_desc.
Proof. solve_decision. Defined.

(** The operations each descriptor implements. *)
Definition null_intf_op : list op_type := [op_intf_close].
Definition nvme_block_op : list op_type :=
  [op_block_read; op_block_write; op_block_read_capacity; op_intf_close;
   op_edd_describe].
Definition sandev_command_op : list op_type :=
  [op_intf_close; op_block_capacity].
Definition sanpath_block_op : list op_type :=
  [op_intf_close; op_xfer_window; op_xfer_window_changed].

Definition desc_op (d : intf_desc) : list op_type :=
  match d with
  | null_intf_desc => null_intf_op
  | nvme_block_desc => nvme_block_op
  | sandev_command_desc => sandev_command_op
  | sanpath_block_desc => sanpath_block_op
  end.

(** ** Reference counters (include/ipxe/refcnt.h) *)

Inductive refid : Type :=
| R_nvme (nvme : Z)
| R_sandev (sandev : Z)
| R_uri (uri : Z).

#[global] Instance refid_eq_dec : EqDecision refid.
Proof. solve_decision. Defined.

#[global] Instance refid_countable : Countable refid.
Proof.
  refine (inj_countable'
    (fun i => match i with
              | R_nvme a => (0, a) | R_sandev a => (1, a) | R_uri a => (2, a)
              end)
    (fun p => match p with
              | (0, a) => R_nvme a | (1, a) => R_sandev a | (_, a) => R_uri a
              end) _).
  intros []; reflexivity.
Defined.

(** The [free] methods; [free_refcnt] is the NULL method, i.e. free(). *)
Inductive free_fn : Type := free_refcnt | sandev_free_fn | uri_free_fn.

Record refcnt : Type := mkRefcnt {
  ref_count : Z;
  ref_free : free_fn }.
Definition set_ref_count (v : Z) (r : refcnt) : refcnt :=
  mkRefcnt v (ref_free r).
Definition set_ref_free (v : free_fn) (r : refcnt) : refcnt :=
  mkRefcnt (ref_count r) v.

(** An object interface; a NULL descriptor or reference counter is [None]. *)
Record interface : Type := mkIntf {
  intf_dest : intf_id;
  intf_refcnt : option refid;
  intf_desc_ : option intf_desc;
  intf_original : option intf_desc }.
Definition set_intf_dest (v : intf_id) (r : interface) : interface :=
  mkIntf v (intf_refcnt r) (intf_desc_ r) (intf_original r).
Definition set_intf_refcnt (v : option refid) (r : interface) : interface :=
  mkIntf (intf_dest r) v (intf_desc_ r) (intf_original r).
Definition set_intf_desc_ (v : option intf_desc) (r : interface) : interface :=
  mkIntf (intf_dest r) (intf_refcnt r) v (intf_original r).
Definition set_intf_original (v : option intf_desc) (r : interface) : interface :=
  mkIntf (intf_dest r) (intf_refcnt r) (intf_desc_ r) v.

(** ** Processes (include/ipxe/process.h) *)

Inductive procid : Type :=
| P_retry                       (* the permanent process of net/retry.c *)
| P_nvme (nvme : Z)             (* &nvme->process *)
| P_sanpath (sandev i : Z).     (* &sandev->path[i].process *)

#[global] Instance procid_eq_dec : EqDecision procid.
Proof. solve_decision. Defined.

#[global] Instance procid_countable : Countable procid.
Proof.
  refine (inj_countable'
    (fun i => match i with
              | P_retry => (0, 0, 0) | P_nvme a => (1, a, 0)
              | P_sanpath s j => (2, s, j)
              end)
    (fun p => match p with
              | (0, _, _) => P_retry | (1, a, _) => P_nvme a
              | (_, s, j) => P_sanpath s j
              end) _).
  intros []; reflexivity.
Defined.

Inductive proc_desc : Type :=
| retry_process_desc | nvme_process_desc | sanpath_process_desc.

(** [PROC_DESC_ONCE] or [PROC_DESC_PURE]. *)
Definition desc_reschedule (d : proc_desc) : bool :=
  match d with
  | retry_process_desc => true
  | nvme_process_desc => false
  | sanpath_process_desc => false
  end.

Record process : Type := mkProc {
  proc_desc_ : proc_desc;
  proc_refcnt : option refid }.

(** ** Retry timers (include/ipxe/retry.h) *)

Inductive timerid : Type := T_sandev (sandev : Z).

#[global] Instance timerid_eq_dec : EqDecision timerid.
Proof. solve_decision. Defined.

#[global] Instance timerid_countable : Countable timerid.
Proof.
  refine (inj_countable' (fun i => match i with T_sandev a => a end) T_sandev _).
  intros []; reflexivity.
Defined.

Record retry_timer : Type := mkTimer {
  tm_running : bool;
  tm_timeout : Z;
  tm_min : Z;
  tm_max : Z;
  tm_start : Z;
  tm_count : Z;
  tm_refcnt : option refid }.
Definition set_tm_running (v : bool) (r : retry_timer) : retry_timer :=
  mkTimer v (tm_timeout r) (tm_min r) (tm_max r) (tm_start r) (tm_count r)
    (tm_refcnt r).
Definition set_tm_timeout (v : Z) (r : retry_timer) : retry_timer :=
  mkTimer (tm_running r) v (tm_min r) (tm_max r) (tm_start r) (tm_count r)
    (tm_refcnt r).
Definition set_tm_min (v : Z) (r : retry_timer) : retry_timer :=
  mkTimer (tm_running r) (tm_timeout r) v (tm_max r) (tm_start r)
    (tm_count r) (tm_refcnt r).
Definition set_tm_max (v : Z) (r : retry_timer) : retry_timer :=
  mkTimer (tm_running r) (tm_timeout r) (tm_min r) v (tm_start r)
    (tm_count r) (tm_refcnt r).
Definition set_tm_start (v : Z) (r : retry_timer) : retry_timer :=
  mkTimer (tm_running r) (tm_timeout r) (tm_min r) (tm_max r) v (tm_count
    r) (tm_refcnt r).
Definition set_tm_count (v : Z) (r : retry_timer) : retry_timer :=
  mkTimer (tm_running r) (tm_timeout r) (tm_min r) (tm_max r) (tm_start r)
    v (tm_refcnt r).
Definition set_tm_refcnt (v : option refid) (r : retry_timer) : retry_timer :=
  mkTimer (tm_running r) (tm_timeout r) (tm_min r) (tm_max r) (tm_start r)
    (tm_count r) v.

(** ** Dynamic memory (core/malloc.c) *)

(** The free list as (address, size) pairs in list order, and the counters. *)
Record heap : Type := mkHeap {
  free_blocks : list (Z * Z);
  freemem : Z;
  usedmem : Z;
  maxusedmem : Z }.
Definition set_free_blocks (v : list (Z * Z)) (r : heap) : heap :=
  mkHeap v (freemem r) (usedmem r) (maxusedmem r).
Definition set_freemem (v : Z) (r : heap) : heap :=
  mkHeap (free_blocks r) v (usedmem r) (maxusedmem r).
Definition set_usedmem (v : Z) (r : heap) : heap :=
  mkHeap (free_blocks r) (freemem r) v (maxusedmem r).
Definition set_maxusedmem (v : Z) (r : heap) : heap :=
  mkHeap (free_blocks r) (freemem r) (usedmem r) v.

(** ** URIs (include/ipxe/uri.h) *)

Record uri : Type := mkUri {
  uri_scheme : option cstring;
  uri_opaque : option cstring;
  uri_user : option cstring;
  uri_password : option cstring;
  uri_host : option cstring;
  uri_port_ : option cstring;
  uri_path : option cstring;
  uri_epath : option cstring;
  uri_equery : option cstring;
  uri_efragment : option cstring }.
Definition set_uri_scheme (v : option cstring) (r : uri) : uri :=
  mkUri v (uri_opaque r) (uri_user r) (uri_password r) (uri_host r)
    (uri_port_ r) (uri_path r) (uri_epath r) (uri_equery r) (uri_efragment
    r).
Definition set_uri_opaque (v : option cstring) (r : uri) : uri :=
  mkUri (uri_scheme r) v (uri_user r) (uri_password r) (uri_host r)
    (uri_port_ r) (uri_path r) (uri_epath r) (uri_equery r) (uri_efragment
    r).
Definition set_uri_user (v : option cstring) (r : uri) : uri :=
  mkUri (uri_scheme r) (uri_opaque r) v (uri_password r) (uri_host r)
    (uri_port_ r) (uri_path r) (uri_epath r) (uri_equery r) (uri_efragment
    r).
Definition set_uri_password (v : option cstring) (r : uri) : uri :=
  mkUri (uri_scheme r) (uri_opaque r) (uri_user r) v (uri_host r)
    (uri_port_ r) (uri_path r) (uri_epath r) (uri_equery r) (uri_efragment
    r).
Definition set_uri_host (v : option cstring) (r : uri) : uri :=
  mkUri (uri_scheme r) (uri_opaque r) (uri_user r) (uri_password r) v
    (uri_port_ r) (uri_path r) (uri_epath r) (uri_equery r) (uri_efragment
    r).
Definition set_uri_port_ (v : option cstring) (r : uri) : uri :=
  mkUri (uri_scheme r) (uri_opaque r) (uri_user r) (uri_password r)
    (uri_host r) v (uri_path r) (uri_epath r) (uri_equery r) (uri_efragment
    r).
Definition set_uri_path (v : option cstring) (r : uri) : uri :=
  mkUri (uri_scheme r) (uri_opaque r) (uri_user r) (uri_password r)
    (uri_host r) (uri_port_ r) v (uri_epath r) (uri_equery r) (uri_efragment
    r).
Definition set_uri_epath (v : option cstring) (r : uri) : uri :=
  mkUri (uri_scheme r) (uri_opaque r) (uri_user r) (uri_password r)
    (uri_host r) (uri_port_ r) (uri_path r) v (uri_equery r) (uri_efragment
    r).
Definition set_uri_equery (v : option cstring) (r : uri) : uri :=
  mkUri (uri_scheme r) (uri_opaque r) (uri_user r) (uri_password r)
    (uri_host r) (uri_port_ r) (uri_path r) (uri_epath r) v (uri_efragment
    r).
Definition set_uri_efragment (v : option cstring) (r : uri) : uri :=
  mkUri (uri_scheme r) (uri_opaque r) (uri_user r) (uri_password r)
    (uri_host r) (uri_port_ r) (uri_path r) (uri_epath r) (uri_equery r) v.

(** ** The NVMe driver (drivers/block/nvme.h, nvme-int.h) *)

(** The common part of every submission or completion queue. *)
Record nvme_queue : Type := mkQueue {
  q_dbl : Z;
  q_mask : Z }.

(** The two queue pairs of a controller. *)
Inductive queue_id : Type := Q_admin | Q_io.

#[global] Instance queue_id_eq_dec : EqDecision queue_id.
Proof. solve_decision. Defined.

Record nvme_cq : Type := mkCq {
  cq_common : nvme_queue;
  cq_cqe : Z;
  cq_head : Z;
  cq_phase : bool }.
Definition set_cq_common (v : nvme_queue) (r : nvme_cq) : nvme_cq :=
  mkCq v (cq_cqe r) (cq_head r) (cq_phase r).
Definition set_cq_cqe (v : Z) (r : nvme_cq) : nvme_cq :=
  mkCq (cq_common r) v (cq_head r) (cq_phase r).
Definition set_cq_head (v : Z) (r : nvme_cq) : nvme_cq :=
  mkCq (cq_common r) (cq_cqe r) v (cq_phase r).
Definition set_cq_phase (v : bool) (r : nvme_cq) : nvme_cq :=
  mkCq (cq_common r) (cq_cqe r) (cq_head r) v.

Record nvme_sq : Type := mkSq {
  sq_common : nvme_queue;
  sq_sqe : Z;
  sq_cq : queue_id;
  sq_head : Z;
  sq_tail : Z }.
Definition set_sq_common (v : nvme_queue) (r : nvme_sq) : nvme_sq :=
  mkSq v (sq_sqe r) (sq_cq r) (sq_head r) (sq_tail r).
Definition set_sq_sqe (v : Z) (r : nvme_sq) : nvme_sq :=
  mkSq (sq_common r) v (sq_cq r) (sq_head r) (sq_tail r).
Definition set_sq_cq (v : queue_id) (r : nvme_sq) : nvme_sq :=
  mkSq (sq_common r) (sq_sqe r) v (sq_head r) (sq_tail r).
Definition set_sq_head (v : Z) (r : nvme_sq) : nvme_sq :=
  mkSq (sq_common r) (sq_sqe r) (sq_cq r) v (sq_tail r).
Definition set_sq_tail (v : Z) (r : nvme_sq) : nvme_sq :=
  mkSq (sq_common r) (sq_sqe r) (sq_cq r) (sq_head r) v.

Record nvme_ctrl : Type := mkCtrl {
  ctrl_pci : Z;
  ctrl_ns : Z;
  ctrl_reg : Z;
  doorbell_stride : Z;
  admin_sq : nvme_sq;
  admin_cq : nvme_cq;
  ns_count : Z;
  io_sq : nvme_sq;
  io_cq : nvme_cq }.
Definition set_ctrl_pci (v : Z) (r : nvme_ctrl) : nvme_ctrl :=
  mkCtrl v (ctrl_ns r) (ctrl_reg r) (doorbell_stride r) (admin_sq r)
    (admin_cq r) (ns_count r) (io_sq r) (io_cq r).
Definition set_ctrl_ns (v : Z) (r : nvme_ctrl) : nvme_ctrl :=
  mkCtrl (ctrl_pci r) v (ctrl_reg r) (doorbell_stride r) (admin_sq r)
    (admin_cq r) (ns_count r) (io_sq r) (io_cq r).
Definition set_ctrl_reg (v : Z) (r : nvme_ctrl) : nvme_ctrl :=
  mkCtrl (ctrl_pci r) (ctrl_ns r) v (doorbell_stride r) (admin_sq r)
    (admin_cq r) (ns_count r) (io_sq r) (io_cq r).
Definition set_doorbell_stride (v : Z) (r : nvme_ctrl) : nvme_ctrl :=
  mkCtrl (ctrl_pci r) (ctrl_ns r) (ctrl_reg r) v (admin_sq r) (admin_cq r)
    (ns_count r) (io_sq r) (io_cq r).
Definition set_admin_sq (v : nvme_sq) (r : nvme_ctrl) : nvme_ctrl :=
  mkCtrl (ctrl_pci r) (ctrl_ns r) (ctrl_reg r) (doorbell_stride r) v
    (admin_cq r) (ns_count r) (io_sq r) (io_cq r).
Definition set_admin_cq (v : nvme_cq) (r : nvme_ctrl) : nvme_ctrl :=
  mkCtrl (ctrl_pci r) (ctrl_ns r) (ctrl_reg r) (doorbell_stride r)
    (admin_sq r) v (ns_count r) (io_sq r) (io_cq r).
Definition set_ns_count (v : Z) (r : nvme_ctrl) : nvme_ctrl :=
  mkCtrl (ctrl_pci r) (ctrl_ns r) (ctrl_reg r) (doorbell_stride r)
    (admin_sq r) (admin_cq r) v (io_sq r) (io_cq r).
Definition set_io_sq (v : nvme_sq) (r : nvme_ctrl) : nvme_ctrl :=
  mkCtrl (ctrl_pci r) (ctrl_ns r) (ctrl_reg r) (doorbell_stride r)
    (admin_sq r) (admin_cq r) (ns_count r) v (io_cq r).
Definition set_io_cq (v : nvme_cq) (r : nvme_ctrl) : nvme_ctrl :=
  mkCtrl (ctrl_pci r) (ctrl_ns r) (ctrl_reg r) (doorbell_stride r)
    (admin_sq r) (admin_cq r) (ns_count r) (io_sq r) v.

Record nvme_namespace : Type := mkNs {
  ns_ctrl : Z;
  ns_id : Z;
  lba_count : Z;
  block_size : Z;
  metadata_size : Z;
  max_req_size : Z }.
Definition set_ns_ctrl (v : Z) (r : nvme_namespace) : nvme_namespace :=
  mkNs v (ns_id r) (lba_count r) (block_size r) (metadata_size r)
    (max_req_size r).
Definition set_ns_id (v : Z) (r : nvme_namespace) : nvme_namespace :=
  mkNs (ns_ctrl r) v (lba_count r) (block_size r) (metadata_size r)
    (max_req_size r).
Definition set_lba_count (v : Z) (r : nvme_namespace) : nvme_namespace :=
  mkNs (ns_ctrl r) (ns_id r) v (block_size r) (metadata_size r)
    (max_req_size r).
Definition set_block_size (v : Z) (r : nvme_namespace) : nvme_namespace :=
  mkNs (ns_ctrl r) (ns_id r) (lba_count r) v (metadata_size r)
    (max_req_size r).
Definition set_metadata_size (v : Z) (r : nvme_namespace) : nvme_namespace :=
  mkNs (ns_ctrl r) (ns_id r) (lba_count r) (block_size r) v (max_req_size
    r).
Definition set_max_req_size (v : Z) (r : nvme_namespace) : nvme_namespace :=
  mkNs (ns_ctrl r) (ns_id r) (lba_count r) (block_size r) (metadata_size
    r) v.

Record nvme_device : Type := mkNvme {
  nvme_opened : bool;
  nvme_pci_dev : Z;
  nvme_ctrl_ : Z }.
Definition set_nvme_opened (v : bool) (r : nvme_device) : nvme_device :=
  mkNvme v (nvme_pci_dev r) (nvme_ctrl_ r).
Definition set_nvme_pci_dev (v : Z) (r : nvme_device) : nvme_device :=
  mkNvme (nvme_opened r) v (nvme_ctrl_ r).
Definition set_nvme_ctrl_ (v : Z) (r : nvme_device) : nvme_device :=
  mkNvme (nvme_opened r) (nvme_pci_dev r) v.

(** The driver's globals and the structures it has allocated. *)
Record nvme_state : Type := mkNvmeState {
  nvme_devices : list Z;
  nvme_devs : gmap Z nvme_device;
  nvme_ctrls : gmap Z nvme_ctrl;
  nvme_nss : gmap Z nvme_namespace;
  nvme_dma_buffer : Z;
  nvme_busy : bool }.
Definition set_nvme_devices (v : list Z) (r : nvme_state) : nvme_state :=
  mkNvmeState v (nvme_devs r) (nvme_ctrls r) (nvme_nss r) (nvme_dma_buffer
    r) (nvme_busy r).
Definition set_nvme_devs (v : gmap Z nvme_device) (r : nvme_state) : nvme_state :=
  mkNvmeState (nvme_devices r) v (nvme_ctrls r) (nvme_nss r)
    (nvme_dma_buffer r) (nvme_busy r).
Definition set_nvme_ctrls (v : gmap Z nvme_ctrl) (r : nvme_state) : nvme_state :=
  mkNvmeState (nvme_devices r) (nvme_devs r) v (nvme_nss r)
    (nvme_dma_buffer r) (nvme_busy r).
Definition set_nvme_nss (v : gmap Z nvme_namespace) (r : nvme_state) : nvme_state :=
  mkNvmeState (nvme_devices r) (nvme_devs r) (nvme_ctrls r) v
    (nvme_dma_buffer r) (nvme_busy r).
Definition set_nvme_dma_buffer (v : Z) (r : nvme_state) : nvme_state :=
  mkNvmeState (nvme_devices r) (nvme_devs r) (nvme_ctrls r) (nvme_nss r) v
    (nvme_busy r).
Definition set_nvme_busy (v : bool) (r : nvme_state) : nvme_state :=
  mkNvmeState (nvme_devices r) (nvme_devs r) (nvme_ctrls r) (nvme_nss r)
    (nvme_dma_buffer r) v.

(** ** SAN devices (include/ipxe/sanboot.h) and INT 13 drives (int13.c) *)

Record block_device_capacity : Type := mkCap {
  blocks : Z;
  blksize : Z;
  max_count : Z }.

Record san_path : Type := mkPath {
  path_uri : Z;
  path_rc : Z;
  path_desc : option Z }.
Definition set_path_uri (v : Z) (r : san_path) : san_path :=
  mkPath v (path_rc r) (path_desc r).
Definition set_path_rc (v : Z) (r : san_path) : san_path :=
  mkPath (path_uri r) v (path_desc r).
Definition set_path_desc (v : option Z) (r : san_path) : san_path :=
  mkPath (path_uri r) (path_rc r) v.

Record int13_data : Type := mkInt13 {
  natural_drive : Z;
  cylinders : Z;
  heads : Z;
  sectors_per_track : Z;
  boot_catalog : Z;
  last_status : Z }.
Definition set_natural_drive (v : Z) (r : int13_data) : int13_data :=
  mkInt13 v (cylinders r) (heads r) (sectors_per_track r) (boot_catalog r)
    (last_status r).
Definition set_cylinders (v : Z) (r : int13_data) : int13_data :=
  mkInt13 (natural_drive r) v (heads r) (sectors_per_track r)
    (boot_catalog r) (last_status r).
Definition set_heads (v : Z) (r : int13_data) : int13_data :=
  mkInt13 (natural_drive r) (cylinders r) v (sectors_per_track r)
    (boot_catalog r) (last_status r).
Definition set_sectors_per_track (v : Z) (r : int13_data) : int13_data :=
  mkInt13 (natural_drive r) (cylinders r) (heads r) v (boot_catalog r)
    (last_status r).
Definition set_boot_catalog (v : Z) (r : int13_data) : int13_data :=
  mkInt13 (natural_drive r) (cylinders r) (heads r) (sectors_per_track r)
    v (last_status r).
Definition set_last_status (v : Z) (r : int13_data) : int13_data :=
  mkInt13 (natural_drive r) (cylinders r) (heads r) (sectors_per_track r)
    (boot_catalog r) v.

Record san_device : Type := mkSandev {
  drive : Z;
  flags : Z;
  command_rc : Z;
  capacity : block_device_capacity;
  blksize_shift : Z;
  is_cdrom : bool;
  priv : int13_data;
  paths : Z;
  active : option Z;
  opened : list Z;
  closed : list Z;
  path : list san_path }.
Definition set_drive (v : Z) (r : san_device) : san_device :=
  mkSandev v (flags r) (command_rc r) (capacity r) (blksize_shift r)
    (is_cdrom r) (priv r) (paths r) (active r) (opened r) (closed r) (path
    r).
Definition set_flags (v : Z) (r : san_device) : san_device :=
  mkSandev (drive r) v (command_rc r) (capacity r) (blksize_shift r)
    (is_cdrom r) (priv r) (paths r) (active r) (opened r) (closed r) (path
    r).
Definition set_command_rc (v : Z) (r : san_device) : san_device :=
  mkSandev (drive r) (flags r) v (capacity r) (blksize_shift r) (is_cdrom
    r) (priv r) (paths r) (active r) (opened r) (closed r) (path r).
Definition set_capacity (v : block_device_capacity) (r : san_device) : san_device :=
  mkSandev (drive r) (flags r) (command_rc r) v (blksize_shift r)
    (is_cdrom r) (priv r) (paths r) (active r) (opened r) (closed r) (path
    r).
Definition set_blksize_shift (v : Z) (r : san_device) : san_device :=
  mkSandev (drive r) (flags r) (command_rc r) (capacity r) v (is_cdrom r)
    (priv r) (paths r) (active r) (opened r) (closed r) (path r).
Definition set_is_cdrom (v : bool) (r : san_device) : san_device :=
  mkSandev (drive r) (flags r) (command_rc r) (capacity r) (blksize_shift
    r) v (priv r) (paths r) (active r) (opened r) (closed r) (path r).
Definition set_priv (v : int13_data) (r : san_device) : san_device :=
  mkSandev (drive r) (flags r) (command_rc r) (capacity r) (blksize_shift
    r) (is_cdrom r) v (paths r) (active r) (opened r) (closed r) (path r).
Definition set_paths (v : Z) (r : san_device) : san_device :=
  mkSandev (drive r) (flags r) (command_rc r) (capacity r) (blksize_shift
    r) (is_cdrom r) (priv r) v (active r) (opened r) (closed r) (path r).
Definition set_active (v : option Z) (r : san_device) : san_device :=
  mkSandev (drive r) (flags r) (command_rc r) (capacity r) (blksize_shift
    r) (is_cdrom r) (priv r) (paths r) v (opened r) (closed r) (path r).
Definition set_opened (v : list Z) (r : san_device) : san_device :=
  mkSandev (drive r) (flags r) (command_rc r) (capacity r) (blksize_shift
    r) (is_cdrom r) (priv r) (paths r) (active r) v (closed r) (path r).
Definition set_closed (v : list Z) (r : san_device) : san_device :=
  mkSandev (drive r) (flags r) (command_rc r) (capacity r) (blksize_shift
    r) (is_cdrom r) (priv r) (paths r) (active r) (opened r) v (path r).
Definition set_path (v : list san_path) (r : san_device) : san_device :=
  mkSandev (drive r) (flags r) (command_rc r) (capacity r) (blksize_shift
    r) (is_cdrom r) (priv r) (paths r) (active r) (opened r) (closed r) v.

Record san_state : Type := mkSanState {
  sandevs : gmap Z san_device;
  san_devices : list Z;
  san_retries : Z;
  acpi_descs : list Z }.
Definition set_sandevs (v : gmap Z san_device) (r : san_state) : san_state :=
  mkSanState v (san_devices r) (san_retries r) (acpi_descs r).
Definition set_san_devices (v : list Z) (r : san_state) : san_state :=
  mkSanState (sandevs r) v (san_retries r) (acpi_descs r).
Definition set_san_retries (v : Z) (r : san_state) : san_state :=
  mkSanState (sandevs r) (san_devices r) v (acpi_descs r).
Definition set_acpi_descs (v : list Z) (r : san_state) : san_state :=
  mkSanState (sandevs r) (san_devices r) (san_retries r) v.

(** The globals of int13.c, biosint.c, device.c and bootsector.c; vectors are
    (segment, offset). *)
Record bios_state : Type := mkBios {
  int13_vector : Z * Z;
  equipment_word : Z;
  num_fdds : Z;
  num_drives : Z;
  hooked_bios_interrupts : Z;
  device_keep_count : Z;
  xbftab_used : Z;
  int18_vector : Z * Z;
  int19_vector : Z * Z }.
Definition set_int13_vector (v : Z * Z) (r : bios_state) : bios_state :=
  mkBios v (equipment_word r) (num_fdds r) (num_drives r)
    (hooked_bios_interrupts r) (device_keep_count r) (xbftab_used r)
    (int18_vector r) (int19_vector r).
Definition set_equipment_word (v : Z) (r : bios_state) : bios_state :=
  mkBios (int13_vector r) v (num_fdds r) (num_drives r)
    (hooked_bios_interrupts r) (device_keep_count r) (xbftab_used r)
    (int18_vector r) (int19_vector r).
Definition set_num_fdds (v : Z) (r : bios_state) : bios_state :=
  mkBios (int13_vector r) (equipment_word r) v (num_drives r)
    (hooked_bios_interrupts r) (device_keep_count r) (xbftab_used r)
    (int18_vector r) (int19_vector r).
Definition set_num_drives (v : Z) (r : bios_state) : bios_state :=
  mkBios (int13_vector r) (equipment_word r) (num_fdds r) v
    (hooked_bios_interrupts r) (device_keep_count r) (xbftab_used r)
    (int18_vector r) (int19_vector r).
Definition set_hooked_bios_interrupts (v : Z) (r : bios_state) : bios_state :=
  mkBios (int13_vector r) (equipment_word r) (num_fdds r) (num_drives r) v
    (device_keep_count r) (xbftab_used r) (int18_vector r) (int19_vector r).
Definition set_device_keep_count (v : Z) (r : bios_state) : bios_state :=
  mkBios (int13_vector r) (equipment_word r) (num_fdds r) (num_drives r)
    (hooked_bios_interrupts r) v (xbftab_used r) (int18_vector r)
    (int19_vector r).
Definition set_xbftab_used (v : Z) (r : bios_state) : bios_state :=
  mkBios (int13_vector r) (equipment_word r) (num_fdds r) (num_drives r)
    (hooked_bios_interrupts r) (device_keep_count r) v (int18_vector r)
    (int19_vector r).
Definition set_int18_vector (v : Z * Z) (r : bios_state) : bios_state :=
  mkBios (int13_vector r) (equipment_word r) (num_fdds r) (num_drives r)
    (hooked_bios_interrupts r) (device_keep_count r) (xbftab_used r) v
    (int19_vector r).
Definition set_int19_vector (v : Z * Z) (r : bios_state) : bios_state :=
  mkBios (int13_vector r) (equipment_word r) (num_fdds r) (num_drives r)
    (hooked_bios_interrupts r) (device_keep_count r) (xbftab_used r)
    (int18_vector r) v.

(** The processor registers the INT 13 interface uses (include/registers.h). *)
Record i386_all_regs : Type := mkRegs {
  eax : Z;
  ebx : Z;
  ecx : Z;
  edx : Z;
  esi : Z;
  edi : Z;
  seg_ds : Z;
  seg_es : Z;
  eflags : Z }.
Definition set_eax (v : Z) (r : i386_all_regs) : i386_all_regs :=
  mkRegs v (ebx r) (ecx r) (edx r) (esi r) (edi r) (seg_ds r) (seg_es r)
    (eflags r).
Definition set_ebx (v : Z) (r : i386_all_regs) : i386_all_regs :=
  mkRegs (eax r) v (ecx r) (edx r) (esi r) (edi r) (seg_ds r) (seg_es r)
    (eflags r).
Definition set_ecx (v : Z) (r : i386_all_regs) : i386_all_regs :=
  mkRegs (eax r) (ebx r) v (edx r) (esi r) (edi r) (seg_ds r) (seg_es r)
    (eflags r).
Definition set_edx (v : Z) (r : i386_all_regs) : i386_all_regs :=
  mkRegs (eax r) (ebx r) (ecx r) v (esi r) (edi r) (seg_ds r) (seg_es r)
    (eflags r).
Definition set_esi (v : Z) (r : i386_all_regs) : i386_all_regs :=
  mkRegs (eax r) (ebx r) (ecx r) (edx r) v (edi r) (seg_ds r) (seg_es r)
    (eflags r).
Definition set_edi (v : Z) (r : i386_all_regs) : i386_all_regs :=
  mkRegs (eax r) (ebx r) (ecx r) (edx r) (esi r) v (seg_ds r) (seg_es r)
    (eflags r).
Definition set_seg_ds (v : Z) (r : i386_all_regs) : i386_all_regs :=
  mkRegs (eax r) (ebx r) (ecx r) (edx r) (esi r) (edi r) v (seg_es r)
    (eflags r).
Definition set_seg_es (v : Z) (r : i386_all_regs) : i386_all_regs :=
  mkRegs (eax r) (ebx r) (ecx r) (edx r) (esi r) (edi r) (seg_ds r) v
    (eflags r).
Definition set_eflags (v : Z) (r : i386_all_regs) : i386_all_regs :=
  mkRegs (eax r) (ebx r) (ecx r) (edx r) (esi r) (edi r) (seg_ds r)
    (seg_es r) v.

(** ** PCI devices (include/ipxe/pci.h) and the device tree (core/device.c) *)

(** The driver is its place in the table of drivers. *)
Record pci_device : Type := mkPci {
  dev_name : cstring;
  membase : Z;
  ioaddr : Z;
  vendor : Z;
  device : Z;
  class : Z;
  irq : Z;
  hdrtype : Z;
  busdevfn : Z;
  pci_driver_ : option nat }.
Definition set_pci_driver_ (v : option nat) (r : pci_device) : pci_device :=
  mkPci (dev_name r) (membase r) (ioaddr r) (vendor r) (device r) (class
    r) (irq r) (hdrtype r) (busdevfn r) v.

(** The address range of pci.c, the PCI device structures and the children of
    the PCI root device, the registered root devices (by their place in the
    table) of device.c, and the flag of init.c. *)
Record dev_state : Type := mkDevState {
  range_start : Z;
  range_count : Z;
  pci_devs : gmap Z pci_device;
  pci_children : list Z;
  devices : list nat;
  started : bool }.
Definition set_range_start (v : Z) (r : dev_state) : dev_state :=
  mkDevState v (range_count r) (pci_devs r) (pci_children r) (devices r)
    (started r).
Definition set_range_count (v : Z) (r : dev_state) : dev_state :=
  mkDevState (range_start r) v (pci_devs r) (pci_children r) (devices r)
    (started r).
Definition set_pci_devs (v : gmap Z pci_device) (r : dev_state) : dev_state :=
  mkDevState (range_start r) (range_count r) v (pci_children r) (devices
    r) (started r).
Definition set_pci_children (v : list Z) (r : dev_state) : dev_state :=
  mkDevState (range_start r) (range_count r) (pci_devs r) v (devices r)
    (started r).
Definition set_devices (v : list nat) (r : dev_state) : dev_state :=
  mkDevState (range_start r) (range_count r) (pci_devs r) (pci_children r)
    v (started r).
Definition set_started (v : bool) (r : dev_state) : dev_state :=
  mkDevState (range_start r) (range_count r) (pci_devs r) (pci_children r)
    (devices r) v.

(** ** The platform

    What the code relies on outside of the repository: the NVMe controller
    behind its registers and the memory it shares with the driver, PCI
    configuration space, the timer, and the constants fixed by the compiler
    and linker of a 32-bit build. *)

Class Platform : Type := {
  (** State of the hardware. *)
  hw : Type;
  (** Read and write of a 32-bit device register, by address. *)
  mmio_read32 : hw -> Z -> Z;
  mmio_write32 : hw -> Z -> Z -> hw;
  (** The progress the devices make, in their state and in memory, between
      two polls by the driver. *)
  hw_poll : hw -> mem -> hw * mem;
  (** The timer, and the passing of time between two reads of it. *)
  hw_ticks : hw -> Z;
  hw_advance : hw -> hw;
  (** PCI configuration space: width in bytes, bus:dev.fn address, register
      number and, for a write, the value. *)
  pci_config_read : hw -> Z -> Z -> Z -> Z;
  pci_config_write : hw -> Z -> Z -> Z -> Z -> hw;
  (** Mapping of a bus address range of a device, or NULL. *)
  pci_ioremap : Z -> Z -> Z -> Z;
  (** Physical minus virtual address. *)
  virt_offset : Z;
  (** Structure sizes. *)
  sizeof_nvme_device : Z;
  sizeof_nvme_ctrl : Z;
  sizeof_nvme_namespace : Z;
  sizeof_san_device : Z;
  sizeof_san_path : Z;
  sizeof_int13_data : Z;
  sizeof_uri : Z;
  sizeof_pci_device : Z;
  (** What freshly allocated, uninitialised memory holds, read as a
      controller structure. *)
  junk_ctrl : Z -> nvme_ctrl;
  (** Real-mode segments and the offsets of symbols within them. *)
  rm_cs : Z;
  rm_ds : Z;
  int13_wrapper_off : Z;
  int13_fdd_params_off : Z;
  eltorito_cmd_off : Z;
  eltorito_address_off : Z;
  xbftab_off : Z;
  bootsector_exec_fail : Z;
  (** Interrupt handlers of the BIOS or of other code, by segment and offset:
      what a call does to the registers, the devices and memory. *)
  bios_handler : Z * Z -> i386_all_regs -> hw -> mem -> i386_all_regs * hw * mem;
  (** The cache discarders linked into the build. *)
  cache_discarders : list (heap -> Z * heap)
}.

(** ** The state of the program *)

Section world.
Context `{Platform}.

Record world : Type := mkWorld {
  w_mem : mem;
  w_hw : hw;
  w_heap : heap;
  w_refs : gmap refid refcnt;
  w_intfs : gmap intf_id interface;
  w_procs : gmap procid process;
  w_runq : list procid;
  w_tmrs : gmap timerid retry_timer;
  w_timers : list timerid;
  w_uris : gmap Z uri;
  w_nvme : nvme_state;
  w_san : san_state;
  w_bios : bios_state;
  w_dev : dev_state }.
Definition set_w_mem (v : mem) (r : world) : world :=
  mkWorld v (w_hw r) (w_heap r) (w_refs r) (w_intfs r) (w_procs r) (w_runq
    r) (w_tmrs r) (w_timers r) (w_uris r) (w_nvme r) (w_san r) (w_bios r)
    (w_dev r).
Definition set_w_hw (v : hw) (r : world) : world :=
  mkWorld (w_mem r) v (w_heap r) (w_refs r) (w_intfs r) (w_procs r)
    (w_runq r) (w_tmrs r) (w_timers r) (w_uris r) (w_nvme r) (w_san r)
    (w_bios r) (w_dev r).
Definition set_w_heap (v : heap) (r : world) : world :=
  mkWorld (w_mem r) (w_hw r) v (w_refs r) (w_intfs r) (w_procs r) (w_runq
    r) (w_tmrs r) (w_timers r) (w_uris r) (w_nvme r) (w_san r) (w_bios r)
    (w_dev r).
Definition set_w_refs (v : gmap refid refcnt) (r : world) : world :=
  mkWorld (w_mem r) (w_hw r) (w_heap r) v (w_intfs r) (w_procs r) (w_runq
    r) (w_tmrs r) (w_timers r) (w_uris r) (w_nvme r) (w_san r) (w_bios r)
    (w_dev r).
Definition set_w_intfs (v : gmap intf_id interface) (r : world) : world :=
  mkWorld (w_mem r) (w_hw r) (w_heap r) (w_refs r) v (w_procs r) (w_runq
    r) (w_tmrs r) (w_timers r) (w_uris r) (w_nvme r) (w_san r) (w_bios r)
    (w_dev r).
Definition set_w_procs (v : gmap procid process) (r : world) : world :=
  mkWorld (w_mem r) (w_hw r) (w_heap r) (w_refs r) (w_intfs r) v (w_runq
    r) (w_tmrs r) (w_timers r) (w_uris r) (w_nvme r) (w_san r) (w_bios r)
    (w_dev r).
Definition set_w_runq (v : list procid) (r : world) : world :=
  mkWorld (w_mem r) (w_hw r) (w_heap r) (w_refs r) (w_intfs r) (w_procs r)
    v (w_tmrs r) (w_timers r) (w_uris r) (w_nvme r) (w_san r) (w_bios r)
    (w_dev r).
Definition set_w_tmrs (v : gmap timerid retry_timer) (r : world) : world :=
  mkWorld (w_mem r) (w_hw r) (w_heap r) (w_refs r) (w_intfs r) (w_procs r)
    (w_runq r) v (w_timers r) (w_uris r) (w_nvme r) (w_san r) (w_bios r)
    (w_dev r).
Definition set_w_timers (v : list timerid) (r : world) : world :=
  mkWorld (w_mem r) (w_hw r) (w_heap r) (w_refs r) (w_intfs r) (w_procs r)
    (w_runq r) (w_tmrs r) v (w_uris r) (w_nvme r) (w_san r) (w_bios r)
    (w_dev r).
Definition set_w_uris (v : gmap Z uri) (r : world) : world :=
  mkWorld (w_mem r) (w_hw r) (w_heap r) (w_refs r) (w_intfs r) (w_procs r)
    (w_runq r) (w_tmrs r) (w_timers r) v (w_nvme r) (w_san r) (w_bios r)
    (w_dev r).
Definition set_w_nvme (v : nvme_state) (r : world) : world :=
  mkWorld (w_mem r) (w_hw r) (w_heap r) (w_refs r) (w_intfs r) (w_procs r)
    (w_runq r) (w_tmrs r) (w_timers r) (w_uris r) v (w_san r) (w_bios r)
    (w_dev r).
Definition set_w_san (v : san_state) (r : world) : world :=
  mkWorld (w_mem r) (w_hw r) (w_heap r) (w_refs r) (w_intfs r) (w_procs r)
    (w_runq r) (w_tmrs r) (w_timers r) (w_uris r) (w_nvme r) v (w_bios r)
    (w_dev r).
Definition set_w_bios (v : bios_state) (r : world) : world :=
  mkWorld (w_mem r) (w_hw r) (w_heap r) (w_refs r) (w_intfs r) (w_procs r)
    (w_runq r) (w_tmrs r) (w_timers r) (w_uris r) (w_nvme r) (w_san r) v
    (w_dev r).
Definition set_w_dev (v : dev_state) (r : world) : world :=
  mkWorld (w_mem r) (w_hw r) (w_heap r) (w_refs r) (w_intfs r) (w_procs r)
    (w_runq r) (w_tmrs r) (w_timers r) (w_uris r) (w_nvme r) (w_san r)
    (w_bios r) v.

End world.

(** A program on the world. *)
Notation cprog := (prog world).

(** Reduce projections of updated records. *)
Ltac wsimpl :=
  cbn [ref_count ref_free intf_dest intf_refcnt intf_desc_ intf_original
    proc_desc_ proc_refcnt tm_running tm_timeout tm_min tm_max tm_start
    tm_count tm_refcnt free_blocks freemem usedmem maxusedmem uri_scheme
    uri_opaque uri_user uri_password uri_host uri_port_ uri_path uri_epath
    uri_equery uri_efragment q_dbl q_mask cq_common cq_cqe cq_head
    cq_phase sq_common sq_sqe sq_cq sq_head sq_tail ctrl_pci ctrl_ns
    ctrl_reg doorbell_stride admin_sq admin_cq ns_count io_sq io_cq
    ns_ctrl ns_id lba_count block_size metadata_size max_req_size
    nvme_opened nvme_pci_dev nvme_ctrl_ nvme_devices nvme_devs nvme_ctrls
    nvme_nss nvme_dma_buffer nvme_busy blocks blksize max_count path_uri
    path_rc path_desc natural_drive cylinders heads sectors_per_track
    boot_catalog last_status drive flags command_rc capacity blksize_shift
    is_cdrom priv paths active opened closed path sandevs san_devices
    san_retries acpi_descs int13_vector equipment_word num_fdds num_drives
    hooked_bios_interrupts device_keep_count xbftab_used int18_vector
    int19_vector eax ebx ecx edx esi edi seg_ds seg_es eflags dev_name
    membase ioaddr vendor device class irq hdrtype busdevfn pci_driver_
    range_start range_count pci_devs pci_children devices started w_mem
    w_hw w_heap w_refs w_intfs w_procs w_runq w_tmrs w_timers w_uris
    w_nvme w_san w_bios w_dev set_ref_count set_ref_free set_intf_dest
    set_intf_refcnt set_intf_desc_ set_intf_original set_tm_running
    set_tm_timeout set_tm_min set_tm_max set_tm_start set_tm_count
    set_tm_refcnt set_free_blocks set_freemem set_usedmem set_maxusedmem
    set_uri_scheme set_uri_opaque set_uri_user set_uri_password
    set_uri_host set_uri_port_ set_uri_path set_uri_epath set_uri_equery
    set_uri_efragment set_cq_common set_cq_cqe set_cq_head set_cq_phase
    set_sq_common set_sq_sqe set_sq_cq set_sq_head set_sq_tail
    set_ctrl_pci set_ctrl_ns set_ctrl_reg set_doorbell_stride set_admin_sq
    set_admin_cq set_ns_count set_io_sq set_io_cq set_ns_ctrl set_ns_id
    set_lba_count set_block_size set_metadata_size set_max_req_size
    set_nvme_opened set_nvme_pci_dev set_nvme_ctrl_ set_nvme_devices
    set_nvme_devs set_nvme_ctrls set_nvme_nss set_nvme_dma_buffer
    set_nvme_busy set_path_uri set_path_rc set_path_desc set_natural_drive
    set_cylinders set_heads set_sectors_per_track set_boot_catalog
    set_last_status set_drive set_flags set_command_rc set_capacity
    set_blksize_shift set_is_cdrom set_priv set_paths set_active
    set_opened set_closed set_path set_sandevs set_san_devices
    set_san_retries set_acpi_descs set_int13_vector set_equipment_word
    set_num_fdds set_num_drives set_hooked_bios_interrupts
    set_device_keep_count set_xbftab_used set_int18_vector
    set_int19_vector set_eax set_ebx set_ecx set_edx set_esi set_edi
    set_seg_ds set_seg_es set_eflags set_pci_driver_ set_range_start
    set_range_count set_pci_devs set_pci_children set_devices set_started
    set_w_mem set_w_hw set_w_heap set_w_refs set_w_intfs set_w_procs
    set_w_runq set_w_tmrs set_w_timers set_w_uris set_w_nvme set_w_san
    set_w_bios set_w_dev
    fst snd negb andb orb].

Ltac wsimpl_in H :=
  cbn [ref_count ref_free intf_dest intf_refcnt intf_desc_ intf_original
    proc_desc_ proc_refcnt tm_running tm_timeout tm_min tm_max tm_start
    tm_count tm_refcnt free_blocks freemem usedmem maxusedmem uri_scheme
    uri_opaque uri_user uri_password uri_host uri_port_ uri_path uri_epath
    uri_equery uri_efragment q_dbl q_mask cq_common cq_cqe cq_head
    cq_phase sq_common sq_sqe sq_cq sq_head sq_tail ctrl_pci ctrl_ns
    ctrl_reg doorbell_stride admin_sq admin_cq ns_count io_sq io_cq
    ns_ctrl ns_id lba_count block_size metadata_size max_req_size
    nvme_opened nvme_pci_dev nvme_ctrl_ nvme_devices nvme_devs nvme_ctrls
    nvme_nss nvme_dma_buffer nvme_busy blocks blksize max_count path_uri
    path_rc path_desc natural_drive cylinders heads sectors_per_track
    boot_catalog last_status drive flags command_rc capacity blksize_shift
    is_cdrom priv paths active opened closed path sandevs san_devices
    san_retries acpi_descs int13_vector equipment_word num_fdds num_drives
    hooked_bios_interrupts device_keep_count xbftab_used int18_vector
    int19_vector eax ebx ecx edx esi edi seg_ds seg_es eflags dev_name
    membase ioaddr vendor device class irq hdrtype busdevfn pci_driver_
    range_start range_count pci_devs pci_children devices started w_mem
    w_hw w_heap w_refs w_intfs w_procs w_runq w_tmrs w_timers w_uris
    w_nvme w_san w_bios w_dev set_ref_count set_ref_free set_intf_dest
    set_intf_refcnt set_intf_desc_ set_intf_original set_tm_running
    set_tm_timeout set_tm_min set_tm_max set_tm_start set_tm_count
    set_tm_refcnt set_free_blocks set_freemem set_usedmem set_maxusedmem
    set_uri_scheme set_uri_opaque set_uri_user set_uri_password
    set_uri_host set_uri_port_ set_uri_path set_uri_epath set_uri_equery
    set_uri_efragment set_cq_common set_cq_cqe set_cq_head set_cq_phase
    set_sq_common set_sq_sqe set_sq_cq set_sq_head set_sq_tail
    set_ctrl_pci set_ctrl_ns set_ctrl_reg set_doorbell_stride set_admin_sq
    set_admin_cq set_ns_count set_io_sq set_io_cq set_ns_ctrl set_ns_id
    set_lba_count set_block_size set_metadata_size set_max_req_size
    set_nvme_opened set_nvme_pci_dev set_nvme_ctrl_ set_nvme_devices
    set_nvme_devs set_nvme_ctrls set_nvme_nss set_nvme_dma_buffer
    set_nvme_busy set_path_uri set_path_rc set_path_desc set_natural_drive
    set_cylinders set_heads set_sectors_per_track set_boot_catalog
    set_last_status set_drive set_flags set_command_rc set_capacity
    set_blksize_shift set_is_cdrom set_priv set_paths set_active
    set_opened set_closed set_path set_sandevs set_san_devices
    set_san_retries set_acpi_descs set_int13_vector set_equipment_word
    set_num_fdds set_num_drives set_hooked_bios_interrupts
    set_device_keep_count set_xbftab_used set_int18_vector
    set_int19_vector set_eax set_ebx set_ecx set_edx set_esi set_edi
    set_seg_ds set_seg_es set_eflags set_pci_driver_ set_range_start
    set_range_count set_pci_devs set_pci_children set_devices set_started
    set_w_mem set_w_hw set_w_heap set_w_refs set_w_intfs set_w_procs
    set_w_runq set_w_tmrs set_w_timers set_w_uris set_w_nvme set_w_san
    set_w_bios set_w_dev
    fst snd negb andb orb] in H.
