(* ===== verification/Zbin.v ===== *)
(** * Zbin

    The tool that makes the images (util/zbin.c): it copies and compresses the
    sections of the linked program as the records in its .zinfo section tell,
    and fixes up the length fields of the headers.

    The buffers are memories of their own, from offset 0; an access outside of
    what was allocated is undefined.  [size_t] and [long] are of 64 bits and the
    machine that runs the tool is little endian.  The messages to the standard
    error stream are left out.  The encoder of liblzma is a parameter. *)

From stdpp Require Import strings.
From S2P Require Import Prelude.
From S2P Require Import Memory.
From S2P Require Import World.

(** ** Data *)

Record input_file : Type := mkInput { i_buf : mem; i_len : Z }.
Record output_file : Type := mkOutput { o_buf : mem; o_len : Z; hdr_len : Z; max_len : Z }.

Record files : Type := mkFiles { input : input_file; output : output_file }.

Notation zprog := (prog files).

Definition set_i_buf (m : mem) (s : files) : files :=
  mkFiles (mkInput m (i_len (input s))) (output s).
Definition set_o_buf (m : mem) (s : files) : files :=
  let o := output s in mkFiles (input s) (mkOutput m (o_len o) (hdr_len o) (max_len o)).
Definition set_o_len (v : Z) (s : files) : files :=
  let o := output s in mkFiles (input s) (mkOutput (o_buf o) v (hdr_len o) (max_len o)).
Definition set_hdr_len (v : Z) (s : files) : files :=
  let o := output s in mkFiles (input s) (mkOutput (o_buf o) (o_len o) v (max_len o)).

(** [union zinfo_record]: the sixteen bytes of a record. *)
Definition zinfo_record : Type := list Z.

Definition zinfo_u32 (offset : nat) (zinfo : zinfo_record) : Z := le_combine (take 4 (drop offset zinfo)).
Definition zinfo_type (zinfo : zinfo_record) : list Z := take 4 zinfo.
Definition zinfo_offset : zinfo_record -> Z := zinfo_u32 4.
Definition zinfo_len : zinfo_record -> Z := zinfo_u32 8.
Definition zinfo_align : zinfo_record -> Z := zinfo_u32 12.
Definition zinfo_divisor : zinfo_record -> Z := zinfo_u32 8.

(** Signed integers of [n] bits. *)
Definition signed (n x : Z) : Z := if x mod 2 ^ n <? 2 ^ (n - 1) then x mod 2 ^ n else x mod 2 ^ n - 2 ^ n.

(** ** Buffers *)

Definition inside (offset n size : Z) : bool := (0 <=? offset) && (offset + n <=? size).

Definition read_input (n : nat) (offset : Z) : zprog (list Z) :=
  s <- gets (fun s => s) ;;
  if inside offset (Z.of_nat n) (i_len (input s)) then ret (load n offset (i_buf (input s))) else undef.

Definition write_input (offset : Z) (bs : list Z) : zprog unit :=
  s <- gets (fun s => s) ;;
  if inside offset (Z.of_nat (length bs)) (i_len (input s))
  then modify (set_i_buf (store offset bs (i_buf (input s)))) else undef.

Definition read_output (n : nat) (offset : Z) : zprog (list Z) :=
  s <- gets (fun s => s) ;;
  if inside offset (Z.of_nat n) (max_len (output s)) then ret (load n offset (o_buf (output s))) else undef.

Definition write_output (offset : Z) (bs : list Z) : zprog unit :=
  s <- gets (fun s => s) ;;
  if inside offset (Z.of_nat (length bs)) (max_len (output s))
  then modify (set_o_buf (store offset bs (o_buf (output s)))) else undef.

Definition align (value align_ : Z) : Z :=
  Z.land (u64 (value + align_ - 1)) (u64 (Z.lnot (align_ - 1))).

(** ** COPY *)

Definition process_zinfo_copy (zinfo : zinfo_record) : zprog Z :=
  let offset := zinfo_offset zinfo in
  let len := zinfo_len zinfo in
  s <- gets (fun s => s) ;;
  if i_len (input s) <? u64 (offset + len) then ret (-1) else
  modify (set_o_len (align (o_len (output s)) (zinfo_align zinfo))) ;;
  o <- gets output ;;
  if max_len o <? u64 (o_len o + len) then ret (-1) else
  bs <- read_input (Z.to_nat len) offset ;;
  write_output (o_len o) bs ;;
  modify (set_o_len (u64 (o_len o + len))) ;;
  ret 0.

(** ** PACK *)

Definition OPCODE_CALL : Z := 0xe8.
Definition OPCODE_JMP : Z := 0xe9.

(** One iteration of the loop below. *)
Definition bcj_loop (data limit offset : Z) : zprog (Z + unit) :=
  if limit <? offset then ret (inr tt) else
  opcode <- read_input 1 (data + offset) ;;
  (* Skip instructions that are not followed by a rel32 address *)
  if negb (le_combine opcode =? OPCODE_CALL) && negb (le_combine opcode =? OPCODE_JMP)
  then ret (inl (offset + 1)) else
  bs <- read_input 4 (data + offset + 1) ;;
  let target := signed 32 (le_combine bs) in
  (if (- offset <=? target) && (target <? limit - offset)
   then write_input (data + offset + 1) (le_split 4 (target + offset))
   else when ((limit - offset <=? target) && (target <? limit))
          (write_input (data + offset + 1) (le_split 4 (target - limit)))) ;;
  ret (inl (offset + 4 + 1)).

(** The filter, on [len] bytes at [data] of the input buffer. *)
Definition bcj_filter (data len : Z) : zprog unit :=
  let limit := signed 64 (len - 5) in
  iterate (S (Z.to_nat len)) (bcj_loop data limit) 0.

Definition CRCPOLY : Z := 0xedb88320.
Definition CRCSEED : Z := 0xffffffff.

Definition crc32_bit (crc : Z) : Z :=
  let mult := if negb (Z.land crc 1 =? 0) then CRCPOLY else 0 in
  Z.lxor (Z.shiftr crc 1) mult.

Definition crc32_le (crc : Z) (data : list Z) : Z :=
  fold_left (fun crc b => Nat.iter 8 crc32_bit (Z.lxor crc b)) data crc.

Section encoder.
(** [lzma_raw_buffer_encode] with the filters of the tool: the packed data, or
    a failure, for the data and the space that is left. *)
Context (lzma_raw_buffer_encode : list Z -> Z -> option (list Z)).

Definition process_zinfo_pack (zinfo : zinfo_record) : zprog Z :=
  let offset := zinfo_offset zinfo in
  let len := zinfo_len zinfo in
  s <- gets (fun s => s) ;;
  if i_len (input s) <? u64 (offset + len) then ret (-1) else
  let len32 := align (o_len (output s)) (zinfo_align zinfo) in
  modify (set_o_len (u64 (len32 + 4))) ;;
  o <- gets output ;;
  if max_len o <? o_len o then ret (-1) else
  bcj_filter offset len ;;
  let packed := o_len o in
  let remaining := max_len o - o_len o in
  data <- read_input (Z.to_nat len) offset ;;
  match lzma_raw_buffer_encode data remaining with
  | None => ret (-1)
  | Some bs =>
      write_output packed bs ;;
      let packed_len := Z.of_nat (length bs) in
      let crc32 := u64 (packed + packed_len) in
      modify (set_o_len (u64 (crc32 + 4))) ;;
      o <- gets output ;;
      if max_len o <? o_len o then ret (-1) else
      write_output len32 (le_split 4 (packed_len + 4)) ;;
      bs <- read_output (Z.to_nat packed_len) packed ;;
      write_output crc32 (le_split 4 (crc32_le CRCSEED bs)) ;;
      ret 0
  end.

(** ** PAYL *)

Definition process_zinfo_payl (zinfo : zinfo_record) : zprog Z :=
  o <- gets output ;;
  let len := align (o_len o) (zinfo_align zinfo) in
  modify (set_o_len len) ;;
  modify (set_hdr_len len) ;;
  ret 0.

(** ** ADDx, ADHx, ADPx, APPx *)

Definition process_zinfo_add (len : Z) (add : zinfo_record) (offset datasize : Z) : zprog Z :=
  let offset := u64 (offset + zinfo_offset add) in
  o <- gets output ;;
  if o_len o <? u64 (offset + datasize) then ret (-1) else
  if zinfo_divisor add =? 0 then undef else
  let size := align len (zinfo_divisor add) / zinfo_divisor add in
  if negb ((datasize =? 1) || (datasize =? 2) || (datasize =? 4)) then ret (-1) else
  bs <- read_output (Z.to_nat datasize) offset ;;
  let addend := signed (8 * datasize) (le_combine bs) in
  let val := signed 64 (size + addend) in
  let mask := 2 ^ (8 * datasize) - 1 in
  if val <? 0 then ret (-1) else
  if negb (Z.land val (Z.lnot mask) =? 0) then ret (-1) else
  write_output offset (le_split (Z.to_nat datasize) val) ;;
  ret 0.

Definition process_zinfo_addb (zinfo : zinfo_record) : zprog Z :=
  o <- gets output ;; process_zinfo_add (o_len o) zinfo 0 1.
Definition process_zinfo_addw (zinfo : zinfo_record) : zprog Z :=
  o <- gets output ;; process_zinfo_add (o_len o) zinfo 0 2.
Definition process_zinfo_addl (zinfo : zinfo_record) : zprog Z :=
  o <- gets output ;; process_zinfo_add (o_len o) zinfo 0 4.
Definition process_zinfo_adhb (zinfo : zinfo_record) : zprog Z :=
  o <- gets output ;; process_zinfo_add (hdr_len o) zinfo 0 1.
Definition process_zinfo_adhw (zinfo : zinfo_record) : zprog Z :=
  o <- gets output ;; process_zinfo_add (hdr_len o) zinfo 0 2.
Definition process_zinfo_adhl (zinfo : zinfo_record) : zprog Z :=
  o <- gets output ;; process_zinfo_add (hdr_len o) zinfo 0 4.
Definition process_zinfo_adpb (zinfo : zinfo_record) : zprog Z :=
  o <- gets output ;; process_zinfo_add (u64 (o_len o - hdr_len o)) zinfo 0 1.
Definition process_zinfo_adpw (zinfo : zinfo_record) : zprog Z :=
  o <- gets output ;; process_zinfo_add (u64 (o_len o - hdr_len o)) zinfo 0 2.
Definition process_zinfo_adpl (zinfo : zinfo_record) : zprog Z :=
  o <- gets output ;; process_zinfo_add (u64 (o_len o - hdr_len o)) zinfo 0 4.
Definition process_zinfo_appb (zinfo : zinfo_record) : zprog Z :=
  o <- gets output ;; process_zinfo_add (u64 (o_len o - hdr_len o)) zinfo (hdr_len o) 1.
Definition process_zinfo_appw (zinfo : zinfo_record) : zprog Z :=
  o <- gets output ;; process_zinfo_add (u64 (o_len o - hdr_len o)) zinfo (hdr_len o) 2.
Definition process_zinfo_appl (zinfo : zinfo_record) : zprog Z :=
  o <- gets output ;; process_zinfo_add (u64 (o_len o - hdr_len o)) zinfo (hdr_len o) 4.

(** ** Records *)

Definition zinfo_processors : list (list Z * (zinfo_record -> zprog Z)) :=
  [ (cs "COPY", process_zinfo_copy)
  ; (cs "PACK", process_zinfo_pack)
  ; (cs "PAYL", process_zinfo_payl)
  ; (cs "ADDB", process_zinfo_addb)
  ; (cs "ADDW", process_zinfo_addw)
  ; (cs "ADDL", process_zinfo_addl)
  ; (cs "ADHB", process_zinfo_adhb)
  ; (cs "ADHW", process_zinfo_adhw)
  ; (cs "ADHL", process_zinfo_adhl)
  ; (cs "ADPB", process_zinfo_adpb)
  ; (cs "ADPW", process_zinfo_adpw)
  ; (cs "ADPL", process_zinfo_adpl)
  ; (cs "APPB", process_zinfo_appb)
  ; (cs "APPW", process_zinfo_appw)
  ; (cs "APPL", process_zinfo_appl) ].

(** [strncat] copies the type up to a NUL. *)
Fixpoint c_string (s : list Z) : list Z :=
  match s with [] => [] | c :: s => if c =? 0 then [] else c :: c_string s end.

Fixpoint find_processor (type : list Z) (l : list (list Z * (zinfo_record -> zprog Z))) (zinfo : zinfo_record) : zprog Z :=
  match l with
  | [] => ret (-1)
  | (processor_type, process) :: l =>
      if bool_decide (processor_type = type) then process zinfo else find_processor type l zinfo
  end.

Definition process_zinfo (zinfo : zinfo_record) : zprog Z :=
  find_processor (c_string (zinfo_type zinfo)) zinfo_processors zinfo.

(** The records one after the other, until one fails: the exit status. *)
Fixpoint process_all (zinfos : list zinfo_record) : zprog Z :=
  match zinfos with
  | [] => ret 0
  | zinfo :: zinfos =>
      rc <- process_zinfo zinfo ;;
      if rc <? 0 then ret 1 else process_all zinfos
  end.

Definition SIZEOF_ZINFO_RECORD : Z := 16.

Definition zinfo_entries (buf : list Z) : list zinfo_record :=
  map (fun i => take 16 (drop (16 * i) buf)) (seq 0 (length buf / 16)).

(** The buffer of the output is filled with ones. *)
Definition alloc_output_file (max : Z) : output_file :=
  mkOutput (fun _ => 0xff) 0 0 max.

(** The tool, on the contents of its two input files, given memory: the exit
    status, and what it wrote. *)
Definition main (file zinfo : list Z) : option (Z * list Z) :=
  if negb (Z.of_nat (length zinfo) mod SIZEOF_ZINFO_RECORD =? 0) then Some (1, []) else
  let len := Z.of_nat (length file) in
  let s := mkFiles (mkInput (store 0 file (fun _ => 0)) len) (alloc_output_file (u64 (len * 4))) in
  match process_all (zinfo_entries zinfo) s with
  | Ret 0 s =>
      (* [write_output_file] *)
      let o := output s in
      if inside 0 (o_len o) (max_len o) then Some (0, load (Z.to_nat (o_len o)) 0 (o_buf o)) else None
  | Ret status _ => Some (status, [])
  | _ => None
  end.
End encoder.
