(* ===== verification/Bcj.v ===== *)
(** * Bcj

    The branch filter.  The tool that makes the images replaces the relative
    targets of jumps by absolute ones, which compress better, and the
    decompressor of the prefix puts the relative ones back: both loops are
    shown to do so for every jump, and the second undoes the first. *)

From S2P Require Import Prelude.
From S2P Require Import Memory.
From S2P Require Import World.
From S2P Require Import Unlzma.
From S2P Require Import Zbin.

Lemma signed_small n v : 0 < n -> - 2 ^ (n - 1) <= v < 2 ^ (n - 1) -> signed n v = v.
Proof.
  intros Hn Hv. unfold signed.
  assert (E : 2 ^ n = 2 * 2 ^ (n - 1)) by (rewrite <- Z.pow_succ_r by lia; f_equal; lia). rewrite E.
  destruct (Z.leb_spec 0 v).
  - rewrite Z.mod_small, (proj2 (Z.ltb_lt v _)) by lia. done.
  - replace (v mod (2 * 2 ^ (n - 1))) with (v + 2 * 2 ^ (n - 1)).
    + rewrite (proj2 (Z.ltb_ge _ (2 ^ (n - 1)))) by lia. lia.
    + apply (Z.mod_unique _ _ (-1)); lia.
Qed.

(** ** The filter on lists *)

Definition is_jump (opcode : Z) : bool := (opcode =? 0xe8) || (opcode =? 0xe9).

(** The targets of the jumps are replaced by [f], which is given their offset. *)
Fixpoint bcj (f : Z -> Z -> Z) (limit : Z) (n : nat) (offset : Z) (l : list Z) : list Z :=
  match n, l with
  | S n, opcode :: rest =>
      if limit <? offset then l
      else if is_jump opcode
        then opcode :: le_split 4 (f offset (le_combine (take 4 rest))) ++ bcj f limit n (offset + 5) (drop 4 rest)
        else opcode :: bcj f limit n (offset + 1) rest
  | _, _ => l
  end.

(** Absolute targets for relative ones, in the range of the data; the values
    that this leaves out take the place of those that it makes.  Targets are
    unsigned here. *)
Definition to_absolute (limit offset target : Z) : Z :=
  let t := signed 32 target in
  if (- offset <=? t) && (t <? limit - offset) then u32 (t + offset)
  else if (limit - offset <=? t) && (t <? limit) then u32 (t - limit) else target.

Definition to_relative (limit offset target : Z) : Z :=
  if target <? limit then u32 (target - offset)
  else if not32 target <? offset then u32 (target + limit) else target.

Lemma to_relative_absolute limit offset target :
  0 <= offset <= limit -> limit < 2 ^ 31 -> 0 <= target < 2 ^ 32 ->
  to_relative limit offset (to_absolute limit offset target) = target.
Proof.
  intros Ho Hl Ht. unfold to_absolute, signed. change (2 ^ (32 - 1)) with (2 ^ 31).
  rewrite (Z.mod_small target) by lia. set (t := if target <? 2 ^ 31 then _ else _).
  assert (Et : u32 t = target /\ - 2 ^ 31 <= t < 2 ^ 31).
  { unfold t. destruct (Z.ltb_spec target (2 ^ 31)); [rewrite u32_small|rewrite u32_neg]; lia. }
  destruct Et as [Et Hr]. clearbody t. rewrite <- Et. clear Ht Et. unfold to_relative.
  assert (Hc : (- offset <=? t) && (t <? limit - offset) = true /\ - offset <= t < limit - offset \/
    (- offset <=? t) && (t <? limit - offset) = false /\
    (((limit - offset <=? t) && (t <? limit) = true /\ limit - offset <= t < limit) \/
     ((limit - offset <=? t) && (t <? limit) = false /\ (t < - offset \/ limit <= t)))) by lia.
  destruct Hc as [[-> Hc]|[-> [[-> Hc]|[-> Hc]]]].
  - rewrite (u32_small (t + offset)) by lia. rewrite (proj2 (Z.ltb_lt _ limit)) by lia. f_equal. lia.
  - rewrite (u32_neg (t - limit)) by lia. rewrite (proj2 (Z.ltb_ge _ limit)) by lia.
    rewrite not32_value, (proj2 (Z.ltb_lt _ offset)) by lia. unfold u32. dlia.
  - assert (Hu : limit <= u32 t /\ offset <= 2 ^ 32 - 1 - u32 t).
    { destruct (Z.ltb_spec t 0); [rewrite u32_neg by lia|rewrite u32_small by lia]; lia. }
    rewrite (proj2 (Z.ltb_ge _ limit)) by lia. rewrite not32_value by (unfold u32; dlia).
    rewrite (proj2 (Z.ltb_ge _ offset)) by lia. done.
Qed.

Lemma to_absolute_range limit offset target : 0 <= target < 2 ^ 32 -> 0 <= to_absolute limit offset target < 2 ^ 32.
Proof.
  intros Ht. unfold to_absolute. do 2 (destruct (_ && _); [apply u32_range|]). done.
Qed.

Lemma le_combine_4 l : Forall is_byte l -> length l = 4%nat -> 0 <= le_combine l < 2 ^ 32.
Proof. intros Hb Hl. pose proof (le_combine_range l Hb) as H. rewrite Hl in H. exact H. Qed.

Lemma bcj_stop f limit n offset l : limit < offset -> bcj f limit n offset l = l.
Proof. intros H. destruct n, l; cbn [bcj]; try done. by rewrite (proj2 (Z.ltb_lt limit offset) H). Qed.

(** The second filter undoes the first. *)
Lemma bcj_inverse limit n : forall offset l, 0 <= offset -> limit < 2 ^ 31 ->
  Z.of_nat (length l) = limit + 5 - offset -> (length l <= n)%nat -> Forall is_byte l ->
  bcj (to_relative limit) limit n offset (bcj (to_absolute limit) limit n offset l) = l.
Proof.
  induction n as [|n IH]; intros offset l Ho Hl Hlen Hn Hb; [done|].
  destruct l as [|opcode rest]; [done|]. cbn [length] in *. apply Forall_cons_1 in Hb as [Hop Hb].
  cbn [bcj]. destruct (Z.ltb_spec limit offset) as [Hgt|Hle]; [done|].
  destruct (is_jump opcode) eqn:Hj; rewrite ?Hj.
  - rewrite take_app_length', drop_app_length' by by rewrite length_le_split.
    assert (Hr : 0 <= le_combine (take 4 rest) < 2 ^ 32)
      by (apply le_combine_4; [by apply Forall_take|rewrite length_take; lia]).
    rewrite le_combine_split. change (2 ^ (8 * Z.of_nat 4)) with (2 ^ 32).
    rewrite (Z.mod_small (to_absolute _ _ _)) by by apply to_absolute_range.
    rewrite to_relative_absolute by (done || lia).
    rewrite IH; [|lia|done|rewrite length_drop; lia|rewrite length_drop; lia|by apply Forall_drop].
    f_equal. rewrite <- (take_drop 4 rest) at 3. f_equal.
    replace 4%nat with (length (take 4 rest)) at 1 by (rewrite length_take; lia).
    apply le_split_combine. by apply Forall_take.
  - rewrite IH; [done|lia|done|lia|lia|done].
Qed.

Lemma bcj_fuel f limit n : forall n' offset l, (length l <= n)%nat -> (length l <= n')%nat ->
  bcj f limit n offset l = bcj f limit n' offset l.
Proof.
  induction n as [|n IH]; intros n' offset [|opcode rest] Hn Hn'; cbn [length] in *; try lia; [by destruct n'|by destruct n'|].
  destruct n' as [|n']; [lia|]. cbn [bcj]. destruct (limit <? offset); [done|]. destruct (is_jump opcode).
  - do 2 f_equal. apply IH; rewrite length_drop; lia.
  - f_equal. apply IH; lia.
Qed.

(** ** Jumps in memory *)

(** Replacing a target, and filtering what follows. *)
Lemma load_jump a k m m1 m' v l : load 4 (a + 1) m1 = le_split 4 v -> mem_eq_except (a + 1) 4 m m1 ->
  load k (a + 5) m' = l -> mem_eq_except (a + 5) (Z.of_nat k) m1 m' ->
  load (S (4 + k)) a m' = m a :: le_split 4 v ++ l /\ mem_eq_except a (Z.of_nat (S (4 + k))) m m'.
Proof.
  intros H1 H2 H3 H4. rewrite load_S, load_app. replace (a + 1 + Z.of_nat 4) with (a + 5) by lia. split.
  - rewrite H3, (load_eq_except 4 (a + 1) _ _ m1 m' H4), H1 by (unfold disjoint; lia). f_equal.
    rewrite (H4 a) by (apply in_range_false; lia). apply H2, in_range_false. lia.
  - apply (mem_eq_except_trans _ _ _ m1); eapply mem_eq_except_mono; [exact H2|lia|lia|exact H4|lia|lia].
Qed.

Lemma load_no_jump a k m m' l : load k (a + 1) m' = l -> mem_eq_except (a + 1) (Z.of_nat k) m m' ->
  load (S k) a m' = m a :: l /\ mem_eq_except a (Z.of_nat (S k)) m m'.
Proof.
  intros H1 H2. rewrite load_S, H1. split; [f_equal; apply H2, in_range_false; lia|].
  eapply mem_eq_except_mono; [exact H2|lia|lia].
Qed.

(** Two conditional updates of a target. *)
Lemma st32_load a v m : load 4 a (st32 a v m) = le_split 4 v /\ mem_eq_except a 4 m (st32 a v m).
Proof.
  unfold st32. split; [rewrite <- (length_le_split 4 v) at 1; apply load_store_same|].
  apply mem_eq_except_store; rewrite ?length_le_split; lia.
Qed.

Lemma le_split_ld32 a m : byte_mem m -> le_split 4 (ld32 a m) = load 4 a m.
Proof.
  intros Hm. unfold ld32. rewrite <- (length_load 4 a m) at 1. apply le_split_combine, load_bytes, Hm.
Qed.

(** ** The loops *)

(** The test for both opcodes at once. *)
Lemma opcode_test al : is_byte al -> (Z.land al 0xfe =? 0xe8) = is_jump al.
Proof.
  intros Hal. apply eqb_prop, (check_below (fun al => Bool.eqb (Z.land al 0xfe =? 0xe8) (is_jump al)) 256).
  - by vm_compute.
  - exact Hal.
Qed.

Section decoder.
Context (start size : Z) (Hstart : 0 <= start) (Hsize : 5 <= size) (Hend : start + size < 2 ^ 32).
Let limit := size - 5.

Lemma wp_to_relative {A} (next : A) offset a m : byte_mem m -> 0 <= offset <= limit -> limit < 2 ^ 31 ->
  wp (eax <- gets (fun m => ld32 a m) ;;
      when (eax <? limit) (modify (fun m => st32 a (u32 (ld32 a m - offset)) m)) ;;
      when (not32 eax <? offset) (modify (fun m => st32 a (u32 (ld32 a m + limit)) m)) ;;
      ret next)
    (fun next' m1 => next' = next /\ byte_mem m1 /\ load 4 a m1 = le_split 4 (to_relative limit offset (ld32 a m)) /\
       mem_eq_except a 4 m m1) m.
Proof.
  intros Hm Ho Hl. pose proof (le_combine_4 (load 4 a m) (load_bytes 4 a m Hm) (length_load 4 a m)) as Hr.
  change (le_combine (load 4 a m)) with (ld32 a m) in Hr. unfold to_relative. wp_prim. wp_prim. wp_prim.
  assert (Hst : forall v, byte_mem (st32 a v m))
    by (intros v; apply byte_mem_store; [apply le_split_bytes|done]).
  destruct (Z.ltb_spec (ld32 a m) limit) as [Hlt|Hge]; repeat wp_prim.
  - rewrite not32_value, (proj2 (Z.ltb_ge _ offset)) by lia. repeat wp_prim.
    split; [done|]. split; [apply Hst|apply st32_load].
  - destruct (Z.ltb_spec (not32 (ld32 a m)) offset); repeat wp_prim.
    + split; [done|]. split; [apply Hst|apply st32_load].
    + rewrite le_split_ld32 by done. do 2 (split; [done|]). split; [done|apply mem_eq_except_refl].
Qed.

Lemma wp_relative_loop fuel : forall k offset m, 0 <= offset -> limit < 2 ^ 31 -> Z.of_nat k = size - offset ->
  (k < fuel)%nat -> byte_mem m ->
  wp (iterate fuel (Unlzma.bcj_loop start limit) (start + offset)) (fun _ m' => byte_mem m' /\
    load k (start + offset) m' = bcj (to_relative limit) limit fuel offset (load k (start + offset) m) /\
    mem_eq_except (start + offset) (Z.of_nat k) m m') m.
Proof.
  induction fuel as [|fuel IH]; intros k offset m Ho Hl Hk Hf Hm; [lia|]. apply wp_iterate_S.
  unfold Unlzma.bcj_loop. rewrite (u32_small (start + offset - start)) by lia.
  replace (start + offset - start) with offset by lia.
  destruct (Z.ltb_spec limit offset) as [Hgt|Hle].
  { wp_prim. rewrite bcj_stop by done. split; [done|]. split; [done|]. apply mem_eq_except_refl. }
  repeat wp_prim. rewrite opcode_test by apply Hm. rewrite !u32_small by lia.
  destruct k as [|k]; [lia|]. rewrite (load_S k _ m). cbn [bcj]. rewrite (proj2 (Z.ltb_ge limit offset) Hle).
  destruct (is_jump (m (start + offset))) eqn:Hj; cbn [negb].
  - eapply wp_mono; [apply (wp_to_relative (inl (start + offset + 1 + 4)) offset (start + offset + 1) m Hm ltac:(lia) Hl)|].
    intros next m1 (-> & Hm1 & H1 & H2). replace (start + offset + 1 + 4) with (start + (offset + 5)) by lia.
    assert (Hk4 : exists k', k = (4 + k')%nat) by (exists (k - 4)%nat; lia). destruct Hk4 as [k' ->].
    eapply wp_mono; [apply (IH k' (offset + 5) m1); try done; lia|].
    intros _ m' (Hm' & H3 & H4). split; [done|]. rewrite take_load, drop_load by lia.
    replace (4 + k' - 4)%nat with k' by lia. replace (start + offset + 1 + Z.of_nat 4) with (start + offset + 5) by lia.
    replace (start + (offset + 5)) with (start + offset + 5) in * by lia.
    rewrite (load_eq_except k' (start + offset + 5) (start + offset + 1) 4 m m1 H2) in H3 by (unfold disjoint; lia).
    apply (load_jump _ _ m m1); try done.
  - repeat wp_prim. replace (start + offset + 1) with (start + (offset + 1)) by lia.
    eapply wp_mono; [apply (IH k (offset + 1) m); try done; lia|].
    intros _ m' (Hm' & H3 & H4). split; [done|].
    replace (start + (offset + 1)) with (start + offset + 1) in * by lia. by apply load_no_jump.
Qed.

(** The decompressor's filter. *)
Lemma wp_bcj_relative fuel m : limit < 2 ^ 31 -> (Z.to_nat size < fuel)%nat -> byte_mem m ->
  wp (Unlzma.bcj_filter fuel start (start + size)) (fun _ m' => byte_mem m' /\
    load (Z.to_nat size) start m' = bcj (to_relative limit) limit fuel 0 (load (Z.to_nat size) start m) /\
    mem_eq_except start size m m') m.
Proof.
  intros Hl Hf Hm. unfold Unlzma.bcj_filter. rewrite u32_small by lia.
  replace (start + size - start - 5) with limit by (unfold limit; lia).
  eapply wp_mono; [rewrite <- (Z.add_0_r start) at 2; apply (wp_relative_loop fuel (Z.to_nat size) 0 m); try done; lia|].
  intros u m' H. rewrite Z.add_0_r, Z2Nat.id in H by lia. exact H.
Qed.
End decoder.

(** The files, except for the contents of the input buffer. *)
Definition same_files (s s' : files) : Prop :=
  output s' = output s /\ i_len (input s') = i_len (input s).

Lemma wp_read_input n offset s Q : 0 <= offset -> offset + Z.of_nat n <= i_len (input s) ->
  Q (load n offset (i_buf (input s))) s -> wp (read_input n offset) Q s.
Proof.
  intros H1 H2 HQ. unfold read_input. repeat wp_prim. unfold Zbin.inside.
  rewrite (proj2 (Z.leb_le 0 offset)), (proj2 (Z.leb_le _ _)) by lia. cbn [andb]. by wp_prim.
Qed.

Lemma wp_write_input offset bs s Q : 0 <= offset -> offset + Z.of_nat (length bs) <= i_len (input s) ->
  Q tt (set_i_buf (store offset bs (i_buf (input s))) s) -> wp (write_input offset bs) Q s.
Proof.
  intros H1 H2 HQ. unfold write_input. repeat wp_prim. unfold Zbin.inside.
  rewrite (proj2 (Z.leb_le 0 offset)), (proj2 (Z.leb_le _ _)) by lia. cbn [andb]. by wp_prim.
Qed.

Section encoder.
Context (data size : Z) (Hdata : 0 <= data) (Hsize : 0 <= size < 2 ^ 32).
Let limit := size - 5.

Lemma wp_to_absolute {A} (next : A) offset a s : let m := i_buf (input s) in
  byte_mem m -> 0 <= a -> a + 4 <= i_len (input s) ->
  let target := signed 32 (le_combine (load 4 a m)) in
  wp ((if (- offset <=? target) && (target <? limit - offset) then write_input a (le_split 4 (target + offset))
       else when ((limit - offset <=? target) && (target <? limit)) (write_input a (le_split 4 (target - limit)))) ;;
      ret next)
    (fun next' s' => let m1 := i_buf (input s') in
       next' = next /\ same_files s s' /\ byte_mem m1 /\
       load 4 a m1 = le_split 4 (to_absolute limit offset (ld32 a m)) /\ mem_eq_except a 4 m m1) s.
Proof.
  intros m Hm Ha Hin target. unfold to_absolute. change (signed 32 (ld32 a m)) with target. cbv zeta. clearbody target.
  assert (Hst : forall v, byte_mem (st32 a v m) /\ load 4 a (st32 a v m) = le_split 4 (u32 v) /\
    mem_eq_except a 4 m (st32 a v m)).
  { intros v. rewrite le_split_u32. split; [apply byte_mem_store; [apply le_split_bytes|done]|apply st32_load]. }
  wp_prim. destruct (_ && _); [|destruct (_ && _); wp_prim].
  - apply wp_write_input; rewrite ?length_le_split; [lia|lia|]. wp_prim. split; [done|]. split; [done|]. apply Hst.
  - apply wp_write_input; rewrite ?length_le_split; [lia|lia|]. wp_prim. split; [done|]. split; [done|]. apply Hst.
  - wp_prim. wp_prim. fold m. rewrite le_split_ld32 by done. do 4 (split; [done|]). apply mem_eq_except_refl.
Qed.

Lemma wp_absolute_loop fuel : forall k offset s, 0 <= offset -> Z.of_nat k = size - offset ->
  (k < fuel)%nat -> byte_mem (i_buf (input s)) -> data + size <= i_len (input s) ->
  wp (iterate fuel (Zbin.bcj_loop data limit) offset) (fun _ s' =>
    let m := i_buf (input s) in let m' := i_buf (input s') in
    same_files s s' /\ byte_mem m' /\
    load k (data + offset) m' = bcj (to_absolute limit) limit fuel offset (load k (data + offset) m) /\
    mem_eq_except (data + offset) (Z.of_nat k) m m') s.
Proof.
  induction fuel as [|fuel IH]; intros k offset s Ho Hk Hf Hm Hin; [lia|]. apply wp_iterate_S.
  unfold Zbin.bcj_loop. destruct (Z.ltb_spec limit offset) as [Hgt|Hle].
  { wp_prim. cbv zeta. rewrite bcj_stop by done. repeat (split; [done|]). apply mem_eq_except_refl. }
  wp_prim. apply wp_read_input; [lia|lia|].
  set (a := data + offset). assert (Ea : a = data + offset /\ limit = size - 5) by done. set (m := i_buf (input s)) in *.
  rewrite load_1, <- negb_orb. change ((m a =? OPCODE_CALL) || (m a =? OPCODE_JMP)) with (is_jump (m a)).
  destruct k as [|k]; [lia|]. rewrite (load_S k _ m). cbn [bcj]. rewrite (proj2 (Z.ltb_ge limit offset) Hle).
  destruct (is_jump (m a)) eqn:Hj; cbn [negb].
  - wp_prim. apply wp_read_input; [lia|lia|]. fold m a.
    eapply wp_mono; [apply (wp_to_absolute (inl (offset + 4 + 1)) offset (a + 1) s Hm); lia|].
    cbv zeta. intros next s1 (-> & Hs1 & Hm1 & H1 & H2). fold m in H1, H2. set (m1 := i_buf (input s1)) in *.
    replace (offset + 4 + 1) with (offset + 5) by lia.
    assert (Hk4 : exists k', k = (4 + k')%nat) by (exists (k - 4)%nat; lia). destruct Hk4 as [k' ->].
    destruct Hs1 as [Hs1 Hi1].
    eapply wp_mono; [apply (IH k' (offset + 5) s1); try done; try lia|].
    cbv zeta. fold m1. intros u s' ([Hs' Hi'] & Hm' & H3 & H4). set (m' := i_buf (input s')) in *.
    split; [split; congruence|]. split; [done|]. rewrite take_load, drop_load by lia.
    replace (4 + k' - 4)%nat with k' by lia. replace (a + 1 + Z.of_nat 4) with (a + 5) by lia.
    replace (data + (offset + 5)) with (a + 5) in * by (unfold a; lia).
    rewrite (load_eq_except k' (a + 5) (a + 1) 4 m m1 H2) in H3 by (unfold disjoint; lia).
    apply (load_jump _ _ m m1); try done.
  - repeat wp_prim. eapply wp_mono; [apply (IH k (offset + 1) s); try done; lia|].
    cbv zeta. intros u s' (Hs' & Hm' & H3 & H4). split; [done|]. split; [done|].
    replace (data + (offset + 1)) with (a + 1) in * by (unfold a; lia). by apply load_no_jump.
Qed.

(** The tool's filter. *)
Lemma wp_bcj_absolute s : byte_mem (i_buf (input s)) -> data + size <= i_len (input s) ->
  wp (Zbin.bcj_filter data size) (fun _ s' =>
    let m := i_buf (input s) in let m' := i_buf (input s') in
    same_files s s' /\ byte_mem m' /\
    load (Z.to_nat size) data m' =
      bcj (to_absolute limit) limit (S (Z.to_nat size)) 0 (load (Z.to_nat size) data m) /\
    mem_eq_except data size m m') s.
Proof.
  intros Hm Hin. unfold Zbin.bcj_filter. rewrite signed_small by lia. fold limit.
  eapply wp_mono; [apply (wp_absolute_loop _ (Z.to_nat size) 0 s); try done; lia|].
  intros u s' H. rewrite Z.add_0_r, Z2Nat.id in H by lia. exact H.
Qed.
End encoder.
