(* ===== verification/ZbinSpec.v ===== *)
(** * ZbinSpec

    The tool that makes the images, and the decompressor that undoes it: the
    checksums agree, and what a PACK record packs is unpacked to the original
    data, for every encoder that makes LZMA streams.  Then the other records:
    the fields of the headers, and the bounds of the buffers. *)

From stdpp Require Import strings.
From S2P Require Import Prelude.
From S2P Require Import Memory.
From S2P Require Import World.
From S2P Require Import Cmem.
From S2P Require Import Unlzma.
From S2P Require Import RangeCoder.
From S2P Require Import UnlzmaSpec.
From S2P Require Import Zbin.
From S2P Require Import Bcj.

(** ** Checksum *)

Lemma lxor_range a b n : 0 <= n -> 0 <= a < 2 ^ n -> 0 <= b < 2 ^ n -> 0 <= Z.lxor a b < 2 ^ n.
Proof.
  intros Hn Ha Hb. assert (H0 : 0 <= Z.lxor a b) by (apply Z.lxor_nonneg; lia). split; [done|].
  destruct (Z.eq_dec (Z.lxor a b) 0) as [->|]; [lia|]. apply Z.log2_lt_pow2; [lia|].
  assert (Hl : forall x, 0 <= x < 2 ^ n -> Z.log2 x < n \/ x = 0).
  { intros x Hx. destruct (Z.eq_dec x 0); [auto|]. left. apply Z.log2_lt_pow2; lia. }
  pose proof (Z.log2_lxor a b ltac:(lia) ltac:(lia)) as Hx.
  destruct (Hl a Ha) as [?| ->], (Hl b Hb) as [?| ->]; rewrite ?Z.lxor_0_l, ?Z.lxor_0_r in *; try lia; done.
Qed.

Lemma crc_bit_eq x : crc_bit (x, false) = (crc32_bit x, false).
Proof.
  unfold crc_bit, crc32_bit. cbn [Z_of_bool]. rewrite Z.shiftl_0_l, Z.lor_0_l.
  change (Z.land x 1) with (Z.land x (Z.ones 1)). rewrite Z.land_ones by lia. change (2 ^ 1) with 2. rewrite Zmod_odd.
  destruct (Z.odd x); cbn [Z.eqb negb]; [done|]. by rewrite Z.lxor_0_r.
Qed.

Lemma rep_crc_bit n x : rep n crc_bit (x, false) = (Nat.iter n crc32_bit x, false).
Proof.
  revert x. induction n as [|n IH]; intros x; [done|].
  cbn [rep]. by rewrite crc_bit_eq, IH, Nat.iter_succ_r.
Qed.

Lemma crc32_le_cons c b l : crc32_le c (b :: l) = crc32_le (Nat.iter 8 crc32_bit (Z.lxor c b)) l.
Proof. reflexivity. Qed.

Lemma crc32_le_app c l k : crc32_le c (l ++ k) = crc32_le (crc32_le c l) k.
Proof. apply fold_left_app. Qed.

(** The loop of the decompressor computes the checksum of the tool. *)
Lemma crc_loop_eq n : forall esi ebx m, 0 <= esi -> esi + Z.of_nat n < 2 ^ 32 ->
  crc_loop n esi ebx m = crc32_le ebx (load n esi m).
Proof.
  induction n as [|n IH]; intros esi ebx m He Hn; [done|]. rewrite load_S. cbn [crc_loop].
  rewrite rep_crc_bit, u32_small, IH, crc32_le_cons by lia. done.
Qed.

Lemma crc32_bit_range x : 0 <= x < 2 ^ 32 -> 0 <= crc32_bit x < 2 ^ 32.
Proof.
  intros Hx. unfold crc32_bit. apply lxor_range; [lia| |destruct (negb _); by vm_compute].
  rewrite Z.shiftr_div_pow2 by lia. change (2 ^ 1) with 2. dlia.
Qed.

Lemma crc32_le_range data : forall crc, 0 <= crc < 2 ^ 32 -> Forall is_byte data ->
  0 <= crc32_le crc data < 2 ^ 32.
Proof.
  induction data as [|b data IH]; intros crc Hc Hb; [done|]. apply Forall_cons_1 in Hb as [Hb Hd].
  unfold is_byte in Hb. apply IH; [|done]. cbn [Nat.iter].
  do 8 apply crc32_bit_range. apply lxor_range; lia.
Qed.

(** The checksum of data that is followed by its checksum. *)
Lemma crc32_byte_low c : 0 <= c -> Nat.iter 8 crc32_bit (Z.lxor c (c mod 256)) = c / 256.
Proof.
  intros Hc. assert (E : Z.lxor c (c mod 256) = 256 * (c / 256)).
  { apply Z.bits_inj'. intros i Hi. rewrite Z.lxor_spec. change 256 with (2 ^ 8).
    rewrite Z.mul_comm, <- Z.shiftl_mul_pow2, <- Z.shiftr_div_pow2, Z.shiftl_spec by lia.
    destruct (Z.ltb_spec i 8).
    - rewrite Z.mod_pow2_bits_low, xorb_nilpotent, Z.testbit_neg_r by lia. done.
    - rewrite Z.mod_pow2_bits_high, xorb_false_r, Z.shiftr_spec by lia. f_equal. lia. }
  assert (Hbit : forall y, crc32_bit (2 * y) = y).
  { intros y. unfold crc32_bit. change (Z.land (2 * y) 1) with (Z.land (2 * y) (Z.ones 1)).
    rewrite Z.land_ones, Z.shiftr_div_pow2 by lia. change (2 ^ 1) with 2.
    rewrite (Z.mul_comm 2 y), Z.mod_mul, Z.div_mul by lia. cbn. apply Z.lxor_0_r. }
  rewrite E. replace (256 * (c / 256)) with (2 * (2 * (2 * (2 * (2 * (2 * (2 * (2 * (c / 256))))))))) by lia.
  unfold Nat.iter. cbn [nat_rect]. by rewrite !Hbit.
Qed.

Lemma crc32_residue c : 0 <= c < 2 ^ 32 -> crc32_le c (le_split 4 c) = 0.
Proof.
  intros Hc. unfold crc32_le. cbn [le_split fold_left].
  rewrite !crc32_byte_low by dlia. dlia.
Qed.

(** ** Decompression *)

(** The filter of the tool, and the image that it makes of packed data. *)
Definition filtered (data : list Z) : list Z :=
  let limit := Z.of_nat (length data) - 5 in bcj (to_absolute limit) limit (S (length data)) 0 data.

Definition image (packed : list Z) : list Z :=
  le_split 4 (Z.of_nat (length packed) + 4) ++ packed ++ le_split 4 (crc32_le CRCSEED packed).

Lemma length_image packed : length (image packed) = (length packed + 8)%nat.
Proof. unfold image. rewrite !length_app, !length_le_split. lia. Qed.

Lemma length_bcj f limit n : forall offset l, (offset = limit + 5 - Z.of_nat (length l)) ->
  length (bcj f limit n offset l) = length l.
Proof.
  induction n as [|n IH]; intros offset [|opcode rest] Ho; cbn [bcj length] in *; try done.
  destruct (Z.ltb_spec limit offset); [done|]. destruct (is_jump opcode); cbn [length]; f_equal.
  - rewrite length_app, length_le_split, IH; rewrite length_drop; lia.
  - apply IH. lia.
Qed.

Lemma length_filtered data : length (filtered data) = length data.
Proof. apply length_bcj. lia. Qed.

Lemma wp_split {S A B C} (p : prog S A) (q : prog S B) (k : prog S C) P Q s :
  wp (p ;; q) P s -> (forall b s', P b s' -> wp k Q s') -> wp (p ;; q ;; k) Q s.
Proof.
  intros H Hk. apply wp_bind. apply wp_bind_inv in H. eapply wp_mono; [exact H|].
  intros a s1 H1. apply wp_bind. eapply wp_mono; [exact H1|]. exact Hk.
Qed.

(** The checksum in an image is right. *)
Lemma verify_image esi m packed : byte_mem m -> 0 <= esi -> esi + Z.of_nat (length packed) + 4 < 2 ^ 32 ->
  load (length packed + 4) esi m = packed ++ le_split 4 (crc32_le CRCSEED packed) ->
  verify_crc32 esi (Z.of_nat (length packed) + 4) m = false.
Proof.
  intros Hm H0 He Hload. unfold verify_crc32. rewrite (proj2 (Z.eqb_neq (Z.of_nat (length packed) + 4) 0)) by lia.
  replace (Z.to_nat (Z.of_nat (length packed) + 4)) with (length packed + 4)%nat by lia.
  rewrite crc_loop_eq, Hload by lia. change Unlzma.CRCSEED with CRCSEED. rewrite crc32_le_app.
  rewrite crc32_residue; [done|]. apply crc32_le_range; [by vm_compute|].
  rewrite load_app in Hload. apply app_inj_1 in Hload as [<- _]; [|apply length_load]. by apply load_bytes.
Qed.

Lemma stream_length data packed : lzma_stream data packed -> (5 <= length packed)%nat.
Proof.
  intros (syms & b & bytes & -> & _ & _ & _ & Hint). cbn [length].
  destruct (interval _ _ _) as [[low width] k]. lia.
Qed.

Lemma wp_decompress fuel esi edi m data packed :
  let n := Z.of_nat (length data) in let e := esi + Z.of_nat (length (image packed)) in
  lzma_stream (filtered data) packed -> 5 <= n < 2 ^ 31 -> Forall is_byte data -> byte_mem m ->
  load (length (image packed)) esi m = image packed ->
  0 <= esi -> e < 2 ^ 32 -> 0 <= edi -> edi + n < 2 ^ 32 -> e <= edi \/ edi + n <= esi ->
  (length data < fuel)%nat ->
  wp (decompress fuel esi edi) (fun '(esi', edi', cf) m' => cf = false /\ esi' = e /\ edi' = edi + n /\
    byte_mem m' /\ load (length data) edi m' = data /\ mem_eq_except edi n m m') m.
Proof.
  intros n e Hs Hn Hdata Hm Hload Hesi He Hedi Hend Hapart Hf. unfold e in *. rewrite length_image in *.
  pose proof (stream_length _ _ Hs) as H5.
  replace (length packed + 8)%nat with (4 + (length packed + 4))%nat in Hload by lia.
  rewrite load_app in Hload. apply app_inj_1 in Hload as [Hlen Hrest];
    [|by rewrite length_load, length_le_split].
  replace (esi + Z.of_nat 4) with (esi + 4) in Hrest by lia.
  assert (Hedx : ld32 esi m = Z.of_nat (length packed) + 4).
  { unfold ld32. rewrite Hlen, le_combine_split. apply Z.mod_small. lia. }
  pose proof Hrest as Hcrc. rewrite load_app in Hrest. apply app_inj_1 in Hrest as [Hpacked _]; [|apply length_load].
  unfold wp, decompress. rewrite Hedx, (u32_small (esi + 4)) by lia. rewrite verify_image by (done || lia).
  rewrite !(u32_small (esi + 4 + 1)), (u32_small (esi + 4 + 1 + 4)) by lia.
  match goal with |- match match ?run ?s with _ => _ end with Ret a m' => @?Q a m' | _ => _ end =>
    enough (H : wp run (fun r s' => Q r (l_mem s')) s)
      by (unfold wp in H; revert H; generalize (run s); intros [r s'| |] H; exact H) end.
  pose proof (length_filtered data) as Hlf. replace (esi + 4 + 1 + 4) with (esi + 4 + 5) by lia.
  eapply wp_split.
  { apply (wp_decompress_stream fuel (esi + 4) edi m (filtered data) packed); rewrite ?Hlf; try done; try lia.
    intros E. rewrite E in Hlf. cbn in Hlf. lia. }
  cbv zeta. rewrite Hlf. intros u s (Hstart & Hedi' & Hesi' & Hm' & Hload' & Hframe).
  repeat wp_prim. rewrite Hstart, Hedi'. apply wp_zoom. fold n.
  eapply wp_mono; [apply (wp_bcj_relative edi n); try done; lia|].
  intros v m' (Hbm & Hl & Hf'). wp_prim. split; [done|]. split; [rewrite Hesi', u32_small; lia|]. split; [done|].
  cbn [l_mem set_l_mem]. split; [done|]. unfold n in Hl. rewrite Nat2Z.id, Hload' in Hl. split.
  - rewrite Hl. unfold filtered. cbv zeta. fold n. rewrite (bcj_fuel _ _ (S (length data)) fuel) by lia.
    apply bcj_inverse; try done; lia.
  - by apply (mem_eq_except_trans _ _ _ (l_mem s)).
Qed.

(** ** PACK *)

Lemma zinfo_u32_range n zinfo : Forall is_byte zinfo -> 0 <= zinfo_u32 n zinfo < 2 ^ 32.
Proof.
  intros Hb. unfold zinfo_u32. pose proof (le_combine_range (take 4 (drop n zinfo))) as H.
  specialize (H (Forall_take _ _ _ (Forall_drop _ _ _ Hb))).
  assert (2 ^ (8 * Z.of_nat (length (take 4 (drop n zinfo)))) <= 2 ^ 32).
  { apply Z.pow_le_mono_r; [lia|]. rewrite length_take. lia. }
  lia.
Qed.

Lemma align_nonneg v a : 0 <= align v a.
Proof. unfold align. apply Z.land_nonneg. left. unfold u64. dlia. Qed.

Lemma wp_read_output n offset s Q : 0 <= offset -> offset + Z.of_nat n <= max_len (output s) ->
  Q (load n offset (o_buf (output s))) s -> wp (read_output n offset) Q s.
Proof.
  intros H1 H2 HQ. unfold read_output. repeat wp_prim. unfold Zbin.inside.
  rewrite (proj2 (Z.leb_le 0 offset)), (proj2 (Z.leb_le _ _)) by lia. cbn [andb]. by wp_prim.
Qed.

Lemma wp_write_output offset bs s Q : 0 <= offset -> offset + Z.of_nat (length bs) <= max_len (output s) ->
  Q tt (set_o_buf (store offset bs (o_buf (output s))) s) -> wp (write_output offset bs) Q s.
Proof.
  intros H1 H2 HQ. unfold write_output. repeat wp_prim. unfold Zbin.inside.
  rewrite (proj2 (Z.leb_le 0 offset)), (proj2 (Z.leb_le _ _)) by lia. cbn [andb]. by wp_prim.
Qed.

(** The three parts of an image, stored one by one. *)
Lemma load_three a l1 l2 l3 m : let n1 := Z.of_nat (length l1) in let n2 := Z.of_nat (length l2) in
  let m' := store (a + n1 + n2) l3 (store a l1 (store (a + n1) l2 m)) in
  load (length l2) (a + n1) (store a l1 (store (a + n1) l2 m)) = l2 /\
  load (length (l1 ++ l2 ++ l3)) a m' = l1 ++ l2 ++ l3 /\
  mem_eq_except a (Z.of_nat (length (l1 ++ l2 ++ l3))) m m'.
Proof.
  intros n1 n2 m'. assert (H2 : load (length l2) (a + n1) (store a l1 (store (a + n1) l2 m)) = l2).
  { rewrite load_store_disjoint by (unfold disjoint; lia). apply load_store_same. }
  split; [exact H2|]. rewrite !length_app. split.
  - rewrite !load_app. fold n1 n2. unfold m'. f_equal; [|f_equal].
    + rewrite load_store_disjoint by (unfold disjoint; lia). apply load_store_same.
    + rewrite load_store_disjoint by (unfold disjoint; lia). exact H2.
    + apply load_store_same.
  - unfold m'. do 3 (eapply mem_eq_except_trans; [|apply mem_eq_except_store; lia]). apply mem_eq_except_refl.
Qed.

Section pack.
Context (encode : list Z -> Z -> option (list Z)).

(** What is relied on of the encoder: its output is a stream of the format, and
    fits the space that it was given. *)
Definition encoder_ok : Prop := forall data space packed,
  Forall is_byte data -> Z.of_nat (length data) < 2 ^ 32 -> encode data space = Some packed ->
  lzma_stream data packed /\ Z.of_nat (length packed) <= space.

Lemma wp_process_zinfo_pack zinfo s :
  let offset := zinfo_offset zinfo in let len := zinfo_len zinfo in
  let data := load (Z.to_nat len) offset (i_buf (input s)) in
  let o := output s in let start := align (o_len o) (zinfo_align zinfo) in
  encoder_ok -> Forall is_byte zinfo -> byte_mem (i_buf (input s)) -> i_len (input s) < 2 ^ 64 ->
  offset + len <= i_len (input s) -> 5 <= len < 2 ^ 31 -> start + 4 <= max_len o < 2 ^ 32 ->
  wp (process_zinfo_pack encode zinfo) (fun rc s' => let o' := output s' in
    match encode (filtered data) (max_len o - start - 4) with
    | None => rc = -1
    | Some packed =>
        if max_len o <? start + Z.of_nat (length (image packed)) then rc = -1 else
        rc = 0 /\ lzma_stream (filtered data) packed /\ o_len o' = start + Z.of_nat (length (image packed)) /\
        hdr_len o' = hdr_len o /\ max_len o' = max_len o /\
        load (length (image packed)) start (o_buf o') = image packed /\
        mem_eq_except start (Z.of_nat (length (image packed))) (o_buf o) (o_buf o')
    end) s.
Proof.
  intros offset len data o start Henc Hz Hm Hil Hin Hlen Hmax.
  pose proof (zinfo_u32_range 4 zinfo Hz) as Hoff. change (zinfo_u32 4 zinfo) with offset in Hoff.
  pose proof (align_nonneg (o_len o) (zinfo_align zinfo)) as Hstart. change (0 <= start) in Hstart.
  unfold process_zinfo_pack. repeat wp_prim. fold offset len o start.
  rewrite (u64_small (offset + len)) by lia. rewrite (proj2 (Z.ltb_ge _ (offset + len))) by lia.
  repeat wp_prim. cbn [output set_o_len o_len max_len]. fold o. rewrite (u64_small (start + 4)) by lia.
  rewrite (proj2 (Z.ltb_ge (max_len o) (start + 4))) by lia. repeat wp_prim.
  eapply wp_mono; [apply (wp_bcj_absolute offset len ltac:(lia) ltac:(lia)); [exact Hm|exact Hin]|].
  cbv zeta. intros u s2 ([Ho2 Hi2] & Hm2 & Hdata2 & _). cbn [set_o_len input] in Hi2, Hdata2. fold data in Hdata2.
  wp_prim. apply wp_read_input; [lia|rewrite Hi2; lia|].
  assert (Hfd : load (Z.to_nat len) offset (i_buf (input s2)) = filtered data).
  { assert (Hld : length data = Z.to_nat len) by apply length_load.
    rewrite Hdata2. unfold filtered. rewrite Hld, Z2Nat.id by lia. done. }
  assert (Hfb : Forall is_byte (filtered data)) by (rewrite <- Hfd; by apply load_bytes).
  rewrite Hfd. replace (max_len o - (start + 4)) with (max_len o - start - 4) by lia.
  destruct (encode (filtered data) (max_len o - start - 4)) as [packed|] eqn:Eenc; [|by wp_prim].
  destruct (Henc _ _ _ Hfb ltac:(rewrite length_filtered; unfold data; rewrite length_load; lia) Eenc) as [Hs Hspace]. rewrite length_image.
  assert (Ho : max_len (output s2) = max_len o /\ o_buf (output s2) = o_buf o /\ hdr_len (output s2) = hdr_len o)
    by (by rewrite Ho2). destruct Ho as (Hmx & Hbf & Hhd). clear Ho2.
  repeat wp_prim. apply wp_write_output; [lia|lia|]. repeat wp_prim.
  cbn [output set_o_len set_o_buf o_len max_len o_buf hdr_len]. rewrite Hmx.
  rewrite (u64_small (start + 4 + _)), (u64_small (start + 4 + _ + 4)) by lia.
  replace (start + Z.of_nat (length packed + 8)) with (start + 4 + Z.of_nat (length packed) + 4) by lia.
  destruct (Z.ltb_spec (max_len o) (start + 4 + Z.of_nat (length packed) + 4)) as [|Hroom]; repeat wp_prim; [done|].
  assert (H3 := load_three start (le_split 4 (Z.of_nat (length packed) + 4)) packed
    (le_split 4 (crc32_le CRCSEED packed)) (o_buf o)). cbv zeta in H3. rewrite length_le_split in H3.
  change (Z.of_nat 4) with 4 in H3. destruct H3 as (Hl2 & Hl3 & Hframe).
  apply wp_write_output; rewrite ?length_le_split; cbn [output set_o_len set_o_buf max_len o_buf]; rewrite ?Hbf; [lia|lia|].
  wp_prim. rewrite Nat2Z.id. apply wp_read_output; cbn [output set_o_len set_o_buf max_len o_buf]; [lia|lia|].
  rewrite Hl2. wp_prim.
  apply wp_write_output; rewrite ?length_le_split; cbn [output set_o_len set_o_buf max_len o_buf]; [lia|lia|]. wp_prim.
  cbn [output set_o_len set_o_buf max_len o_buf o_len hdr_len]. split_and!; try done.
  - rewrite <- length_image. exact Hl3.
  - eapply mem_eq_except_mono; [exact Hframe|lia|]. rewrite <- (length_image packed). unfold image. lia.
Qed.

(** C5. The packed data is unpacked to the original data: a PACK record is processed
    if the encoder succeeds and there is room, and wherever the prefix then finds
    the bytes that the record added to the image, the decompressor writes the
    data of the record, and nothing else, and ends behind those bytes. *)
Theorem pack_unpack zinfo s :
  let offset := zinfo_offset zinfo in let len := zinfo_len zinfo in
  let data := load (Z.to_nat len) offset (i_buf (input s)) in
  let o := output s in let start := align (o_len o) (zinfo_align zinfo) in
  encoder_ok -> Forall is_byte zinfo -> byte_mem (i_buf (input s)) -> i_len (input s) < 2 ^ 64 ->
  offset + len <= i_len (input s) -> 5 <= len < 2 ^ 31 -> start + 4 <= max_len o < 2 ^ 32 ->
  wp (process_zinfo_pack encode zinfo) (fun rc s' => let o' := output s' in
    match encode (filtered data) (max_len o - start - 4) with
    | None => rc = -1
    | Some packed =>
        let size := o_len o' - start in
        if max_len o <? start + 8 + Z.of_nat (length packed) then rc = -1 else
        rc = 0 /\ size = 8 + Z.of_nat (length packed) /\
        mem_eq_except start size (o_buf o) (o_buf o') /\
        forall fuel esi edi m, byte_mem m ->
          load (Z.to_nat size) esi m = load (Z.to_nat size) start (o_buf o') ->
          0 <= esi -> esi + size < 2 ^ 32 -> 0 <= edi -> edi + len < 2 ^ 32 ->
          esi + size <= edi \/ edi + len <= esi -> len < Z.of_nat fuel ->
          wp (decompress fuel esi edi) (fun '(esi', edi', cf) m' =>
            cf = false /\ esi' = esi + size /\ edi' = edi + len /\
            load (Z.to_nat len) edi m' = data /\ mem_eq_except edi len m m') m
    end) s.
Proof.
  intros offset len data o start Henc Hz Hm Hil Hin Hlen Hmax.
  eapply wp_mono; [apply (wp_process_zinfo_pack zinfo s); assumption|].
  cbv zeta. fold offset len data o start. intros rc s' H.
  destruct (encode (filtered data) (max_len o - start - 4)) as [packed|]; [|exact H].
  rewrite length_image in H. replace (start + Z.of_nat (length packed + 8)) with (start + 8 + Z.of_nat (length packed)) in H by lia.
  destruct (max_len o <? start + 8 + Z.of_nat (length packed)); [exact H|].
  destruct H as (-> & Hs & Hol & _ & _ & Himage & Hframe). rewrite Hol.
  replace (start + 8 + Z.of_nat (length packed) - start) with (Z.of_nat (length (image packed))) by (rewrite length_image; lia).
  rewrite Nat2Z.id. rewrite length_image in *. split; [done|]. split; [lia|]. split; [done|].
  intros fuel esi edi m Hbm Hload Hesi He Hedi Hend Hapart Hf. rewrite Himage in Hload.
  assert (Hld : length data = Z.to_nat len) by apply length_load.
  assert (En : Z.of_nat (length data) = len) by lia.
  rewrite <- Hld, <- En in *. rewrite <- (length_image packed) in *.
  eapply wp_mono; [apply (wp_decompress fuel esi edi m data packed); try done; try lia; by apply load_bytes|].
  intros [[esi' edi'] cf] m' (? & ? & ? & _ & ? & ?). done.
Qed.
End pack.

(** ** Fields of the headers *)

Lemma land_not64 n x : 0 <= n <= 64 -> 0 <= x < 2 ^ 64 ->
  Z.land x (u64 (Z.lnot (2 ^ n - 1))) = x - x mod 2 ^ n.
Proof.
  intros Hn Hx. unfold u64. rewrite <- (Z.land_ones _ 64), (Z.land_comm (Z.lnot _)), Z.land_assoc by lia.
  rewrite Z.land_ones, (Z.mod_small x) by lia. rewrite <- Z.ldiff_land.
  replace (2 ^ n - 1) with (Z.ones n) by (rewrite Z.ones_equiv; lia).
  rewrite Z.ldiff_ones_r, Z.shiftl_mul_pow2, Z.shiftr_div_pow2 by lia.
  pose proof (Z.div_mod x (2 ^ n) ltac:(lia)). lia.
Qed.

(** The number of units of [2 ^ k] that are needed for [len]. *)
Definition units (len k : Z) : Z := (len + 2 ^ k - 1) / 2 ^ k.

Lemma align_units len k : 0 <= len < 2 ^ 63 -> 0 <= k < 32 -> align len (2 ^ k) / 2 ^ k = units len k.
Proof.
  intros Hl Hk. assert (2 ^ k <= 2 ^ 32) by (apply Z.pow_le_mono_r; lia).
  unfold align, units. rewrite u64_small by lia. rewrite land_not64 by lia.
  set (x := len + 2 ^ k - 1). pose proof (Z.div_mod x (2 ^ k) ltac:(lia)).
  replace (x - x mod 2 ^ k) with (x / 2 ^ k * 2 ^ k) by lia. apply Z.div_mul. lia.
Qed.

Lemma signed_range n x : 0 < n -> - 2 ^ (n - 1) <= signed n x < 2 ^ (n - 1).
Proof.
  intros Hn. unfold signed. pose proof (Z.mod_pos_bound x (2 ^ n) ltac:(lia)).
  replace (2 ^ n) with (2 * 2 ^ (n - 1)) in * by (rewrite <- Z.pow_succ_r by lia; f_equal; lia).
  destruct (Z.ltb_spec (x mod (2 * 2 ^ (n - 1))) (2 ^ (n - 1))); lia.
Qed.

Lemma land_lnot_mask v n : 0 <= n -> 0 <= v -> (Z.land v (Z.lnot (2 ^ n - 1)) =? 0) = (v <? 2 ^ n).
Proof.
  intros Hn Hv. rewrite <- Z.ldiff_land. replace (2 ^ n - 1) with (Z.ones n) by (rewrite Z.ones_equiv; lia).
  rewrite Z.ldiff_ones_r, Z.shiftl_mul_pow2, Z.shiftr_div_pow2 by lia.
  destruct (Z.ltb_spec v (2 ^ n)).
  - by rewrite Z.div_small.
  - apply Z.eqb_neq. assert (1 <= v / 2 ^ n) by (apply Z.div_le_lower_bound; lia). nia.
Qed.

(** C31. A field of one, two or four bytes is increased by a length in the units of
    the record, or the tool fails and changes nothing. *)
Theorem process_zinfo_add_correct len add base datasize k s :
  let o := output s in let offset := base + zinfo_offset add in
  let bytes m := load (Z.to_nat datasize) offset m in
  let value := signed (8 * datasize) (le_combine (bytes (o_buf o))) + units len k in
  Forall is_byte add -> zinfo_divisor add = 2 ^ k -> 0 <= k < 32 -> datasize = 1 \/ datasize = 2 \/ datasize = 4 ->
  0 <= base < 2 ^ 63 -> 0 <= len < 2 ^ 62 -> o_len o <= max_len o ->
  wp (process_zinfo_add len add base datasize) (fun rc s' =>
    if (offset + datasize <=? o_len o) && (0 <=? value) && (value <? 2 ^ (8 * datasize)) then
      rc = 0 /\ exists m', s' = set_o_buf m' s /\ le_combine (bytes m') = value /\
        mem_eq_except offset datasize (o_buf o) m'
    else rc = -1 /\ s' = s) s.
Proof.
  intros o offset bytes value Hz Hdiv Hk Hds Hbase Hlen Hmax.
  pose proof (zinfo_u32_range 4 add Hz) as Hoff. change (zinfo_u32 4 add) with (zinfo_offset add) in Hoff.
  unfold process_zinfo_add. rewrite (u64_small (base + _)) by lia. fold offset. repeat wp_prim. fold o.
  assert (Hoff0 : 0 <= offset < 2 ^ 63 + 2 ^ 32) by (unfold offset; lia).
  rewrite (u64_small (offset + datasize)), Z.ltb_antisym by lia.
  destruct (Z.leb_spec (offset + datasize) (o_len o)) as [Hin|Hout]; cbn [negb andb]; [|by wp_prim].
  assert (Hpos : 0 < 2 ^ k) by lia. rewrite Hdiv, (proj2 (Z.eqb_neq (2 ^ k) 0)), align_units by lia.
  assert (Et : (datasize =? 1) || (datasize =? 2) || (datasize =? 4) = true)
    by (destruct Hds as [->|[->| ->]]; done).
  rewrite Et. cbn [negb]. wp_prim. apply wp_read_output; [lia|fold o; lia|]. fold o. change (load _ offset (o_buf o)) with (bytes (o_buf o)).
  rewrite Z.add_comm. fold value.
  assert (Hv : - 2 ^ 31 <= value < 2 ^ 63).
  { pose proof (signed_range (8 * datasize) (le_combine (bytes (o_buf o))) ltac:(lia)) as Hs.
    assert (2 ^ (8 * datasize - 1) <= 2 ^ 31) by (apply Z.pow_le_mono_r; lia).
    assert (Hu : 0 <= units len k <= len + 1).
    { unfold units. assert (0 < 2 ^ k) by lia. split; [apply Z.div_pos; lia|].
      apply Z.div_le_upper_bound; nia. }
    unfold value. lia. }
  rewrite signed_small by lia. destruct (Z.leb_spec 0 value) as [H0|Hneg]; cbn [andb].
  2: { rewrite (proj2 (Z.ltb_lt value 0)) by lia. by wp_prim. }
  rewrite (proj2 (Z.ltb_ge value 0)), land_lnot_mask by lia.
  destruct (Z.ltb_spec value (2 ^ (8 * datasize))) as [Hfit|]; cbn [negb]; [|by wp_prim].
  wp_prim. apply wp_write_output; rewrite ?length_le_split; [lia|fold o; lia|]. wp_prim. split; [done|]. fold o.
  eexists. split; [done|]. split.
  - unfold bytes. rewrite <- (length_le_split (Z.to_nat datasize) value) at 1.
    rewrite load_store_same, le_combine_split, Z2Nat.id, Z.mod_small by lia. done.
  - apply mem_eq_except_store; rewrite ?length_le_split; lia.
Qed.

(** ** Bounds of the buffers *)

Section bounds.
Context (encode : list Z -> Z -> option (list Z)).
Context (Hencode : forall data space packed, encode data space = Some packed -> Z.of_nat (length packed) <= space).

Definition files_ok (s : files) : Prop :=
  byte_mem (i_buf (input s)) /\ 0 <= i_len (input s) < 2 ^ 62 /\
  let o := output s in 0 <= o_len o <= max_len o /\ max_len o < 2 ^ 62 /\ 0 <= hdr_len o < 2 ^ 62.

(** A record is processed, or it is refused. *)
Definition processed (rc : Z) (s : files) : Prop := rc = -1 \/ rc = 0 /\ files_ok s.

Lemma align_range v a : 0 <= v < 2 ^ 62 -> 0 <= a < 2 ^ 32 -> 0 <= align v a < 2 ^ 63.
Proof.
  intros Hv Ha. split; [apply align_nonneg|]. unfold align.
  destruct (Z.eq_dec (v + a) 0) as [E|].
  - replace v with 0 by lia. replace a with 0 by lia. by vm_compute.
  - rewrite (u64_small (v + a - 1)) by lia.
    pose proof (land_range (u64 (Z.lnot (a - 1))) (v + a - 1) 63 ltac:(lia) ltac:(lia)) as H.
    rewrite Z.land_comm. lia.
Qed.

Lemma process_zinfo_copy_safe zinfo s : Forall is_byte zinfo -> files_ok s ->
  wp (process_zinfo_copy zinfo) processed s.
Proof.
  intros Hz (Hm & Hi & Ho & Hx & Hh). unfold process_zinfo_copy. repeat wp_prim.
  pose proof (zinfo_u32_range 4 zinfo Hz : 0 <= zinfo_offset zinfo < _) as H1.
  pose proof (zinfo_u32_range 8 zinfo Hz : 0 <= zinfo_len zinfo < _) as H2.
  pose proof (zinfo_u32_range 12 zinfo Hz : 0 <= zinfo_align zinfo < _) as H3.
  rewrite (u64_small (zinfo_offset zinfo + _)) by lia.
  destruct (Z.ltb_spec (i_len (input s)) (zinfo_offset zinfo + zinfo_len zinfo)); [wp_prim; by left|].
  repeat wp_prim. cbn [output set_o_len o_len max_len].
  pose proof (align_range (o_len (output s)) (zinfo_align zinfo) ltac:(lia) H3) as Ha.
  set (start := align _ _) in *. rewrite (u64_small (start + _)) by lia.
  destruct (Z.ltb_spec (max_len (output s)) (start + zinfo_len zinfo)); [wp_prim; by left|].
  wp_prim. apply wp_read_input; cbn [input set_o_len]; [lia|lia|].
  wp_prim. apply wp_write_output; rewrite ?length_load; cbn [output set_o_len max_len]; [lia|lia|].
  repeat wp_prim. right. split; [done|]. unfold files_ok. cbn. split_and!; try done; lia.
Qed.

Lemma process_zinfo_add_safe len zinfo base datasize s :
  Forall is_byte zinfo -> zinfo_divisor zinfo <> 0 -> datasize = 1 \/ datasize = 2 \/ datasize = 4 ->
  0 <= base < 2 ^ 63 -> files_ok s -> wp (process_zinfo_add len zinfo base datasize) processed s.
Proof.
  intros Hz Hdiv Hds Hbase Hok. pose proof Hok as (Hm & Hi & Ho & Hx & Hh).
  pose proof (zinfo_u32_range 4 zinfo Hz : 0 <= zinfo_offset zinfo < _) as Hoff.
  unfold process_zinfo_add. rewrite (u64_small (base + _)) by lia. set (offset := base + _) in *.
  assert (Hoff0 : 0 <= offset < 2 ^ 63 + 2 ^ 32) by (unfold offset; lia). clearbody offset. repeat wp_prim.
  rewrite (u64_small (offset + datasize)) by lia.
  destruct (Z.ltb_spec (o_len (output s)) (offset + datasize)); [wp_prim; by left|].
  rewrite (proj2 (Z.eqb_neq _ 0) Hdiv). destruct (negb _); [wp_prim; by left|].
  wp_prim. apply wp_read_output; [lia|lia|]. destruct (_ <? 0); [wp_prim; by left|].
  destruct (negb _); [wp_prim; by left|].
  wp_prim. apply wp_write_output; rewrite ?length_le_split; [lia|lia|]. wp_prim. right. done.
Qed.

Lemma process_zinfo_pack_safe zinfo s : Forall is_byte zinfo -> files_ok s ->
  wp (process_zinfo_pack encode zinfo) processed s.
Proof.
  intros Hz (Hm & Hi & Ho & Hx & Hh). unfold process_zinfo_pack. repeat wp_prim.
  pose proof (zinfo_u32_range 4 zinfo Hz : 0 <= zinfo_offset zinfo < _) as H1.
  pose proof (zinfo_u32_range 8 zinfo Hz : 0 <= zinfo_len zinfo < _) as H2.
  pose proof (zinfo_u32_range 12 zinfo Hz : 0 <= zinfo_align zinfo < _) as H3.
  rewrite (u64_small (zinfo_offset zinfo + _)) by lia.
  destruct (Z.ltb_spec (i_len (input s)) (zinfo_offset zinfo + zinfo_len zinfo)); [wp_prim; by left|].
  repeat wp_prim. cbn [output set_o_len o_len max_len].
  pose proof (align_range (o_len (output s)) (zinfo_align zinfo) ltac:(lia) H3) as Ha.
  set (start := align _ _) in *. rewrite (u64_small (start + 4)) by lia.
  destruct (Z.ltb_spec (max_len (output s)) (start + 4)); [wp_prim; by left|]. wp_prim.
  eapply wp_mono; [apply (wp_bcj_absolute (zinfo_offset zinfo) (zinfo_len zinfo) ltac:(lia) ltac:(lia)); [exact Hm|done]|].
  cbv zeta. intros u s2 ([Ho2 Hi2] & Hm2 & _ & _). cbn [set_o_len input] in Hi2.
  wp_prim. apply wp_read_input; [lia|rewrite Hi2; lia|].
  destruct (encode _ _) as [packed|] eqn:E; [|wp_prim; by left]. apply Hencode in E.
  assert (Ho' : max_len (output s2) = max_len (output s) /\ hdr_len (output s2) = hdr_len (output s))
    by (by rewrite Ho2). destruct Ho' as [Hmx Hhd]. clear Ho2.
  wp_prim. apply wp_write_output; [lia|lia|]. repeat wp_prim.
  cbn [output set_o_len set_o_buf o_len max_len]. rewrite Hmx.
  rewrite (u64_small (start + 4 + _)), (u64_small (start + 4 + _ + 4)) by lia.
  destruct (Z.ltb_spec (max_len (output s)) (start + 4 + Z.of_nat (length packed) + 4)); [wp_prim; by left|].
  wp_prim. apply wp_write_output; rewrite ?length_le_split; cbn [output set_o_len set_o_buf max_len]; [lia|lia|].
  wp_prim. rewrite Nat2Z.id. apply wp_read_output; cbn [output set_o_len set_o_buf max_len]; [lia|lia|].
  wp_prim. apply wp_write_output; rewrite ?length_le_split; cbn [output set_o_len set_o_buf max_len]; [lia|lia|].
  wp_prim. right. split; [done|]. unfold files_ok. cbn. rewrite Hi2, Hhd, Hmx. split_and!; try done; lia.
Qed.

Lemma wp_find_processor type l zinfo s Q : Q (-1) s ->
  Forall (fun p => p.1 = type -> wp (p.2 zinfo) Q s) l -> wp (find_processor type l zinfo) Q s.
Proof.
  intros H0. induction 1 as [|[t p] l Hp _ IH]; cbn [find_processor]; [by wp_prim|].
  case_bool_decide as E; [by apply Hp|exact IH].
Qed.

(** The records that increase a field. *)
Definition is_add (zinfo : zinfo_record) : bool := List.hd 0 (zinfo_type zinfo) =? 0x41.

Lemma is_add_type zinfo c t : 0x41 :: c :: t = c_string (zinfo_type zinfo) -> is_add zinfo = true.
Proof.
  unfold is_add. destruct (zinfo_type zinfo) as [|x l]; cbn [c_string List.hd]; [done|].
  destruct (x =? 0); [done|]. intros E. injection E as <- _. done.
Qed.

(** C32. No record makes the tool access memory outside of its buffers or run
    forever, as long as the units of lengths are not zero and the payload starts
    in the buffer; and the length of the output stays within the buffer. *)
Theorem process_zinfo_safe zinfo s : files_ok s -> Forall is_byte zinfo ->
  (is_add zinfo = true -> zinfo_divisor zinfo <> 0) ->
  (c_string (zinfo_type zinfo) = cs "PAYL" -> align (o_len (output s)) (zinfo_align zinfo) <= max_len (output s)) ->
  wp (process_zinfo encode zinfo) processed s.
Proof.
  intros Hok Hz Hadd Hpayl. pose proof Hok as (Hm & Hi & Ho & Hx & Hh).
  apply wp_find_processor; [by left|].
  assert (HA : forall n base ds, 0x41 = n -> forall c t, n :: c :: t = c_string (zinfo_type zinfo) ->
    ds = 1 \/ ds = 2 \/ ds = 4 -> 0 <= base < 2 ^ 63 -> forall len,
    wp (process_zinfo_add len zinfo base ds) processed s).
  { intros n base ds <- c t E Hds Hb len. apply process_zinfo_add_safe; try done. by eapply Hadd, is_add_type. }
  unfold zinfo_processors. repeat apply Forall_cons_2; try apply Forall_nil_2; cbn [fst snd]; intros Etype.
  4-15: match goal with |- wp (?p _) _ _ => unfold p end; repeat wp_prim;
    eapply (HA _ _ _ eq_refl _ _ Etype); [tauto|lia].
  - by apply process_zinfo_copy_safe.
  - by apply process_zinfo_pack_safe.
  - unfold process_zinfo_payl. repeat wp_prim. right. split; [done|]. specialize (Hpayl (eq_sym Etype)).
    pose proof (align_nonneg (o_len (output s)) (zinfo_align zinfo)).
    unfold files_ok. cbn. split_and!; try done; lia.
Qed.
End bounds.
