(* ===== verification/Libprefix.v ===== *)
(** * Libprefix

    The routines that the prefixes share (arch/x86/prefix/libprefix.S): output,
    copying and zeroing, the installation of the packed sections, and the
    counter of free base memory.

    Registers are arguments and results.  Routines that run with flat segments
    are given physical addresses, so that [process_bytes], which sets up such
    segments around a call, is the call itself.  The stacks are apart from the
    memory that the model shows.  The progress messages of debug builds are left
    out. *)

From S2P Require Import Prelude.
From S2P Require Import Memory.
From S2P Require Import Cmem.
From S2P Require Import Unlzma.

(** ** State *)

(** Memory, and what was printed with INT 10. *)
Record prefix : Type := mkPrefix { p_mem : mem; console : list Z }.

Notation pprog := (prog prefix).

Definition set_p_mem (m : mem) (s : prefix) : prefix := mkPrefix m (console s).
Definition int10_tty (al : Z) (s : prefix) : prefix := mkPrefix (p_mem s) (console s ++ [al]).

Definition on_mem {A} (p : prog mem A) : pprog A := zoom p_mem set_p_mem p.

(** The physical address of a real-mode address. *)
Definition linear (segment offset : Z) : Z := 16 * segment + offset.

(** ** Output *)

Section output.
(** The data segment. *)
Context (ds : Z).

(** DI: the next character in the buffer, or zero for the console. *)
Definition print_character (al di : Z) : pprog Z :=
  if negb (di =? 0) then
    modify (fun s => set_p_mem (store (linear ds di) [al] (p_mem s)) s) ;;
    ret (u16 (di + 1))
  else
    (* Print character *)
    (if al =? 0x0a then modify (int10_tty al) ;; modify (int10_tty 0x0d)
     else modify (int10_tty al)) ;;
    ret di.

Definition print_space (di : Z) : pprog Z := print_character 0x20 di.

(** SI and DI; a string without its NUL, printed over and over, spins. *)
Definition print_message (si di : Z) : pprog (Z * Z) :=
  iterate (Z.to_nat 0x10000) (fun '(si, di) =>
    al <- gets (fun s => p_mem s (linear ds si)) ;;
    let si := u16 (si + 1) in
    if al =? 0 then ret (inr (si, di)) else
    di <- print_character al di ;;
    ret (inl (si, di)))
  (si, di).

(** DAS: AL, given CF and AF. *)
Definition das (al : Z) (cf af : bool) : Z :=
  let al' := if (9 <? Z.land al 0x0f) || af then u8 (al - 6) else al in
  if (0x99 <? al) || cf then u8 (al' - 0x60) else al'.

(** The digit, by CMP, SBB and DAS. *)
Definition hex_digit (al : Z) : Z :=
  let al := Z.land al 0x0f in
  let c := Z_of_bool (al <? 10) in
  das (u8 (al - 0x69 - c)) (al <? 0x69 + c) (Z.land al 0x0f <? 9 + c).

Definition print_hex_nibble (al di : Z) : pprog Z := print_character (hex_digit al) di.

(** RORB by four. *)
Definition swap_nibbles (al : Z) : Z := Z.lor (Z.shiftr al 4) (u8 (Z.shiftl al 4)).

Definition print_hex_byte (al di : Z) : pprog Z :=
  di <- print_hex_nibble (swap_nibbles al) di ;; print_hex_nibble al di.

Definition print_hex_word (ax di : Z) : pprog Z :=
  di <- print_hex_byte (Z.shiftr ax 8) di ;; print_hex_byte (u8 ax) di.

Definition print_hex_dword (eax di : Z) : pprog Z :=
  di <- print_hex_word (Z.shiftr eax 16) di ;; print_hex_word (u16 eax) di.

Definition print_pci_busdevfn (ax di : Z) : pprog Z :=
  let ah := u8 ax in
  (* Print bus *)
  di <- print_hex_byte (Z.shiftr ax 8) di ;;
  di <- print_character 0x3a di ;;
  (* Print device *)
  di <- print_hex_byte (Z.shiftr ah 3) di ;;
  di <- print_character 0x2e di ;;
  (* Print function *)
  print_hex_nibble (Z.land ah 0x07) di.

Definition print_kill_line (di : Z) : pprog Z :=
  (* Print CR, 79 spaces, and CR *)
  di <- print_character 0x0d di ;;
  di <- Nat.iter 79 (fun p => di <- p ;; print_space di) (ret di) ;;
  print_character 0x0d di.
End output.

(** ** Copying and zeroing *)

(** ESI and EDI. *)
Definition copy_bytes (esi edi ecx : Z) : prog mem (Z * Z) := fun m =>
  Ret (u32 (esi + ecx), u32 (edi + ecx)) (state_mem (rep (Z.to_nat ecx) (movs 1) (m, edi, esi))).

Definition zero_bytes (edi ecx : Z) : prog mem Z := fun m =>
  Ret (u32 (edi + ecx)) (rep (Z.to_nat ecx) (stos 1 0) (m, edi)).1.

(** ** Installation *)

(** ESI, EDI and CF. *)
Definition install_block (fuel : nat) (esi edi ecx edx : Z) : prog mem (Z * Z * bool) :=
  (* Decompress source to destination *)
  let! (esi, edi, cf) := decompress fuel esi edi in
  if cf then ret (esi, edi, true) else
  (* Zero .bss portion *)
  edi <- zero_bytes edi (u32 (edx - ecx)) ;;
  (* Round up to start of next blocks *)
  ret (Z.land (u32 (esi + 0xf)) (not32 0xf), Z.land (u32 (edi + 0xf)) (not32 0xf), false).

(** ** Base memory *)

Section basemem.
Context (_text16_memsz_ppgh _data16_memsz_ppgh : Z).

Definition FBMS : Z := linear 0x40 0x13.

(** AX and BX: the segments of .text16 and .data16. *)
Definition alloc_basemem : prog mem (Z * Z) :=
  (* FBMS as segment address *)
  fbms <- gets (ld16 FBMS) ;;
  let ax := u16 (Z.shiftl fbms 6) in
  let bx := u16 (ax - _data16_memsz_ppgh) in
  let ax := u16 (bx - _text16_memsz_ppgh) in
  (* Update FBMS *)
  modify (st16 FBMS (Z.shiftr ax 6)) ;;
  ret (ax, bx).

(** AX is restored in the end. *)
Definition free_basemem (cs ax hooked_bios_interrupts : Z) : prog mem Z :=
  (* Check FBMS counter *)
  fbms <- gets (ld16 FBMS) ;;
  if negb (fbms =? Z.shiftr cs 6) then ret ax else
  (* Check hooked interrupt count *)
  if negb (hooked_bios_interrupts =? 0) then ret ax else
  (* OK to free memory *)
  modify (st16 FBMS (Z.shiftr (u16 (u16 (cs + _text16_memsz_ppgh) + _data16_memsz_ppgh)) 6)) ;;
  ret ax.

Definition uninstall (cs ax hooked_bios_interrupts : Z) : prog mem Z :=
  free_basemem cs ax hooked_bios_interrupts.
End basemem.

(** ** Installation of all sections *)

(** The symbols of the linker. *)
Record layout : Type := mkLayout {
  _text16_early_lma : Z; _text16_early_filesz : Z; _text16_early_memsz : Z;
  _text16_late_filesz : Z; _text16_late_memsz : Z;
  _data16_filesz : Z; _data16_memsz : Z;
  _textdata_filesz : Z; _textdata_memsz : Z; _textdata_memsz_kb : Z
}.

Section install.
Context (l : layout) (install_death_message : Z).
(** The A20 gate (CF), INT 15,88 (AX), librm at an address, and [relocate] with
    ESI, EDI and ECX for the copy; [memmap_post] is the byte of .data16 that
    inhibits the memory maps. *)
Context (access_highmem : pprog bool) (int15_88 : pprog Z) (init_librm : Z -> pprog unit).
Context (relocate : Z -> pprog (Z * Z * Z)) (memmap_post : Z).
Context (fuel : nat).

(** Report a failure, and halt. *)
Definition install_death {A} (cs eax esi ecx : Z) : pprog A :=
  print_hex_dword cs eax 0 ;;
  print_space cs 0 ;;
  print_hex_dword cs esi 0 ;;
  print_space cs 0 ;;
  print_hex_dword cs ecx 0 ;;
  print_message cs install_death_message 0 ;;
  spin.

(** [install_block] with its [jc install_block_death]. *)
Definition install_section (cs esi edi ecx edx : Z) : pprog (Z * Z) :=
  let! (esi, edi, cf) := on_mem (install_block fuel esi edi ecx edx) in
  if cf then install_death cs 0x1b101b10 esi ecx else ret (esi, edi).

(** The decompression area: the one specified, or one below the end of memory. *)
Definition temporary_area (edi : Z) : pprog Z :=
  if negb (edi =? 0) then ret edi else
  ax <- int15_88 ;;
  let edi := u32 (u32 (ax + 0x400) - _textdata_memsz_kb l) in
  let edi := Z.lor (Z.shiftl (Z.shiftr edi 16) 16) (Z.land (u16 edi) 0xfffc) in
  let edi := u32 (Z.shiftl edi 10) in
  (* Sanity check: if we have ended up below 1MB, use 1MB *)
  ret (if 0x100000 <=? edi then edi else 0x100000).

(** The sections, up to the zeroing of .bss16: the address of .text and .data. *)
Definition install_sections (cs ax bx esi edi : Z) : pprog Z :=
  (* Install .text16.early and calculate %ecx as offset to next block *)
  let! (next, late) := install_section cs (u32 (linear cs 0 + _text16_early_lma l)) (linear ax 0)
                         (_text16_early_filesz l) (_text16_early_memsz l) in
  let ecx := u32 (next - linear cs 0) in
  (* Access high memory by enabling the A20 gate *)
  cf <- access_highmem ;;
  if cf then install_death cs 0x0a200a20 esi ecx else
  (* Open payload: the dummy routine *)
  (* Calculate physical address of payload (i.e. first source) *)
  let esi := if esi =? 0 then linear cs 0 else esi in
  let esi := u32 (esi + ecx) in
  (* Install .text16.late and .data16 *)
  let! (esi, _) := install_section cs esi late (_text16_late_filesz l) (_text16_late_memsz l) in
  let! (esi, _) := install_section cs esi (linear bx 0) (_data16_filesz l) (_data16_filesz l) in
  (* Find a suitable decompression temporary area, if none specified *)
  edi <- temporary_area edi ;;
  (* Install .text and .data to temporary area in high memory *)
  install_section cs esi edi (_textdata_filesz l) (_textdata_memsz l) ;;
  (* Zero .bss16 *)
  on_mem (zero_bytes (linear bx (_data16_filesz l)) (u32 (_data16_memsz l - _data16_filesz l))) ;;
  ret edi.

Definition install_prealloc (cs ax bx esi edi ebp : Z) : pprog unit :=
  edi <- install_sections cs ax bx esi edi ;;
  (* Initialise librm at current location *)
  init_librm edi ;;
  (* Inhibit INT 15,e820 and INT 15,e801 if applicable *)
  (if ebp =? 0 then
     modify (fun s => set_p_mem (st8 (linear bx memmap_post)
       (u8 (ld8 (linear bx memmap_post) (p_mem s) + 1)) (p_mem s)) s)
   else ret tt) ;;
  let ebp := if ebp =? 0 then 0xffffffff else ebp in
  (* Call relocate() to determine target address for relocation *)
  let! (esi, edi, ecx) := relocate ebp in
  (* Copy code to new location *)
  on_mem (copy_bytes esi edi ecx) ;;
  (* Initialise librm at new location *)
  init_librm edi.

(** Segments of base memory, and all sections at %cs:0000. *)
Definition install (_text16_memsz_ppgh _data16_memsz_ppgh cs : Z) : pprog (Z * Z) :=
  let! (ax, bx) := on_mem (alloc_basemem _text16_memsz_ppgh _data16_memsz_ppgh) in
  install_prealloc cs ax bx 0 0 0xffffffff ;;
  ret (ax, bx).
End install.
