(* ===== verification/LibprefixSpec.v ===== *)
(** * LibprefixSpec

    The routines of the prefixes: what they print, that base memory is given
    back, and that installation puts the sections that were packed into an image
    where they belong. *)

From S2P Require Import Prelude.
From S2P Require Import Memory.
From S2P Require Import Cmem.
From S2P Require Import CmemSpec.
From S2P Require Import World.
From S2P Require Import Unlzma.
From S2P Require Import UnlzmaSpec.
From S2P Require Import Zbin.
From S2P Require Import Bcj.
From S2P Require Import ZbinSpec.
From S2P Require Import Libprefix.

(** ** Output *)

Definition hex_char (n : Z) : Z := if n <? 10 then 0x30 + n else 0x41 + (n - 10).

(** The arithmetic with the decimal adjustment makes a hexadecimal digit. *)
Lemma hex_digit_correct al : 0 <= al < 256 -> hex_digit al = hex_char (al mod 16).
Proof.
  intros Hal. apply Z.eqb_eq, (check_below (fun al => hex_digit al =? hex_char (al mod 16)) 256).
  - by vm_compute.
  - exact Hal.
Qed.

(** ** Base memory *)

Section basemem.
Context (text data : Z) (Htext : 0 <= text) (Hdata : 0 <= data).

(** C33. The segments that are allocated lie below the memory that the counter said
    was free, one after the other and above what it says afterwards; freeing them
    gives all of it back, unless an interrupt is still hooked or somebody else
    has allocated memory since. *)
Theorem basemem_roundtrip m hooked ax :
  byte_mem m -> let fbms := ld16 FBMS m in 64 * fbms < 2 ^ 16 -> text + data <= 64 * fbms ->
  wp (alloc_basemem text data) (fun '(cs, ds) m' =>
    ds + data = 64 * fbms /\ cs + text = ds /\ 64 * ld16 FBMS m' <= cs /\ mem_eq_except FBMS 2 m m' /\
    forall m2, ld16 FBMS m2 = ld16 FBMS m' ->
      wp (free_basemem text data cs ax hooked) (fun ax' m3 => ax' = ax /\
        ld16 FBMS m3 = (if hooked =? 0 then fbms else ld16 FBMS m2) /\ mem_eq_except FBMS 2 m2 m3) m2) m.
Proof.
  intros Hm fbms H16 Hfit. unfold alloc_basemem. repeat wp_prim. fold fbms.
  assert (H0 : 0 <= fbms).
  { pose proof (le_combine_range (load 2 FBMS m) (load_bytes 2 FBMS m Hm)) as H. unfold fbms, ld16. lia. }
  clearbody fbms. rewrite Z.shiftl_mul_pow2 by lia. change (2 ^ 6) with 64.
  rewrite (u16_small (fbms * 64)), (u16_small (fbms * 64 - data)), (u16_small (fbms * 64 - data - text)) by lia.
  set (cs := fbms * 64 - data - text).
  rewrite ld16_st16_same, Z.shiftr_div_pow2 by lia. change (2 ^ 6) with 64.
  assert (Hcs : 0 <= cs < 2 ^ 16) by (unfold cs; lia). rewrite (u16_small (cs / 64)) by dlia.
  split; [lia|]. split; [lia|]. split; [dlia|]. split.
  { apply mem_eq_except_store; rewrite ?length_le_split; lia. }
  intros m2 E. unfold free_basemem. repeat wp_prim. rewrite E, Z.shiftr_div_pow2 by lia. change (2 ^ 6) with 64.
  rewrite Z.eqb_refl. cbn [negb]. destruct (hooked =? 0); cbn [negb]; repeat wp_prim.
  - split; [done|]. split; [|apply mem_eq_except_store; rewrite ?length_le_split; lia].
    rewrite ld16_st16_same, (u16_small (cs + text)), (u16_small (cs + text + data)) by (unfold cs; lia).
    replace (cs + text + data) with (fbms * 64) by (unfold cs; lia).
    rewrite Z.shiftr_div_pow2 by lia. change (2 ^ 6) with 64. rewrite Z.div_mul, u16_small by lia. done.
  - split; [done|]. split; [done|apply mem_eq_except_refl].
Qed.
End basemem.

(** ** Blocks *)

Definition next16 (x : Z) : Z := x + 15 - (x + 15) mod 16.

Lemma round_up x : 0 <= x -> x + 15 < 2 ^ 32 -> Z.land (u32 (x + 0xf)) (not32 0xf) = next16 x.
Proof.
  intros H0 Hx. rewrite u32_small by lia. change (not32 0xf) with (not32 (16 - 1)).
  rewrite land_not32_15 by lia. done.
Qed.

(** Packed data at an address. *)
Record block (m : mem) (esi : Z) (data packed : list Z) : Prop := {
  bk_stream : lzma_stream (filtered data) packed;
  bk_size : 5 <= Z.of_nat (length data) < 2 ^ 31;
  bk_bytes : Forall is_byte data;
  bk_load : load (length (image packed)) esi m = image packed
}.

Definition image_size (packed : list Z) : Z := Z.of_nat (length (image packed)).

(** Data with zeros behind it. *)
Definition padded (data : list Z) (size : Z) : list Z :=
  data ++ replicate (Z.to_nat size - length data) 0.

Lemma wp_zero_bytes edi n m : 0 <= n -> edi + n < 2 ^ 32 -> 0 <= edi ->
  wp (zero_bytes edi n) (fun edi' m' => edi' = edi + n /\ m' ≡m fill edi 0 n m) m.
Proof.
  intros Hn He H0. unfold zero_bytes, wp. rewrite u32_small by lia. split; [done|].
  pose proof (filled_rep edi 0 m (Z.to_nat n)) as [_ E]. by rewrite Z2Nat.id in E by lia.
Qed.

Lemma wp_install_block fuel esi edi m data packed size :
  block m esi data packed -> byte_mem m -> let n := Z.of_nat (length data) in
  n <= size -> 0 <= esi -> esi + image_size packed + 15 < 2 ^ 32 -> 0 <= edi -> edi + size + 15 < 2 ^ 32 ->
  disjoint esi (image_size packed) edi size -> (length data < fuel)%nat ->
  wp (install_block fuel esi edi n size) (fun '(esi', edi', cf) m' =>
    cf = false /\ esi' = next16 (esi + image_size packed) /\ edi' = next16 (edi + size) /\
    byte_mem m' /\ load (Z.to_nat size) edi m' = padded data size /\ mem_eq_except edi size m m') m.
Proof.
  intros [Hs H5 Hb Hload] Hm n Hn Hesi He Hedi Hend Hd Hf. unfold install_block, image_size, disjoint in *.
  wp_prim. eapply wp_mono; [apply (wp_decompress fuel esi edi m data packed); try done; lia|].
  intros [[esi1 edi1] cf] m1 (-> & -> & -> & Hm1 & Hl1 & Hf1). cbn iota. fold n. repeat wp_prim.
  rewrite u32_small by lia. eapply wp_mono; [apply wp_zero_bytes; lia|].
  intros edi2 m2 [-> E2]. wp_prim. rewrite !round_up by lia. replace (edi + n + (size - n)) with (edi + size) by lia.
  split_and!; try done.
  - intros x. rewrite (E2 x). by apply byte_mem_fill.
  - unfold padded. replace (Z.to_nat size) with (length data + (Z.to_nat size - length data))%nat at 1 by lia.
    rewrite load_app. f_equal.
    + rewrite (load_ext _ _ m2 _ (fun x _ => E2 x)), load_fill by (unfold disjoint; lia). exact Hl1.
    + rewrite (load_ext _ _ m2 _ (fun x _ => E2 x)). apply load_fill_inside; lia.
  - intros x Hx. rewrite (E2 x). apply in_range_false in Hx. unfold fill.
    rewrite (proj2 (in_range_false (edi + n) (size - n) x)) by lia. apply Hf1, in_range_false. lia.
Qed.

(** ** Sections *)

(** Where the packed data of a section is, what it is, and where it belongs. *)
Record plan : Type := mkPlan {
  pl_src : Z;
  pl_data : list Z;
  pl_packed : list Z;
  pl_dst : Z;
  pl_size : Z
}.

Definition src_size (p : plan) : Z := image_size (pl_packed p).
Definition data_size (p : plan) : Z := Z.of_nat (length (pl_data p)).

Definition plan_ok (fuel : nat) (m : mem) (p : plan) : Prop :=
  block m (pl_src p) (pl_data p) (pl_packed p) /\ data_size p <= pl_size p /\
  0 <= pl_src p /\ pl_src p + src_size p + 15 < 2 ^ 32 /\
  0 <= pl_dst p /\ pl_dst p + pl_size p + 15 < 2 ^ 32 /\ (length (pl_data p) < fuel)%nat.

Definition installed (m : mem) (p : plan) : Prop :=
  load (Z.to_nat (pl_size p)) (pl_dst p) m = padded (pl_data p) (pl_size p).

(** Sections that do not get in the way of each other. *)
Definition dst_apart (p q : plan) : Prop := disjoint (pl_dst p) (pl_size p) (pl_dst q) (pl_size q).
Definition src_apart (p q : plan) : Prop := disjoint (pl_src p) (src_size p) (pl_dst q) (pl_size q).

Definition plans_apart (ps : list plan) : Prop :=
  ForallOrdPairs dst_apart ps /\ forall p q, In p ps -> In q ps -> src_apart p q.

(** Memory changes only in the destinations. *)
Definition only_dsts (ps : list plan) (m m' : mem) : Prop :=
  forall x, Forall (fun p => in_range (pl_dst p) (pl_size p) x = false) ps -> m' x = m x.

Lemma pairs_before {A} (R : A -> A -> Prop) l1 p l2 :
  ForallOrdPairs R (l1 ++ p :: l2) -> Forall (fun q => R q p) l1.
Proof.
  induction l1 as [|q l1 IH]; cbn; intros H; [constructor|]. inversion H as [|? ? Hq Hr]; subst.
  constructor; [|by apply IH]. rewrite List.Forall_forall in Hq. apply Hq, in_app_iff. right. by left.
Qed.

Section install.
Context (death_message : Z) (fuel : nat) (cs : Z) (ps : list plan) (m0 : mem) (Hapart : plans_apart ps).
Context (Hsizes : Forall (fun p => 0 <= pl_size p) ps).

(** Some sections are installed, others are still to be. *)
Record installing (before after : list plan) (s : prefix) : Prop := {
  in_plans : before ++ after = ps;
  in_bytes : byte_mem (p_mem s);
  in_before : Forall (installed (p_mem s)) before;
  in_after : Forall (plan_ok fuel (p_mem s)) after;
  in_frame : only_dsts ps m0 (p_mem s)
}.

Lemma plan_ok_ext p m m' : plan_ok fuel m p -> load (length (image (pl_packed p))) (pl_src p) m' =
  load (length (image (pl_packed p))) (pl_src p) m -> plan_ok fuel m' p.
Proof. intros [[? ? ? ?] H] E. split; [|exact H]. constructor; try done. by rewrite E. Qed.

Lemma installing_same before after s s' : p_mem s' = p_mem s ->
  installing before after s -> installing before after s'.
Proof. intros E [? ? ? ? ?]. constructor; by rewrite ?E. Qed.

Lemma wp_install_section before p after s : installing before (p :: after) s ->
  wp (install_section death_message fuel cs (pl_src p) (pl_dst p) (data_size p) (pl_size p))
    (fun '(esi, edi) s' => esi = next16 (pl_src p + src_size p) /\ edi = next16 (pl_dst p + pl_size p) /\
       installing (before ++ [p]) after s') s.
Proof.
  intros [Hps Hm Hb Ha Hf]. apply Forall_cons_1 in Ha as [(Hbk & Hn & H1 & H2 & H3 & H4 & H5) Ha].
  assert (Hin : forall q, In q before \/ q = p \/ In q after -> In q ps).
  { intros q Hq. rewrite <- Hps, in_app_iff. cbn. destruct Hq as [?|[->|?]]; auto. }
  destruct Hapart as [Hdst Hsrc]. unfold install_section, on_mem. wp_prim. apply wp_zoom.
  eapply wp_mono; [apply (wp_install_block fuel (pl_src p) (pl_dst p) (p_mem s) (pl_data p) (pl_packed p)); try done|].
  { apply (Hsrc p p); apply Hin; auto. }
  intros [[esi edi] cf] m' (-> & -> & -> & Hm' & Hl & Hf'). cbn iota. wp_prim. split; [done|]. split; [done|].
  constructor; cbn [set_p_mem p_mem]; [by rewrite <- app_assoc|done| | |].
  - apply Forall_app. split; [|by constructor]. rewrite <- Hps in Hdst. apply pairs_before in Hdst.
    rewrite List.Forall_forall in *. intros q Hq. unfold installed. rewrite <- (Hb q Hq).
    apply (load_eq_except _ _ _ _ _ _ Hf'). pose proof (Hdst q Hq) as Hx. pose proof (Hsizes q ltac:(auto)) as Hz.
    unfold dst_apart, disjoint in *. lia.
  - rewrite List.Forall_forall in *. intros q Hq. apply (plan_ok_ext _ (p_mem s)); [by apply Ha|].
    apply (load_eq_except _ _ _ _ _ _ Hf'). pose proof (Hsrc q p ltac:(auto) ltac:(auto)) as Hx.
    unfold src_apart, disjoint, src_size, image_size in *. lia.
  - intros x Hx. rewrite <- (Hf x Hx). apply Hf'. rewrite List.Forall_forall in Hx. apply Hx, Hin. auto.
Qed.
End install.

(** Where a block starts when another one is in front of it. *)
Definition after_src (p : plan) : Z := next16 (pl_src p + src_size p).
Definition after_dst (p : plan) : Z := next16 (pl_dst p + pl_size p).

(** A section without zeros, and the zeros behind it. *)
Lemma installed_bss m p size : data_size p = pl_size p -> pl_size p <= size -> installed m p ->
  load (Z.to_nat (size - pl_size p)) (pl_dst p + pl_size p) m = replicate (Z.to_nat (size - pl_size p)) 0 ->
  load (Z.to_nat size) (pl_dst p) m = padded (pl_data p) size.
Proof.
  unfold data_size, installed, padded. intros E Hle Hi Hz. rewrite <- E in *. rewrite Nat2Z.id, Nat.sub_diag in Hi.
  cbn [replicate] in Hi. rewrite app_nil_r in Hi.
  replace (Z.to_nat size) with (length (pl_data p) + Z.to_nat (size - Z.of_nat (length (pl_data p))))%nat at 1 by lia.
  rewrite load_app, Hi, Hz. do 2 f_equal. lia.
Qed.

Section sections.
Context (l : layout) (death_message : Z) (access_highmem : pprog bool) (int15_88 : pprog Z) (fuel : nat).

(** C6. All sections are installed: what the compressor packed is unpacked, one
    block after the other, to the segments of .text16 and .data16 and to the
    temporary area, with zeros behind it; nothing else changes. *)
Theorem install_sections_correct cs ax bx esi edi early late data16 textdata m :
  let source := if esi =? 0 then linear cs 0 else esi in
  let ps := [early; late; data16; textdata] in
  let bss := linear bx (_data16_filesz l) in let bss_size := _data16_memsz l - _data16_filesz l in
  (* The layout of the image *)
  pl_src early = linear cs 0 + _text16_early_lma l ->
  pl_src late = source + (after_src early - linear cs 0) ->
  pl_src data16 = after_src late -> pl_src textdata = after_src data16 ->
  (* The layout of memory *)
  pl_dst early = linear ax 0 -> pl_dst late = after_dst early -> pl_dst data16 = linear bx 0 ->
  map data_size ps = [_text16_early_filesz l; _text16_late_filesz l; _data16_filesz l; _textdata_filesz l] ->
  map pl_size ps = [_text16_early_memsz l; _text16_late_memsz l; _data16_filesz l; _textdata_memsz l] ->
  0 <= linear cs 0 -> 0 <= _text16_early_lma l -> 0 <= bss_size -> 0 <= bss -> bss + bss_size < 2 ^ 32 ->
  Forall (fun p => disjoint bss bss_size (pl_dst p) (pl_size p)) ps ->
  plans_apart ps -> byte_mem m -> Forall (plan_ok fuel m) ps ->
  (* High memory can be accessed, and the temporary area is that of the plan *)
  (forall s, wp access_highmem (fun cf s' => cf = false /\ p_mem s' = p_mem s) s) ->
  (forall s, wp (temporary_area l int15_88 edi) (fun a s' => a = pl_dst textdata /\ p_mem s' = p_mem s) s) ->
  forall s, p_mem s = m ->
  wp (install_sections l death_message access_highmem int15_88 fuel cs ax bx esi edi) (fun edi' s' =>
    let m' := p_mem s' in
    edi' = pl_dst textdata /\ Forall (installed m') ps /\
    load (Z.to_nat (_data16_memsz l)) (linear bx 0) m' = padded (pl_data data16) (_data16_memsz l) /\
    forall x, in_range bss bss_size x = false ->
      Forall (fun p => in_range (pl_dst p) (pl_size p) x = false) ps -> m' x = m x) s.
Proof.
  intros source ps bss bss_size Hs1 Hs2 Hs3 Hs4 Hd1 Hd2 Hd3 Hfile Hmem Hcs Hlma Hb1 Hb2 Hb3 Hbss Hapart Hm Hok HA Ht s <-.
  injection Hfile as F1 F2 F3 F4. injection Hmem as M1 M2 M3 M4.
  assert (Hsizes : Forall (fun p => 0 <= pl_size p) ps).
  { eapply Forall_impl; [|exact Hok]. intros p (Hbk & Hn & _). destruct Hbk. unfold data_size in Hn. lia. }
  assert (H0 : installing fuel ps (p_mem s) [] ps s) by (constructor; try done; intros x _; done).
  assert (Hr : forall p, In p ps -> 0 <= pl_src p < 2 ^ 32 /\ pl_src p <= after_src p < 2 ^ 32).
  { intros p Hp. rewrite List.Forall_forall in Hok. destruct (Hok p Hp) as (_ & _ & H1 & H2 & _).
    unfold after_src, next16, src_size, image_size in *. dlia. }
  pose proof (Hr early ltac:(cbn; tauto)) as Hr1. pose proof (Hr late ltac:(cbn; tauto)) as Hr2.
  unfold install_sections. wp_prim. rewrite <- Hs1, (u32_small (pl_src early)), <- Hd1, <- F1, <- M1 by lia.
  eapply wp_mono; [apply (wp_install_section death_message fuel cs ps (p_mem s) Hapart Hsizes [] early _ s H0)|].
  intros [next dst2] s1 (-> & -> & H1). cbn [app] in H1. fold (after_src early) (after_dst early).
  rewrite (u32_small (after_src early - _)) by lia. wp_prim. eapply wp_mono; [apply HA|]. intros cf s2 [-> E2].
  apply (installing_same _ _ _ _ _ _ _ E2) in H1. fold source. rewrite <- Hs2, (u32_small (pl_src late)), <- Hd2, <- F2, <- M2 by lia.
  wp_prim. eapply wp_mono; [apply (wp_install_section death_message fuel cs ps (p_mem s) Hapart Hsizes _ late _ s2 H1)|].
  intros [src3 dst3] s3 (-> & _ & H3). cbn [app] in H3. fold (after_src late). rewrite <- Hs3, <- Hd3.
  wp_prim. rewrite <- F3 at 1. rewrite <- M3 at 1.
  eapply wp_mono; [apply (wp_install_section death_message fuel cs ps (p_mem s) Hapart Hsizes _ data16 _ s3 H3)|].
  intros [src4 dst4] s4 (-> & _ & H4). cbn [app] in H4. fold (after_src data16). rewrite <- Hs4.
  wp_prim. eapply wp_mono; [apply Ht|]. intros edi' s5 [-> E5]. apply (installing_same _ _ _ _ _ _ _ E5) in H4.
  wp_prim. rewrite <- F4, <- M4.
  eapply wp_mono; [apply (wp_install_section death_message fuel cs ps (p_mem s) Hapart Hsizes _ textdata _ s5 H4)|].
  intros [src6 dst6] s6 (_ & _ & H6). cbn [app] in H6. repeat wp_prim. fold bss bss_size.
  rewrite (u32_small bss_size) by lia. unfold on_mem. apply wp_zoom. eapply wp_mono; [apply (wp_zero_bytes bss bss_size); lia|].
  intros edi' m7 [-> E7]. wp_prim. cbn [p_mem set_p_mem]. split; [done|]. destruct H6 as [_ _ Hin _ Hframe].
  assert (Hin7 : Forall (installed m7) ps).
  { rewrite List.Forall_forall in *. intros p Hp. unfold installed. rewrite <- (Hin p Hp).
    rewrite (load_ext _ _ m7 _ (fun x _ => E7 x)). apply load_fill. pose proof (Hbss p Hp) as Hx.
    pose proof (Hsizes p Hp). unfold disjoint in *. lia. }
  split; [exact Hin7|]. split.
  - apply (installed_bss m7 data16 (_data16_memsz l)); try lia.
    + rewrite List.Forall_forall in Hin7. apply Hin7. cbn. tauto.
    + rewrite M3, Hd3. replace (linear bx 0 + _data16_filesz l) with bss by (unfold bss, linear; lia).
      rewrite (load_ext _ _ m7 _ (fun x _ => E7 x)). apply load_fill_inside; unfold bss_size; lia.
  - intros x Hx Hps. rewrite (E7 x). unfold fill. rewrite Hx. by apply Hframe.
Qed.
End sections.
