(* ===== verification/Romprefix.v ===== *)
(** * Romprefix

    The option ROM (arch/x86/prefix/romprefix.S) as the firmware sees it: its
    initialisation during POST, with the search for the PnP and PMM structures,
    the memory that it takes from PMM, the update of its checksum, the copy to
    its runtime segment and the prompt, and its entry points.

    The services of the BIOS and of the main program are parameters.  The ROM is
    built for the PCI bus, and does not hook INT 19 ([NONPNP_HOOK_INT19] is not
    defined). *)

From S2P Require Import Prelude.
From S2P Require Import Memory.
From S2P Require Import Cmem.
From S2P Require Import Unlzma.
From S2P Require Import Libprefix.

Definition PNP_SIGNATURE : Z := 0x506e5024.
Definition PMM_SIGNATURE : Z := 0x4d4d5024.
Definition PCI_SIGNATURE : Z := 0x20494350.
Definition PMM_HANDLE_BASE : Z :=
  Z.shiftl (0x46 - 0x41 + 1) 26 + Z.shiftl (0x45 - 0x41 + 1) 21 + Z.shiftl (0x4e - 0x41 + 1) 16.
Definition PMM_HANDLE_BASE_IMAGE_SOURCE : Z := Z.lor PMM_HANDLE_BASE 0x00001000.
Definition PMM_HANDLE_BASE_DECOMPRESS_TO : Z := Z.lor PMM_HANDLE_BASE 0x00002000.
Definition PCI_FUNC_MASK : Z := 0x07.
Definition ROM_BANNER_TIMEOUT_TICKS : Z := 18 * (2 * 20) / 10.

(** Where the parts of the ROM are that the assembler and the linker place. *)
Record rom : Type := mkRom {
  checksum : Z;
  pciheader_runtime_length : Z;
  prodstr : Z; prodstr_separator : Z; prodstr_pci_id : Z;
  shrunk_rom_size : Z; build_id : Z;
  init_message : Z; init_message_pci : Z; init_message_pnp : Z; init_message_pmm : Z;
  init_message_prompt : Z; init_message_dots : Z; init_message_done : Z;
  init_pci_busdevfn : Z; image_source : Z; extra_size : Z; decompress_to : Z;
  exec_message_pre_install : Z; exec_message_post_install : Z;
  _textdata_memsz_pgh : Z
}.

Definition romheader_size : Z := 2.

Section romprefix.
Context (r : rom) (cs : Z).

(** Variables of the ROM. *)
Definition rom_ld (k : nat) (offset : Z) : pprog Z :=
  gets (fun s => le_combine (load k (linear cs offset) (p_mem s))).
Definition rom_st (k : nat) (offset v : Z) : pprog unit :=
  modify (fun s => set_p_mem (store (linear cs offset) (le_split k v) (p_mem s)) s).

(** Messages to the console. *)
Definition message (si : Z) : pprog unit := print_message cs si 0 ;; ret tt.
Definition character (al : Z) : pprog unit := print_character cs al 0 ;; ret tt.
Definition hex_word (ax : Z) : pprog unit := print_hex_word cs ax 0 ;; ret tt.

(** ** PCI *)

(** Is the runtime segment that a PCI 3.0 BIOS gives sane? *)
Definition pci3_sane (gs size : Z) : bool :=
  if gs <? 0xa000 then false else
  (* Sane if %cs == %gs *)
  if gs =? cs then true else
  let cx := u16 (Z.shiftl size 5) in
  (* Sane if %cs+len <= %gs *)
  if u16 (cs + cx) <=? gs then true else
  (* Sane if %gs+len <= %cs *)
  u16 (gs + cx) <=? cs.

(** INT 1A,B101: CF, EDX, AH and BX. *)
Context (int1a_b101 : pprog (bool * Z * Z * Z)).

(** The runtime segment, given the one that the BIOS passed. *)
Definition pci_runtime_segment (gs : Z) : pprog Z :=
  let! (cf, edx, ah, bx) := int1a_b101 in
  if cf || negb (edx =? PCI_SIGNATURE) || negb (ah =? 0) then ret cs else
  message (init_message_pci r) ;;
  print_hex_nibble cs (Z.shiftr bx 8) 0 ;;
  character 0x2e ;;
  print_hex_byte cs (u8 bx) 0 ;;
  if Z.shiftr bx 8 <? 3 then ret cs else
  size <- rom_ld 1 romheader_size ;;
  if pci3_sane gs size then ret gs else
  (* PCI 3.0 with insane %gs value: print error and ignore %gs *)
  character 0x21 ;;
  hex_word gs ;;
  ret cs.

(** ** Structures of the BIOS *)

(** The sum of CX bytes from the start of a segment (DL). *)
Fixpoint segment_sum (n : nat) (segment si dl : Z) (m : mem) : Z :=
  match n with
  | O => dl
  | S n => segment_sum n segment (u16 (si + 1)) (u8 (dl + m (linear segment si))) m
  end.

(** Does a structure with this signature start at a segment? *)
Definition structure_at (signature segment : Z) (m : mem) : bool :=
  (ld32 (linear segment 0) m =? signature) &&
  (segment_sum (loop_count (m (linear segment 5))) segment 0 0 m =? 0).

(** The first segment with the structure, from [segment] on. *)
Definition scan (signature segment : Z) : pprog (option Z) :=
  iterate (Z.to_nat (0x10000 - segment + 1)) (fun bx =>
    if bx =? 0 then ret (inr None) else
    found <- gets (fun s => structure_at signature bx (p_mem s)) ;;
    ret (if found then inr (Some bx) else inl (u16 (bx + 1))))
  segment.

Definition pnp_scan : pprog (option Z) := scan PNP_SIGNATURE 0xf000.
Definition pmm_scan : pprog (option Z) := scan PMM_SIGNATURE 0xe000.

(** ** PMM *)

(** PMM at a segment: find a block with a handle, and allocate a block of some
    paragraphs, with a handle and flags; the result is DX:AX. *)
Context (pmm_find : Z -> Z -> pprog Z) (pmm_allocate : Z -> Z -> Z -> Z -> pprog Z).

(** Is a block acceptable?  CF otherwise. *)
Definition get_pmm_image_source (esi : Z) : pprog bool :=
  eax <- rom_ld 4 (build_id r) ;;
  v <- gets (fun s => ld32 (u32 (esi + build_id r)) (p_mem s)) ;;
  ret (negb (v =? eax)).

Definition get_pmm_decompress_to (esi : Z) : pprog bool := ret false.

(** EBX and ESI, zero for a failure.  The handles that are tried are bounded by
    [fuel]. *)
Definition get_pmm (fuel : nat) (es ecx ebx : Z) (acceptable : Z -> pprog bool) : pprog (Z * Z) :=
  let! (ebx, esi, di) :=
    iterate fuel (fun ebx =>
      (* Try to find existing block *)
      esi <- pmm_find es ebx ;;
      (* Treat 0xffffffff (not supported) as 0x00000000 (not found) *)
      if (u32 (esi + 1) =? 0) || (esi =? 0) then
        (* Block not found - try to allocate new block *)
        esi <- pmm_allocate es ecx ebx 0x0002 ;;
        ret (inr (ebx, esi, 0x2b))
      else
        (* Block found - check acceptability *)
        cf <- acceptable esi ;;
        (* Block not acceptable - increment handle and retry *)
        ret (if negb cf then inr (ebx, esi, 0x20) else inl (u32 (ebx + 1)))) ebx in
  (* Print block address *)
  character di ;;
  print_hex_dword cs esi 0 ;;
  (* Treat 0xffffffff (not supported) as 0x00000000 (allocation failed) *)
  ret (ebx, if u32 (esi + 1) =? 0 then 0 else esi).

(** The size of the image source block, in paragraphs. *)
Definition image_source_size (size extra : Z) : Z :=
  (* Round up to multiple of 8 512-byte sectors *)
  Z.shiftl (Z.land (u16 (u16 (size + extra) + 0x0007)) 0xfff8) 5.

Definition decompress_to_size : Z :=
  Z.land (u32 (_textdata_memsz_pgh r + (0x00000100 + 0x00001fff))) 0xffffe000.

(** The blocks, for PMM at a segment. *)
Definition use_pmm (fuel : nat) (es : Z) : pprog unit :=
  message (init_message_pmm r) ;;
  (* Allocate image source PMM block *)
  size <- rom_ld 1 romheader_size ;;
  extra <- rom_ld 2 (extra_size r) ;;
  let! (_, esi) := get_pmm fuel es (image_source_size size extra) PMM_HANDLE_BASE_IMAGE_SOURCE get_pmm_image_source in
  rom_st 4 (image_source r) esi ;;
  when (negb (esi =? 0))
    ((* Copy ROM to image source PMM block *)
     size <- rom_ld 1 romheader_size ;;
     modify (fun s => set_p_mem (state_mem (rep (Z.to_nat (Z.shiftl size 7)) (movs 4)
       (p_mem s, esi, linear cs 0))) s) ;;
     (* Shrink ROM *)
     al <- rom_ld 1 (shrunk_rom_size r) ;;
     rom_st 1 romheader_size al) ;;
  (* Allocate decompression PMM block *)
  let ecx := decompress_to_size in
  let ebx := Z.lor (Z.lor (Z.shiftl (Z.shiftr ecx 16) 16) (Z.shiftr (u16 ecx) 12)) PMM_HANDLE_BASE_DECOMPRESS_TO in
  let! (_, esi) := get_pmm fuel es ecx ebx get_pmm_decompress_to in
  rom_st 4 (decompress_to r) (Z.land (u32 (esi + 0x00000fff)) 0xfffff000).

(** ** Checksum *)

Definition update_checksum : pprog unit :=
  size <- rom_ld 1 romheader_size ;;
  bl <- gets (fun s => segment_sum (loop_count (u16 (Z.shiftl size 9))) cs 0 0 (p_mem s)) ;;
  c <- rom_ld 1 (checksum r) ;;
  rom_st 1 (checksum r) (u8 (c - bl)).

(** ** Copy *)

(** REP MOVSB between segments; SI and DI wrap around. *)
Fixpoint segment_copy (n : nat) (si di gs : Z) (m : mem) : mem :=
  match n with
  | O => m
  | S n => segment_copy n (u16 (si + 1)) (u16 (di + 1)) gs (store (linear gs di) [m (linear cs si)] m)
  end.

(** Copy to the final location. *)
Definition copy_to_runtime (gs : Z) : pprog unit :=
  size <- rom_ld 1 romheader_size ;;
  (* Print runtime segment address *)
  character 0x20 ;;
  hex_word gs ;;
  (* Fail if we have insufficient space in final location *)
  runtime_length <- rom_ld 2 (pciheader_runtime_length r) ;;
  cx <- (if (gs =? cs) || (size <=? runtime_length) then ret size else character 0x21 ;; ret 0) ;;
  let cx := u16 (Z.shiftl cx 9) in
  modify (fun s => set_p_mem (segment_copy (Z.to_nat cx) 0 0 gs (p_mem s)) s).

(** ** Prompt *)

(** INT 16,01: the next key, if there is one, which stays in the buffer; INT
    16,00: the next key, removed from it. *)
Context (int16_01 : pprog (option Z)) (int16_00 : pprog Z).
(** STI and HLT: interrupts happen. *)
Context (sti_hlt : pprog unit).

Definition timer_tick : Z := linear 0x40 0x6c.

Definition wait_for_tick (fuel : nat) : pprog unit :=
  eax <- gets (fun s => ld32 timer_tick (p_mem s)) ;;
  iterate fuel (fun _ =>
    sti_hlt ;;
    now <- gets (fun s => ld32 timer_tick (p_mem s)) ;;
    ret (if now =? eax then inl tt else inr tt)) tt.

(** ZF: the key BL was pressed, when masked by BH.  [fuel]: the keys in the
    buffer, and the interrupts between two ticks. *)
Definition wait_for_key (fuel : nat) (bh bl : Z) : pprog bool :=
  (* Empty the keyboard buffer before waiting for input *)
  iterate fuel (fun _ =>
    key <- int16_01 ;;
    match key with
    | None => ret (inr tt)
    | Some _ => int16_00 ;; ret (inl tt)
    end) tt ;;
  (* Wait for a key press *)
  iterate (S (Z.to_nat ROM_BANNER_TIMEOUT_TICKS)) (fun cx =>
    let cx := cx - 1 in
    if cx <? 0 then ret (inr false) else
    (* Wait for timer tick to be updated *)
    wait_for_tick fuel ;;
    (* Check to see if a key was pressed *)
    key <- int16_01 ;;
    match key with
    | None => ret (inl cx)
    | Some al =>
        (* Check to see if key was the specified key *)
        if Z.land al bh =? bl then ret (inr true) else
        (* Not the specified key: remove from buffer and stop waiting *)
        int16_00 ;; ret (inr false)
    end) ROM_BANNER_TIMEOUT_TICKS.

(** ** Execution *)

Context (_text16_memsz_ppgh _data16_memsz_ppgh : Z).
(** The parameters of the installation, and the main program in its segments,
    which is told the PCI bus:dev.fn address; the result is the count of
    interrupts that are still hooked. *)
Context (l : layout) (install_death_message : Z).
Context (access_highmem : pprog bool) (int15_88 : pprog Z) (init_librm : Z -> pprog unit).
Context (relocate : Z -> pprog (Z * Z * Z)) (memmap_post : Z).
Context (run_main : Z -> Z -> Z -> pprog Z).

(** The BIOS stack is not corrupted in the model. *)
Definition exec (fuel : nat) (ebp : Z) : pprog unit :=
  (* Print message as soon as possible *)
  message (prodstr r) ;;
  message (exec_message_pre_install r) ;;
  (* Install iPXE *)
  let! (ax, bx) := on_mem (alloc_basemem _text16_memsz_ppgh _data16_memsz_ppgh) in
  esi <- rom_ld 4 (image_source r) ;;
  edi <- rom_ld 4 (decompress_to r) ;;
  install_prealloc l install_death_message access_highmem int15_88 init_librm relocate memmap_post fuel
    cs ax bx esi edi ebp ;;
  message (exec_message_post_install r) ;;
  (* Retrieve PCI bus:dev.fn *)
  busdevfn <- rom_ld 2 (init_pci_busdevfn r) ;;
  (* Run iPXE *)
  hooked <- run_main ax bx busdevfn ;;
  (* Uninstall iPXE *)
  on_mem (uninstall _text16_memsz_ppgh _data16_memsz_ppgh ax 0 hooked) ;;
  ret tt.

Definition bev_entry (fuel : nat) : pprog unit := exec fuel 0xffffffff.

(** ** Initialisation *)

(** The start of [init], given AX and BX: the PCI bus:dev.fn address and the
    runtime segment.  The result is the runtime segment. *)
Definition init_pci (ax bx : Z) : pprog Z :=
  (* Print message as early as possible *)
  message (init_message r) ;;
  (* Store PCI bus:dev.fn address, print it, and add it to product name string *)
  character 0x20 ;;
  rom_st 2 (init_pci_busdevfn r) ax ;;
  print_pci_busdevfn cs ax 0 ;;
  print_pci_busdevfn cs ax (prodstr_pci_id r) ;;
  rom_st 1 (prodstr_separator r) 0x20 ;;
  (* Print segment address *)
  character 0x20 ;;
  hex_word cs ;;
  (* Check for PCI BIOS version *)
  pci_runtime_segment bx.

(** The prompt for the shell during POST, on the first function of a device. *)
Definition init_prompt (fuel : nat) : pprog unit :=
  busdevfn <- rom_ld 1 (init_pci_busdevfn r) ;;
  when (Z.land busdevfn PCI_FUNC_MASK =? 0)
    (message (init_message_prompt r) ;;
     message (prodstr r) ;;
     message (init_message_dots r) ;;
     (* Wait for Ctrl-B *)
     zf <- wait_for_key fuel 0xff 0x02 ;;
     (* Clear prompt *)
     print_kill_line cs 0 ;;
     message (init_message_done r) ;;
     (* Ctrl-B was pressed: invoke iPXE *)
     when zf (exec fuel 0)).

(** AX: boot capability, for the PnP BIOS. *)
Definition init (fuel : nat) (ax bx : Z) : pprog Z :=
  gs <- init_pci ax bx ;;
  (* Check for PnP BIOS *)
  pnp <- pnp_scan ;;
  when (bool_decide (is_Some pnp)) (message (init_message_pnp r)) ;;
  (* Check for PMM *)
  pmm <- pmm_scan ;;
  match pmm with Some es => use_pmm fuel es | None => ret tt end ;;
  update_checksum ;;
  (* Copy self to option ROM space *)
  copy_to_runtime gs ;;
  init_prompt fuel ;;
  character 0x0a ;;
  ret 0x20.
End romprefix.
