(* ===== verification/RomprefixSpec.v ===== *)
(** * RomprefixSpec

    The option ROM: the structures of the BIOS that it finds, the blocks that it
    takes from PMM, and the ROM that it leaves at its runtime segment, with a
    valid checksum. *)

From S2P Require Import Prelude.
From S2P Require Import Memory.
From S2P Require Import Cmem.
From S2P Require Import Unlzma.
From S2P Require Import Libprefix.
From S2P Require Import Romprefix.

(** ** Sums *)

Definition sum (l : list Z) : Z := fold_right Z.add 0 l.

Lemma sum_app l k : sum (l ++ k) = sum l + sum k.
Proof. induction l as [|x l IH]; cbn; [done|]. unfold sum in *. lia. Qed.

(** The loops add up the bytes of a segment, all of which they reach. *)
Lemma segment_sum_eq n segment m : forall si dl, 0 <= si -> si + Z.of_nat n <= 2 ^ 16 -> 0 <= dl < 256 ->
  segment_sum n segment si dl m = u8 (dl + sum (load n (linear segment si) m)).
Proof.
  induction n as [|n IH]; intros si dl Hs Hn Hd; [cbn; by rewrite Z.add_0_r, u8_small|].
  cbn [segment_sum]. rewrite load_S. cbn [sum fold_right]. fold (sum (load n (linear segment si + 1) m)).
  destruct n as [|n].
  { cbn. rewrite Z.add_0_r. done. }
  rewrite (u16_small (si + 1)), IH by (lia || apply u8_range).
  replace (linear segment (si + 1)) with (linear segment si + 1) by (unfold linear; lia).
  unfold u8. rewrite Z.add_mod_idemp_l by lia. f_equal. lia.
Qed.

(** ** Structures of the BIOS *)

(** The length in the structure says how many bytes its checksum covers. *)
Lemma structure_at_spec signature segment m : byte_mem m ->
  structure_at signature segment m = true <->
  ld32 (linear segment 0) m = signature /\
  sum (load (loop_count (m (linear segment 5))) (linear segment 0) m) mod 256 = 0.
Proof.
  intros Hm. unfold structure_at. rewrite andb_true_iff, !Z.eqb_eq.
  assert (Hc : Z.of_nat (loop_count (m (linear segment 5))) <= 2 ^ 16).
  { pose proof (Hm (linear segment 5)) as Hb. unfold is_byte in Hb. unfold loop_count.
    destruct (m (linear segment 5) =? 0); lia. }
  rewrite segment_sum_eq by lia. done.
Qed.

(** The scans find the first structure, and leave nothing out. *)
Theorem scan_correct signature first s : 0 < first < 0x10000 ->
  wp (scan signature first) (fun found s' => s' = s /\
    match found with
    | Some segment => first <= segment < 0x10000 /\ structure_at signature segment (p_mem s) = true /\
        forall x, first <= x < segment -> structure_at signature x (p_mem s) = false
    | None => forall x, first <= x < 0x10000 -> structure_at signature x (p_mem s) = false
    end) s.
Proof.
  intros Hf. unfold scan.
  enough (G : forall n bx, first <= bx <= 0x10000 -> Z.of_nat n = 0x10000 - bx + 1 ->
    (forall x, first <= x < bx -> structure_at signature x (p_mem s) = false) ->
    wp (iterate n (fun bx =>
      if bx =? 0 then ret (inr None) else
      found <- gets (fun s => structure_at signature bx (p_mem s)) ;;
      ret (if found then inr (Some bx) else inl (u16 (bx + 1)))) (u16 bx))
      (fun found s' => s' = s /\
        match found with
        | Some segment => first <= segment < 0x10000 /\ structure_at signature segment (p_mem s) = true /\
            forall x, first <= x < segment -> structure_at signature x (p_mem s) = false
        | None => forall x, first <= x < 0x10000 -> structure_at signature x (p_mem s) = false
        end) s).
  { rewrite <- (u16_small first) at 2 by lia. apply G; lia. }
  intros n. induction n as [|n IH]; intros bx Hbx Hn Hno; [lia|]. apply wp_iterate_S.
  destruct (Z.eq_dec bx 0x10000) as [->|Hlt].
  { change (u16 0x10000 =? 0) with true. cbn iota. wp_prim. split; [done|]. exact Hno. }
  rewrite (u16_small bx), (proj2 (Z.eqb_neq bx 0)) by lia. repeat wp_prim.
  destruct (structure_at signature bx (p_mem s)) eqn:E; cbn iota.
  - split; [done|]. split; [lia|]. done.
  - apply IH; [lia|lia|]. intros x Hx. destruct (Z.eq_dec x bx) as [->|]; [exact E|]. apply Hno. lia.
Qed.

(** ** Output *)

(** Messages to the console leave memory alone. *)
Lemma wp_print_console ds al s : wp (print_character ds al 0) (fun di s' => di = 0 /\ p_mem s' = p_mem s) s.
Proof. unfold print_character. cbn [Z.eqb negb]. wp_prim. destruct (al =? 10); by repeat wp_prim. Qed.

Lemma wp_console_bind {A} (p : Z -> pprog A) q s Q : wp q (fun di s' => di = 0 /\ p_mem s' = p_mem s) s ->
  (forall s', p_mem s' = p_mem s -> wp (p 0) Q s') -> wp (bind q p) Q s.
Proof. intros Hq Hp. wp_prim. eapply wp_mono; [exact Hq|]. intros di s' [-> E]. by apply Hp. Qed.

Lemma wp_print_hex_byte ds al s : wp (print_hex_byte ds al 0) (fun di s' => di = 0 /\ p_mem s' = p_mem s) s.
Proof.
  unfold print_hex_byte, print_hex_nibble. apply wp_console_bind; [apply wp_print_console|].
  intros s' <-. apply wp_print_console.
Qed.

Lemma wp_character {A} cs al (k : pprog A) s Q : (forall s', p_mem s' = p_mem s -> wp k Q s') ->
  wp (character cs al ;; k) Q s.
Proof.
  intros Hk. unfold character. do 2 wp_prim. eapply wp_mono; [apply wp_print_console|]. intros di s' [_ E].
  wp_prim. by apply Hk.
Qed.

Lemma wp_hex_word {A} cs ax (k : pprog A) s Q : (forall s', p_mem s' = p_mem s -> wp k Q s') ->
  wp (hex_word cs ax ;; k) Q s.
Proof.
  intros Hk. unfold hex_word, print_hex_word. do 2 wp_prim.
  apply wp_console_bind; [apply wp_print_hex_byte|]. intros s1 E1.
  eapply wp_mono; [apply wp_print_hex_byte|]. intros di s2 [_ E2]. wp_prim. apply Hk. congruence.
Qed.

Lemma wp_print_hex_dword ds eax s : wp (print_hex_dword ds eax 0) (fun di s' => di = 0 /\ p_mem s' = p_mem s) s.
Proof.
  unfold print_hex_dword, print_hex_word.
  apply wp_console_bind; [apply wp_console_bind; [apply wp_print_hex_byte|]|]; intros s1 E1; rewrite <- E1.
  - apply wp_print_hex_byte.
  - apply wp_console_bind; [apply wp_print_hex_byte|]. intros s2 <-. apply wp_print_hex_byte.
Qed.

(** ** The ROM at its runtime segment *)

(** The sum after one byte was changed. *)
Lemma sum_store n a k v m : (k < n)%nat ->
  sum (load n a (store (a + Z.of_nat k) (le_split 1 v) m)) = sum (load n a m) - m (a + Z.of_nat k) + v mod 256.
Proof.
  intros Hk. rewrite load_store_within by (rewrite length_le_split; lia). rewrite length_le_split.
  rewrite !sum_app, take_load, drop_load by lia.
  replace n with (k + S (n - (k + 1)))%nat at 2 by lia. rewrite load_app, load_S, sum_app.
  replace (a + Z.of_nat (k + 1)) with (a + Z.of_nat k + 1) by lia. cbn [le_split sum fold_right]. unfold sum. lia.
Qed.

Section runtime.
Context (r : rom) (cs : Z) (Hcs : 0 <= cs).

Definition rom_size (m : mem) : Z := m (linear cs romheader_size).

Lemma wp_update_checksum s : let m := p_mem s in let n := Z.to_nat (512 * rom_size m) in
  byte_mem m -> 1 <= rom_size m <= 128 -> 0 <= checksum r < 512 * rom_size m ->
  wp (update_checksum r cs) (fun _ s' => let m' := p_mem s' in
    byte_mem m' /\ sum (load n (linear cs 0) m') mod 256 = 0 /\
    mem_eq_except (linear cs (checksum r)) 1 m m') s.
Proof.
  intros m n Hm Hsize Hck. unfold update_checksum, rom_ld, rom_st. repeat wp_prim. fold m. cbn [p_mem set_p_mem].
  rewrite !load_1. fold (rom_size m).
  assert (Hcount : loop_count (u16 (Z.shiftl (rom_size m) 9)) = n).
  { rewrite Z.shiftl_mul_pow2 by lia. change (2 ^ 9) with 512. unfold loop_count, n.
    destruct (Z.eq_dec (rom_size m) 128) as [->|]; [done|]. rewrite u16_small by lia.
    rewrite (proj2 (Z.eqb_neq _ 0)) by lia. f_equal. lia. }
  rewrite Hcount, segment_sum_eq by lia. set (c := m (linear cs (checksum r))).
  set (v := u8 (c - u8 (0 + _))). split_and!.
  - apply byte_mem_store; [apply le_split_bytes|done].
  - replace (linear cs (checksum r)) with (linear cs 0 + Z.of_nat (Z.to_nat (checksum r))) by (unfold linear; lia).
    rewrite sum_store by lia. replace (linear cs 0 + Z.of_nat (Z.to_nat (checksum r))) with (linear cs (checksum r))
      by (unfold linear; lia). fold c. unfold v, u8. rewrite Z.add_0_l. dlia.
  - apply mem_eq_except_store; rewrite ?length_le_split; lia.
Qed.

Lemma store_self a m x : store a [m a] m x = m x.
Proof.
  unfold store. destruct (in_range a (Z.of_nat (length [m a])) x) eqn:E; [|done].
  apply in_range_spec in E. change (Z.of_nat (length [m a])) with 1 in E.
  replace x with a by lia. by rewrite Z.sub_diag.
Qed.

(** Copying a segment to itself, and to another place. *)
Lemma segment_copy_self n : forall si m, 0 <= si -> si + Z.of_nat n <= 2 ^ 16 ->
  forall x, segment_copy cs n si si cs m x = m x.
Proof.
  induction n as [|n IH]; intros si m Hs Hn x; cbn [segment_copy]; [done|]. destruct n as [|n].
  - apply store_self.
  - rewrite (u16_small (si + 1)) by lia. rewrite IH by lia. apply store_self.
Qed.

Lemma segment_copy_apart gs n : forall si m, 0 <= si -> si + Z.of_nat n <= 2 ^ 16 ->
  disjoint (linear cs si) (Z.of_nat n) (linear gs si) (Z.of_nat n) -> let m' := segment_copy cs n si si gs m in
  load n (linear gs si) m' = load n (linear cs si) m /\ mem_eq_except (linear gs si) (Z.of_nat n) m m'.
Proof.
  unfold disjoint, linear. induction n as [|n IH]; intros si m Hs Hn Hd; cbv zeta; cbn [segment_copy].
  { split; [done|apply mem_eq_except_refl]. }
  set (m1 := store _ _ m). assert (H1 : m1 (16 * gs + si) = m (16 * cs + si) /\ mem_eq_except (16 * gs + si) 1 m m1).
  { split; [|apply mem_eq_except_store; unfold linear; cbn [length]; lia]. unfold m1, store, linear.
    rewrite (proj2 (in_range_spec _ _ _)) by (cbn [length]; lia). by rewrite Z.sub_diag. }
  destruct H1 as [H1 H2]. destruct n as [|n].
  { cbn [segment_copy]. split; [|done]. rewrite !load_S. by rewrite H1. }
  rewrite (u16_small (si + 1)) by lia. destruct (IH (si + 1) m1 ltac:(lia) ltac:(lia) ltac:(lia)) as [H3 H4].
  set (m' := segment_copy _ _ _ _ _ _) in *. clearbody m'.
  replace (16 * gs + (si + 1)) with (16 * gs + si + 1) in * by lia. replace (16 * cs + (si + 1)) with (16 * cs + si + 1) in * by lia.
  rewrite (load_eq_except (S n) (16 * cs + si + 1) _ _ m m1 H2) in H3 by (unfold disjoint; lia).
  split.
  - rewrite (load_S (S n)), (load_S (S n)), H3. f_equal. rewrite <- H1. apply H4, in_range_false. lia.
  - eapply mem_eq_except_trans; eapply mem_eq_except_mono; [exact H2|lia|lia|exact H4|lia|lia].
Qed.


(** C39. A ROM of 64kB, whose length in bytes does not fit a register, is not copied to
    its runtime segment at all. *)
Theorem rom_64k_not_copied gs s : let m := p_mem s in
  rom_size m = 128 -> wp (copy_to_runtime r cs gs) (fun _ s' => p_mem s' = m) s.
Proof.
  intros m Hsize. unfold copy_to_runtime. unfold rom_ld at 1. do 2 wp_prim.
  apply wp_character. intros s2 E2. apply wp_hex_word. intros s3 E3. unfold rom_ld. do 2 wp_prim.
  rewrite load_1. fold m (rom_size m). rewrite Hsize. wp_prim.
  destruct (_ || _).
  - repeat wp_prim. change (Z.to_nat (u16 (Z.shiftl 128 9))) with O. cbn. unfold m. congruence.
  - apply wp_character. intros s4 E4. repeat wp_prim.
    change (Z.to_nat (u16 (Z.shiftl 0 9))) with O. cbn. unfold m. congruence.
Qed.
End runtime.

(** ** Blocks of PMM *)

(** The block for the image source is a multiple of 4kB and has room for the ROM
    and what comes with it. *)
Lemma image_source_fits size extra : 0 <= size < 256 -> 0 <= extra -> size + extra + 7 < 2 ^ 16 ->
  let paragraphs := image_source_size size extra in
  512 * (size + extra) <= 16 * paragraphs /\ (16 * paragraphs) mod 4096 = 0.
Proof.
  intros Hs He Hx. unfold image_source_size. rewrite (u16_small (size + extra)), u16_small by lia.
  replace 0xfff8 with (Z.shiftl (2 ^ 13 - 1) 3) by done. rewrite land_shiftl_mask, land_ones_mod by lia.
  rewrite Z.shiftr_div_pow2, !Z.shiftl_mul_pow2 by lia. change (2 ^ 3) with 8. change (2 ^ 5) with 32.
  change (2 ^ 13) with 8192. rewrite Z.mod_small by dlia. dlia.
Qed.

(** The decompression area is aligned within its block, and fits it. *)
Lemma decompress_area_fits r esi : 0 <= esi -> 0 <= _textdata_memsz_pgh r < 2 ^ 27 ->
  let size := 16 * decompress_to_size r in let area := Z.land (u32 (esi + 0x00000fff)) 0xfffff000 in
  esi + size < 2 ^ 32 ->
  esi <= area /\ area mod 4096 = 0 /\ area + 16 * _textdata_memsz_pgh r <= esi + size.
Proof.
  intros He Hm. unfold decompress_to_size.
  set (x := _textdata_memsz_pgh r) in *. rewrite (u32_small (x + _)) by lia.
  replace 0xffffe000 with (Z.shiftl (2 ^ 19 - 1) 13) by done. rewrite land_shiftl_mask, land_ones_mod by lia.
  rewrite Z.shiftr_div_pow2, !Z.shiftl_mul_pow2 by lia. change (2 ^ 13) with 8192. change (2 ^ 19) with 524288.
  rewrite (Z.mod_small ((x + _) / 8192)) by dlia. cbv zeta. intros Hend.
  assert (Hq : x + 256 <= (x + (256 + 8191)) / 8192 * 8192) by dlia.
  rewrite (u32_small (esi + 4095)) by lia.
  replace 0xfffff000 with (Z.shiftl (2 ^ 20 - 1) 12) by done. rewrite land_shiftl_mask, land_ones_mod by lia.
  rewrite Z.shiftr_div_pow2, !Z.shiftl_mul_pow2 by lia. change (2 ^ 12) with 4096. change (2 ^ 20) with 1048576.
  rewrite (Z.mod_small ((esi + 4095) / 4096)) by dlia. set (q := (x + _) / 8192 * 8192) in *. clearbody q. dlia.
Qed.

Section pmm.
Context (cs : Z) (pmm_find : Z -> Z -> pprog Z) (pmm_allocate : Z -> Z -> Z -> Z -> pprog Z).

(** A block that PMM reports for a handle: zero and all ones mean none. *)
Definition no_block (esi : Z) : bool := (u32 (esi + 1) =? 0) || (esi =? 0).

(** What [get_pmm] returns when the first [n] handles belong to blocks of others:
    the block of the next handle if it is acceptable, or a new one with that
    handle. *)
Lemma get_pmm_correct (found : Z -> Z) (acceptable : Z -> pprog bool) (ok : Z -> bool) (block : Z) es ecx :
  (forall h s, wp (pmm_find es h) (fun esi s' => esi = found h /\ s' = s) s) ->
  (forall esi s, wp (acceptable esi) (fun cf s' => cf = negb (ok esi) /\ s' = s) s) ->
  (forall h s, wp (pmm_allocate es ecx h 2) (fun esi s' => esi = block /\ p_mem s' = p_mem s) s) ->
  forall n fuel ebx s, (n < fuel)%nat -> 0 <= ebx -> ebx + Z.of_nat n < 2 ^ 32 ->
  (forall i, (i < n)%nat -> no_block (found (ebx + Z.of_nat i)) = false /\ ok (found (ebx + Z.of_nat i)) = false) ->
  let handle := ebx + Z.of_nat n in let esi := found handle in
  no_block esi = true \/ ok esi = true ->
  wp (get_pmm cs pmm_find pmm_allocate fuel es ecx ebx acceptable) (fun out s' => p_mem s' = p_mem s /\
    out = (handle, if no_block esi then if u32 (block + 1) =? 0 then 0 else block else esi)) s.
Proof.
  intros Hfind Hacc Halloc n fuel ebx s Hn H0 Hx Hskip handle esi Hlast. unfold get_pmm. wp_prim.
  assert (G : forall k fuel ebx, (k < fuel)%nat -> 0 <= ebx -> ebx + Z.of_nat k = handle ->
    (forall i, (i < k)%nat -> no_block (found (ebx + Z.of_nat i)) = false /\ ok (found (ebx + Z.of_nat i)) = false) ->
    wp (iterate fuel (fun ebx =>
      esi <- pmm_find es ebx ;;
      if (u32 (esi + 1) =? 0) || (esi =? 0) then
        esi <- pmm_allocate es ecx ebx 0x0002 ;; ret (inr (ebx, esi, 0x2b))
      else cf <- acceptable esi ;; ret (if negb cf then inr (ebx, esi, 0x20) else inl (u32 (ebx + 1)))) ebx)
    (fun '(h, a, _) s' => p_mem s' = p_mem s /\ h = handle /\ a = if no_block esi then block else esi) s).
  { intros k. induction k as [|k IH]; intros fl b Hf Hb Hk Hs;
      (destruct fl as [|fl]; [lia|]); apply wp_iterate_S; wp_prim;
      (eapply wp_mono; [apply Hfind|]); intros a s1 [-> ->]; fold (no_block (found b)).
    - replace b with handle by lia. change (found handle) with esi. destruct (no_block esi) eqn:E.
      + wp_prim. eapply wp_mono; [apply Halloc|]. intros a s2 [-> E2]. wp_prim. done.
      + destruct Hlast as [|Hok]; [congruence|]. wp_prim. eapply wp_mono; [apply Hacc|].
        intros cf s2 [-> ->]. wp_prim. rewrite Hok. done.
    - destruct (Hs 0%nat ltac:(lia)) as [H1 H2]. rewrite Z.add_0_r in H1, H2. rewrite H1. wp_prim.
      eapply wp_mono; [apply Hacc|]. intros cf s2 [-> ->]. wp_prim. rewrite H2. cbn [negb].
      rewrite u32_small by lia. apply IH; [lia|lia|lia|]. intros i Hi.
      replace (b + 1 + Z.of_nat i) with (b + Z.of_nat (S i)) by lia. apply Hs. lia. }
  eapply wp_mono; [apply (G n); try done; lia|]. intros [[h a] di] s1 (E1 & -> & ->).
  apply wp_character. intros s2 E2. wp_prim. eapply wp_mono; [apply wp_print_hex_dword|].
  intros d s3 [_ E3]. wp_prim. split; [congruence|]. f_equal.
  destruct (no_block esi) eqn:E; [done|]. unfold no_block in E. apply orb_false_iff in E as [-> _]. done.
Qed.
End pmm.
