(* ===== verification/Cstring.v ===== *)
(** * Cstring

    The string routines of the C library that the URI code uses: character
    classes (include/ctype.h, core/ctype.c), searching, comparison and number
    parsing (core/string.c), and directory names (core/basename.c).

    A string is the list of its bytes without the terminating NUL; a pointer
    into it is an index. *)

From stdpp Require Import strings.
From S2P Require Import Prelude.
From S2P Require Import World.

(** ** Characters *)

(** A byte as a [char], which is signed on x86, promoted to [int]. *)
Definition schar (c : Z) : Z := if c <? 128 then c else c - 256.

Definition isdigit (c : Z) : bool := (0x30 <=? c) && (c <=? 0x39).
Definition isupper (c : Z) : bool := (0x41 <=? c) && (c <=? 0x5a).
Definition islower (c : Z) : bool := (0x61 <=? c) && (c <=? 0x7a).
Definition isalpha (c : Z) : bool := isupper c || islower c.
Definition isprint (c : Z) : bool := (0x20 <=? c) && (c <=? 0x7e).
Definition isspace (c : Z) : bool :=
  (c =? 0x20) || (c =? 0xc) || (c =? 0xa) || (c =? 0xd) || (c =? 0x9) || (c =? 0xb).
Definition toupper (c : Z) : Z := if islower c then c - 0x61 + 0x41 else c.

(** ** Searching and comparison *)

(** The byte at index [i]: the terminator after the last one. *)
Definition char_at (s : cstring) (i : nat) : Z := nth i s 0.

Fixpoint strchr (src : cstring) (character : Z) : option nat :=
  match src with
  | [] => if character =? 0 then Some O else None
  | b :: src =>
      if b =? character then Some O else S <$> strchr src character
  end.

Fixpoint strrchr (src : cstring) (character : Z) : option nat :=
  match src with
  | [] => None
  | b :: src =>
      match strrchr src character with
      | Some n => Some (S n)
      | None => if b =? character then Some O else None
      end
  end.

Fixpoint strstr (haystack needle : cstring) : option nat :=
  match haystack with
  | [] => None
  | _ :: rest =>
      if bool_decide (take (length needle) haystack = needle) then Some O
      else S <$> strstr rest needle
  end.

Fixpoint strncmp (first second : cstring) (max : nat) : Z :=
  match max with
  | O => 0
  | S max =>
      let diff := char_at first 0 - char_at second 0 in
      if negb (diff =? 0) then diff
      else if char_at first 0 =? 0 then 0
      else strncmp (tail first) (tail second) max
  end.

Fixpoint strncasecmp (first second : cstring) (max : nat) : Z :=
  match max with
  | O => 0
  | S max =>
      let diff := toupper (char_at first 0) - toupper (char_at second 0) in
      if negb (diff =? 0) then diff
      else if char_at first 0 =? 0 then 0
      else strncasecmp (tail first) (tail second) max
  end.

(** The comparison stops at the latest at the terminator of the first
    string, before the maximum of 2^32 - 1 characters. *)
Definition strcasecmp (first second : cstring) : Z :=
  strncasecmp first second (S (length first)).

(** ** Numbers *)

Definition digit_value (character : Z) : Z :=
  if 0x61 <=? character then character - (0x61 - 10)
  else if 0x41 <=? character then character - (0x41 - 10)
  else if character <=? 0x39 then u32 (character - 0x30)
  else character.

Fixpoint skip_spaces (s : cstring) : cstring :=
  match s with
  | c :: rest => if isspace (schar c) then skip_spaces rest else s
  | [] => []
  end.

(** The rest of the string, whether to negate, and the base. *)
Definition strtoul_pre (s : cstring) (base : Z) : cstring * bool * Z :=
  (* Skip any leading whitespace *)
  let s := skip_spaces s in
  (* Process arithmetic sign, if present *)
  let '(s, negate) :=
    if char_at s 0 =? 0x2d then (tail s, true)
    else if char_at s 0 =? 0x2b then (tail s, false)
    else (s, false) in
  (* Process base, if present *)
  if negb (base =? 0) then (s, negate, base) else
  if char_at s 0 =? 0x30 then
    let s := tail s in
    if Z.land (char_at s 0) (Z.lnot 0x20) =? 0x58
    then (tail s, negate, 16) else (s, negate, 8)
  else (s, negate, 10).

Fixpoint strtoul_digits (s : cstring) (base value : Z) : Z * cstring :=
  match s with
  | [] => (value, [])
  | c :: rest =>
      let digit := digit_value (u32 (schar c)) in
      if base <=? digit then (value, s)
      else strtoul_digits rest base (u32 (u32 (value * base) + digit))
  end.

(** The value and the rest of the string. *)
Definition strtoul (s : cstring) (base : Z) : Z * cstring :=
  let '(s, negate, base) := strtoul_pre s base in
  let '(value, s) := strtoul_digits s base 0 in
  (if negate then u32 (- value) else value, s).

(** ** Directory names *)

Definition dirname (path : cstring) : cstring :=
  match strrchr path 0x2f with
  | Some O => cs "/"
  | Some n => take n path
  | None => cs "."
  end.

(** ** Properties of all characters *)

(** A property of all the characters in a range can be checked by
    evaluation. *)
Lemma chars_checked (lo hi : Z) (P : Z -> bool) :
  forallb P ((fun i => lo + Z.of_nat i) <$> seq 0 (Z.to_nat (hi - lo))) = true ->
  forall c, lo <= c < hi -> P c = true.
Proof.
  intros H c Hc. rewrite forallb_forall in H. apply H.
  apply list_elem_of_In, list_elem_of_fmap. exists (Z.to_nat (c - lo)).
  split; [lia|]. apply elem_of_seq. lia.
Qed.

