(* ===== verification/Printf.v ===== *)
(** * Printf

    Formatted printing, from core/vsprintf.c, as compiled for i386: the
    arguments are the 32-bit words of the stack, and a string argument is a
    pointer into memory.  What C leaves undefined is [None]: running off the
    end of the format, the arguments or the temporary buffer, and overflow of
    signed numbers. *)

From stdpp Require Import strings.
From S2P Require Import Prelude.
From S2P Require Import World.
From S2P Require Import Cstring.

Definition CHAR_LEN : Z := 0.
Definition SHORT_LEN : Z := 1.
Definition INT_LEN : Z := 2.
Definition LONG_LEN : Z := 3.
Definition LONGLONG_LEN : Z := 4.
Definition SIZE_T_LEN : Z := 5.

Definition type_sizes : list Z := [1; 2; 4; 4; 8; 4].

Definition LCASE : Z := 0x20.
Definition ALT_FORM : Z := 0x02.
Definition ZPAD : Z := 0x10.

(** The loop that generates the digits, in front of those in [acc]; 16 rounds
    shift all of a 64-bit number out. *)
Fixpoint hex_digits (n : nat) (num case_mod : Z) (acc : list Z) : list Z :=
  match n with
  | O => acc
  | S n =>
      let digit := Z.lor (char_at (cs "0123456789ABCDEF") (Z.to_nat (Z.land num 0xf)))
                     case_mod in
      let num := Z.shiftr num 4 in
      if num =? 0 then digit :: acc else hex_digits n num case_mod (digit :: acc)
  end.

Definition format_hex (num : Z) (width : nat) (flags : Z) : list Z :=
  let case_mod := Z.land flags LCASE in
  let pad := Z.lor (Z.land flags ZPAD) 0x20 in
  let digits := hex_digits 16 num case_mod [] in
  let padded := repeat pad (width - length digits) ++ digits in
  if bool_of_Z (Z.land flags ALT_FORM)
  then 0x30 :: Z.lor 0x58 case_mod :: padded else padded.

(** The digits of a number that is not negative, in front of those in [acc];
    ten rounds are enough for 32 bits. *)
Fixpoint decimal_digits (n : nat) (num : Z) (acc : list Z) : list Z :=
  match n with
  | O => acc
  | S n =>
      let digit := 0x30 + num mod 10 in
      let num := num / 10 in
      if num =? 0 then digit :: acc else decimal_digits n num (digit :: acc)
  end.

Definition format_decimal (num : Z) (width : nat) (flags : Z) : option (list Z) :=
  let negative := num <? 0 in
  let zpad := bool_of_Z (Z.land flags ZPAD) in
  let pad := Z.lor (Z.land flags ZPAD) 0x20 in
  (* Generate the number *)
  if num =? - 2 ^ 31 then None else
  let digits := decimal_digits 10 (Z.abs num) [] in
  (* Add "-" if necessary *)
  let digits := if negative && negb zpad then 0x2d :: digits else digits in
  (* Pad to width *)
  let padded := repeat pad (width - length digits) ++ digits in
  (* Add "-" if necessary *)
  Some (if negative && zpad then <[O := 0x2d]> padded else padded).

(** Flag characters, field width and length modifier: the rest of the format
    and the value. *)
Fixpoint printf_flags (fmt : cstring) (flags : Z) : cstring * Z :=
  match fmt with
  | c :: rest =>
      if c =? 0x23 then printf_flags rest (Z.lor flags ALT_FORM)
      else if c =? 0x30 then printf_flags rest (Z.lor flags ZPAD)
      else (fmt, flags)
  | [] => ([], flags)
  end.

Fixpoint printf_width (fmt : cstring) (width : Z) : option (cstring * Z) :=
  if 2 ^ 31 <=? width then None else
  match fmt with
  | c :: rest =>
      if u32 (schar c - 0x30) <? 10
      then printf_width rest (width * 10 + (c - 0x30))
      else Some (fmt, width)
  | [] => Some ([], width)
  end.

Fixpoint printf_length (fmt : cstring) (length : Z) : cstring * Z :=
  match fmt with
  | c :: rest =>
      if c =? 0x68 then printf_length rest (length - 1)
      else if c =? 0x6c then printf_length rest (length + 1)
      else if c =? 0x7a then printf_length rest SIZE_T_LEN
      else (fmt, length)
  | [] => ([], length)
  end.

(** [va_arg] of a word, and of a long long. *)
Definition va_word (args : list Z) : option (Z * list Z) :=
  match args with w :: args => Some (w, args) | [] => None end.
Definition va_long_long (args : list Z) : option (Z * list Z) :=
  match args with lo :: hi :: args => Some (lo + 2 ^ 32 * hi, args) | _ => None end.

(** A number in the temporary buffer of 32 bytes, the last of which holds the
    terminator. *)
Definition tmp_buf (s : list Z) : option (list Z) :=
  if (length s <=? 31)%nat then Some s else None.

Section vcprintf.
(** The strings and wide strings that pointers point to. *)
Context (strings : Z -> cstring) (wide_strings : Z -> list Z).

(** The text of the conversion specifier [c], and the arguments left. *)
Definition convert (c flags width length : Z) (args : list Z)
    : option (list Z * list Z) :=
  let width := Z.to_nat width in
  if c =? 0x63 then
    '(w, args) ← va_word args;
    if length <? LONG_LEN then Some ([u8 w], args)
    else Some (if u8 w =? 0 then [] else [u8 w], args)
  else if c =? 0x73 then
    '(p, args) ← va_word args;
    if p =? 0 then Some (cs "<NULL>", args)
    else if length <? LONG_LEN then Some (strings p, args)
    else Some (map u8 (wide_strings p), args)
  else if c =? 0x70 then
    '(p, args) ← va_word args;
    s ← tmp_buf (format_hex p width (Z.lor ALT_FORM LCASE));
    Some (s, args)
  else if Z.land c (Z.lnot 0x20) =? 0x58 then
    let flags := Z.lor flags (Z.land c 0x20) in
    size ← (if length <? 0 then None else type_sizes !! Z.to_nat length);
    '(hex, args) ← (if 8 <=? size then va_long_long args else va_word args);
    s ← tmp_buf (format_hex hex width flags);
    Some (s, args)
  else if (c =? 0x64) || (c =? 0x69) then
    size ← (if length <? 0 then None else type_sizes !! Z.to_nat length);
    '(w, args) ← va_word args;
    decimal ← format_decimal (s32 w) width flags;
    s ← tmp_buf decimal;
    Some (s, args)
  else Some ([c], args).

(** The loop over the format, of which every round takes a character. *)
Fixpoint vcprintf_loop (n : nat) (fmt : cstring) (args : list Z) : option (list Z) :=
  match n, fmt with
  | _, [] => Some []
  | O, _ => None
  | S n, c :: rest =>
      (* Pass through ordinary characters *)
      if negb (c =? 0x25) then cons c <$> vcprintf_loop n rest args else
      let '(rest, flags) := printf_flags rest 0 in
      '(rest, width) ← printf_width rest 0;
      let '(rest, length) := printf_length rest INT_LEN in
      (* Process conversion specifier *)
      match rest with
      | [] => None
      | c :: rest =>
          '(text, args) ← convert c flags width length args;
          app text <$> vcprintf_loop n rest args
      end
  end.

Definition vcprintf (fmt : cstring) (args : list Z) : option (list Z) :=
  vcprintf_loop (length fmt) fmt args.
End vcprintf.

(** Write the text that [vcprintf] produces to the [size] bytes of [buf] from [pos] on, as
    much of it as fits, with a terminator; the result is the length of the
    whole text. *)
Definition vsnprintf (buf : list Z) (pos : nat) (size : nat) (text : list Z)
    : list Z * nat :=
  (let buf := list_inserts pos (take size text) buf in
   match size with
   | O => buf
   | S last => <[(pos + Nat.min last (length text))%nat := 0]> buf
   end, length text).
