(* ===== verification/PrintfSpec.v ===== *)
(** * PrintfSpec

    Formatted printing: numbers are read back by [strtoul], and a format is
    printed as the concatenation of its directives. *)

From stdpp Require Import strings.
From S2P Require Import Prelude.
From S2P Require Import World.
From S2P Require Import Cstring.
From S2P Require Import Printf.

(** ** Hexadecimal numbers *)

Definition hex_digit (d case_mod : Z) : Z :=
  Z.lor (char_at (cs "0123456789ABCDEF") (Z.to_nat d)) case_mod.

(** A digit is read back, and is neither white space nor a sign. *)
Definition digit_checked (c d : Z) : bool :=
  (digit_value (u32 (schar c)) =? d) && negb (isspace (schar c)) &&
  negb (c =? 0x2d) && negb (c =? 0x2b).

Lemma hex_digit_checked d case_mod :
  0 <= d < 16 -> case_mod = 0 \/ case_mod = LCASE ->
  digit_checked (hex_digit d case_mod) d = true.
Proof.
  intros Hd [->| ->].
  - exact (chars_checked 0 16 (fun d => digit_checked (hex_digit d 0) d)
             ltac:(vm_compute; reflexivity) d Hd).
  - exact (chars_checked 0 16 (fun d => digit_checked (hex_digit d LCASE) d)
             ltac:(vm_compute; reflexivity) d Hd).
Qed.

(** [strtoul] on a string of checked digits. *)
Lemma strtoul_digit c d s base v :
  digit_checked c d = true -> d < base ->
  strtoul_digits (c :: s) base v = strtoul_digits s base (u32 (u32 (v * base) + d)).
Proof.
  intros Hc Hd. unfold digit_checked in Hc. rewrite !andb_true_iff, Z.eqb_eq in Hc.
  destruct Hc as [[[Hc _] _] _]. cbn [strtoul_digits]. rewrite Hc.
  by rewrite (proj2 (Z.leb_gt base d)) by lia.
Qed.

Lemma hex_digits_value n num case_mod acc :
  0 <= num < 2 ^ 32 -> num < 16 ^ Z.of_nat n -> (0 < n)%nat ->
  case_mod = 0 \/ case_mod = LCASE ->
  strtoul_digits (hex_digits n num case_mod acc) 16 0 = strtoul_digits acc 16 num.
Proof.
  intros Hnum Hn Hpos Hcm. revert num acc Hnum Hn.
  induction n as [|n IH]; intros num acc Hnum Hn; [lia|]. cbn [hex_digits].
  change 0xf with (2 ^ 4 - 1). rewrite land_ones_mod, Z.shiftr_div_pow2 by lia.
  change (2 ^ 4) with 16.
  pose proof (Z.mod_pos_bound num 16 ltac:(lia)) as Hd.
  pose proof (hex_digit_checked (num mod 16) case_mod ltac:(lia) Hcm) as Hc. unfold hex_digit in Hc.
  destruct (Z.eqb_spec (num / 16) 0) as [E|E].
  - rewrite (strtoul_digit _ _ _ _ _ Hc) by lia. f_equal. rewrite (u32_small (0 * 16)), u32_small by lia.
    dlia.
  - destruct n as [|n]; [change (16 ^ Z.of_nat 1) with 16 in Hn; dlia|].
    rewrite Nat2Z.inj_succ, Z.pow_succ_r in Hn by lia.
    rewrite IH; [|lia|dlia|dlia]. rewrite (strtoul_digit _ _ _ _ _ Hc) by lia. f_equal.
    rewrite (u32_small (num / 16 * 16)) by dlia. rewrite u32_small by dlia. dlia.
Qed.

(** A number starts with a digit. *)
Definition starts_with_digit (s : cstring) : Prop :=
  exists c d rest, s = c :: rest /\ digit_checked c d = true.

Lemma hex_digits_head n num case_mod acc :
  (0 < n)%nat -> 0 <= num -> case_mod = 0 \/ case_mod = LCASE ->
  starts_with_digit (hex_digits n num case_mod acc).
Proof.
  intros Hn Hnum Hcm. revert num acc Hnum. induction n as [|n IH]; [lia|]; intros num acc Hnum.
  cbn [hex_digits]. change 0xf with (2 ^ 4 - 1). rewrite land_ones_mod by lia.
  pose proof (hex_digit_checked (num mod 2 ^ 4) case_mod ltac:(dlia) Hcm) as Hc.
  destruct (Z.shiftr num 4 =? 0); [by eexists _, _, _|].
  destruct n as [|n]; [by eexists _, _, _|].
  apply IH; [lia|]. rewrite Z.shiftr_div_pow2 by lia. dlia.
Qed.

Lemma pre_digit s base :
  starts_with_digit s -> base <> 0 -> strtoul_pre s base = (s, false, base).
Proof.
  intros (c & d & rest & -> & Hc) Hb. unfold digit_checked in Hc.
  rewrite !andb_true_iff, !negb_true_iff in Hc. destruct Hc as [[[_ Hs] Hm] Hp].
  unfold strtoul_pre. cbn [skip_spaces]. rewrite Hs. change (char_at (c :: rest) 0) with c.
  rewrite Hm, Hp. by rewrite (proj2 (Z.eqb_neq base 0) Hb).
Qed.

(** Padding does not change the number. *)
Lemma strtoul_padded pad k s base v :
  pad = 0x20 \/ pad = 0x30 -> starts_with_digit s -> 0 < base ->
  strtoul_digits s base 0 = (v, []) -> strtoul (repeat pad k ++ s) base = (v, []).
Proof.
  intros Hpad Hs Hb Hv. unfold strtoul.
  assert (E : exists k', strtoul_pre (repeat pad k ++ s) base = (repeat 0x30 k' ++ s, false, base)).
  { destruct Hpad as [->| ->].
    - exists O. induction k as [|k IH]; [apply pre_digit; [done|lia]|exact IH].
    - exists k. apply pre_digit; [|lia]. destruct k; [exact Hs|]. by eexists _, 0, _. }
  destruct E as [k' ->].
  replace (strtoul_digits (repeat 0x30 k' ++ s) base 0) with (strtoul_digits s base 0);
    [by rewrite Hv|].
  induction k' as [|k' IH]; [done|]. cbn [repeat app].
  rewrite (strtoul_digit 0x30 0) by (done || lia). exact IH.
Qed.

(** The parts of a formatted number that depend on the flags. *)
Lemma case_mod_cases flags : Z.land flags LCASE = 0 \/ Z.land flags LCASE = LCASE.
Proof. change LCASE with (2 ^ 5). rewrite land_pow2 by lia. destruct (Z.testbit flags 5); auto. Qed.

Lemma pad_cases flags :
  Z.lor (Z.land flags ZPAD) 0x20 = 0x20 \/ Z.lor (Z.land flags ZPAD) 0x20 = 0x30.
Proof.
  change ZPAD with (2 ^ 4). rewrite land_pow2 by lia. destruct (Z.testbit flags 4); auto.
Qed.

Lemma format_hex_padded n w flags :
  0 <= n < 2 ^ 32 -> Z.land flags ALT_FORM = 0 ->
  strtoul (format_hex n w flags) 16 = (n, []).
Proof.
  intros Hn Halt. unfold format_hex. rewrite Halt. cbn [bool_of_Z Z.eqb negb].
  apply strtoul_padded; [apply pad_cases| |lia|].
  - apply hex_digits_head; [lia|lia|apply case_mod_cases].
  - rewrite hex_digits_value; [done|lia|lia|lia|apply case_mod_cases].
Qed.

(** Hexadecimal numbers are read back: what [format_hex] prints of a
    32-bit number, whatever the width, padding and case, [strtoul] converts to
    that number with nothing left over; with a 0x prefix it detects the base
    itself, unless blanks have been put behind the prefix. *)
Theorem format_hex_strtoul n w flags :
  0 <= n < 2 ^ 32 ->
  (Z.land flags ALT_FORM = 0 -> strtoul (format_hex n w flags) 16 = (n, [])) /\
  (Z.land flags ALT_FORM <> 0 -> Z.land flags ZPAD <> 0 \/ w = O ->
   strtoul (format_hex n w flags) 0 = (n, [])).
Proof.
  intros Hn. split; [by apply format_hex_padded|]. intros Halt Hpad.
  pose proof (case_mod_cases flags) as Hcm.
  assert (Hd : strtoul_digits (hex_digits 16 n (Z.land flags LCASE) []) 16 0 = (n, []))
    by (rewrite hex_digits_value; [done|lia|lia|lia|exact Hcm]).
  pose proof (hex_digits_head 16 n (Z.land flags LCASE) [] ltac:(lia) ltac:(lia) Hcm) as Hh.
  unfold format_hex, bool_of_Z. rewrite (proj2 (Z.eqb_neq _ _) Halt). cbn [negb].
  set (digits := hex_digits _ _ _ _) in *. set (pad := Z.lor (Z.land flags ZPAD) 0x20).
  assert (Ez : strtoul_digits (repeat pad (w - length digits) ++ digits) 16 0 = (n, [])).
  { destruct Hpad as [Hz| ->]; [|exact Hd]. unfold pad. change ZPAD with (2 ^ 4) in *.
    rewrite land_pow2 in * by lia. destruct (Z.testbit flags 4); [|done].
    change (Z.lor (2 ^ 4) 0x20) with 0x30. clear Hz.
    induction (w - length digits)%nat as [|k IH]; [exact Hd|]. cbn [repeat app].
    rewrite (strtoul_digit 0x30 0) by (done || lia). exact IH. }
  set (s := repeat pad _ ++ digits) in *. clearbody s. unfold strtoul, strtoul_pre.
  destruct Hcm as [-> | ->]; cbn -[strtoul_digits];
    change (Z.land (Z.lor 88 _) (Z.lnot 32) =? 88) with true; cbv iota; by rewrite Ez.
Qed.

(** ** Decimal numbers *)

Lemma decimal_digit_checked d : 0 <= d < 10 -> digit_checked (0x30 + d) d = true.
Proof.
  exact (chars_checked 0 10 (fun d => digit_checked (0x30 + d) d)
           ltac:(vm_compute; reflexivity) d).
Qed.

Lemma decimal_digits_value n num acc :
  0 <= num < 2 ^ 32 -> num < 10 ^ Z.of_nat n -> (0 < n)%nat ->
  strtoul_digits (decimal_digits n num acc) 10 0 = strtoul_digits acc 10 num.
Proof.
  intros Hnum Hn Hpos. revert num acc Hnum Hn.
  induction n as [|n IH]; intros num acc Hnum Hn; [lia|]. cbn [decimal_digits].
  pose proof (decimal_digit_checked (num mod 10) ltac:(dlia)) as Hc.
  destruct (Z.eqb_spec (num / 10) 0) as [E|E].
  - rewrite (strtoul_digit _ _ _ _ _ Hc) by dlia. f_equal.
    rewrite (u32_small (0 * 10)) by lia. rewrite u32_small by dlia. dlia.
  - destruct n as [|n]; [change (10 ^ Z.of_nat 1) with 10 in Hn; dlia|].
    rewrite Nat2Z.inj_succ, Z.pow_succ_r in Hn by lia.
    rewrite IH; [|lia|dlia|dlia]. rewrite (strtoul_digit _ _ _ _ _ Hc) by dlia. f_equal.
    rewrite (u32_small (num / 10 * 10)) by dlia. rewrite u32_small by dlia. dlia.
Qed.

Lemma decimal_digits_head n num acc :
  (0 < n)%nat -> starts_with_digit (decimal_digits n num acc).
Proof.
  intros Hn. revert num acc. induction n as [|n IH]; [lia|]; intros num acc. cbn [decimal_digits].
  pose proof (decimal_digit_checked (num mod 10) ltac:(dlia)) as Hc.
  destruct (num / 10 =? 0); [by eexists _, _, _|].
  destruct n as [|n]; [by eexists _, _, _|]. apply IH. lia.
Qed.

Lemma strtoul_negative k s v :
  strtoul_digits s 10 0 = (v, []) ->
  strtoul (repeat 0x20 k ++ 0x2d :: s) 10 = (u32 (- v), []).
Proof.
  intros Hs. unfold strtoul.
  replace (strtoul_pre _ 10) with (s, true, 10); [by rewrite Hs|].
  induction k as [|k IH]; [done|exact IH].
Qed.

Lemma strtoul_zeros k s v :
  strtoul_digits s 10 0 = (v, []) -> strtoul_digits (repeat 0x30 k ++ s) 10 0 = (v, []).
Proof.
  intros Hs. induction k as [|k IH]; [done|]. cbn [repeat app].
  rewrite (strtoul_digit 0x30 0) by (done || lia). exact IH.
Qed.

(** Decimal numbers are read back: what [format_decimal] prints of a
    number above INT_MIN, whatever the width and padding, [strtoul] converts to
    that number with nothing left over - except for a zero-padded negative
    number whose digits fill the width, whose first digit the sign
    overwrites. *)
Theorem format_decimal_strtoul num w flags :
  - 2 ^ 31 < num < 2 ^ 31 ->
  let digits := decimal_digits 10 (Z.abs num) [] in
  exists text, format_decimal num w flags = Some text /\
    if (num <? 0) && bool_of_Z (Z.land flags ZPAD) && (w <=? length digits)%nat
    then text = 0x2d :: tail digits
    else strtoul text 10 = (u32 num, []).
Proof.
  intros Hn digits.
  assert (Hd : strtoul_digits digits 10 0 = (Z.abs num, []))
    by (unfold digits; rewrite decimal_digits_value; [done|lia|lia|lia]).
  pose proof (decimal_digits_head 10 (Z.abs num) [] ltac:(lia)) as Hh. fold digits in Hh.
  unfold format_decimal. rewrite (proj2 (Z.eqb_neq num _)) by lia. fold digits. clearbody digits.
  change ZPAD with (2 ^ 4). rewrite bool_of_Z_land_pow2 by lia.
  eexists. split; [reflexivity|]. pose proof (pad_cases flags) as Hp. change ZPAD with (2 ^ 4) in Hp.
  rewrite land_pow2 in * by lia.
  destruct (Z.ltb_spec num 0) as [Hneg|Hpos]; cbn [andb].
  - replace (u32 num) with (u32 (- Z.abs num)) by (f_equal; lia).
    destruct (Z.testbit flags 4); cbn [negb andb].
    + change (Z.lor (2 ^ 4) 32) with 0x30. destruct (Nat.leb_spec w (length digits)).
      * replace (w - length digits)%nat with O by lia. destruct Hh as (c & d & rest & -> & _). done.
      * destruct (w - length digits)%nat as [|k] eqn:E; [lia|]. cbn [repeat app].
        apply (strtoul_negative 0). by apply strtoul_zeros.
    + by apply strtoul_negative.
  - rewrite u32_small by lia. replace num with (Z.abs num) at 1 by lia.
    apply strtoul_padded; [exact Hp|exact Hh|lia|exact Hd].
Qed.

(** ** Formats *)

Lemma printf_flags_length fmt flags : (length (printf_flags fmt flags).1 <= length fmt)%nat.
Proof.
  revert flags. induction fmt as [|c fmt IH]; intros flags; [done|]. cbn [printf_flags length].
  destruct (c =? 0x23); [|destruct (c =? 0x30)]; [etrans; [apply IH|lia]..|done].
Qed.

Lemma printf_width_length fmt width rest v :
  printf_width fmt width = Some (rest, v) -> (length rest <= length fmt)%nat.
Proof.
  revert width. induction fmt as [|c fmt IH]; intros width; cbn [printf_width length];
    destruct (2 ^ 31 <=? width); try done.
  - intros [= <- _]. done.
  - destruct (_ <? 10); [intros H%IH; lia|]. intros [= <- _]. done.
Qed.

Lemma printf_length_length fmt l : (length (printf_length fmt l).1 <= length fmt)%nat.
Proof.
  revert l. induction fmt as [|c fmt IH]; intros l; [done|]. cbn [printf_length length].
  destruct (c =? 0x68); [|destruct (c =? 0x6c); [|destruct (c =? 0x7a)]];
    [etrans; [apply IH|lia]..|done].
Qed.

Section formats.
Context (strings : Z -> cstring) (wide_strings : Z -> list Z).
Notation loop := (vcprintf_loop strings wide_strings).
Notation vcprintf := (vcprintf strings wide_strings).

(** As many rounds as the format has characters are enough. *)
Lemma vcprintf_fuel n m fmt args :
  (length fmt <= n)%nat -> (length fmt <= m)%nat -> loop n fmt args = loop m fmt args.
Proof.
  revert m fmt args. induction n as [|n IH]; intros m fmt args Hn Hm.
  - destruct fmt; [by destruct m|cbn in Hn; lia].
  - destruct fmt as [|c fmt]; [by destruct m|]. destruct m as [|m]; [cbn in Hm; lia|].
    cbn [length] in Hn, Hm. cbn [vcprintf_loop].
    destruct (negb (c =? 0x25)); [rewrite (IH m) by lia; done|].
    pose proof (printf_flags_length fmt 0) as H1. destruct (printf_flags fmt 0) as [f1 flags].
    destruct (printf_width f1 0) as [[f2 width]|] eqn:E; [|done]. cbn [mbind option_bind fst] in *.
    apply printf_width_length in E. pose proof (printf_length_length f2 INT_LEN) as H3.
    destruct (printf_length f2 INT_LEN) as [f3 l]. cbn [fst] in H3.
    destruct f3 as [|c' f3]; [done|]. cbn [length] in H3.
    destruct (convert _ _ c' flags width l args) as [[text args']|]; [|done].
    cbn [mbind option_bind]. rewrite (IH m) by lia. done.
Qed.

Lemma vcprintf_directive rest r1 flags r2 width c fmt l args text args' :
  printf_flags rest 0 = (r1, flags) -> printf_width r1 0 = Some (r2, width) ->
  printf_length r2 INT_LEN = (c :: fmt, l) ->
  convert strings wide_strings c flags width l args = Some (text, args') ->
  vcprintf (0x25 :: rest) args = app text <$> vcprintf fmt args'.
Proof.
  intros H1 H2 H3 H4. unfold Printf.vcprintf. cbn [length vcprintf_loop].
  change (negb (0x25 =? 0x25)) with false. cbv iota. rewrite H1, H2. cbn [mbind option_bind].
  rewrite H3, H4. cbn [mbind option_bind]. f_equal. apply vcprintf_fuel; [|done].
  pose proof (printf_flags_length rest 0) as L1. rewrite H1 in L1.
  apply printf_width_length in H2. pose proof (printf_length_length r2 INT_LEN) as L3.
  rewrite H3 in L3. cbn in L1, L3. lia.
Qed.

Lemma vcprintf_text s fmt args :
  0x25 ∉ s -> vcprintf (s ++ fmt) args = app s <$> vcprintf fmt args.
Proof.
  intros Hs. induction s as [|c s IH]; [by cbn [app]; destruct (vcprintf fmt args)|].
  apply not_elem_of_cons in Hs as [Hc Hs]. specialize (IH Hs).
  unfold Printf.vcprintf in *. cbn [length app vcprintf_loop].
  rewrite (proj2 (Z.eqb_neq c 0x25)) by congruence. cbn [negb]. rewrite IH.
  by destruct (loop _ fmt args).
Qed.
End formats.

(** The pieces of a format: text without percent signs, and directives. *)
Inductive piece : Type :=
| Text (s : cstring)
| Percent
| Chr (c : Z)
| Str (p : Z)
| Hex (alt zpad lower : bool) (width : nat) (long_long : bool) (n : Z)
| Dec (zpad : bool) (width : nat) (num : Z).

Definition width_text (width : nat) : cstring :=
  if (width =? 0)%nat then [] else decimal_digits 10 (Z.of_nat width) [].

Definition piece_format (p : piece) : cstring :=
  match p with
  | Text s => s
  | Percent => cs "%%"
  | Chr _ => cs "%c"
  | Str _ => cs "%s"
  | Hex alt zpad lower width long_long _ =>
      0x25 :: (if alt then cs "#" else []) ++ (if zpad then cs "0" else [])
           ++ width_text width ++ (if long_long then cs "ll" else [])
           ++ (if lower then cs "x" else cs "X")
  | Dec zpad width _ =>
      0x25 :: (if zpad then cs "0" else []) ++ width_text width ++ cs "d"
  end.

Definition piece_args (p : piece) : list Z :=
  match p with
  | Text _ | Percent => []
  | Chr c => [c]
  | Str p => [p]
  | Hex _ _ _ _ long_long n => if long_long then [n mod 2 ^ 32; n / 2 ^ 32] else [n]
  | Dec _ _ num => [u32 num]
  end.

Definition printf_flag (b : bool) (flag : Z) : Z := if b then flag else 0.

Definition piece_output (strings : Z -> cstring) (p : piece) : list Z :=
  match p with
  | Text s => s
  | Percent => cs "%"
  | Chr c => [u8 c]
  | Str p => if p =? 0 then cs "<NULL>" else strings p
  | Hex alt zpad lower width _ n =>
      format_hex n width (Z.lor (Z.lor (printf_flag alt ALT_FORM) (printf_flag zpad ZPAD))
                            (printf_flag lower LCASE))
  | Dec zpad width num => default [] (format_decimal num width (printf_flag zpad ZPAD))
  end.

(** The numbers fit their types and, with their padding, the temporary
    buffer. *)
Definition piece_ok (p : piece) : Prop :=
  match p with
  | Text s => 0x25 ∉ s
  | Hex _ _ _ width long_long n =>
      (width <= 29)%nat /\ 0 <= n < (if long_long then 2 ^ 64 else 2 ^ 32)
  | Dec _ width num => (width <= 31)%nat /\ - 2 ^ 31 < num < 2 ^ 31
  | _ => True
  end.

Lemma length_hex_digits n num case_mod acc :
  (length (hex_digits n num case_mod acc) <= n + length acc)%nat.
Proof.
  revert num acc. induction n as [|n IH]; intros num acc; [done|]. cbn [hex_digits].
  destruct (Z.shiftr num 4 =? 0); [cbn; lia|]. etrans; [apply IH|]. cbn. lia.
Qed.

Lemma length_decimal_digits n num acc :
  (length (decimal_digits n num acc) <= n + length acc)%nat.
Proof.
  revert num acc. induction n as [|n IH]; intros num acc; [done|]. cbn [decimal_digits].
  destruct (num / 10 =? 0); [cbn; lia|]. etrans; [apply IH|]. cbn. lia.
Qed.

(** The text of a width is read as that width. *)
Lemma width_digits n num acc rest :
  0 <= num < 2 ^ 31 -> num < 10 ^ Z.of_nat n -> (0 < n)%nat ->
  printf_width (decimal_digits n num acc ++ rest) 0 = printf_width (acc ++ rest) num.
Proof.
  intros Hnum Hn Hpos. revert num acc Hnum Hn.
  induction n as [|n IH]; intros num acc Hnum Hn; [lia|]. cbn [decimal_digits].
  assert (Hstep : forall v, 0 <= v -> v * 10 + num mod 10 < 2 ^ 31 ->
    printf_width ((0x30 + num mod 10 :: acc) ++ rest) v = printf_width (acc ++ rest) (v * 10 + num mod 10)).
  { intros v Hv Hlt. cbn [app printf_width]. rewrite (proj2 (Z.leb_gt _ _)) by dlia.
    unfold schar. rewrite (proj2 (Z.ltb_lt _ 128)) by dlia.
    rewrite u32_small by dlia. rewrite (proj2 (Z.ltb_lt _ 10)) by dlia.
    replace (0x30 + num mod 10 - 0x30) with (num mod 10) by lia. done. }
  destruct (Z.eqb_spec (num / 10) 0) as [E|E].
  - rewrite Hstep by dlia. f_equal. dlia.
  - destruct n as [|n]; [change (10 ^ Z.of_nat 1) with 10 in Hn; dlia|].
    rewrite Nat2Z.inj_succ, Z.pow_succ_r in Hn by lia.
    rewrite IH; [|lia|dlia|dlia]. rewrite Hstep by dlia. f_equal. dlia.
Qed.

Lemma width_text_read width c rest :
  Z.of_nat width < 2 ^ 31 -> (10 <=? u32 (schar c - 0x30)) = true ->
  printf_width (width_text width ++ c :: rest) 0 = Some (c :: rest, Z.of_nat width).
Proof.
  intros Hw Hc. apply Z.leb_le in Hc.
  assert (Hend : forall v, v < 2 ^ 31 -> printf_width (c :: rest) v = Some (c :: rest, v)).
  { intros v Hv. cbn [printf_width]. rewrite (proj2 (Z.leb_gt _ _)) by lia.
    by rewrite (proj2 (Z.ltb_ge _ 10)) by lia. }
  unfold width_text. destruct (Nat.eqb_spec width 0) as [->|Hne]; [by apply Hend|].
  rewrite width_digits; [by apply Hend|lia|change (10 ^ Z.of_nat 10) with 10000000000; lia|lia].
Qed.

Lemma decimal_first n num acc :
  0 < num < 10 ^ Z.of_nat n ->
  exists c rest, decimal_digits n num acc = c :: rest /\ 0x31 <= c <= 0x39.
Proof.
  revert num acc. induction n as [|n IH]; intros num acc Hn; [cbn in Hn; lia|].
  cbn [decimal_digits]. rewrite Nat2Z.inj_succ, Z.pow_succ_r in Hn by lia.
  destruct (Z.eqb_spec (num / 10) 0) as [E|E].
  - eexists _, _. split; [reflexivity|]. dlia.
  - apply IH. dlia.
Qed.

(** Flags and width are read up to the first character behind them. *)
Lemma flags_width_read (alt zpad : bool) width c rest :
  (width <= 99)%nat -> (10 <=? u32 (schar c - 0x30)) && negb (c =? 0x23) = true ->
  exists r1,
    printf_flags ((if alt then cs "#" else []) ++ (if zpad then cs "0" else [])
                  ++ width_text width ++ c :: rest) 0
      = (r1, Z.lor (printf_flag alt ALT_FORM) (printf_flag zpad ZPAD)) /\
    printf_width r1 0 = Some (c :: rest, Z.of_nat width).
Proof.
  intros Hw Hc. apply andb_true_iff in Hc as [Hd Hc]. apply negb_true_iff in Hc.
  exists (width_text width ++ c :: rest). split; [|apply width_text_read; [lia|exact Hd]].
  assert (E : exists c0 r', width_text width ++ c :: rest = c0 :: r' /\
    (c0 =? 0x23) = false /\ (c0 =? 0x30) = false).
  { unfold width_text. destruct (Nat.eqb_spec width 0) as [->|Hne].
    - exists c, rest. split_and!; [done|done|]. destruct (Z.eqb_spec c 0x30) as [->|]; done.
    - destruct (decimal_first 10 (Z.of_nat width) []) as (c0 & r' & -> & Hr).
      { change (10 ^ Z.of_nat 10) with 10000000000. lia. }
      eexists c0, _. split_and!; [reflexivity|lia..]. }
  destruct E as (c0 & r' & -> & E1 & E2).
  destruct alt, zpad; cbn [app cs printf_flags]; rewrite ?E1, ?E2; cbn; rewrite ?E1, ?E2; done.
Qed.

(** Numbers with their padding fit the temporary buffer. *)
Lemma format_hex_fits n width flags :
  (width <= 29)%nat -> tmp_buf (format_hex n width flags) = Some (format_hex n width flags).
Proof.
  intros Hw. unfold tmp_buf, format_hex.
  pose proof (length_hex_digits 16 n (Z.land flags LCASE) []) as Hl. cbn [length] in Hl.
  rewrite (proj2 (Nat.leb_le _ 31)); [done|].
  destruct (bool_of_Z _); cbn [length]; rewrite length_app, repeat_length; lia.
Qed.

Lemma format_decimal_fits num width flags :
  (width <= 31)%nat -> - 2 ^ 31 < num ->
  exists text, format_decimal num width flags = Some text /\ tmp_buf text = Some text.
Proof.
  intros Hw Hn. unfold format_decimal. rewrite (proj2 (Z.eqb_neq num _)) by lia.
  pose proof (length_decimal_digits 10 (Z.abs num) []) as Hl. cbn [length] in Hl.
  eexists. split; [reflexivity|]. unfold tmp_buf. rewrite (proj2 (Nat.leb_le _ 31)); [done|].
  destruct ((num <? 0) && bool_of_Z _); rewrite ?length_insert, length_app, repeat_length;
    destruct (_ && negb _); cbn [length]; lia.
Qed.

Lemma s32_u32 x : - 2 ^ 31 <= x < 2 ^ 31 -> s32 (u32 x) = x.
Proof.
  intros Hx. unfold s32, u32. rewrite Z.mod_mod by lia.
  destruct (Z.ltb_spec (x mod 2 ^ 32) (2 ^ 31)); dlia.
Qed.

Section pieces.
Context (strings : Z -> cstring) (wide_strings : Z -> list Z).
Notation vcprintf := (vcprintf strings wide_strings).

Lemma vcprintf_hex alt zpad lower width long_long n fmt args :
  piece_ok (Hex alt zpad lower width long_long n) ->
  vcprintf (piece_format (Hex alt zpad lower width long_long n) ++ fmt)
    (piece_args (Hex alt zpad lower width long_long n) ++ args)
  = app (piece_output strings (Hex alt zpad lower width long_long n)) <$> vcprintf fmt args.
Proof.
  intros [Hw Hn]. cbn [piece_format piece_args piece_output app]. rewrite <- !app_assoc.
  set (c := if lower then 0x78 else 0x58).
  assert (Hc : exists c0 r0, (if long_long then cs "ll" else [])
      ++ (if lower then cs "x" else cs "X") ++ fmt = c0 :: r0 /\
      (10 <=? u32 (schar c0 - 0x30)) && negb (c0 =? 0x23) = true /\
      printf_length (c0 :: r0) INT_LEN = (c :: fmt, if long_long then LONGLONG_LEN else INT_LEN)).
  { destruct long_long, lower; eexists _, _; (split; [reflexivity|]); split; reflexivity. }
  destruct Hc as (c0 & r0 & -> & Hc0 & Hlen).
  destruct (flags_width_read alt zpad width c0 r0 ltac:(lia) Hc0) as (r1 & Hf & Hwd).
  eapply (vcprintf_directive strings wide_strings); [exact Hf|exact Hwd|exact Hlen|].
  unfold convert. rewrite Nat2Z.id.
  replace (Z.lor _ (printf_flag lower LCASE))
    with (Z.lor (Z.lor (printf_flag alt ALT_FORM) (printf_flag zpad ZPAD)) (Z.land c 0x20))
    by (unfold c; destruct lower; reflexivity).
  set (flags := Z.lor _ (Z.land c 0x20)).
  replace (c =? 0x63) with false by (unfold c; by destruct lower).
  replace (c =? 0x73) with false by (unfold c; by destruct lower).
  replace (c =? 0x70) with false by (unfold c; by destruct lower).
  replace (Z.land c (Z.lnot 0x20) =? 0x58) with true by (unfold c; by destruct lower).
  destruct long_long.
  - change (type_sizes !! Z.to_nat LONGLONG_LEN) with (Some 8).
    cbn -[format_hex tmp_buf Z.add Z.mul Z.modulo Z.div flags].
    rewrite Z.add_comm, <- Z.div_mod, format_hex_fits by lia. done.
  - change (type_sizes !! Z.to_nat INT_LEN) with (Some 4).
    cbn -[format_hex tmp_buf flags]. rewrite format_hex_fits by lia. done.
Qed.

Lemma vcprintf_dec zpad width num fmt args :
  piece_ok (Dec zpad width num) ->
  vcprintf (piece_format (Dec zpad width num) ++ fmt) (piece_args (Dec zpad width num) ++ args)
  = app (piece_output strings (Dec zpad width num)) <$> vcprintf fmt args.
Proof.
  intros [Hw Hn]. cbn [piece_format piece_args piece_output app]. rewrite <- !app_assoc.
  destruct (flags_width_read false zpad width 0x64 fmt ltac:(lia) eq_refl) as (r1 & Hf & Hwd).
  destruct (format_decimal_fits num width (printf_flag zpad ZPAD) Hw ltac:(lia)) as (text & E1 & E2).
  eapply (vcprintf_directive strings wide_strings); [exact Hf|exact Hwd|reflexivity|].
  unfold convert. rewrite Nat2Z.id. change (type_sizes !! Z.to_nat INT_LEN) with (Some 4).
  change (Z.lor (printf_flag false ALT_FORM) ?x) with x.
  cbn -[format_decimal tmp_buf s32 u32 printf_flag]. rewrite s32_u32 by lia.
  rewrite E1. cbn [mbind option_bind]. rewrite E2. done.
Qed.

Lemma vcprintf_piece p fmt args :
  piece_ok p ->
  vcprintf (piece_format p ++ fmt) (piece_args p ++ args)
  = app (piece_output strings p) <$> vcprintf fmt args.
Proof.
  intros Hp. destruct p.
  - by apply vcprintf_text.
  - by eapply (vcprintf_directive strings wide_strings).
  - by eapply (vcprintf_directive strings wide_strings).
  - eapply (vcprintf_directive strings wide_strings); [reflexivity..|].
    change (convert _ _ _ _ _ _ _) with
      (if p =? 0 then Some (cs "<NULL>", args) else Some (strings p, args)).
    cbn [piece_output]. by destruct (p =? 0).
  - by apply vcprintf_hex.
  - by apply vcprintf_dec.
Qed.

Lemma vcprintf_pieces_app ps fmt args :
  Forall piece_ok ps ->
  vcprintf (flat_map piece_format ps ++ fmt) (flat_map piece_args ps ++ args)
  = app (flat_map (piece_output strings) ps) <$> vcprintf fmt args.
Proof.
  induction 1 as [|p ps Hp Hps IH]; cbn [flat_map app]; [by destruct (vcprintf fmt args)|].
  rewrite <- !app_assoc, vcprintf_piece, IH by exact Hp.
  destruct (vcprintf fmt args); [|done]. cbn. by rewrite <- app_assoc.
Qed.

(** C34. A format is printed directive by directive: for every sequence of
    literal text, escaped percent signs, characters, strings, hexadecimal and
    decimal numbers with their flags, widths and length modifiers, formatting
    prints exactly the texts of the pieces in order and takes exactly their
    arguments.  A format that ends in a percent sign runs off its end. *)
Theorem vcprintf_pieces ps :
  Forall piece_ok ps ->
  vcprintf (flat_map piece_format ps) (flat_map piece_args ps)
    = Some (flat_map (piece_output strings) ps) /\
  forall args, vcprintf (flat_map piece_format ps ++ cs "%")
                 (flat_map piece_args ps ++ args) = None.
Proof.
  intros Hps. split.
  - pose proof (vcprintf_pieces_app ps [] [] Hps) as E. rewrite !app_nil_r in E. rewrite E.
    cbn. by rewrite app_nil_r.
  - intros args. by rewrite vcprintf_pieces_app.
Qed.
End pieces.
