(* ===== verification/Object.v ===== *)
(** * Object

    Reference counting (core/refcnt.c), object interfaces (core/interface.c)
    and cooperative processes (core/process.c).

    Calls through function pointers go through a [Methods] record, which
    System.v ties to the components: the operations below are written against
    that record only. *)

From S2P Require Import Prelude.
From S2P Require Import Memory.
From S2P Require Import World.

(** ** Method tables *)

Section methods.
Context `{Platform}.

(** What a call through a function pointer does.  A method that is found in
    the operation table of a descriptor gets that descriptor and the
    destination interface it was looked up on; [intf_object] of the latter is
    the containing object. *)
Class Methods : Type := {
  (** Number of iterations a loop may make before it counts as spinning. *)
  fuel : nat;
  (** [refcnt->free] *)
  m_free : free_fn -> refid -> cprog unit;
  (** Operations of an interface *)
  m_intf_close : intf_desc -> intf_id -> Z -> cprog unit;
  m_block_read :
    intf_desc -> intf_id -> intf_id -> Z -> Z -> Z -> Z -> cprog Z;
  m_block_write :
    intf_desc -> intf_id -> intf_id -> Z -> Z -> Z -> Z -> cprog Z;
  m_block_read_capacity : intf_desc -> intf_id -> intf_id -> cprog Z;
  m_block_capacity :
    intf_desc -> intf_id -> block_device_capacity -> cprog unit;
  m_edd_describe : intf_desc -> intf_id -> cprog (Z * Z * list Z);
  m_acpi_describe : intf_desc -> intf_id -> cprog (option Z);
  m_identify_device : intf_desc -> intf_id -> cprog (option (Z * Z));
  m_xfer_window : intf_desc -> intf_id -> cprog Z;
  m_xfer_window_changed : intf_desc -> intf_id -> cprog unit;
  (** The default close method of an interface, [intf_restart] *)
  m_intf_restart : intf_id -> Z -> cprog unit;
  (** [process->desc->step] *)
  m_step : proc_desc -> procid -> cprog unit;
  (** [timer->expired] *)
  m_expired : timerid -> bool -> cprog unit;
  (** [opener->open] of the opener of a URI's scheme *)
  m_open : cstring -> intf_id -> Z -> cprog (option Z);
  (** [desc->model->complete] of an ACPI descriptor *)
  m_acpi_complete : Z -> cprog Z;
  (** [quiescer->quiesce] and [quiescer->unquiesce] *)
  m_quiesce : cprog unit;
  m_unquiesce : cprog unit
}.
End methods.

(** ** Access to the stores *)

Section stores.
Context `{Platform}.

Definition get_ref (r : refid) : cprog refcnt := deref (fun w => w_refs w !! r).
Definition put_ref (r : refid) (c : refcnt) : cprog unit :=
  modify (fun w => set_w_refs (<[r := c]> (w_refs w)) w).

Definition get_intf (i : intf_id) : cprog interface :=
  deref (fun w => w_intfs w !! i).
Definition put_intf (i : intf_id) (c : interface) : cprog unit :=
  modify (fun w => set_w_intfs (<[i := c]> (w_intfs w)) w).

Definition get_proc (p : procid) : cprog process :=
  deref (fun w => w_procs w !! p).
Definition get_timer (t : timerid) : cprog retry_timer :=
  deref (fun w => w_tmrs w !! t).
Definition put_timer (t : timerid) (c : retry_timer) : cprog unit :=
  modify (fun w => set_w_tmrs (<[t := c]> (w_tmrs w)) w).
End stores.

Section object.
Context `{Platform} `{!Methods}.

(** ** core/refcnt.c *)

Definition ref_increment (refcnt : option refid) : cprog unit :=
  match refcnt with
  | None => ret tt
  | Some r =>
      c <- get_ref r ;;
      put_ref r (set_ref_count (ref_count c + 1) c)
  end.

Definition ref_decrement (refcnt : option refid) : cprog unit :=
  match refcnt with
  | None => ret tt
  | Some r =>
      c <- get_ref r ;;
      let count := ref_count c - 1 in
      put_ref r (set_ref_count count c) ;;
      if 0 <=? count then ret tt
      else if count <? -1 then ret tt
      else m_free (ref_free c) r
  end.

(** [ref_init]: a NULL [free] method needs no initialisation. *)
Definition ref_init (r : refid) (free : free_fn) : cprog unit :=
  match free with
  | free_refcnt => ret tt
  | _ => c <- get_ref r ;; put_ref r (set_ref_free free c)
  end.

Definition ref_get := ref_increment.
Definition ref_put := ref_decrement.

(** ** core/interface.c *)

Definition intf_init (intf : intf_id) (desc : intf_desc)
    (refcnt : option refid) : cprog unit :=
  put_intf intf (mkIntf I_null refcnt (Some desc) (Some desc)).

(** A temporary outbound-only interface (a local variable). *)
Definition intf_temp_init : interface := mkIntf I_null None None None.

Definition intf_reinit (intf : intf_id) : cprog unit :=
  i <- get_intf intf ;;
  put_intf intf (set_intf_desc_ (intf_original i) i).

Definition intf_get (intf : intf_id) : cprog intf_id :=
  i <- get_intf intf ;;
  ref_get (intf_refcnt i) ;;
  ret intf.

Definition intf_put (intf : intf_id) : cprog unit :=
  i <- get_intf intf ;;
  ref_put (intf_refcnt i).

Definition intf_plug (intf dest : intf_id) : cprog unit :=
  if decide (intf = I_null) then ret tt else
  intf_get dest ;;
  i <- get_intf intf ;;
  intf_put (intf_dest i) ;;
  i <- get_intf intf ;;
  put_intf intf (set_intf_dest dest i).

Definition intf_plug_plug (a b : intf_id) : cprog unit :=
  intf_plug a b ;;
  intf_plug b a.

Definition intf_unplug (intf : intf_id) : cprog unit :=
  i <- get_intf intf ;;
  intf_put (intf_dest i) ;;
  i <- get_intf intf ;;
  put_intf intf (set_intf_dest I_null i).

Definition intf_nullify (intf : intf_id) : cprog unit :=
  i <- get_intf intf ;;
  put_intf intf (set_intf_desc_ (Some null_intf_desc) i).

(** None of the descriptors has a pass-through interface. *)
Definition intf_get_passthru (intf : intf_id) : cprog (option intf_id) :=
  i <- get_intf intf ;;
  match intf_desc_ i with
  | Some _ => ret None
  | None => undef
  end.

(** The interface is passed by value: it may be a local variable, and only
    its destination is read. *)
Definition intf_get_dest_op_no_passthru_untyped (intf : interface)
    (type : op_type) : cprog (intf_id * option intf_desc) :=
  dest <- intf_get (intf_dest intf) ;;
  d <- get_intf dest ;;
  match intf_desc_ d with
  | None => undef
  | Some desc =>
      if bool_decide (type ∈ desc_op desc) then ret (dest, Some desc)
      else ret (dest, None)
  end.

Definition intf_get_dest_op_untyped (intf : interface) (type : op_type)
    : cprog (intf_id * option intf_desc) :=
  iterate fuel (fun intf =>
    let! (dest, func) := intf_get_dest_op_no_passthru_untyped intf type in
    match func with
    | Some desc => ret (inr (dest, Some desc))
    | None =>
        passthru <- intf_get_passthru dest ;;
        match passthru with
        | None => ret (inr (dest, None))
        | Some next =>
            i <- get_intf next ;;
            intf_put dest ;;
            ret (inl i)
        end
    end) intf.

Definition intf_close (intf : interface) (rc : Z) : cprog unit :=
  let! (dest, op) := intf_get_dest_op_untyped intf op_intf_close in
  match op with
  | Some desc => m_intf_close desc dest rc
  | None => m_intf_restart dest rc
  end ;;
  intf_put dest.

Definition null_intf_close (intf : intf_id) (rc : Z) : cprog unit := ret tt.

Definition intf_shutdown (intf : intf_id) (rc : Z) : cprog unit :=
  (* Block further operations *)
  intf_nullify intf ;;
  (* Transfer destination to temporary interface *)
  i <- get_intf intf ;;
  let tmp := set_intf_dest (intf_dest i) intf_temp_init in
  put_intf intf (set_intf_dest I_null i) ;;
  (* Notify destination of close via temporary interface *)
  intf_close tmp rc ;;
  (* Unplug temporary interface *)
  intf_put (intf_dest tmp).

Definition intfs_vshutdown (intfs : list intf_id) (rc : Z) : cprog unit :=
  for_each intfs intf_nullify ;;
  for_each intfs (fun intf => intf_shutdown intf rc).

Definition intfs_shutdown (rc : Z) (intfs : list intf_id) : cprog unit :=
  intfs_vshutdown intfs rc.

Definition intf_restart (intf : intf_id) (rc : Z) : cprog unit :=
  intf_shutdown intf rc ;;
  intf_reinit intf.

Definition intfs_vrestart (intfs : list intf_id) (rc : Z) : cprog unit :=
  intfs_vshutdown intfs rc ;;
  for_each intfs intf_reinit.

Definition intfs_restart (rc : Z) (intfs : list intf_id) : cprog unit :=
  intfs_vrestart intfs rc.

Definition intf_insert (intf upper lower : intf_id) : cprog unit :=
  i <- get_intf intf ;;
  let dest := intf_dest i in
  intf_get dest ;;
  intf_plug_plug intf upper ;;
  intf_plug_plug lower dest ;;
  intf_put dest.

(** [intf_poke] for a parameterless operation [type] run by [op]. *)
Definition intf_poke (intf : intf_id) (type : op_type)
    (op : intf_desc -> intf_id -> cprog unit) : cprog unit :=
  i <- get_intf intf ;;
  let! (dest, func) := intf_get_dest_op_untyped i type in
  match func with
  | Some desc => op desc dest
  | None => ret tt
  end ;;
  intf_put dest.

(** ** core/process.c *)

Definition process_running (process : procid) : cprog bool :=
  gets (fun w => bool_decide (process ∈ w_runq w)).

(** [list_del]: the entry occurs at most once. *)
Definition list_del {A} `{EqDecision A} (x : A) (l : list A) : list A :=
  filter (fun y => y <> x) l.

Definition process_add (process : procid) : cprog unit :=
  running <- process_running process ;;
  if running then ret tt else
  p <- get_proc process ;;
  ref_get (proc_refcnt p) ;;
  modify (fun w => set_w_runq (w_runq w ++ [process]) w).

Definition process_del (process : procid) : cprog unit :=
  running <- process_running process ;;
  if running then
    modify (fun w => set_w_runq (list_del process (w_runq w)) w) ;;
    p <- get_proc process ;;
    ref_put (proc_refcnt p)
  else ret tt.

Definition process_init_stopped (process : procid) (desc : proc_desc)
    (refcnt : option refid) : cprog unit :=
  modify (fun w =>
    set_w_procs (<[process := mkProc desc refcnt]> (w_procs w)) w).

Definition step : cprog unit :=
  q <- gets w_runq ;;
  match q with
  | [] => ret tt
  | process :: _ =>
      p <- get_proc process ;;
      ref_get (proc_refcnt p) ;; (* Inhibit destruction mid-step *)
      let desc := proc_desc_ p in
      (if desc_reschedule desc then
         modify (fun w =>
           set_w_runq (list_del process (w_runq w) ++ [process]) w)
       else process_del process) ;;
      m_step desc process ;;
      p <- get_proc process ;;
      ref_put (proc_refcnt p) (* Allow destruction *)
  end.

Definition init_processes (permanent : list procid) : cprog unit :=
  for_each permanent process_add.

(** ** Specifications of the primitives *)

Lemma wp_ref_get r c (Q : unit -> world -> Prop) w :
  w_refs w !! r = Some c ->
  Q tt (set_w_refs (<[r := set_ref_count (ref_count c + 1) c]> (w_refs w)) w) ->
  wp (ref_get (Some r)) Q w.
Proof.
  intros Hr HQ. unfold ref_get, ref_increment, get_ref, put_ref.
  repeat wp_prim. exact HQ.
Qed.

Lemma wp_ref_put r c (Q : unit -> world -> Prop) w :
  w_refs w !! r = Some c -> 1 <= ref_count c ->
  Q tt (set_w_refs (<[r := set_ref_count (ref_count c - 1) c]> (w_refs w)) w) ->
  wp (ref_put (Some r)) Q w.
Proof.
  intros Hr Hc HQ. unfold ref_put, ref_decrement, get_ref, put_ref.
  repeat wp_prim. rewrite (proj2 (Z.leb_le _ _)) by lia. exact HQ.
Qed.

Lemma list_del_cons {A} `{EqDecision A} (x : A) (l : list A) :
  list_del x (x :: l) = list_del x l.
Proof. unfold list_del. rewrite filter_cons_False; [done|tauto]. Qed.

Lemma list_del_gone {A} `{EqDecision A} (x : A) (l : list A) :
  bool_decide (x ∈ list_del x l) = false.
Proof.
  apply bool_decide_eq_false. unfold list_del. rewrite list_elem_of_filter.
  tauto.
Qed.

(** The lookup of an operation of the destination leaves it referenced. *)
Lemma wp_get_dest_op intf type di desc
    (Q : intf_id * option intf_desc -> world -> Prop) w :
  (0 < fuel)%nat ->
  w_intfs w !! intf_dest intf = Some di -> intf_desc_ di = Some desc ->
  wp (ref_get (intf_refcnt di))
    (fun _ w1 =>
       Q (intf_dest intf,
          if bool_decide (type ∈ desc_op desc) then Some desc else None) w1) w ->
  wp (intf_get_dest_op_untyped intf type) Q w.
Proof.
  intros Hf Hdi Hdesc HQ. unfold intf_get_dest_op_untyped.
  destruct fuel as [|k]; [lia|]. apply wp_iterate_S.
  unfold intf_get_dest_op_no_passthru_untyped, intf_get, get_intf.
  repeat wp_prim.
  assert (Hsame : wp (ref_get (intf_refcnt di)) (fun _ w1 =>
    w_intfs w1 = w_intfs w /\ Q (intf_dest intf,
      if bool_decide (type ∈ desc_op desc) then Some desc else None) w1) w).
  { revert HQ. destruct (intf_refcnt di) as [r|]; [|unfold wp; cbn; auto].
    unfold ref_get, ref_increment, get_ref, put_ref, wp, bind, deref.
    destruct (w_refs w !! r); [cbn; auto|done]. }
  eapply wp_mono; [exact Hsame|]. intros [] w1 [Hw1 HQ1]. repeat wp_prim.
  eapply wp_deref; [rewrite Hw1; exact Hdi|]. rewrite Hdesc.
  destruct (bool_decide _); repeat wp_prim; [exact HQ1|].
  unfold intf_get_passthru, get_intf. wp_prim.
  eapply wp_deref; [rewrite Hw1; exact Hdi|]. rewrite Hdesc.
  repeat wp_prim. exact HQ1.
Qed.

Lemma wp_intf_close intf di desc rc (Q : unit -> world -> Prop) w :
  (0 < fuel)%nat ->
  w_intfs w !! intf_dest intf = Some di -> intf_desc_ di = Some desc ->
  wp (ref_get (intf_refcnt di))
    (fun _ w1 => wp (m_intf_close desc (intf_dest intf) rc)
       (fun _ w2 => wp (intf_put (intf_dest intf)) Q w2) w1) w ->
  wp (intf_close intf rc) Q w.
Proof.
  intros Hf Hdi Hdesc HQ. unfold intf_close. wp_prim.
  eapply wp_get_dest_op; [exact Hf|exact Hdi|exact Hdesc|].
  destruct desc; cbn [desc_op]; (eapply wp_mono; [exact HQ|]);
    intros [] w1 Hw1; wp_prim; exact Hw1.
Qed.

End object.

(** Solve a lookup in an updated store from the hypotheses. *)
Ltac lk := wsimpl; simplify_map_eq; solve [reflexivity | eauto].

(** One step of a weakest precondition whose lookups are known; references
    are never dropped to below zero. *)
Ltac wstep :=
  first
  [ wp_prim
  | lazymatch goal with
    | |- wp (deref _) _ _ => eapply wp_deref; [lk|]
    | |- wp (ref_get (Some _)) _ _ => eapply wp_ref_get; [lk|]
    | |- wp (ref_put (Some _)) _ _ =>
        eapply wp_ref_put; [lk|wsimpl; lia|]
    | |- wp (ref_get None) _ _ =>
        change (ref_get None) with (ret (S := world) tt)
    | |- wp (ref_put None) _ _ =>
        change (ref_put None) with (ret (S := world) tt)
    | |- wp (if decide (?a = ?b) then _ else _) _ _ =>
        first [ rewrite (decide_False (P := a = b)) by congruence
              | rewrite (decide_True (P := a = b)) by congruence ]
    | |- wp (if bool_decide ?P then _ else _) _ _ =>
        let b := eval vm_compute in (bool_decide P) in
        lazymatch b with
        | true => change (bool_decide P) with true
        | false => change (bool_decide P) with false
        end
    | |- wp (iterate (S _) _ _) _ _ => apply wp_iterate_S
    | |- wp (if _ then _ else _) _ _ => progress wsimpl
    | |- wp (intf_close _ _) _ _ =>
        eapply wp_intf_close; [cbn; lia|lk|reflexivity|]
    end ]; wsimpl.

(** Unfold the operations on interfaces, processes and timers to
    primitives. *)
Ltac wopen :=
  unfold intf_plug_plug, intf_plug, intf_unplug, intf_get, intf_put,
    intfs_restart, intfs_vrestart, intf_restart, intf_reinit,
    intfs_shutdown, intfs_vshutdown, intf_shutdown, intf_nullify,
    process_add, process_del, process_running, step,
    get_intf, put_intf, get_proc, get_timer, put_timer, null_intf_close;
  cbn [for_each].

Ltac wgo := repeat (repeat wstep; wopen); repeat wstep.
