(* ===== verification/ObjectSpec.v ===== *)
(** * ObjectSpec

    Properties of interfaces, reference counts and processes. *)

From S2P Require Import Prelude.
From S2P Require Import Memory.
From S2P Require Import World.
From S2P Require Import Object.

Section object_spec.
Context `{Platform} `{!Methods}.

(** Interfaces [a] and [b] of two different objects, both unplugged. *)
Record unplugged_pair (a b : intf_id) (ra rb : refid) (ia ib : interface)
    (ca cb : refcnt) (w : world) : Prop := {
  up_ne : a <> b /\ a <> I_null /\ b <> I_null /\ ra <> rb;
  up_null : exists i, w_intfs w !! I_null = Some i /\ intf_refcnt i = None;
  up_a : w_intfs w !! a = Some ia /\ intf_dest ia = I_null /\ intf_refcnt ia = Some ra;
  up_b : w_intfs w !! b = Some ib /\ intf_dest ib = I_null /\ intf_refcnt ib = Some rb;
  up_ra : w_refs w !! ra = Some ca /\ 0 <= ref_count ca;
  up_rb : w_refs w !! rb = Some cb /\ 0 <= ref_count cb }.

Lemma wp_plug_plug a b ra rb ia ib ca cb Q (w : world) :
  unplugged_pair a b ra rb ia ib ca cb w ->
  Q tt (set_w_intfs (<[b := set_intf_dest a ib]> (<[a := set_intf_dest b ia]> (w_intfs w)))
         (set_w_refs (<[ra := set_ref_count (ref_count ca + 1) ca]>
                        (<[rb := set_ref_count (ref_count cb + 1) cb]> (w_refs w))) w)) ->
  wp (intf_plug_plug a b) Q w.
Proof.
  intros [(Hab & Ha0 & Hb0 & Hr) (nl & Hn & Hnr) (Ha & Hda & Hra) (Hb & Hdb & Hrb)
    (Hca & Hca0) (Hcb & Hcb0)] HQ.
  unfold intf_plug_plug, intf_plug, intf_get, intf_put, get_intf, put_intf.
  repeat wstep. rewrite Hrb. repeat wstep. rewrite Hda. repeat wstep.
  rewrite Hnr. repeat wstep. rewrite Hra. repeat wstep. rewrite Hdb. repeat wstep.
  rewrite Hnr. repeat wstep. exact HQ.
Qed.

(** Plugging two interfaces into each other makes each the destination of
    the other and takes one reference to each object; unplugging both restores
    the interfaces and the reference counts. *)
Theorem plug_unplug_roundtrip a b ra rb ia ib ca cb (w : world) :
  unplugged_pair a b ra rb ia ib ca cb w ->
  wp (intf_plug_plug a b)
    (fun _ w1 =>
       w_intfs w1 !! a = Some (set_intf_dest b ia) /\
       w_intfs w1 !! b = Some (set_intf_dest a ib) /\
       w_refs w1 !! ra = Some (set_ref_count (ref_count ca + 1) ca) /\
       w_refs w1 !! rb = Some (set_ref_count (ref_count cb + 1) cb) /\
       wp (intf_unplug a ;; intf_unplug b)
         (fun _ w2 => w_intfs w2 = w_intfs w /\ w_refs w2 = w_refs w) w1) w.
Proof.
  intros Hup. eapply wp_plug_plug; [exact Hup|].
  destruct Hup as [(Hab & Ha0 & Hb0 & Hr) (nl & Hn & Hnr) (Ha & Hda & Hra) (Hb & Hdb & Hrb)
    (Hca & Hca0) (Hcb & Hcb0)].
  split_and!; [lk..|]. unfold intf_unplug, intf_put, get_intf, put_intf.
  repeat wstep. rewrite Hrb. repeat wstep. rewrite Hra. repeat wstep.
  rewrite !Z.add_simpl_r.
  replace (set_intf_dest I_null (set_intf_dest b ia)) with ia by (rewrite <- Hda; by destruct ia).
  replace (set_intf_dest I_null (set_intf_dest a ib)) with ib by (rewrite <- Hdb; by destruct ib).
  split; apply map_eq; intros x.
  - destruct (decide (x = a)) as [->|]; [|destruct (decide (x = b)) as [->|]];
      by simplify_map_eq.
  - destruct (decide (x = ra)) as [->|]; [|destruct (decide (x = rb)) as [->|]];
      simplify_map_eq; [by destruct ca|by destruct cb|done].
Qed.
End object_spec.
