(* ===== verification/Retry.v ===== *)
(** * Retry

    Retry timers (net/retry.c) and sleeping (core/timer.c). *)

From S2P Require Import Prelude.
From S2P Require Import Memory.
From S2P Require Import World.
From S2P Require Import Object.

Definition TICKS_PER_SEC : Z := 1024.
Definition MIN_TIMEOUT : Z := 7.
Definition DEFAULT_MIN_TIMEOUT : Z := TICKS_PER_SEC / 4.
Definition DEFAULT_MAX_TIMEOUT : Z := 10 * TICKS_PER_SEC.

(** The backed off timeout value, and whether it reached its maximum. *)
Definition backoff (max timeout : Z) : Z * bool :=
  let timeout := u32 (Z.shiftl timeout 1) in
  if max <? timeout then (max, true) else (timeout, false).

(** The smoothed timeout: seven eighths of the old one plus half of the
    runtime. *)
Definition smooth_timeout (timeout runtime : Z) : Z :=
  let timeout := u32 (timeout - Z.shiftr timeout 3) in
  u32 (timeout + Z.shiftr runtime 1).

Section retry.
Context `{Platform} `{!Methods}.

(** Current time in ticks, as an [unsigned long]. *)
Definition currticks : cprog Z :=
  t <- gets (fun w => u32 (hw_ticks (w_hw w))) ;;
  modify (fun w => set_w_hw (hw_advance (w_hw w)) w) ;;
  ret t.

Definition timer_init (timer : timerid) (refcnt : option refid) : cprog unit :=
  t <- get_timer timer ;;
  put_timer timer (set_tm_refcnt refcnt t).

Definition timer_running (timer : timerid) : cprog bool :=
  t <- get_timer timer ;;
  ret (tm_running t).

Definition start_timer_fixed (timer : timerid) (timeout : Z) : cprog unit :=
  t <- get_timer timer ;;
  (* Add to list of running timers (if applicable) *)
  when (negb (tm_running t))
    (modify (fun w => set_w_timers (timer :: w_timers w) w) ;;
     ref_get (tm_refcnt t) ;;
     put_timer timer (set_tm_running true t)) ;;
  (* Record start time *)
  now <- currticks ;;
  t <- get_timer timer ;;
  put_timer timer (set_tm_timeout timeout (set_tm_start now t)).

Definition start_timer (timer : timerid) : cprog unit :=
  t <- get_timer timer ;;
  let timeout := tm_timeout t in
  let min := if tm_min t =? 0 then DEFAULT_MIN_TIMEOUT else tm_min t in
  let min := if min <? MIN_TIMEOUT then MIN_TIMEOUT else min in
  let timeout := if timeout <? min then min else timeout in
  start_timer_fixed timer timeout.

Definition stop_timer (timer : timerid) : cprog unit :=
  now <- currticks ;;
  t <- get_timer timer ;;
  if negb (tm_running t) then ret tt else
  modify (fun w => set_w_timers (list_del timer (w_timers w)) w) ;;
  let runtime := u32 (now - tm_start t) in
  let t := set_tm_running false t in
  put_timer timer
    (if tm_count t =? 0
     then set_tm_timeout (smooth_timeout (tm_timeout t) runtime) t
     else set_tm_count (tm_count t - 1) t) ;;
  ref_put (tm_refcnt t).

Definition timer_expired (timer : timerid) : cprog unit :=
  t <- get_timer timer ;;
  let max := if tm_max t =? 0 then DEFAULT_MAX_TIMEOUT else tm_max t in
  (* Stop timer without performing RTT calculations *)
  modify (fun w => set_w_timers (list_del timer (w_timers w)) w) ;;
  let t := set_tm_count (u32 (tm_count t + 1)) (set_tm_running false t) in
  (* Back off the timeout value *)
  let '(timeout, fail) := backoff max (tm_timeout t) in
  put_timer timer (set_tm_timeout timeout t) ;;
  (* Call expiry callback *)
  m_expired timer fail ;;
  ref_put (tm_refcnt t).

(** Process at most one timer expiry. *)
Definition retry_poll : cprog unit :=
  now <- currticks ;;
  l <- gets w_timers ;;
  (fix scan (l : list timerid) : cprog unit :=
     match l with
     | [] => ret tt
     | timer :: l =>
         t <- get_timer timer ;;
         let used := u32 (now - tm_start t) in
         if tm_timeout t <=? used then timer_expired timer
         else scan l
     end) l.

Definition retry_step : cprog unit := retry_poll.

(** ** core/timer.c: sleeping *)

(** The wait within one second of [sleep_interruptible]; the result is the
    time at which the second was over, or [None] if interrupted. *)
Definition sleep_second (interrupted : option (cprog bool)) (start : Z)
    : cprog (option Z) :=
  iterate fuel (fun _ : unit =>
    now <- currticks ;;
    if u32 (now - start) <? TICKS_PER_SEC then
      step ;;
      stop <- match interrupted with Some f => f | None => ret false end ;;
      if (stop : bool) then ret (inr None) else ret (inl tt)
    else ret (inr (Some now))) tt.

Fixpoint sleep_secs (interrupted : option (cprog bool)) (secs : nat) (start : Z)
    : cprog Z :=
  match secs with
  | O => ret 0
  | S n =>
      r <- sleep_second interrupted start ;;
      match r with
      | None => ret (Z.of_nat secs)
      | Some now => sleep_secs interrupted n now
      end
  end.

Definition sleep_interruptible (secs : Z) (interrupted : option (cprog bool))
    : cprog Z :=
  start <- currticks ;;
  sleep_secs interrupted (Z.to_nat secs) start.

Definition sleep_fixed (secs : Z) : cprog unit :=
  sleep_interruptible secs None ;;
  ret tt.


End retry.

(** ** Timeouts *)

(** The smoothed timeout tracks four times the observed round trip: it
    moves towards that value from either side and never past it. *)
Theorem smooth_timeout_tracks_rtt timeout runtime :
  0 <= timeout < 2 ^ 31 -> 0 <= runtime < 2 ^ 31 ->
  (4 * runtime <= timeout ->
     4 * runtime <= smooth_timeout timeout runtime <= timeout) /\
  (timeout <= 4 * runtime ->
     timeout <= smooth_timeout timeout runtime <= 4 * runtime).
Proof.
  intros Ht Hr. unfold smooth_timeout.
  rewrite !Z.shiftr_div_pow2 by lia. change (2 ^ 3) with 8. change (2 ^ 1) with 2.
  rewrite (u32_small (timeout - _)) by dlia. rewrite u32_small by dlia.
  split; intros; dlia.
Qed.

Lemma backoff_spec max timeout :
  0 <= timeout < 2 ^ 31 ->
  backoff max timeout = (Z.min (2 * timeout) max, max <? 2 * timeout).
Proof.
  intros Ht. unfold backoff. rewrite Z.shiftl_mul_pow2 by lia. change (2 ^ 1) with 2.
  rewrite u32_small by lia. destruct (Z.ltb_spec max (timeout * 2)); f_equal; lia.
Qed.

(** A timer that keeps expiring doubles its timeout up to the maximum:
    after [k] expiries it is the lesser of the two, and from the expiry at
    which doubling would pass the maximum on, the callback is told so. *)
Theorem backoff_doubles max timeout k :
  0 < timeout <= max -> max < 2 ^ 31 ->
  let t := Nat.iter k (fun t => (backoff max t).1) timeout in
  t = Z.min (timeout * 2 ^ Z.of_nat k) max /\
  (backoff max t).2 = (max <? timeout * 2 ^ Z.of_nat (S k)).
Proof.
  intros Ht Hm. cbv zeta.
  assert (I : Nat.iter k (fun t => (backoff max t).1) timeout
              = Z.min (timeout * 2 ^ Z.of_nat k) max).
  { induction k as [|k IH]; [cbn; lia|].
    change (Nat.iter (S k) _ timeout)
      with (backoff max (Nat.iter k (fun t => (backoff max t).1) timeout)).1.
    assert (0 < 2 ^ Z.of_nat k) by lia.
    rewrite IH, backoff_spec, Nat2Z.inj_succ, Z.pow_succ_r by nia. cbn [fst]. nia. }
  assert (0 < 2 ^ Z.of_nat k) by lia. rewrite I. split; [reflexivity|].
  rewrite backoff_spec, Nat2Z.inj_succ, Z.pow_succ_r by nia. cbn [snd].
  destruct (Z.ltb_spec max (2 * Z.min (timeout * 2 ^ Z.of_nat k) max)),
    (Z.ltb_spec max (timeout * (2 * 2 ^ Z.of_nat k))); nia.
Qed.
