(* ===== verification/Malloc.v ===== *)
(** * Malloc

    Dynamic memory allocation (core/malloc.c).  The free list is kept as a
    list of (address, size) pairs in list order, apart from memory: the
    contents of free memory are not modelled.  The size word that precedes an
    allocation made by [malloc] is in memory, where [free] reads it back. *)

From S2P Require Import Prelude.
From S2P Require Import Memory.
From S2P Require Import World.
From S2P Require Import Object.

(** [1 << fls ( sizeof ( struct memory_block ) - 1 )] for the 16-byte
    [struct memory_block] of a 32-bit build. *)
Definition MIN_MEMBLOCK_SIZE : Z := 16.

Definition HEAP_SIZE : Z := 512 * 1024.

(** [NOWHERE]: the address of zero-length blocks. *)
Definition NOWHERE : Z := 2 ^ 32 - 1.

(** [offsetof ( struct autosized_block, data )] *)
Definition autosized_data : Z := 4.

(** Round up to a multiple of [MIN_MEMBLOCK_SIZE], at 32 bits. *)
Definition actual_size (size : Z) : Z :=
  Z.land (u32 (size + MIN_MEMBLOCK_SIZE - 1)) (not32 (MIN_MEMBLOCK_SIZE - 1)).

Section malloc.
Context `{Platform}.

Definition virt_to_phys (p : Z) : Z := u32 (p + virt_offset).
Definition phys_to_virt (p : Z) : Z := u32 (p - virt_offset).

(** ** Cache discarding *)

Definition discard_cache : prog heap Z :=
  (fix go (l : list (heap -> Z * heap)) : prog heap Z :=
     match l with
     | [] => ret 0
     | discard :: l =>
         discarded <- (fun h => let (n, h) := discard h in Ret n h) ;;
         if negb (discarded =? 0) then ret discarded else go l
     end) cache_discarders.

Definition discard_all_cache (fuel : nat) : prog heap unit :=
  iterate fuel (fun _ : unit =>
    discarded <- discard_cache ;;
    ret (if discarded =? 0 then inr tt else inl tt)) tt.

(** ** alloc_memblock *)

(** Size of the part of a free block at [b] before an aligned block. *)
Definition pre_size (align_mask offset b : Z) : Z :=
  Z.land (u32 (offset - virt_to_phys b)) align_mask.

(** The search through the free list: the block found and the free list
    without it, or [None]. *)
Fixpoint alloc_scan (actual align_mask offset : Z) (l : list (Z * Z))
    : option (Z * list (Z * Z)) :=
  match l with
  | [] => None
  | (b, sz) :: l =>
      let pre_size := pre_size align_mask offset b in
      if (sz <? pre_size) || (sz - pre_size <? actual) then
        match alloc_scan actual align_mask offset l with
        | None => None
        | Some (ptr, l') => Some (ptr, (b, sz) :: l')
        end
      else
        let post_size := sz - pre_size - actual in
        let block := b + pre_size in
        let post := block + actual in
        Some (block,
              (if pre_size <? MIN_MEMBLOCK_SIZE then [] else [(b, pre_size)])
              ++ (if MIN_MEMBLOCK_SIZE <=? post_size
                  then [(post, post_size)] else [])
              ++ l)
  end.

Definition alloc_memblock (fuel : nat) (size align offset : Z) : prog heap Z :=
  let actual := actual_size size in
  if actual =? 0 then ret NULL else
  let align_mask := Z.lor (u32 (align - 1)) (MIN_MEMBLOCK_SIZE - 1) in
  iterate fuel (fun _ : unit =>
    h <- gets id ;;
    match alloc_scan actual align_mask offset (free_blocks h) with
    | Some (ptr, l) =>
        let used := u32 (usedmem h + actual) in
        modify (fun _ =>
          mkHeap l (u32 (freemem h - actual)) used
            (if maxusedmem h <? used then used else maxusedmem h)) ;;
        ret (inr ptr)
    | None =>
        (* Try discarding some cached data to free up memory *)
        discarded <- discard_cache ;;
        ret (if discarded =? 0 then inr NULL else inl tt)
    end) tt.

(** ** free_memblock *)

(** Insertion of the freed block [(f, fs)] into the free list, merged with
    the blocks it touches.  A block that is found to end where the freed one
    starts and yet not to lie before it is a corrupt list. *)
Fixpoint free_scan (actual f fs : Z) (l : list (Z * Z))
    : option (list (Z * Z)) :=
  match l with
  | [] => Some [(f, fs)]
  | (b, bs) :: l =>
      let gap_before := s32 (f - (b + bs)) in
      let gap_after := s32 (b - (f + fs)) in
      if gap_before =? 0 then
        (* Merge with immediately preceding block *)
        if 0 <=? gap_after then None
        else free_scan actual b (u32 (bs + actual)) l
      else if 0 <=? gap_after then
        (* Reached a following block *)
        if gap_after =? 0 then Some ((f, u32 (fs + bs)) :: l)
        else Some ((f, fs) :: (b, bs) :: l)
      else
        match free_scan actual f fs l with
        | None => None
        | Some l' => Some ((b, bs) :: l')
        end
  end.

Definition free_memblock (ptr size : Z) : prog heap unit :=
  if ptr =? NULL then ret tt else
  let actual := actual_size size in
  h <- gets id ;;
  l <- deref (fun _ => free_scan actual ptr actual (free_blocks h)) ;;
  modify (fun _ =>
    mkHeap l (u32 (freemem h + actual)) (u32 (usedmem h - actual))
      (maxusedmem h)).

(** Add memory to the allocation pool. *)
Definition mpopulate (start len : Z) : prog heap unit :=
  let len := Z.land len (not32 (MIN_MEMBLOCK_SIZE - 1)) in
  free_memblock start len ;;
  modify (fun h => set_usedmem (u32 (usedmem h + len)) h).

Definition init_heap (heap_start : Z) : prog heap unit :=
  mpopulate heap_start HEAP_SIZE.

(** ** malloc, realloc, free *)

Definition on_heap {A} (p : prog heap A) : cprog A :=
  fun w => match p (w_heap w) with
           | Ret a h => Ret a (set_w_heap h w)
           | Undef => Undef
           | Spin => Spin
           end.

(** CPU accesses through a (virtual) pointer; an access through NULL is
    undefined. *)
Definition via {A} (p : Z) (m : cprog A) : cprog A :=
  if p =? NULL then undef else m.
Definition load_at {A} (ld : Z -> mem -> A) (p : Z) : cprog A :=
  via p (gets (fun w => ld (virt_to_phys p) (w_mem w))).
Definition load32 : Z -> cprog Z := load_at ld32.
Definition upd_mem (f : mem -> mem) : cprog unit :=
  modify (fun w => set_w_mem (f (w_mem w)) w).
Definition store32 (p v : Z) : cprog unit :=
  via p (upd_mem (st32 (virt_to_phys p) v)).
Definition store64 (p v : Z) : cprog unit :=
  via p (upd_mem (st64 (virt_to_phys p) v)).
Definition memset (p c n : Z) : cprog unit :=
  via p (upd_mem (fill (virt_to_phys p) c n)).
Definition memcpy (d s n : Z) : cprog unit :=
  via d (via s (upd_mem (copy (virt_to_phys d) (virt_to_phys s) n))).

Context `{!Methods}.

Definition realloc (old_ptr new_size : Z) : cprog Z :=
  (* Allocate new memory if necessary *)
  r <- (if new_size =? 0 then ret (Some NOWHERE) else
        let new_total_size := u32 (new_size + autosized_data) in
        if new_total_size <? new_size then ret None else
        new_block <- on_heap (alloc_memblock fuel new_total_size 1 0) ;;
        if new_block =? NULL then ret None else
        store32 new_block new_total_size ;;
        ret (Some (new_block + autosized_data))) ;;
  match r with
  | None => ret NULL
  | Some new_ptr =>
      (* Copy across relevant part of the old data region, then free it *)
      when (negb (old_ptr =? NULL) && negb (old_ptr =? NOWHERE))
        (let old_block := old_ptr - autosized_data in
         old_total_size <- load32 old_block ;;
         let old_size := u32 (old_total_size - autosized_data) in
         let len := if old_size <? new_size then old_size else new_size in
         memcpy new_ptr old_ptr len ;;
         on_heap (free_memblock old_block old_total_size)) ;;
      ret new_ptr
  end.

Definition malloc (size : Z) : cprog Z := realloc NULL size.

Definition free (ptr : Z) : cprog unit := realloc ptr 0 ;; ret tt.

Definition zalloc (size : Z) : cprog Z :=
  data <- malloc size ;;
  when (negb (data =? NULL)) (memset data 0 size) ;;
  ret data.

(** ** malloc_phys and the flat DMA API (include/ipxe/malloc.h, dma.h) *)

Definition malloc_phys (size phys_align : Z) : cprog Z :=
  on_heap (alloc_memblock fuel size phys_align 0).

Definition free_phys (ptr size : Z) : cprog unit :=
  on_heap (free_memblock ptr size).

Definition dma_alloc (len align : Z) : cprog Z := malloc_phys len align.
Definition dma_free (addr len : Z) : cprog unit := free_phys addr len.

(** [dma ( map, addr )]: the device-side address of a buffer. *)
Definition dma (addr : Z) : Z := virt_to_phys addr.

(** ** Specifications of accesses through a valid pointer *)

Lemma virt_to_phys_add p k :
  0 <= k -> virt_to_phys p + k < 2 ^ 32 ->
  virt_to_phys (p + k) = virt_to_phys p + k.
Proof. unfold virt_to_phys, u32. dlia. Qed.

Lemma virt_to_phys_range p : 0 <= virt_to_phys p < 4294967296.
Proof. apply u32_range. Qed.

Lemma wp_via {A} p (m : cprog A) Q w : 0 < p -> wp m Q w -> wp (via p m) Q w.
Proof.
  intros Hp Hm. unfold via, NULL.
  rewrite (proj2 (Z.eqb_neq p 0)) by lia. exact Hm.
Qed.

Lemma wp_load_at {A} (ld : Z -> mem -> A) p Q w :
  0 < p -> Q (ld (virt_to_phys p) (w_mem w)) w -> wp (load_at ld p) Q w.
Proof. intros Hp HQ. apply wp_via; auto. Qed.

Lemma wp_store32 p v Q w :
  0 < p -> Q tt (set_w_mem (st32 (virt_to_phys p) v (w_mem w)) w) ->
  wp (store32 p v) Q w.
Proof. intros Hp HQ. apply wp_via; auto. Qed.

Lemma wp_store64 p v Q w :
  0 < p -> Q tt (set_w_mem (st64 (virt_to_phys p) v (w_mem w)) w) ->
  wp (store64 p v) Q w.
Proof. intros Hp HQ. apply wp_via; auto. Qed.

Lemma wp_memset p c n Q w :
  0 < p -> Q tt (set_w_mem (fill (virt_to_phys p) c n (w_mem w)) w) ->
  wp (memset p c n) Q w.
Proof. intros Hp HQ. apply wp_via; auto. Qed.

End malloc.
