(* ===== verification/MallocSpec.v ===== *)
(** * MallocSpec

    Correctness of the allocator of Malloc.v.  The free list is sorted,
    coalesced and aligned, which makes it a canonical form of the set of free
    bytes; allocation and release are then described on that set. *)

From S2P Require Import Prelude.
From S2P Require Import Memory.
From S2P Require Import World.
From S2P Require Import Object.
From S2P Require Import Malloc.

Section malloc_spec.
Context `{Platform}.

(** Physically aligned to the allocation unit. *)
Definition unit_aligned (b : Z) : Prop := (b + virt_offset) mod 16 = 0.

(** A free list: blocks of whole units in ascending order within [lo, hi),
    no two of which touch. *)
Fixpoint blocks_ok (lo hi : Z) (l : list (Z * Z)) : Prop :=
  match l with
  | [] => True
  | (b, s) :: l =>
      lo <= b /\ unit_aligned b /\ 16 <= s /\ s mod 16 = 0 /\ b + s <= hi /\
      blocks_ok (b + s + 16) hi l
  end.

(** The byte at [x] is free. *)
Definition is_free (l : list (Z * Z)) (x : Z) : bool :=
  existsb (fun '(b, s) => in_range b s x) l.

(** Bytes in the free list. *)
Definition total (l : list (Z * Z)) : Z := foldr (fun '(_, s) n => s + n) 0 l.

Lemma blocks_ok_weaken lo lo' hi l : lo' <= lo -> blocks_ok lo hi l -> blocks_ok lo' hi l.
Proof. destruct l as [|[b s] l]; cbn; [done|]. intuition lia. Qed.

Lemma is_free_bounds lo hi l x : blocks_ok lo hi l -> is_free l x = true -> lo <= x < hi.
Proof.
  revert lo. induction l as [|[b s] l IH]; intros lo Hok Hf; [done|].
  cbn in *. destruct Hok as (? & _ & ? & _ & ? & Hok).
  apply orb_true_iff in Hf as [Hf|Hf].
  - apply in_range_spec in Hf. lia.
  - apply IH in Hok; [lia|done].
Qed.

Lemma is_free_below lo hi l x : blocks_ok lo hi l -> x < lo -> is_free l x = false.
Proof.
  intros Hok Hx. destruct (is_free l x) eqn:E; [|done].
  apply (is_free_bounds lo hi) in E; [lia|done].
Qed.

Lemma total_bounds lo hi l : blocks_ok lo hi l -> 0 <= total l <= Z.max 0 (hi - lo).
Proof.
  revert lo. induction l as [|[b s] l IH]; intros lo Hok; cbn [total foldr]; [lia|].
  cbn in Hok. destruct Hok as (? & _ & ? & _ & ? & Hok).
  apply IH in Hok. change (foldr _ 0 l) with (total l). lia.
Qed.

Lemma total_cons b s l : total ((b, s) :: l) = s + total l.
Proof. reflexivity. Qed.

Lemma is_free_cons b s l x : is_free ((b, s) :: l) x = in_range b s x || is_free l x.
Proof. reflexivity. Qed.

(** A block is maximal in the set of free bytes. *)
Lemma is_free_head lo hi b s l :
  blocks_ok lo hi ((b, s) :: l) ->
  is_free ((b, s) :: l) b = true /\ is_free ((b, s) :: l) (b + s) = false /\
  (forall x, is_free ((b, s) :: l) x = true -> b <= x) /\
  (forall x, b <= x < b + s -> is_free ((b, s) :: l) x = true) /\
  (forall x, in_range b s x = true -> is_free l x = false).
Proof.
  intros (? & ? & ? & ? & ? & Hok). split_and!.
  - rewrite is_free_cons. apply orb_true_iff. left. apply in_range_spec. lia.
  - rewrite is_free_cons, (is_free_below _ _ _ _ Hok) by lia.
    rewrite (proj2 (in_range_false _ _ _)) by lia. reflexivity.
  - intros x Hx. rewrite is_free_cons in Hx. apply orb_true_iff in Hx as [Hx|Hx].
    + apply in_range_spec in Hx. lia.
    + apply (is_free_bounds _ _ _ _ Hok) in Hx. lia.
  - intros x Hx. rewrite is_free_cons. apply orb_true_iff. left.
    apply in_range_spec. lia.
  - intros x Hx. apply in_range_spec in Hx. apply (is_free_below _ _ _ _ Hok). lia.
Qed.

(** The free list is determined by the set of free bytes. *)
Lemma blocks_ok_canonical lo1 lo2 hi l1 l2 :
  blocks_ok lo1 hi l1 -> blocks_ok lo2 hi l2 ->
  (forall x, is_free l1 x = is_free l2 x) -> l1 = l2.
Proof.
  revert lo1 lo2 l2. induction l1 as [|[b1 s1] l1 IH]; intros lo1 lo2 [|[b2 s2] l2] H1 H2 Heq.
  - reflexivity.
  - destruct (is_free_head _ _ _ _ _ H2) as (Hb & _). rewrite <- Heq in Hb. done.
  - destruct (is_free_head _ _ _ _ _ H1) as (Hb & _). rewrite Heq in Hb. done.
  - destruct (is_free_head _ _ _ _ _ H1) as (Hb1 & He1 & Hm1 & Hi1 & Ht1).
    destruct (is_free_head _ _ _ _ _ H2) as (Hb2 & He2 & Hm2 & Hi2 & Ht2).
    destruct H1 as (_ & _ & ? & _ & _ & H1), H2 as (_ & _ & ? & _ & _ & H2).
    rewrite Heq in Hb1, He1. rewrite <- Heq in Hb2, He2.
    apply Hm2 in Hb1. apply Hm1 in Hb2. assert (b2 = b1) as -> by lia.
    assert (s2 = s1) as ->.
    { destruct (Z.lt_trichotomy s1 s2) as [Hlt|[->|Hlt]]; [|done|].
      - rewrite Hi2 in He1 by lia. discriminate.
      - rewrite Hi1 in He2 by lia. discriminate. }
    f_equal. apply (IH _ _ _ H1 H2). intros x. specialize (Heq x).
    rewrite !is_free_cons in Heq. destruct (in_range b1 s1 x) eqn:E; [|exact Heq].
    rewrite Ht1, Ht2 by done. reflexivity.
Qed.

(** ** Alignment *)

Lemma mod_mod_pow2 a k n : 0 <= k <= n -> (a mod 2 ^ n) mod 2 ^ k = a mod 2 ^ k.
Proof.
  intros Hk. apply Z.mod_mod_divide. exists (2 ^ (n - k)).
  rewrite <- Z.pow_add_r by lia. f_equal. lia.
Qed.

Lemma align_mask_pow2 a : 0 <= a <= 31 ->
  Z.lor (u32 (2 ^ a - 1)) (MIN_MEMBLOCK_SIZE - 1) = 2 ^ (Z.max a 4) - 1.
Proof.
  intros Ha. assert (1 <= 2 ^ a <= 2 ^ 31) by
    (split; [apply (Z.pow_le_mono_r 2 0)|apply Z.pow_le_mono_r]; lia).
  rewrite u32_small by lia. change (MIN_MEMBLOCK_SIZE - 1) with (2 ^ 4 - 1).
  rewrite !Z.sub_1_r, <- !Z.ones_equiv. apply Z.bits_inj'. intros i Hi.
  rewrite Z.lor_spec, !Z.testbit_ones_nonneg by lia. lia.
Qed.

Lemma pre_size_mod k offset b : 0 <= k <= 32 ->
  pre_size (2 ^ k - 1) offset b = (offset - (b + virt_offset)) mod 2 ^ k.
Proof.
  intros Hk. unfold pre_size, virt_to_phys. rewrite land_ones_mod by lia.
  unfold u32. rewrite mod_mod_pow2 by lia.
  rewrite Zminus_mod, mod_mod_pow2, <- Zminus_mod by lia. reflexivity.
Qed.

(** ** Allocation *)

Lemma is_free_app l1 l2 x : is_free (l1 ++ l2) x = is_free l1 x || is_free l2 x.
Proof. apply existsb_app. Qed.

Lemma total_app l1 l2 : total (l1 ++ l2) = total l1 + total l2.
Proof.
  induction l1 as [|[b s] l1 IH]; [reflexivity|].
  rewrite <- app_comm_cons, !total_cons. lia.
Qed.

(** What is left of a free block on one side of an allocation. *)
Definition fragment (b n : Z) : list (Z * Z) :=
  if n <? MIN_MEMBLOCK_SIZE then [] else [(b, n)].

Lemma fragment_leb b n :
  fragment b n = if MIN_MEMBLOCK_SIZE <=? n then [(b, n)] else [].
Proof. unfold fragment. rewrite Z.ltb_antisym. by destruct (_ <=? _). Qed.

Lemma fragment_spec b n x :
  0 <= n -> n mod 16 = 0 -> is_free (fragment b n) x = in_range b n x /\ total (fragment b n) = n.
Proof.
  intros Hn Hm. unfold fragment, MIN_MEMBLOCK_SIZE. destruct (Z.ltb_spec n 16).
  - assert (n = 0) as -> by dlia. split; [|reflexivity]. symmetry.
    apply in_range_false. lia.
  - rewrite is_free_cons. cbn. split; [apply orb_false_r|lia].
Qed.

Lemma blocks_ok_fragment lo lo' hi b n l :
  lo <= b -> unit_aligned b -> 0 <= n -> n mod 16 = 0 -> b + n <= hi ->
  (n = 0 -> lo <= lo') -> (0 < n -> b + n + 16 <= lo') ->
  blocks_ok lo' hi l -> blocks_ok lo hi (fragment b n ++ l).
Proof.
  intros Hb Ha Hn Hm Hh H0 Hpos Hok. unfold fragment, MIN_MEMBLOCK_SIZE.
  destruct (Z.ltb_spec n 16).
  - apply (blocks_ok_weaken lo'); [apply H0; dlia|exact Hok].
  - cbn. split_and!; try assumption. apply (blocks_ok_weaken lo'); [lia|exact Hok].
Qed.

Section alloc.
Context (k offset actual : Z).
Hypothesis Hk : 4 <= k <= 32.
Hypothesis Hoff : offset mod 16 = 0.
Hypothesis Hact : 16 <= actual /\ actual mod 16 = 0.

(** Aligned as the caller of [alloc_memblock] asked. *)
Definition aligned_at (p : Z) : Prop := (p + virt_offset - offset) mod 2 ^ k = 0.

(** [pre_size] leads to the first suitably aligned address from [b] on. *)
Lemma pre_size_spec b : unit_aligned b ->
  let n := pre_size (2 ^ k - 1) offset b in
  0 <= n /\ n mod 16 = 0 /\ unit_aligned (b + n) /\ aligned_at (b + n) /\
  (forall p, b <= p -> aligned_at p -> b + n <= p).
Proof.
  intros Hb n. unfold n. rewrite pre_size_mod by lia.
  assert (Hpos : 0 < 2 ^ k) by lia. unfold unit_aligned, aligned_at in *.
  assert (H16 : (offset - (b + virt_offset)) mod 2 ^ k mod 16 = 0).
  { change 16 with (2 ^ 4). rewrite mod_mod_pow2 by lia. dlia. }
  pose proof (Z.mod_pos_bound (offset - (b + virt_offset)) (2 ^ k) Hpos).
  pose proof (Z.div_mod (offset - (b + virt_offset)) (2 ^ k)) as Hdm.
  set (q := (offset - (b + virt_offset)) / 2 ^ k) in *.
  set (r := (offset - (b + virt_offset)) mod 2 ^ k) in *.
  split_and!; [lia|exact H16|dlia| |].
  - replace (b + r + virt_offset - offset) with (- q * 2 ^ k) by lia.
    apply Z.mod_mul. lia.
  - intros p Hp Ha. apply Z.mod_divide in Ha as [z Hz]; [|lia].
    assert (Hd : p - b = (z + q) * 2 ^ k + r) by lia.
    assert (0 <= z + q) by nia. nia.
Qed.

Lemma alloc_scan_some lo hi l p l' :
  blocks_ok lo hi l ->
  alloc_scan actual (2 ^ k - 1) offset l = Some (p, l') ->
  blocks_ok lo hi l' /\ lo <= p /\ p + actual <= hi /\
  unit_aligned p /\ aligned_at p /\ total l = total l' + actual /\
  forall x, is_free l x = is_free l' x || in_range p actual x /\
            (in_range p actual x = true -> is_free l' x = false).
Proof.
  revert lo l'. induction l as [|[b s] l IH]; intros lo l' Hok Hs; [done|].
  pose proof Hok as (Hlo & Hb & Hs16 & Hsm & Hhi & Hok').
  destruct (pre_size_spec b Hb) as (Hn & Hnm & Hua & Haa & _).
  cbn [alloc_scan] in Hs. set (n := pre_size (2 ^ k - 1) offset b) in *.
  destruct ((s <? n) || (s - n <? actual)) eqn:Ebig.
  - destruct (alloc_scan _ _ _ l) as [[ptr l1]|]; [|done]. simplify_eq.
    destruct (IH _ _ Hok' eq_refl) as (Hok1 & Hp & Hph & Hpu & Hpa & Ht & Hx).
    rewrite !total_cons. split; [done|]. split_and!; try done; try lia. intros x.
    destruct (Hx x) as [Hx1 Hx2]. rewrite !is_free_cons, Hx1. split; [apply orb_assoc|].
    intros Hr. rewrite (Hx2 Hr), orb_false_r. apply in_range_spec in Hr.
    apply in_range_false. lia.
  - apply orb_false_iff in Ebig as [E1 E2].
    fold (fragment b n) in Hs. rewrite <- fragment_leb in Hs. simplify_eq.
    set (m := s - n - actual). assert (Hm : 0 <= m /\ m mod 16 = 0) by (unfold m; dlia).
    split_and!; try assumption; try lia.
    + apply (blocks_ok_fragment _ (b + n + 16)); try lia; try assumption.
      apply (blocks_ok_fragment _ (b + s + 16)); try lia; try assumption.
      unfold unit_aligned in *. dlia.
    + rewrite total_cons, !total_app.
      rewrite (proj2 (fragment_spec b n 0 ltac:(lia) Hnm)).
      rewrite (proj2 (fragment_spec (b + n + actual) m 0 ltac:(lia) ltac:(lia))). lia.
    + intros x. rewrite is_free_cons, !is_free_app.
      rewrite (proj1 (fragment_spec b n x ltac:(lia) Hnm)).
      rewrite (proj1 (fragment_spec (b + n + actual) m x ltac:(lia) ltac:(lia))).
      pose proof (is_free_below _ _ _ x Hok') as Hl. unfold in_range, m.
      split; [|intros Hr; rewrite Hl by lia; lia].
      destruct (is_free l x); [|lia]. rewrite !orb_true_r. reflexivity.
Qed.

(** When the scan fails, no suitably aligned range of free bytes exists. *)
Lemma alloc_scan_none lo hi l p :
  blocks_ok lo hi l ->
  alloc_scan actual (2 ^ k - 1) offset l = None -> aligned_at p ->
  exists x, p <= x < p + actual /\ is_free l x = false.
Proof.
  revert lo. induction l as [|[b s] l IH]; intros lo Hok Hs Hp.
  { exists p. split; [lia|reflexivity]. }
  pose proof Hok as (Hlo & Hb & Hs16 & Hsm & Hhi & Hok').
  destruct (pre_size_spec b Hb) as (_ & _ & _ & _ & Hmin).
  cbn [alloc_scan] in Hs. set (n := pre_size (2 ^ k - 1) offset b) in *.
  destruct ((s <? n) || (s - n <? actual)) eqn:Ebig; [|done].
  destruct (alloc_scan _ _ _ l) as [[ptr l1]|] eqn:Es; [done|].
  destruct (IH _ Hok' eq_refl Hp) as (x & Hx & Hxl).
  destruct (in_range b s x) eqn:Er.
  2: { exists x. rewrite is_free_cons, Er, Hxl. done. }
  apply in_range_spec in Er. destruct (Z.ltb_spec p b).
  - exists (b - 1). split; [lia|]. rewrite is_free_cons.
    rewrite (is_free_below _ _ _ _ Hok') by lia. unfold in_range. lia.
  - specialize (Hmin p ltac:(lia) Hp). exists (b + s). split; [lia|].
    apply (is_free_head lo hi b s l Hok).
Qed.
End alloc.

(** ** Release *)

Section release.
Context (lo hi : Z).
Hypothesis Hsize : 0 <= hi - lo < 2 ^ 31 /\ 0 < lo.

(** A block to be released: aligned, within the heap, not free. *)
Record allocated (f fs : Z) (l : list (Z * Z)) : Prop := {
  al_lo : lo <= f;
  al_hi : f + fs <= hi;
  al_unit : unit_aligned f;
  al_size : 16 <= fs /\ fs mod 16 = 0;
  al_used : forall x, in_range f fs x = true -> is_free l x = false }.

(** The free list with the block [(f, fs)] added. *)
Record released (f fs : Z) (l l' : list (Z * Z)) : Prop := {
  rel_total : total l' = total l + fs;
  rel_free : forall x, is_free l' x = is_free l x || in_range f fs x }.

Lemma s32_small x : - 2 ^ 31 <= x < 2 ^ 31 -> s32 x = x.
Proof. unfold s32, u32. intros. destruct (_ <? _) eqn:?; dlia. Qed.

(** The block and the first of the free list do not overlap. *)
Lemma allocated_cons f fs b s l lo' :
  blocks_ok lo' hi ((b, s) :: l) -> allocated f fs ((b, s) :: l) ->
  allocated f fs l /\ (f + fs <= b \/ b + s <= f).
Proof.
  intros (_ & _ & ? & _ & _ & _) [Hf Hh Hu [Hs Hm] Hx]. split.
  - constructor; auto. intros x Hr. specialize (Hx x Hr).
    rewrite is_free_cons in Hx. apply orb_false_iff in Hx. apply Hx.
  - destruct (Z.le_gt_cases (f + fs) b), (Z.le_gt_cases (b + s) f); auto.
    specialize (Hx (Z.max b f)). rewrite is_free_cons in Hx. unfold in_range in Hx. lia.
Qed.

Lemma released_cons f fs b s l l' :
  released f fs l l' -> released f fs ((b, s) :: l) ((b, s) :: l').
Proof.
  intros [Ht Hx]. constructor; [rewrite !total_cons; lia|].
  intros x. rewrite !is_free_cons, Hx. apply orb_assoc.
Qed.

(** The scan when no free block ends where the block to insert starts. *)
Lemma free_scan_alone actual f fs l lo' :
  blocks_ok lo' hi l -> lo <= lo' -> allocated f fs l ->
  (forall b s, (b, s) ∈ l -> b + s <> f) ->
  exists l', free_scan actual f fs l = Some l' /\
    blocks_ok (Z.min f lo') hi l' /\ released f fs l l'.
Proof.
  revert lo'. induction l as [|[b s] l IH]; intros lo' Hok Hlo Hal Hadj;
    pose proof Hal as [Hf Hh Hu [Hs Hm] _].
  { eexists. split; [reflexivity|]. split; [cbn; split_and!; auto; lia|].
    constructor; [cbn; lia|]. intros x. cbn. apply orb_false_r. }
  destruct (allocated_cons _ _ _ _ _ _ Hok Hal) as [Hal' Hdis].
  pose proof (Hadj b s ltac:(constructor)) as Hne.
  destruct Hok as (Hb & Hbu & Hs16 & Hsm & Hbh & Hok).
  cbn [free_scan]. rewrite !s32_small by lia.
  rewrite (proj2 (Z.eqb_neq (f - (b + s)) 0)) by lia.
  destruct (Z.leb_spec 0 (b - (f + fs))); [destruct (Z.eqb_spec (b - (f + fs)) 0)|].
  - eexists. split; [reflexivity|]. rewrite u32_small by lia.
    split; [cbn; split_and!; auto; try lia; [dlia|]|].
    { apply (blocks_ok_weaken (b + s + 16)); [lia|exact Hok]. }
    constructor; [rewrite !total_cons; lia|]. intros x. rewrite !is_free_cons.
    unfold in_range. destruct (is_free l x); lia.
  - eexists. split; [reflexivity|].
    split; [cbn; unfold unit_aligned in *; split_and!; auto; try lia; dlia|].
    constructor; [rewrite !total_cons; lia|]. intros x. rewrite !is_free_cons.
    unfold in_range. destruct (is_free l x); lia.
  - destruct (IH (b + s + 16) Hok ltac:(lia) Hal') as (l' & -> & Hok' & Hrel).
    { intros b' s' Hin. apply Hadj. by constructor. }
    eexists. split; [reflexivity|]. split; [|by apply released_cons].
    assert (b + s + 16 <= f) by (unfold unit_aligned in *; dlia).
    rewrite Z.min_r in Hok' by lia. cbn. split_and!; auto; lia.
Qed.

Lemma not_end_below lo' b s l :
  blocks_ok lo' hi l -> (b, s) ∈ l -> lo' <= b /\ 16 <= s.
Proof.
  revert lo'. induction l as [|[b' s'] l IH]; intros lo' Hok Hin; [by inversion Hin|].
  destruct Hok as (? & _ & ? & _ & ? & Hok).
  apply elem_of_cons in Hin as [Hin|Hin]; [by simplify_eq|].
  destruct (IH _ Hok Hin). lia.
Qed.

(** The scan succeeds, and the freed bytes join the free ones. *)
Lemma free_scan_some f fs l lo' :
  blocks_ok lo' hi l -> lo <= lo' -> allocated f fs l ->
  exists l', free_scan fs f fs l = Some l' /\
    blocks_ok (Z.min f lo') hi l' /\ released f fs l l'.
Proof.
  revert lo'. induction l as [|[b s] l IH]; intros lo' Hok Hlo Hal.
  { apply (free_scan_alone fs f fs [] lo' Hok Hlo Hal). intros b s Hin. inversion Hin. }
  destruct (allocated_cons _ _ _ _ _ _ Hok Hal) as [Hal' Hdis].
  pose proof Hal as [Hf Hh Hu [Hs Hm] _].
  pose proof Hok as (Hb & Hbu & Hs16 & Hsm & Hbh & Hok').
  destruct Hdis as [Hafter|Hbefore].
  { apply (free_scan_alone fs f fs _ lo' Hok Hlo Hal). intros b' s' Hin.
    apply elem_of_cons in Hin as [Hin|Hin]; [simplify_eq; lia|].
    pose proof (not_end_below _ _ _ _ Hok' Hin). lia. }
  cbn [free_scan]. rewrite !s32_small by lia.
  replace (0 <=? b - (f + fs)) with false by lia.
  destruct (Z.eqb_spec (f - (b + s)) 0) as [Hz|Hne].
  - rewrite u32_small by lia.
    destruct (free_scan_alone fs b (s + fs) l (b + s + 16) Hok' ltac:(lia))
      as (l' & Hl' & Hok1 & [Ht Hx]).
    + destruct Hal' as [_ _ _ _ Hused]. constructor; auto; try lia; [split; [lia|dlia]|].
      intros x Hr. apply in_range_spec in Hr. destruct (Z.ltb_spec x f).
      * apply (is_free_below _ _ _ _ Hok'). lia.
      * apply Hused, in_range_spec. lia.
    + intros b' s' Hin. pose proof (not_end_below _ _ _ _ Hok' Hin). lia.
    + exists l'. split; [exact Hl'|]. rewrite Z.min_l in Hok1 by lia.
      split; [apply (blocks_ok_weaken b); [lia|exact Hok1]|].
      constructor; [rewrite total_cons; lia|]. intros x. rewrite Hx, is_free_cons.
      unfold in_range. destruct (is_free l x); lia.
  - destruct (IH (b + s + 16) Hok' ltac:(lia) Hal') as (l' & -> & Hok1 & Hrel).
    assert (b + s + 16 <= f) by (unfold unit_aligned in *; dlia).
    eexists. split; [reflexivity|]. split; [|by apply released_cons].
    rewrite Z.min_r in Hok1 by lia. cbn. split_and!; auto; lia.
Qed.
End release.

(** ** The heap *)

Lemma actual_size_spec size : 1 <= size <= 2 ^ 32 - 16 ->
  16 <= actual_size size /\ actual_size size mod 16 = 0 /\
  size <= actual_size size < size + 16.
Proof.
  intros Hs. unfold actual_size, MIN_MEMBLOCK_SIZE.
  rewrite land_not32_15 by apply u32_range. rewrite u32_small by lia. split_and!; dlia.
Qed.

(** The state of a heap of the bytes [lo, hi). *)
Record heap_ok (lo hi : Z) (h : heap) : Prop := {
  hk_blocks : blocks_ok lo hi (free_blocks h);
  hk_bounds : 0 < lo /\ hi < 2 ^ 32 /\ 0 <= hi - lo < 2 ^ 31;
  hk_free : freemem h = total (free_blocks h);
  hk_used : usedmem h = hi - lo - total (free_blocks h);
  hk_max : usedmem h <= maxusedmem h < 2 ^ 32 }.

(** [h'] is [h] with the [n] bytes at [p] allocated. *)
Record block_taken (lo hi p n : Z) (h h' : heap) : Prop := {
  bt_null : p <> NULL;
  bt_alloc : allocated lo hi p n (free_blocks h');
  bt_free : forall x, is_free (free_blocks h) x =
                      is_free (free_blocks h') x || in_range p n x }.

Lemma wp_alloc_memblock lo hi fuel a size offset h Q :
  heap_ok lo hi h -> (1 <= fuel)%nat -> 1 <= size <= 2 ^ 32 - 16 ->
  0 <= a <= 31 -> offset mod 16 = 0 ->
  discard_cache h = Ret 0 h ->
  (forall p h', heap_ok lo hi h' -> block_taken lo hi p (actual_size size) h h' ->
     aligned_at (Z.max a 4) offset p -> Q p h') ->
  ((forall p, aligned_at (Z.max a 4) offset p ->
     exists x, p <= x < p + actual_size size /\ is_free (free_blocks h) x = false) ->
   Q NULL h) ->
  wp (alloc_memblock fuel size (2 ^ a) offset) Q h.
Proof.
  intros [Hok Hb Hf Hu Hm] Hfuel Hs Ha Ho Hd Hsome Hnone.
  destruct (actual_size_spec size Hs) as (H16 & Hmod & _).
  unfold alloc_memblock. rewrite (proj2 (Z.eqb_neq _ 0)) by lia.
  rewrite align_mask_pow2 by lia. apply wp_iterate_pos; [lia|]. repeat wp_prim.
  change (id h) with h.
  destruct (alloc_scan _ _ _ (free_blocks h)) as [[p l]|] eqn:Es.
  - destruct (alloc_scan_some (Z.max a 4) offset (actual_size size) ltac:(lia) Ho
      (conj H16 Hmod) _ _ _ _ _ Hok Es)
      as (Hok' & Hlo & Hhi & Hu' & Ha' & Ht & Hx).
    pose proof (total_bounds _ _ _ Hok). pose proof (total_bounds _ _ _ Hok').
    repeat wp_prim. rewrite !u32_small by lia. apply Hsome; [|constructor|exact Ha'].
    + constructor; wsimpl; auto; try lia. destruct (Z.ltb_spec (maxusedmem h)
        (usedmem h + actual_size size)); lia.
    + unfold NULL. lia.
    + constructor; auto. intros x. apply Hx.
    + intros x. apply Hx.
  - wp_prim. eapply wp_Ret; [exact Hd|]. repeat wp_prim. apply Hnone. intros p Hp.
    eapply alloc_scan_none; [..|exact Hok|exact Es|exact Hp]; auto; lia.
Qed.

Lemma wp_free_memblock lo hi p size h Q :
  heap_ok lo hi h -> 1 <= size <= 2 ^ 32 - 16 ->
  allocated lo hi p (actual_size size) (free_blocks h) ->
  (forall h', heap_ok lo hi h' ->
     (forall x, is_free (free_blocks h') x =
                is_free (free_blocks h) x || in_range p (actual_size size) x) ->
     maxusedmem h' = maxusedmem h -> Q tt h') ->
  wp (free_memblock p size) Q h.
Proof.
  intros [Hok Hb Hf Hu Hm] Hs Hal HQ. unfold free_memblock.
  pose proof (al_lo _ _ _ _ _ Hal). rewrite (proj2 (Z.eqb_neq p NULL)) by (unfold NULL; lia).
  destruct (free_scan_some lo hi ltac:(lia) _ _ _ lo Hok ltac:(lia) Hal)
    as (l' & Hl' & Hok' & [Ht Hx]). rewrite Z.min_r in Hok' by lia.
  destruct (actual_size_spec size Hs) as (H16 & _).
  pose proof (total_bounds _ _ _ Hok). pose proof (total_bounds _ _ _ Hok').
  do 3 wp_prim. eapply wp_deref; [exact Hl'|]. wp_prim. change (id h) with h.
  rewrite !u32_small by lia. apply HQ; auto. constructor; wsimpl; auto; lia.
Qed.

(** An allocated block that is released leaves the heap as it was before the
    allocation, but for the high-water mark. *)
Lemma taken_and_released lo hi p n h h' h'' :
  heap_ok lo hi h -> heap_ok lo hi h'' -> block_taken lo hi p n h h' ->
  (forall x, is_free (free_blocks h'') x =
             is_free (free_blocks h') x || in_range p n x) ->
  free_blocks h'' = free_blocks h /\ freemem h'' = freemem h /\
  usedmem h'' = usedmem h.
Proof.
  intros Hh Hh'' [_ _ Hx] Hx'.
  assert (E : free_blocks h'' = free_blocks h).
  { eapply blocks_ok_canonical; [apply Hh''|apply Hh|]. intros x. by rewrite Hx', Hx. }
  rewrite (hk_free _ _ _ Hh), (hk_free _ _ _ Hh''), (hk_used _ _ _ Hh),
    (hk_used _ _ _ Hh''), E. done.
Qed.

(** Freeing two blocks in turn. *)
Lemma free_two lo hi p q size size' h :
  heap_ok lo hi h -> 1 <= size <= 2 ^ 32 - 16 -> 1 <= size' <= 2 ^ 32 - 16 ->
  allocated lo hi p (actual_size size) (free_blocks h) ->
  allocated lo hi q (actual_size size') (free_blocks h) ->
  disjoint p (actual_size size) q (actual_size size') ->
  exists h1, (free_memblock p size ;; free_memblock q size') h = Ret tt h1 /\
    heap_ok lo hi h1 /\
    forall x, is_free (free_blocks h1) x =
      is_free (free_blocks h) x || in_range p (actual_size size) x
      || in_range q (actual_size size') x.
Proof.
  intros Hh Hs Hs' Hp Hq Hd.
  enough (W : wp (free_memblock p size ;; free_memblock q size')
    (fun _ h1 => heap_ok lo hi h1 /\ forall x, is_free (free_blocks h1) x =
      is_free (free_blocks h) x || in_range p (actual_size size) x
      || in_range q (actual_size size') x) h).
  { apply wp_run in W as ([] & h1 & E & W). eauto. }
  wp_prim. eapply wp_free_memblock; [exact Hh|exact Hs|exact Hp|].
  intros h' Hh' Hx _. eapply wp_free_memblock; [exact Hh'|exact Hs'| |].
  - destruct Hq as [? ? ? ? Hq]. constructor; auto. intros x Hr. rewrite Hx, Hq by done.
    unfold disjoint, in_range in *. lia.
  - intros h'' Hh'' Hx' _. split; [exact Hh''|]. intros x. by rewrite Hx', Hx.
Qed.

(** ** malloc and free *)

Context `{!Methods}.

Lemma wp_on_heap {A} (p : prog heap A) Q (w : world) :
  wp p (fun a h => Q a (set_w_heap h w)) (w_heap w) -> wp (on_heap p) Q w.
Proof. unfold wp, on_heap. destruct (p (w_heap w)); auto. Qed.

(** [p] is a block of [size] bytes made by [malloc]: its size word lies just
    before it, in a block that is not free. *)
Record malloced (lo hi p size : Z) (w : world) : Prop := {
  md_alloc : allocated lo hi (p - autosized_data)
               (actual_size (size + autosized_data)) (free_blocks (w_heap w));
  md_size : load 4 (virt_to_phys (p - autosized_data)) (w_mem w)
            = le_split 4 (size + autosized_data) }.

Lemma wp_malloc lo hi size (w : world) Q :
  heap_ok lo hi (w_heap w) -> (1 <= fuel)%nat -> 1 <= size <= 2 ^ 32 - 20 ->
  discard_cache (w_heap w) = Ret 0 (w_heap w) ->
  (forall p h', heap_ok lo hi h' ->
     block_taken lo hi (p - 4) (actual_size (size + 4)) (w_heap w) h' ->
     malloced lo hi p size (set_w_mem (st32 (virt_to_phys (p - 4)) (size + 4)
                              (w_mem w)) (set_w_heap h' w)) ->
     Q p (set_w_mem (st32 (virt_to_phys (p - 4)) (size + 4) (w_mem w))
            (set_w_heap h' w))) ->
  ((forall p, unit_aligned p ->
     exists x, p <= x < p + actual_size (size + 4) /\
               is_free (free_blocks (w_heap w)) x = false) -> Q NULL w) ->
  wp (malloc size) Q w.
Proof.
  intros Hh Hf Hs Hd Hsome Hnone. unfold malloc, realloc, autosized_data in *.
  rewrite (proj2 (Z.eqb_neq size 0)), u32_small by lia.
  replace (size + 4 <? size) with false by lia.
  repeat wp_prim. apply wp_on_heap.
  eapply (wp_alloc_memblock lo hi fuel 0); [exact Hh|exact Hf|lia|lia|done|exact Hd|..].
  - intros p h' Hh' Ht _. rewrite (proj2 (Z.eqb_neq p NULL)) by apply Ht.
    pose proof (al_lo _ _ _ _ _ (bt_alloc _ _ _ _ _ _ Ht)).
    destruct Hh as [_ Hb _ _ _]. repeat wp_prim. apply wp_store32; [lia|].
    repeat wp_prim. change (NULL =? NULL) with true. cbn [negb andb].
    repeat wp_prim. specialize (Hsome (p + 4) h' Hh').
    replace (p + 4 - 4) with p in Hsome by lia. apply Hsome; [exact Ht|].
    unfold autosized_data. constructor; replace (p + 4 - autosized_data) with p
      by (unfold autosized_data; lia); [apply Ht|]. wsimpl.
    apply (load_store_same _ (le_split 4 (size + 4))).
  - intros Hno. change (NULL =? NULL) with true. cbn iota. repeat wp_prim.
    destruct w. apply Hnone. intros p Hp. apply Hno. unfold aligned_at.
    rewrite Z.sub_0_r. exact Hp.
Qed.

Lemma wp_free lo hi p size (w : world) Q :
  heap_ok lo hi (w_heap w) -> 1 <= size <= 2 ^ 32 - 20 -> malloced lo hi p size w ->
  (forall m h', (forall x, m x = w_mem w x) -> heap_ok lo hi h' ->
     (forall x, is_free (free_blocks h') x = is_free (free_blocks (w_heap w)) x
                || in_range (p - 4) (actual_size (size + 4)) x) ->
     Q tt (set_w_heap h' (set_w_mem m w))) ->
  wp (free p) Q w.
Proof.
  intros Hh Hs [Hal Hsz] HQ. unfold autosized_data in *.
  pose proof Hal as [Hlo Hhi _ [H16 _] _]. pose proof (hk_bounds _ _ _ Hh).
  unfold free, realloc, NULL, NOWHERE, autosized_data. cbn [Z.eqb].
  repeat wp_prim. rewrite (proj2 (Z.eqb_neq p 0)), (proj2 (Z.eqb_neq p _)) by lia.
  cbn [negb andb]. repeat wp_prim. apply wp_load_at; [lia|]. unfold ld32. rewrite Hsz.
  rewrite le_combine_split, Z.mod_small by (cbn; lia). repeat wp_prim.
  rewrite u32_small by lia. replace (size + 4 - 4 <? 0) with false by lia.
  unfold memcpy, upd_mem. apply wp_via; [lia|]. apply wp_via; [lia|]. repeat wp_prim.
  apply wp_on_heap. eapply wp_free_memblock; [exact Hh|lia|exact Hal|].
  intros h' Hh' Hx _. repeat wp_prim. apply HQ; [|exact Hh'|exact Hx].
  intros x. unfold copy. rewrite (proj2 (in_range_false _ _ _)) by lia. reflexivity.
Qed.

Lemma wp_init_heap start Q :
  0 < start -> start + HEAP_SIZE < 2 ^ 32 -> unit_aligned start ->
  (forall h, heap_ok start (start + HEAP_SIZE) h -> usedmem h = 0 ->
     freemem h = HEAP_SIZE ->
     (forall x, is_free (free_blocks h) x = in_range start HEAP_SIZE x) -> Q tt h) ->
  wp (init_heap start) Q (mkHeap [] 0 0 0).
Proof.
  intros Hs Hh Ha HQ. unfold init_heap, mpopulate, free_memblock.
  rewrite (proj2 (Z.eqb_neq start NULL)) by (unfold NULL; lia).
  change (Z.land HEAP_SIZE (not32 (MIN_MEMBLOCK_SIZE - 1))) with HEAP_SIZE.
  repeat wp_prim. unfold HEAP_SIZE in *. change (actual_size _) with 524288.
  unfold id. wsimpl. change (u32 (0 + 524288)) with 524288.
  change (u32 (u32 (0 - 524288) + _)) with 0. apply HQ; try reflexivity.
  - constructor; wsimpl; [cbn; split_and!; auto; lia|lia|done|change (total _) with 524288; lia|lia].
  - intros x. cbn [is_free existsb free_blocks]. apply orb_false_r.
Qed.

(** ** The claims *)

(** [init_heap] turns the [HEAP_SIZE] bytes of an aligned heap below 4 GB
    into one free block and sets up the usage statistics. *)
Theorem init_heap_ok start :
  0 < start -> start + HEAP_SIZE < 2 ^ 32 -> unit_aligned start ->
  wp (init_heap start)
    (fun _ h => heap_ok start (start + HEAP_SIZE) h /\
       usedmem h = 0 /\ freemem h = HEAP_SIZE /\
       forall x, is_free (free_blocks h) x = in_range start HEAP_SIZE x)
    (mkHeap [] 0 0 0).
Proof. intros Hs Hh Ha. apply wp_init_heap; auto. Qed.

(** C17. Allocation: in a well-formed heap with nothing to discard, a request
    of [size] bytes at alignment [2 ^ a] and offset [offset] either returns a
    block with exactly that physical alignment, all of whose bytes were free
    and now are not (and no other byte changes), or returns NULL and leaves
    the heap alone, and then no aligned range of free bytes is large enough.
    The heap stays well formed: sorted, coalesced, statistics exact. *)
Theorem alloc_memblock_correct lo hi n a size offset h :
  heap_ok lo hi h -> 1 <= size <= 2 ^ 32 - 16 -> 0 <= a <= 31 ->
  offset mod 16 = 0 -> discard_cache h = Ret 0 h ->
  wp (alloc_memblock (S n) size (2 ^ a) offset)
    (fun p h' =>
       (heap_ok lo hi h' /\ block_taken lo hi p (actual_size size) h h' /\
        size <= actual_size size < size + 16 /\
        (virt_to_phys p - offset) mod 2 ^ a = 0) \/
       (p = NULL /\ h' = h /\
        forall q, aligned_at (Z.max a 4) offset q ->
          exists x, q <= x < q + actual_size size /\
                    is_free (free_blocks h) x = false)) h.
Proof.
  intros Hh Hs Ha Ho Hd. eapply wp_alloc_memblock; [exact Hh|lia|exact Hs|exact Ha|
    exact Ho|exact Hd|..]; [|auto].
  intros p h' Hh' Ht Hal. left. split_and!; auto; try apply actual_size_spec; auto.
  unfold aligned_at, virt_to_phys, u32 in *.
  rewrite Zminus_mod, mod_mod_pow2, <- Zminus_mod by lia.
  rewrite <- (mod_mod_pow2 _ a (Z.max a 4)), Hal by lia. apply Z.mod_0_l. lia.
Qed.

(** Round trip: whatever [alloc_memblock] returns, freeing it again with
    the same size succeeds and leaves the free list and the statistics
    exactly as they were before the allocation. *)
Theorem alloc_free_roundtrip lo hi n a size offset h :
  heap_ok lo hi h -> 1 <= size <= 2 ^ 32 - 16 -> 0 <= a <= 31 ->
  offset mod 16 = 0 -> discard_cache h = Ret 0 h ->
  wp (p <- alloc_memblock (S n) size (2 ^ a) offset ;; free_memblock p size)
    (fun _ h' => free_blocks h' = free_blocks h /\ freemem h' = freemem h /\
                 usedmem h' = usedmem h) h.
Proof.
  intros Hh Hs Ha Ho Hd. wp_prim. eapply wp_alloc_memblock;
    [exact Hh|lia|exact Hs|exact Ha|exact Ho|exact Hd|..].
  - intros p h' Hh' Ht _. eapply wp_free_memblock; [exact Hh'|exact Hs|apply Ht|].
    intros h'' Hh'' Hx _. eapply taken_and_released; eauto.
  - intros _. unfold free_memblock. change (NULL =? NULL) with true. cbn iota.
    wp_prim. done.
Qed.

(** Releases commute: two blocks of a well-formed heap can be freed in
    either order, with the same free list in the end. *)
Theorem free_memblock_commute lo hi p q size size' h :
  heap_ok lo hi h -> 1 <= size <= 2 ^ 32 - 16 -> 1 <= size' <= 2 ^ 32 - 16 ->
  allocated lo hi p (actual_size size) (free_blocks h) ->
  allocated lo hi q (actual_size size') (free_blocks h) ->
  disjoint p (actual_size size) q (actual_size size') ->
  exists h1 h2,
    (free_memblock p size ;; free_memblock q size') h = Ret tt h1 /\
    (free_memblock q size' ;; free_memblock p size) h = Ret tt h2 /\
    heap_ok lo hi h1 /\ free_blocks h1 = free_blocks h2.
Proof.
  intros Hh Hs Hs' Hp Hq Hd.
  destruct (free_two lo hi p q size size' h) as (h1 & E1 & Hh1 & Hx1); auto.
  destruct (free_two lo hi q p size' size h) as (h2 & E2 & Hh2 & Hx2); auto.
  { unfold disjoint in *. lia. }
  exists h1, h2. split_and!; auto.
  eapply blocks_ok_canonical; [apply Hh1|apply Hh2|]. intros x.
  rewrite Hx1, Hx2, <- !orb_assoc. f_equal. apply orb_comm.
Qed.

End malloc_spec.
