(* ===== verification/MallocTrace.v ===== *)
(** * MallocTrace

    Sequences of allocations and releases: the states that a heap can reach,
    as a step relation over the heap and the blocks in use. *)

From S2P Require Import Prelude.
From S2P Require Import Memory.
From S2P Require Import World.
From S2P Require Import Object.
From S2P Require Import Malloc.
From S2P Require Import MallocSpec.

Section trace.
Context `{Platform}.

(** No cache has anything to discard. *)
Hypothesis Hcache : forall h, discard_cache h = Ret 0 h.
Context (start : Z).
Hypothesis Hstart : 0 < start /\ start + HEAP_SIZE < 2 ^ 32 /\ unit_aligned start.

(** A heap, and the blocks in use with their requested sizes. *)
Definition heap_state : Type := heap * list (Z * Z).

Inductive heap_step : heap_state -> heap_state -> Prop :=
| step_alloc n a size offset p h h' live :
    1 <= size <= 2 ^ 32 - 16 -> 0 <= a <= 31 -> offset mod 16 = 0 ->
    alloc_memblock (S n) size (2 ^ a) offset h = Ret p h' ->
    heap_step (h, live) (h', if p =? NULL then live else (p, size) :: live)
| step_free p size h h' live live' :
    free_memblock p size h = Ret tt h' ->
    heap_step (h, live ++ (p, size) :: live') (h', live ++ live').

(** The bytes of the blocks in use. *)
Definition in_use (live : list (Z * Z)) (x : Z) : bool :=
  existsb (fun '(p, size) => in_range p (actual_size size) x) live.

Definition separate (b c : Z * Z) : Prop :=
  disjoint b.1 (actual_size b.2) c.1 (actual_size c.2).

Record heap_inv (st : heap_state) : Prop := {
  hi_heap : heap_ok start (start + HEAP_SIZE) st.1;
  hi_sizes : Forall (fun '(_, size) => 1 <= size <= 2 ^ 32 - 16) st.2;
  hi_live : Forall (fun '(p, size) =>
    allocated start (start + HEAP_SIZE) p (actual_size size) (free_blocks st.1)) st.2;
  hi_separate : ForallOrdPairs separate st.2;
  hi_cover : forall x, is_free (free_blocks st.1) x || in_use st.2 x
                       = in_range start HEAP_SIZE x }.

Lemma in_use_app l1 l2 x : in_use (l1 ++ l2) x = in_use l1 x || in_use l2 x.
Proof. apply existsb_app. Qed.

Lemma separate_sym b c : separate b c -> separate c b.
Proof. unfold separate, disjoint. lia. Qed.

(** Blocks in use are apart from what is free, and stay so when others are
    taken or released. *)
Lemma allocated_ext lo hi p n l l' :
  allocated lo hi p n l ->
  (forall x, in_range p n x = true -> is_free l' x = true -> is_free l x = true) ->
  allocated lo hi p n l'.
Proof.
  intros [? ? ? ? Hused] Hx. constructor; auto. intros x Hr. destruct (is_free l' x) eqn:E; [|done].
  specialize (Hused x Hr). by rewrite (Hx x Hr E) in Hused.
Qed.

Lemma allocated_apart lo hi p n q k l :
  allocated lo hi p n l -> 0 < k -> (forall x, in_range q k x = true -> is_free l x = true) ->
  disjoint q k p n.
Proof.
  intros [_ _ _ [Hn _] Hused] Hk Hx. unfold disjoint.
  destruct (Z.le_gt_cases (q + k) p), (Z.le_gt_cases (p + n) q); auto.
  specialize (Hx (Z.max p q)). specialize (Hused (Z.max p q)). unfold in_range in *.
  rewrite Hused in Hx by lia. discriminate Hx. lia.
Qed.

Lemma inv_alloc h live p size h' :
  heap_inv (h, live) -> 1 <= size <= 2 ^ 32 - 16 -> heap_ok start (start + HEAP_SIZE) h' ->
  block_taken start (start + HEAP_SIZE) p (actual_size size) h h' ->
  heap_inv (h', (p, size) :: live).
Proof.
  intros [Hh Hs Hl Hp Hc] Hsize Hh' [_ Ha Hf]. cbn [fst snd] in *.
  assert (Hpos : 0 < actual_size size) by (destruct Ha as [_ _ _ [] _]; lia).
  assert (Hfree : forall x, in_range p (actual_size size) x = true -> is_free (free_blocks h) x = true).
  { intros x Hx. by rewrite Hf, Hx, orb_true_r. }
  constructor; cbn [fst snd]; auto.
  - constructor; [exact Ha|]. eapply Forall_impl; [|exact Hl]. intros [q k] Hq.
    eapply allocated_ext; [exact Hq|]. intros x _ E. by rewrite Hf, E.
  - constructor; [|exact Hp]. eapply Forall_impl; [|exact Hl]. intros [q k] Hq.
    by eapply allocated_apart.
  - intros x. rewrite <- Hc, Hf. cbn [in_use existsb]. fold (in_use live x).
    by rewrite orb_assoc.
Qed.

Lemma inv_free h live live' p size h' :
  heap_inv (h, live ++ (p, size) :: live') -> heap_ok start (start + HEAP_SIZE) h' ->
  (forall x, is_free (free_blocks h') x =
             is_free (free_blocks h) x || in_range p (actual_size size) x) ->
  heap_inv (h', live ++ live').
Proof.
  intros [Hh Hs Hl Hp Hc] Hh' Hf. cbn [fst snd] in *.
  assert (Hsep : Forall (separate (p, size)) (live ++ live') /\ ForallOrdPairs separate (live ++ live')).
  { clear -Hp. induction live as [|b live IH]; cbn [app] in *.
    - inversion Hp; subst. auto.
    - inversion Hp as [|? ? Hb Hr]; subst. destruct (IH Hr) as [H1 H2].
      apply Forall_app in Hb as [Hb1 Hb2]. apply Forall_cons_1 in Hb2 as [Hb2 Hb3]. split.
      + constructor; [by apply separate_sym|exact H1].
      + constructor; [by apply Forall_app|exact H2]. }
  destruct Hsep as [Hsep Hpairs].
  apply Forall_app in Hs as [Hs1 [_ Hs2]%Forall_cons_1]. apply Forall_app in Hl as [Hl1 [_ Hl2]%Forall_cons_1].
  constructor; cbn [fst snd]; auto.
  - by apply Forall_app.
  - assert (Hl : Forall (fun '(q, k) => allocated start (start + HEAP_SIZE) q (actual_size k) (free_blocks h))
      (live ++ live')) by by apply Forall_app.
    eapply Forall_impl; [|exact (Forall_and Hl Hsep)]. intros [q k] [Hq Hd].
    eapply allocated_ext; [exact Hq|]. intros x Hx E. rewrite Hf in E.
    apply orb_true_iff in E as [E|E]; [exact E|]. apply in_range_spec in Hx, E.
    unfold separate, disjoint in Hd. cbn in Hd. lia.
  - intros x. rewrite <- Hc, Hf, !in_use_app. cbn [in_use existsb]. fold (in_use live' x).
    destruct (is_free _ x), (in_use live x), (in_range p _ x), (in_use live' x); done.
Qed.

(** The invariant holds in every state that the heap can reach. *)
Lemma inv_step st st' : heap_inv st -> heap_step st st' -> heap_inv st'.
Proof.
  intros Hinv Hstep. destruct Hstep as [n a size offset p h h' live Hs Ha Ho E|p size h h' live live' E].
  - pose proof (hi_heap _ Hinv) as Hh.
    assert (W : wp (alloc_memblock (S n) size (2 ^ a) offset)
      (fun p h' => heap_inv (h', if p =? NULL then live else (p, size) :: live)) h).
    { eapply wp_alloc_memblock; [exact Hh|lia|exact Hs|exact Ha|exact Ho|apply Hcache|..].
      - intros p' h1 Hh1 Ht _. rewrite (proj2 (Z.eqb_neq _ _)) by apply Ht. by eapply inv_alloc.
      - intros _. exact Hinv. }
    unfold wp in W. by rewrite E in W.
  - pose proof (hi_heap _ Hinv) as Hh. pose proof (hi_live _ Hinv) as Hl.
    pose proof (hi_sizes _ Hinv) as Hs.
    apply Forall_app in Hl as [_ [Hl _]%Forall_cons_1]. apply Forall_app in Hs as [_ [Hs _]%Forall_cons_1].
    assert (W : wp (free_memblock p size) (fun _ h' => heap_inv (h', live ++ live')) h).
    { eapply wp_free_memblock; [exact Hh|exact Hs|exact Hl|]. intros h1 Hh1 Hf _.
      by eapply inv_free. }
    unfold wp in W. by rewrite E in W.
Qed.

End trace.
