(* ===== verification/Uri.v ===== *)
(** * Uri

    core/uri.c: parsing, formatting, copying and resolution of Uniform
    Resource Identifiers.

    The strings of a URI live in the memory allocated with it; the model keeps
    them as values in the URI's record.  Where the code decodes a string in
    place, reading ahead of what it writes, the loop is modelled on the shared
    bytes.  No request parameter list exists on the boot path, so that
    [find_parameters] finds none and a URI has no parameters. *)

From stdpp Require Import strings.
From S2P Require Import Prelude.
From S2P Require Import World.
From S2P Require Import Object.
From S2P Require Import Malloc.
From S2P Require Import Cstring.
From S2P Require Import Printf.

(** ** Fields *)

Definition URI_SCHEME : nat := 0.
Definition URI_OPAQUE : nat := 1.
Definition URI_USER : nat := 2.
Definition URI_PASSWORD : nat := 3.
Definition URI_HOST : nat := 4.
Definition URI_PORT : nat := 5.
Definition URI_PATH : nat := 6.
Definition URI_EPATH : nat := 7.
Definition URI_EQUERY : nat := 8.
Definition URI_EFRAGMENT : nat := 9.
Definition URI_FIELDS : nat := 10.

Definition uri_field (u : uri) (field : nat) : option cstring :=
  match field with
  | 0%nat => uri_scheme u
  | 1%nat => uri_opaque u
  | 2%nat => uri_user u
  | 3%nat => uri_password u
  | 4%nat => uri_host u
  | 5%nat => uri_port_ u
  | 6%nat => uri_path u
  | 7%nat => uri_epath u
  | 8%nat => uri_equery u
  | 9%nat => uri_efragment u
  | _ => None
  end.

Definition no_uri : uri := mkUri None None None None None None None None None None.

Definition uri_is_absolute (u : uri) : bool :=
  match uri_scheme u with Some _ => true | None => false end.

(** ** Decoding *)

(** The string that starts at index [i] of an array of bytes. *)
Fixpoint until_nul (l : list Z) : cstring :=
  match l with
  | [] => []
  | c :: l => if c =? 0 then [] else c :: until_nul l
  end.
Definition cstr_at (m : list Z) (i : nat) : cstring := until_nul (drop i m).

(** The character for a percent sign followed by [s], and the number of
    characters of [s] it takes: a percent sign that no number follows stands
    for itself. *)
Definition percent_decode (s : cstring) : Z * nat :=
  let hexbuf := take 2 s in
  let '(decoded, hexbuf_end) := strtoul hexbuf 16 in
  let skip := (length hexbuf - length hexbuf_end)%nat in
  (if (skip =? 0)%nat then 0x25 else u8 decoded, skip).

(** The loop of [uri_decode] on an array [m] that holds both the string, from
    index [encoded] on, and the buffer, [len] bytes from index [buf] on. *)
Fixpoint uri_decode_loop (n : nat) (m : list Z) (encoded buf len count : nat)
    : list Z * nat :=
  match n with
  | O => (m, count)
  | S n =>
      let c := char_at m encoded in
      if c =? 0 then (m, count) else
      let encoded := S encoded in
      let '(c, skip) :=
        if c =? 0x25 then percent_decode (cstr_at m encoded) else (c, O) in
      let m := if (count <? len)%nat then <[(buf + count)%nat := c]> m else m in
      uri_decode_loop n m (encoded + skip) buf len (S count)
  end.

(** Every round reads at least one character of the array. *)
Definition uri_decode (m : list Z) (encoded buf len : nat) : list Z * nat :=
  uri_decode_loop (S (length m)) m encoded buf len 0.

Definition uri_decode_inplace (s : cstring) : cstring :=
  let '(m, len) := uri_decode (s ++ [0]) 0 0 (length s) in
  cstr_at (<[len := 0]> m) 0.

(** ** Encoding *)

Definition escaped (field : nat) : cstring :=
  match field with
  | 0%nat => cs "/#:@?=&"
  | 1%nat => cs "#"
  | 2%nat => cs "/#:@?"
  | 3%nat => cs "/#:@?"
  | 4%nat => cs "/#@?"
  | 5%nat => cs "/#:@?"
  | _ => cs "#:@?"
  end.

Definition uri_character_escaped (c : Z) (field : nat) : bool :=
  if negb (isprint (schar c)) || (c =? 0x20) then true
  else if (URI_EPATH <=? field)%nat then false
  else (c =? 0x25)
       || match strchr (escaped field) c with Some _ => true | None => false end.

(** What is printed for the character [c]: "%%%02X" of a (signed) [char], or
    "%c". *)
Definition uri_encode_char (field : nat) (c : Z) : cstring :=
  if uri_character_escaped c field
  then 0x25 :: format_hex (u32 (schar c)) 2 ZPAD
  else [c].

(** The loop of [uri_encode]: the buffer from [pos] on, with [remaining] bytes
    of it left (which may become negative). *)
Fixpoint uri_encode_loop (field : nat) (raw : cstring) (buf : list Z) (pos : nat)
    (remaining : Z) : list Z * nat :=
  match raw with
  | [] => (buf, pos)
  | c :: raw =>
      let '(buf, used) :=
        vsnprintf buf pos (Z.to_nat remaining) (uri_encode_char field c) in
      uri_encode_loop field raw buf (pos + used) (remaining - Z.of_nat used)
  end.

(** The [len] bytes of [buf] from [pos] on receive the encoded string. *)
Definition uri_encode (field : nat) (raw : cstring) (buf : list Z) (pos : nat)
    (len : Z) : list Z * nat :=
  let buf := if 0 <? len then <[pos := 0]> buf else buf in
  let '(buf, last) := uri_encode_loop field raw buf pos len in
  (buf, (last - pos)%nat).

Definition uri_encode_string := uri_encode.

(** ** Parsing *)

(** The index of the colon that ends a scheme, if [s] starts with one. *)
Fixpoint scheme_end (s : cstring) : option nat :=
  match s with
  | [] => None
  | c :: s =>
      if isalpha (schar c) || (c =? 0x2d) || (c =? 0x5f) then S <$> scheme_end s
      else if c =? 0x3a then Some O
      else None
  end.

(** Cut a string at the first [c]: the parts before and after it. *)
Definition chop (s : cstring) (c : Z) : cstring * option cstring :=
  match strchr s c with
  | Some n => (take n s, Some (drop (S n) s))
  | None => (s, None)
  end.

(** Scheme, opaque part and encoded path (with the query). *)
Definition parse_scheme (raw : cstring)
    : option cstring * option cstring * option cstring :=
  match scheme_end raw with
  | None => (None, None, Some raw)
  | Some n =>
      let rest := drop (S n) raw in
      if char_at rest 0 =? 0x2f then (Some (take n raw), None, Some rest)
      else (Some (take n raw), Some rest, None)
  end.

(** Authority and path of the hierarchical part [epath]. *)
Definition parse_net_path (scheme : option cstring) (epath : cstring)
    : option cstring * option cstring :=
  match scheme with
  | Some _ =>
      if strncmp epath (cs "//") 2 =? 0 then
        let authority := drop 2 epath in
        match strchr authority 0x2f with
        | Some n => (Some (take n authority), Some (drop n authority))
        | None => (Some authority, None)
        end
      else (None, Some epath)
  | None => (None, Some epath)
  end.

(** User, password, host and port of an authority. *)
Definition parse_authority (authority : cstring)
    : option cstring * option cstring * option cstring * option cstring :=
  let '(user, password, host) :=
    match chop authority 0x40 with
    | (user, Some host) =>
        let '(user, password) := chop user 0x3a in (Some user, password, host)
    | (host, None) => (None, None, host)
    end in
  match strrchr host 0x3a with
  | Some n =>
      if char_at host (length host - 1) =? 0x5d
      then (user, password, Some host, None)
      else (user, password, Some (take n host), Some (drop (S n) host))
  | None => (user, password, Some host, None)
  end.

(** The fields of the string before they are decoded. *)
Definition split_uri (raw : cstring) : uri :=
  (* Identify the parameter list, if present *)
  let raw := match strstr raw (cs "##params") with
             | Some n => take n raw | None => raw end in
  (* Chop off the fragment, if it exists *)
  let '(raw, efragment) := chop raw 0x23 in
  (* Identify absolute URIs *)
  let '(scheme, opaque, epath) := parse_scheme raw in
  match epath with
  | None => mkUri scheme opaque None None None None None None None efragment
  | Some epath =>
      (* Chop off the query, if it exists *)
      let '(epath, equery) := chop epath 0x3f in
      if char_at epath 0 =? 0 then
        mkUri scheme None None None None None None None equery efragment
      else
      (* Identify net/absolute/relative path *)
      let '(authority, epath) := parse_net_path scheme epath in
      match authority with
      | None => mkUri scheme None None None None None epath epath equery efragment
      | Some authority =>
          let '(user, password, host, port) := parse_authority authority in
          mkUri scheme None user password host port epath epath equery efragment
      end
  end.

(** Decode the fields up to the path. *)
Definition decode_fields (u : uri) : uri :=
  mkUri (uri_decode_inplace <$> uri_scheme u) (uri_decode_inplace <$> uri_opaque u)
    (uri_decode_inplace <$> uri_user u) (uri_decode_inplace <$> uri_password u)
    (uri_decode_inplace <$> uri_host u) (uri_decode_inplace <$> uri_port_ u)
    (uri_decode_inplace <$> uri_path u) (uri_epath u) (uri_equery u)
    (uri_efragment u).

Definition parse_fields (uri_string : cstring) : uri :=
  decode_fields (split_uri uri_string).

(** ** Formatting *)

Definition prefixes (field : nat) : Z :=
  if (field =? URI_PASSWORD)%nat || (field =? URI_PORT)%nat then 0x3a
  else if (field =? URI_EQUERY)%nat then 0x3f
  else if (field =? URI_EFRAGMENT)%nat then 0x23
  else 0.

(** One round of the loop over the fields: [used] bytes have been produced. *)
Definition format_field (u : uri) (field : nat) (buf : list Z) (used : nat)
    : list Z * nat :=
  match uri_field u field with
  | None => (buf, used)
  | Some string =>
      (* Skip path field if encoded path is present *)
      if (field =? URI_PATH)%nat
         && match uri_epath u with Some _ => true | None => false end
      then (buf, used) else
      let len := Z.of_nat (length buf) in
      (* Prefix this field, if applicable *)
      let prefix := prefixes field in
      let prefix :=
        if (field =? URI_HOST)%nat
           && match uri_user u with Some _ => true | None => false end
        then 0x40 else prefix in
      let '(buf, used) :=
        if prefix =? 0 then (buf, used) else
        let '(buf, n) := vsnprintf buf used (Z.to_nat (len - Z.of_nat used)) [prefix] in
        (buf, (used + n)%nat) in
      (* Encode this field *)
      let '(buf, n) := uri_encode_string field string buf used (len - Z.of_nat used) in
      let used := (used + n)%nat in
      (* Suffix this field, if applicable *)
      if (field =? URI_SCHEME)%nat then
        let suffix := match uri_host u with Some _ => cs "://" | None => cs ":" end in
        let '(buf, n) := vsnprintf buf used (Z.to_nat (len - Z.of_nat used)) suffix in
        (buf, (used + n)%nat)
      else (buf, used)
  end.

Definition format_uri (u : option uri) (buf : list Z) : list Z * nat :=
  let buf := <[O := 0]> buf in
  match u with
  | None => (buf, O)
  | Some u =>
      fold_left (fun '(buf, used) field => format_field u field buf used)
        (seq 0 URI_FIELDS) (buf, O)
  end.

Definition uri_port (u : option uri) (default_port : Z) : Z :=
  match u with
  | Some u => match uri_port_ u with
              | Some port => fst (strtoul port 0)
              | None => default_port
              end
  | None => default_port
  end.

(** ** URI objects *)

(** The encoded path of a path relative to [base]: leading "./" and "../"
    elements are taken off the former and applied to the latter. *)
Fixpoint resolve_dots (base relative : cstring) : cstring * cstring :=
  match relative with
  | c :: rest =>
      if negb (c =? 0x2e) then (base, relative) else
      match rest with
      | [] => (base, [])
      | c1 :: rest1 =>
          if c1 =? 0x2f then resolve_dots base rest1
          else if negb (c1 =? 0x2e) then (base, relative) else
          match rest1 with
          | [] => (dirname base, [])
          | c2 :: rest2 =>
              if c2 =? 0x2f then resolve_dots (dirname base) rest2
              else (base, relative)
          end
      end
  | [] => (base, [])
  end.

(** The path that [resolve_path] prints. *)
Definition join_path (base relative : cstring) : cstring :=
  base ++ (if char_at base (length base - 1) =? 0x2f then [] else cs "/") ++ relative.

Section uri.
Context `{Platform} `{!Methods}.

Definition get_uri (a : Z) : cprog uri := deref (fun w => w_uris w !! a).
Definition put_uri (a : Z) (u : uri) : cprog unit :=
  modify (fun w => set_w_uris (<[a := u]> (w_uris w)) w).

Definition uri_get (uri : Z) : cprog Z :=
  when (negb (uri =? NULL)) (ref_get (Some (R_uri uri))) ;;
  ret uri.

Definition uri_put (uri : Z) : cprog unit :=
  when (negb (uri =? NULL)) (ref_put (Some (R_uri uri))).

Definition uri_free (uri : Z) : cprog unit :=
  modify (fun w => set_w_uris (delete uri (w_uris w)) w) ;;
  free uri.

Definition parse_uri (uri_string : cstring) : cprog Z :=
  (* Allocate space for URI struct and two copies of the string *)
  let raw_len := Z.of_nat (length uri_string) + 1 in
  uri <- zalloc (u32 (sizeof_uri + 2 * raw_len)) ;;
  if uri =? NULL then ret NULL else
  put_ref (R_uri uri) (mkRefcnt 0 free_refcnt) ;;
  ref_init (R_uri uri) uri_free_fn ;;
  put_uri uri (parse_fields uri_string) ;;
  ret uri.

(** The string and its address in newly allocated memory, or NULL. *)
Definition strdup (src : cstring) : cprog (Z * cstring) :=
  dup <- malloc (Z.of_nat (length src) + 1) ;;
  ret (dup, src).

Definition format_uri_alloc (u : option uri) : cprog (Z * list Z) :=
  let len := S (format_uri u []).2 in
  string <- malloc (Z.of_nat len) ;;
  ret (string, (format_uri u (repeat 0 len)).1).

(** The length of a copy of the URI. *)
Definition uri_copy_fields (src : uri) : Z :=
  sizeof_uri
  + fold_left (fun len field =>
      match uri_field src field with
      | Some s => len + (Z.of_nat (length s) + 1)
      | None => len
      end) (seq 0 URI_FIELDS) 0.

Definition uri_dup (src : uri) : cprog Z :=
  dup <- zalloc (u32 (uri_copy_fields src)) ;;
  if dup =? NULL then ret NULL else
  put_ref (R_uri dup) (mkRefcnt 0 free_refcnt) ;;
  ref_init (R_uri dup) uri_free_fn ;;
  put_uri dup src ;;
  ret dup.

(** The resolved path and its address, or NULL. *)
Definition resolve_path (base_path relative_path : cstring) : cprog (Z * cstring) :=
  (* If relative path is absolute, just re-use it *)
  if char_at relative_path 0 =? 0x2f then strdup relative_path else
  let! (base_copy, base) := strdup base_path in
  if base_copy =? NULL then ret (NULL, []) else
  let '(base_tmp, relative) := resolve_dots (dirname base) relative_path in
  (* Create and return new path *)
  let path := join_path base_tmp relative in
  resolved <- malloc (Z.of_nat (length path) + 1) ;;
  free base_copy ;;
  ret (resolved, path).

Definition resolve_uri (base_uri relative_uri : Z) : cprog Z :=
  r <- get_uri relative_uri ;;
  (* If relative URI is absolute, just re-use it *)
  if uri_is_absolute r || (base_uri =? NULL) then uri_get relative_uri else
  tmp_uri <- get_uri base_uri ;;
  match uri_epath r with
  | Some epath =>
      let! (tmp_epath, e) := resolve_path (default (cs "/") (uri_epath tmp_uri)) epath in
      if tmp_epath =? NULL then ret NULL else
      let! (tmp_path, p) := strdup e in
      if tmp_path =? NULL then free tmp_epath ;; ret NULL else
      new_uri <- uri_dup
        (set_uri_path (Some (uri_decode_inplace p)) (set_uri_epath (Some e)
          (set_uri_equery (uri_equery r) (set_uri_efragment (uri_efragment r) tmp_uri)))) ;;
      free tmp_path ;;
      free tmp_epath ;;
      ret new_uri
  | None =>
      match uri_equery r, uri_efragment r with
      | Some _, _ =>
          uri_dup (set_uri_equery (uri_equery r)
            (set_uri_efragment (uri_efragment r) tmp_uri))
      | None, Some _ => uri_dup (set_uri_efragment (uri_efragment r) tmp_uri)
      | None, None => uri_dup tmp_uri
      end
  end.
End uri.
