(* ===== verification/UriSpec.v ===== *)
(** * UriSpec

    Decoding, encoding, formatting and parsing of URIs: decoding in place,
    round trips between the two directions, and the bounds of the buffers. *)

From stdpp Require Import strings.
From S2P Require Import Prelude.
From S2P Require Import World.
From S2P Require Import Cstring.
From S2P Require Import Printf.
From S2P Require Import Uri.

(** ** Decoding *)

(** Decoding as a function from strings to strings; [skip] characters have
    been taken by the previous escape. *)
Fixpoint decode_string (skip : nat) (s : cstring) : list Z :=
  match s with
  | [] => []
  | c :: s =>
      match skip with
      | S skip => decode_string skip s
      | O =>
          if c =? 0x25
          then (percent_decode s).1 :: decode_string (percent_decode s).2 s
          else c :: decode_string 0 s
      end
  end.

Definition no_nul (s : cstring) : Prop := Forall (fun c => c <> 0) s.

Lemma until_nul_app s t : no_nul s -> until_nul (s ++ 0 :: t) = s.
Proof.
  induction 1 as [|c s Hc _ IH]; [done|]. cbn [app until_nul].
  rewrite (proj2 (Z.eqb_neq c 0) Hc). by f_equal.
Qed.

Lemma until_nul_idemp s t : until_nul (s ++ 0 :: t) = until_nul s.
Proof.
  induction s as [|c s IH]; [done|]. cbn [app until_nul].
  destruct (c =? 0); [done|]. by f_equal.
Qed.

Lemma until_nul_id s : no_nul s -> until_nul s = s.
Proof. intros Hs. rewrite <- (until_nul_idemp s []). by apply until_nul_app. Qed.

Lemma percent_decode_skip s : ((percent_decode s).2 <= length s)%nat.
Proof.
  unfold percent_decode. destruct (strtoul (take 2 s) 16) as [v r]. cbn [snd].
  rewrite length_take. lia.
Qed.

Lemma decode_string_skip k s :
  (k <= length s)%nat -> decode_string k s = decode_string 0 (drop k s).
Proof.
  revert s. induction k as [|k IH]; intros s Hk; [done|].
  destruct s as [|c s]; [cbn in Hk; lia|]. cbn in *. apply IH. lia.
Qed.

Lemma length_decode_string s k : (length (decode_string k s) <= length s)%nat.
Proof.
  revert k. induction s as [|c s IH]; intros k; [done|]. cbn [decode_string].
  destruct k as [|k]; [destruct (c =? 0x25)|]; cbn [length].
  - specialize (IH (percent_decode s).2). lia.
  - specialize (IH O). lia.
  - specialize (IH k). lia.
Qed.

Lemma char_at_drop (m : list Z) e c t : drop e m = c :: t -> char_at m e = c.
Proof.
  intros E. unfold char_at. rewrite <- (take_drop e m), E.
  destruct (decide (e <= length m)%nat) as [He|He].
  - rewrite app_nth2; rewrite length_take_le by exact He; [|lia].
    by rewrite Nat.sub_diag.
  - rewrite drop_ge in E by lia. discriminate.
Qed.

Lemma drop_S_cons {A} (m : list A) e c t : drop e m = c :: t -> drop (S e) m = t.
Proof. intros E. rewrite <- Nat.add_1_r, <- drop_drop, E. done. Qed.

(** The loop on shared bytes: what is written never catches up with what is
    yet to be read. *)
Lemma uri_decode_loop_inplace n m e len count s :
  drop e m = s ++ [0] -> no_nul s -> (count <= e)%nat -> (length s < n)%nat ->
  (count + length s <= len)%nat ->
  let '(m', count') := uri_decode_loop n m e 0 len count in
  count' = (count + length (decode_string 0 s))%nat /\ length m' = length m /\
  take count' m' = take count m ++ decode_string 0 s.
Proof.
  revert m e count s. induction n as [|n IH]; intros m e count s Hd Hs Hc Hn Hl; [lia|].
  destruct s as [|c s]; cbn [uri_decode_loop].
  { rewrite (char_at_drop m e 0 []) by exact Hd. cbn.
    rewrite app_nil_r. by split_and!. }
  inversion Hs as [|? ? Hc0 Hs']; subst. rewrite (char_at_drop m e c (s ++ [0])) by exact Hd.
  rewrite (proj2 (Z.eqb_neq c 0) Hc0). apply drop_S_cons in Hd. cbn [length] in *.
  assert (He : (S e < length m)%nat).
  { apply (f_equal length) in Hd. rewrite length_drop, length_app in Hd. cbn in Hd. lia. }
  assert (Hstr : cstr_at m (S e) = s) by (unfold cstr_at; rewrite Hd; by apply until_nul_app).
  rewrite Hstr. destruct (if c =? 0x25 then percent_decode s else (c, O)) as [c' skip] eqn:Ec.
  assert (Hskip : (skip <= length s)%nat).
  { destruct (c =? 0x25); [|injection Ec as <- <-; lia].
    pose proof (percent_decode_skip s). rewrite Ec in *. done. }
  rewrite (proj2 (Nat.ltb_lt count len)) by lia. cbn [Nat.add].
  specialize (IH (<[count := c']> m) (S e + skip)%nat (S count) (drop skip s)).
  destruct (uri_decode_loop n _ _ 0 len (S count)) as [m' count'].
  destruct IH as (E1 & E2 & E3).
  - rewrite drop_insert_lt by lia. rewrite <- (drop_drop m skip (S e)), Hd.
    by apply drop_app_le.
  - by apply Forall_drop.
  - lia.
  - rewrite length_drop. lia.
  - rewrite length_drop. lia.
  - assert (E : decode_string 0 (c :: s) = c' :: decode_string 0 (drop skip s)).
    { cbn [decode_string]. rewrite <- decode_string_skip by exact Hskip.
      destruct (c =? 0x25); [rewrite Ec; done|by injection Ec as <- <-]. }
    rewrite E. cbn [length]. rewrite length_insert in E2. split_and!; [lia|done|].
    rewrite E3, take_S_r with (x := c') by (apply list_lookup_insert_eq; lia).
    rewrite take_insert_ge by lia. by rewrite <- app_assoc.
Qed.

Lemma decode_inplace_string s :
  no_nul s -> uri_decode_inplace s = until_nul (decode_string 0 s).
Proof.
  intros Hs. unfold uri_decode_inplace, uri_decode.
  pose proof (uri_decode_loop_inplace (S (length (s ++ [0]))) (s ++ [0]) 0 (length s) 0 s) as L.
  destruct (uri_decode_loop _ _ 0 0 (length s) 0) as [m' count'].
  destruct L as (-> & E2 & E3); [done|done|lia|rewrite length_app; cbn; lia|lia|].
  cbn [Nat.add take app] in *. pose proof (length_decode_string s 0) as Hle.
  unfold cstr_at. rewrite drop_0, insert_take_drop by (rewrite E2, length_app; cbn; lia).
  rewrite E3. apply until_nul_idemp.
Qed.

(** C24. Decoding in place is safe: although the decoded characters overwrite
    the string while it is being read, the result is that of decoding from one
    string to another, up to the first decoded NUL, and it is no longer than
    the original. *)
Theorem uri_decode_inplace_correct s :
  no_nul s ->
  uri_decode_inplace s = until_nul (decode_string 0 s) /\
  (length (uri_decode_inplace s) <= length s)%nat.
Proof.
  intros Hs. rewrite decode_inplace_string by exact Hs. split; [done|].
  etrans; [|exact (length_decode_string s 0)]. clear.
  induction (decode_string 0 s) as [|c l IH]; [done|]. cbn [until_nul length].
  destruct (c =? 0); cbn [length]; lia.
Qed.

(** ** Encoding *)

Definition encode_string (field : nat) (s : cstring) : cstring :=
  flat_map (uri_encode_char field) s.

(** It is what the formats print. *)
Lemma uri_encode_char_printed strings wide_strings field c :
  0 <= c < 256 ->
  vcprintf strings wide_strings
    (if uri_character_escaped c field then cs "%%%02X" else cs "%c") [u32 (schar c)]
  = Some (uri_encode_char field c).
Proof.
  intros Hc. unfold uri_encode_char.
  assert (E : bool_decide (vcprintf strings wide_strings (cs "%%%02X") [u32 (schar c)]
      = Some (0x25 :: format_hex (u32 (schar c)) 2 ZPAD)) &&
    bool_decide (vcprintf strings wide_strings (cs "%c") [u32 (schar c)] = Some [c]) = true).
  { revert c Hc. apply (chars_checked 0 256). vm_compute. reflexivity. }
  apply andb_prop in E as [E1%bool_decide_eq_true E2%bool_decide_eq_true].
  by destruct (uri_character_escaped c field).
Qed.

Definition ascii (c : Z) : Prop := 1 <= c < 128.
#[global] Instance ascii_dec c : Decision (ascii c) := ltac:(unfold ascii; apply _).

Definition hex_chars : list Z := cs "%0123456789ABCDEF".

Lemma not_hex x : existsb (Z.eqb x) hex_chars = false -> x ∉ hex_chars.
Proof.
  intros E Hx. apply list_elem_of_In in Hx. apply not_true_iff_false in E. apply E.
  apply existsb_exists. exists x. split; [exact Hx|apply Z.eqb_refl].
Qed.

(** The two digits of a character, and their decoding. *)
Definition hex_checked (c : Z) : bool :=
  let h := format_hex (u32 (schar c)) 2 ZPAD in
  (length h =? 2)%nat && (fst (percent_decode h) =? c) && (snd (percent_decode h) =? 2)%nat
  && forallb (fun x => existsb (Z.eqb x) hex_chars) h.

Lemma format_hex_ascii c :
  ascii c -> let h := format_hex (u32 (schar c)) 2 ZPAD in
  length h = 2%nat /\ percent_decode h = (c, 2%nat) /\ Forall (fun x => x ∈ hex_chars) h.
Proof.
  intros Hc h. assert (E : hex_checked c = true).
  { exact (chars_checked 1 128 hex_checked ltac:(vm_compute; reflexivity) c Hc). }
  unfold hex_checked in E. fold h in E. rewrite !andb_true_iff, !Nat.eqb_eq, Z.eqb_eq in E.
  destruct E as [[[E1 E2] E3] E4]. split; [done|]. split.
  - destruct (percent_decode h). cbn in *. congruence.
  - apply Forall_forall. intros x Hx. rewrite forallb_forall in E4.
    specialize (E4 x Hx). apply existsb_exists in E4.
    destruct E4 as (y & Hy & ->%Z.eqb_eq). by apply list_elem_of_In.
Qed.

Lemma percent_decode_app h t :
  length h = 2%nat -> percent_decode (h ++ t) = percent_decode h.
Proof.
  intros Hh. unfold percent_decode.
  rewrite take_app_length', take_ge by lia. reflexivity.
Qed.

Lemma percent_escaped field : (field < URI_EPATH)%nat -> uri_character_escaped 0x25 field = true.
Proof. intros Hf. unfold uri_character_escaped. by rewrite (proj2 (Nat.leb_gt _ _) Hf). Qed.

Lemma decode_encode_string field s :
  (field < URI_EPATH)%nat -> Forall ascii s -> decode_string 0 (encode_string field s) = s.
Proof.
  intros Hf. induction 1 as [|c s Hc Hs IH]; [done|].
  cbn [encode_string flat_map]. fold (encode_string field s). unfold uri_encode_char.
  destruct (uri_character_escaped c field) eqn:E; cbn [app].
  - destruct (format_hex_ascii c Hc) as (Hl & Hd & _). cbn [decode_string Z.eqb Pos.eqb].
    rewrite percent_decode_app, Hd by exact Hl. cbn [fst snd]. f_equal.
    rewrite decode_string_skip by (rewrite length_app; lia).
    by rewrite drop_app_length' by done.
  - cbn [decode_string]. destruct (Z.eqb_spec c 0x25) as [->|_]; [|by f_equal].
    by rewrite percent_escaped in E.
Qed.

Lemma encode_no_nul field s : Forall ascii s -> no_nul (encode_string field s).
Proof.
  induction 1 as [|c s Hc Hs IH]; [constructor|].
  apply Forall_app. split; [|exact IH]. unfold uri_encode_char.
  destruct (uri_character_escaped c field).
  - constructor; [done|]. destruct (format_hex_ascii c Hc) as (_ & _ & Hh).
    eapply Forall_impl; [|exact Hh]. cbn beta. intros x Hx ->. by apply (not_hex 0) in Hx.
  - repeat constructor. unfold ascii in Hc. lia.
Qed.

Lemma decode_encode field s :
  (field < URI_EPATH)%nat -> Forall ascii s -> uri_decode_inplace (encode_string field s) = s.
Proof.
  intros Hf Hs. rewrite decode_inplace_string by by apply encode_no_nul.
  rewrite decode_encode_string by done. apply until_nul_id.
  eapply Forall_impl; [|exact Hs]. unfold ascii. cbn. lia.
Qed.

(** ** Printing to a buffer *)

(** The buffer after [text] has been printed to it from [pos] on. *)
Definition printed (buf : list Z) (pos : nat) (text : list Z) : list Z :=
  (vsnprintf buf pos (length buf - pos) text).1.

Lemma lookup_printed buf pos text i :
  printed buf pos text !! i =
  if decide (pos <= i < length buf)%nat then
    if decide (i = pos + Nat.min (length buf - pos - 1) (length text))%nat then Some 0
    else if decide (i - pos < length text)%nat then text !! (i - pos)%nat else buf !! i
  else buf !! i.
Proof.
  unfold printed, vsnprintf. cbn [fst].
  destruct (length buf - pos)%nat as [|last] eqn:E.
  { rewrite take_0. cbn. rewrite decide_False by lia. done. }
  replace (S last - 1)%nat with last by lia.
  destruct (decide (i = pos + Nat.min last (length text))%nat) as [->|Hne].
  - rewrite decide_True by lia. apply list_lookup_insert_eq.
    rewrite length_inserts. lia.
  - rewrite list_lookup_insert_ne by lia.
    destruct (decide (pos <= i < length buf)%nat) as [Hi|Hi].
    + destruct (decide (i - pos < length text)%nat) as [Ht|Ht].
      * rewrite list_lookup_inserts by (rewrite ?length_take; lia).
        apply lookup_take_lt. lia.
      * apply list_lookup_inserts_ge. rewrite length_take. lia.
    + destruct (decide (i < pos)%nat); [by apply list_lookup_inserts_lt|].
      rewrite !lookup_ge_None_2; [done|lia|rewrite length_inserts; lia].
Qed.

Lemma length_printed buf pos text : length (printed buf pos text) = length buf.
Proof.
  unfold printed, vsnprintf. cbn [fst].
  destruct (length buf - pos)%nat; rewrite ?length_insert; apply length_inserts.
Qed.

(** Printing one text behind another is printing both. *)
Lemma printed_app buf pos t1 t2 :
  printed (printed buf pos t1) (pos + length t1) t2 = printed buf pos (t1 ++ t2).
Proof.
  apply list_eq. intros i. rewrite !lookup_printed, length_printed, length_app.
  destruct (decide (pos <= i < length buf)%nat) as [Hi|Hi]; [|by rewrite decide_False by lia].
  destruct (decide (pos + length t1 <= i)%nat) as [Ht|Ht].
  - rewrite decide_True by lia. case_decide as H1.
    { by rewrite decide_True by lia. }
    rewrite (decide_False (P := i = pos + Nat.min _ (length t1 + _))%nat) by lia.
    case_decide as H2.
    + rewrite decide_True, lookup_app_r by lia. f_equal. lia.
    + by rewrite !decide_False by lia.
  - rewrite decide_False by lia. case_decide as H1.
    { by rewrite decide_True by lia. }
    rewrite (decide_False (P := i = pos + Nat.min _ (length t1 + _))%nat) by lia.
    rewrite !decide_True by lia. by rewrite lookup_app_l by lia.
Qed.

(** The remaining size, as the code computes it. *)
Lemma vsnprintf_printed buf pos text :
  vsnprintf buf pos (Z.to_nat (Z.of_nat (length buf) - Z.of_nat pos)) text
  = (printed buf pos text, length text).
Proof. unfold printed. replace (Z.to_nat _) with (length buf - pos)%nat by lia. done. Qed.

Lemma printed_nil buf pos :
  (if 0 <? Z.of_nat (length buf) - Z.of_nat pos then <[pos := 0]> buf else buf)
  = printed buf pos [].
Proof.
  unfold printed, vsnprintf. cbn [fst]. rewrite take_nil. cbn [list_inserts length].
  destruct (length buf - pos)%nat eqn:E.
  - by rewrite (proj2 (Z.ltb_ge _ _)) by lia.
  - rewrite (proj2 (Z.ltb_lt _ _)) by lia. by rewrite Nat.min_0_r, Nat.add_0_r.
Qed.

(** Printing more text behind what has been printed from [pos] on. *)
Lemma vsnprintf_more buf pos t text :
  vsnprintf (printed buf pos t) (pos + length t)
    (Z.to_nat (Z.of_nat (length buf) - Z.of_nat (pos + length t))) text
  = (printed buf pos (t ++ text), length text).
Proof.
  rewrite <- (length_printed buf pos t) at 1. rewrite vsnprintf_printed. by rewrite printed_app.
Qed.

Lemma uri_encode_loop_printed field raw buf pos t :
  uri_encode_loop field raw (printed buf pos t) (pos + length t)
    (Z.of_nat (length buf) - Z.of_nat (pos + length t))
  = (printed buf pos (t ++ encode_string field raw),
     (pos + length (t ++ encode_string field raw))%nat).
Proof.
  revert t. induction raw as [|c raw IH]; intros t; cbn [uri_encode_loop encode_string flat_map].
  { by rewrite app_nil_r. }
  rewrite vsnprintf_more. specialize (IH (t ++ uri_encode_char field c)).
  rewrite length_app in IH at 1 2. rewrite <- app_assoc in IH.
  etrans; [|exact IH]. f_equal; lia.
Qed.

Lemma uri_encode_printed field raw buf pos :
  uri_encode field raw buf pos (Z.of_nat (length buf) - Z.of_nat pos)
  = (printed buf pos (encode_string field raw), length (encode_string field raw)).
Proof.
  unfold uri_encode. rewrite printed_nil.
  pose proof (uri_encode_loop_printed field raw buf pos []) as E.
  cbn [length app] in E. rewrite Nat.add_0_r in E. rewrite E. f_equal. lia.
Qed.

(** What a buffer holds after a text has been printed to it. *)
Lemma printed_spec buf text :
  buf <> [] -> let n := Nat.min (length buf - 1) (length text) in
  take (S n) (printed buf 0 text) = take n text ++ [0] /\
  drop (S n) (printed buf 0 text) = drop (S n) buf.
Proof.
  intros Hbuf n. assert (Hb : (0 < length buf)%nat) by (destruct buf; [done|cbn; lia]).
  split; apply list_eq; intros i.
  - destruct (decide (i < S n)%nat).
    + rewrite lookup_take_lt, lookup_printed by lia.
      rewrite decide_True by lia. cbn [Nat.add]. rewrite !Nat.sub_0_r.
      destruct (decide (i = n)) as [->|Hne].
      * rewrite decide_True by lia. rewrite lookup_app_r by (rewrite length_take; lia).
        rewrite length_take. by replace (n - Nat.min n _)%nat with O by lia.
      * rewrite decide_False, decide_True by lia.
        rewrite lookup_app_l, lookup_take_lt by (rewrite ?length_take; lia). done.
    + rewrite !lookup_ge_None_2; [done|..];
        rewrite ?length_app, ?length_take, ?length_printed; cbn [length]; lia.
  - rewrite !lookup_drop, lookup_printed. cbn [Nat.add]. rewrite !Nat.sub_0_r.
    unfold n. repeat case_decide; try done; exfalso; lia.
Qed.

(** A text that fits can be read back. *)
Lemma cstr_printed buf text :
  no_nul text -> (length text < length buf)%nat -> cstr_at (printed buf 0 text) 0 = text.
Proof.
  intros Ht Hl. destruct (printed_spec buf text) as [E _]; [by destruct buf; cbn in *; [lia|]|].
  rewrite Nat.min_r, (take_ge text) in E by lia. unfold cstr_at. rewrite drop_0.
  rewrite <- (take_drop (S (length text)) (printed buf 0 text)), E, <- app_assoc.
  by apply until_nul_app.
Qed.

Lemma length_encode_ascii field s :
  Forall ascii s -> (length (encode_string field s) <= 3 * length s)%nat.
Proof.
  induction 1 as [|c s Hc Hs IH]; [done|]. cbn [encode_string flat_map].
  fold (encode_string field s). rewrite length_app. unfold uri_encode_char.
  destruct (format_hex_ascii c Hc) as (Hl & _). destruct (uri_character_escaped c field).
  - cbn [length]. rewrite Hl. lia.
  - cbn [length]. lia.
Qed.

(** Encoding and decoding of a field are inverse on ASCII: whatever
    characters a string holds, and whichever of the fields up to the path it
    is encoded for, decoding the contents of the buffer in place gives the
    string back. *)
Theorem uri_encode_decode field s buf :
  (field < URI_EPATH)%nat -> Forall ascii s -> (3 * length s < length buf)%nat ->
  let '(buf', _) := uri_encode_string field s buf 0 (Z.of_nat (length buf)) in
  uri_decode_inplace (cstr_at buf' 0) = s.
Proof.
  intros Hf Hs Hb. unfold uri_encode_string.
  replace (Z.of_nat (length buf)) with (Z.of_nat (length buf) - Z.of_nat 0) by lia.
  rewrite uri_encode_printed. pose proof (length_encode_ascii field s Hs) as Hl.
  rewrite cstr_printed by (auto using encode_no_nul; lia). by apply decode_encode.
Qed.

(** The encoding of a byte outside ASCII: eight digits. *)
Definition nonascii_checked (c : Z) : bool :=
  let h := format_hex (u32 (schar c)) 2 ZPAD in
  negb (isprint (schar c)) && (length h =? 8)%nat && negb (existsb (Z.eqb 0) h)
  && Nat.eqb (length (until_nul (decode_string 0 (0x25 :: h)))) 7.

(** Bytes outside ASCII are not encoded properly: the code prints a
    signed character with "%02X", so that the character is sign-extended and
    comes out as an escape of eight digits, of which decoding takes two; what
    is decoded is seven characters long. *)
Theorem uri_encode_nonascii field c buf :
  128 <= c < 256 -> (9 < length buf)%nat ->
  let '(buf', used) := uri_encode_string field [c] buf 0 (Z.of_nat (length buf)) in
  used = 9%nat /\ length (uri_decode_inplace (cstr_at buf' 0)) = 7%nat.
Proof.
  intros Hc Hb. unfold uri_encode_string.
  replace (Z.of_nat (length buf)) with (Z.of_nat (length buf) - Z.of_nat 0) by lia.
  rewrite uri_encode_printed.
  assert (E : nonascii_checked c = true).
  { exact (chars_checked 128 256 nonascii_checked ltac:(vm_compute; reflexivity) c Hc). }
  unfold nonascii_checked in E. rewrite !andb_true_iff, !Nat.eqb_eq in E.
  destruct E as [[[Ep El] Ez] Ed].
  assert (Ee : encode_string field [c] = 0x25 :: format_hex (u32 (schar c)) 2 ZPAD).
  { cbn [encode_string flat_map]. rewrite app_nil_r.
    unfold uri_encode_char, uri_character_escaped. by rewrite Ep. }
  rewrite Ee. cbn [length]. rewrite El. split; [done|].
  assert (Hn : no_nul (0x25 :: format_hex (u32 (schar c)) 2 ZPAD)).
  { constructor; [done|]. apply Forall_forall. intros x Hx ->.
    apply negb_true_iff, not_true_iff_false in Ez. apply Ez, existsb_exists. by exists 0. }
  rewrite cstr_printed by (auto; cbn [length]; lia). by rewrite decode_inplace_string.
Qed.

(** ** Formatting *)

(** The text of a field, with its separators. *)
Definition field_text (u : uri) (field : nat) : list Z :=
  match uri_field u field with
  | None => []
  | Some s =>
      if (field =? URI_PATH)%nat
         && match uri_epath u with Some _ => true | None => false end then []
      else
        let prefix := if (field =? URI_HOST)%nat
                         && match uri_user u with Some _ => true | None => false end
                      then 0x40 else prefixes field in
        (if prefix =? 0 then [] else [prefix]) ++ encode_string field s ++
        (if (field =? URI_SCHEME)%nat
         then match uri_host u with Some _ => cs "://" | None => cs ":" end else [])
  end.

Definition uri_text (u : uri) : list Z := flat_map (field_text u) (seq 0 URI_FIELDS).

Lemma format_field_printed u field buf t :
  format_field u field (printed buf 0 t) (length t)
  = (printed buf 0 (t ++ field_text u field), length (t ++ field_text u field)).
Proof.
  unfold format_field, field_text. destruct (uri_field u field) as [s|]; [|by rewrite app_nil_r].
  destruct (_ && _); [by rewrite app_nil_r|]. rewrite length_printed.
  set (prefix := if _ && _ then 0x40 else _).
  set (pre := if prefix =? 0 then [] else [prefix]).
  assert (E : (if prefix =? 0 then (printed buf 0 t, length t)
               else let '(b, n) := vsnprintf (printed buf 0 t) (length t)
                      (Z.to_nat (Z.of_nat (length buf) - Z.of_nat (length t))) [prefix] in
                    (b, (length t + n)%nat))
              = (printed buf 0 (t ++ pre), length (t ++ pre))).
  { unfold pre. destruct (prefix =? 0); [by rewrite app_nil_r|].
    pose proof (vsnprintf_more buf 0 t [prefix]) as V. cbn [Nat.add] in V.
    by rewrite V, length_app. }
  rewrite E. clear E. unfold uri_encode_string.
  rewrite <- (length_printed buf 0 (t ++ pre)) at 1. rewrite uri_encode_printed.
  pose proof (printed_app buf 0 (t ++ pre) (encode_string field s)) as P.
  cbn [Nat.add] in P. rewrite P, <- length_app, <- app_assoc.
  destruct (field =? URI_SCHEME)%nat; [|by rewrite app_nil_r].
  set (t2 := t ++ pre ++ _).
  set (suffix := match uri_host u with Some _ => _ | None => _ end).
  pose proof (vsnprintf_more buf 0 t2 suffix) as V. cbn [Nat.add] in V.
  rewrite V. unfold t2. rewrite <- !app_assoc, <- length_app. by rewrite <- !app_assoc.
Qed.

Lemma format_uri_printed u buf :
  format_uri (Some u) buf = (printed buf 0 (uri_text u), length (uri_text u)).
Proof.
  unfold format_uri, uri_text.
  replace (<[O := 0]> buf) with (printed buf 0 []).
  2: { unfold printed, vsnprintf. destruct buf; [done|]. cbn. by rewrite Nat.min_0_r. }
  change (printed buf 0 [], O) with (printed buf 0 [], length (@nil Z)).
  change (flat_map (field_text u) (seq 0 URI_FIELDS))
    with ([] ++ flat_map (field_text u) (seq 0 URI_FIELDS)).
  generalize (@nil Z). induction (seq 0 URI_FIELDS) as [|field fields IH]; intros t.
  - cbn. by rewrite app_nil_r.
  - cbn [fold_left flat_map]. rewrite format_field_printed, IH. by rewrite <- app_assoc.
Qed.

