(* ===== verification/UriParse.v ===== *)
(** * UriParse

    Parsing a formatted URI gives the URI back. *)

From stdpp Require Import strings.
From S2P Require Import Prelude.
From S2P Require Import World.
From S2P Require Import Cstring.
From S2P Require Import Printf.
From S2P Require Import Uri.
From S2P Require Import UriSpec.

(** ** Searching *)

Lemma strchr_app a b x : x ∉ a -> strchr (a ++ x :: b) x = Some (length a).
Proof.
  induction a as [|c a IH]; intros Ha; cbn [app strchr].
  - by rewrite Z.eqb_refl.
  - apply not_elem_of_cons in Ha as [Hc Ha]. rewrite (proj2 (Z.eqb_neq c x)) by congruence.
    by rewrite IH.
Qed.

Lemma strchr_none a x : x ∉ a -> x <> 0 -> strchr a x = None.
Proof.
  intros Ha Hx. induction a as [|c a IH]; cbn [strchr].
  - by rewrite (proj2 (Z.eqb_neq x 0)).
  - apply not_elem_of_cons in Ha as [Hc Ha]. rewrite (proj2 (Z.eqb_neq c x)) by congruence.
    by rewrite IH.
Qed.

Lemma strrchr_none a x : x ∉ a -> strrchr a x = None.
Proof.
  induction a as [|c a IH]; intros Ha; cbn [strrchr]; [done|].
  apply not_elem_of_cons in Ha as [Hc Ha]. rewrite IH by exact Ha.
  by rewrite (proj2 (Z.eqb_neq c x)) by congruence.
Qed.

Lemma strrchr_app a b x : x ∉ b -> strrchr (a ++ x :: b) x = Some (length a).
Proof.
  intros Hb. induction a as [|c a IH]; cbn [app strrchr].
  - by rewrite strrchr_none, Z.eqb_refl.
  - by rewrite IH.
Qed.

(** A separator and what follows it, if anything does. *)
Definition tail_text (x : Z) (s : option cstring) : cstring :=
  match s with Some s => x :: s | None => [] end.

Lemma chop_tail a x s : x ∉ a -> x <> 0 -> chop (a ++ tail_text x s) x = (a, s).
Proof.
  intros Ha Hx. unfold chop. destruct s as [s|]; cbn [tail_text].
  - rewrite strchr_app by exact Ha. rewrite take_app_length.
    f_equal. f_equal. change (x :: s) with ([x] ++ s). rewrite app_assoc.
    apply drop_app_length'. rewrite length_app. cbn. lia.
  - rewrite app_nil_r. by rewrite strchr_none.
Qed.

(** ** Encoded fields *)

Definition scheme_char (c : Z) : bool := isalpha (schar c) || (c =? 0x2d) || (c =? 0x5f).
Definition scheme_chars (s : cstring) : Prop :=
  Forall (fun c => ascii c /\ scheme_char c = true) s.

(** Characters that are never escaped in the fields from the encoded path
    on. *)
Definition plain (s : cstring) : Prop :=
  Forall (fun c => isprint (schar c) = true /\ c <> 0x20) s.

Lemma scheme_end_app s t : scheme_chars s -> scheme_end (s ++ 0x3a :: t) = Some (length s).
Proof.
  induction 1 as [|c s [_ Hc] _ IH]; [done|]. cbn [app scheme_end].
  unfold scheme_char in Hc. rewrite Hc, IH. done.
Qed.

Lemma encode_not_in field s x :
  Forall ascii s -> uri_character_escaped x field = true ->
  existsb (Z.eqb x) hex_chars = false -> x ∉ encode_string field s.
Proof.
  intros Hs Hx Hh. induction Hs as [|c s Hc Hs IH]; [apply not_elem_of_nil|].
  cbn [encode_string flat_map]. fold (encode_string field s). apply not_elem_of_app.
  split; [|exact IH]. unfold uri_encode_char.
  destruct (uri_character_escaped c field) eqn:E.
  - apply not_elem_of_cons. split.
    + intros ->. discriminate.
    + destruct (format_hex_ascii c Hc) as (_ & _ & Hf). intros Hin.
      rewrite Forall_forall in Hf. apply (not_hex x Hh), Hf. by apply list_elem_of_In.
  - rewrite list_elem_of_singleton. intros ->. congruence.
Qed.

Lemma encode_plain field s :
  (URI_EPATH <= field)%nat -> plain s -> encode_string field s = s.
Proof.
  intros Hf. induction 1 as [|c s [Hp Hsp] Hs IH]; [done|].
  cbn [encode_string flat_map]. fold (encode_string field s). rewrite IH.
  unfold uri_encode_char, uri_character_escaped.
  rewrite Hp, (proj2 (Z.eqb_neq c 0x20)), (proj2 (Nat.leb_le _ _)) by done. done.
Qed.

Lemma scheme_char_kept c :
  ascii c -> scheme_char c = true -> uri_character_escaped c URI_SCHEME = false.
Proof.
  intros Hc H.
  pose proof (chars_checked 1 128
    (fun c => negb (scheme_char c) || negb (uri_character_escaped c URI_SCHEME))
    ltac:(vm_compute; reflexivity) c Hc) as E.
  cbv beta in E. rewrite H in E. by apply negb_true_iff in E.
Qed.

Lemma encode_scheme s : scheme_chars s -> encode_string URI_SCHEME s = s /\ Forall ascii s.
Proof.
  induction 1 as [|c s [Ha Hc] Hs [IH1 IH2]]; [done|].
  pose proof (scheme_char_kept c Ha Hc) as He.
  cbn [encode_string flat_map]. fold (encode_string URI_SCHEME s).
  unfold uri_encode_char. rewrite He, IH1. split; [done|by constructor].
Qed.

Lemma decode_scheme s : scheme_chars s -> uri_decode_inplace s = s.
Proof.
  intros Hs. destruct (encode_scheme s Hs) as [E Ha]. rewrite <- E at 1.
  apply decode_encode; [unfold URI_SCHEME, URI_EPATH; lia|exact Ha].
Qed.

(** The last character of a string. *)
Definition last_char (s : cstring) : Z := char_at s (length s - 1).

Lemma last_char_snoc s c : last_char (s ++ [c]) = c.
Proof.
  unfold last_char, char_at. rewrite length_app. cbn [length].
  rewrite app_nth2 by lia. by replace (length s + 1 - 1 - length s)%nat with O by lia.
Qed.

Lemma last_char_app s t : t <> [] -> last_char (s ++ t) = last_char t.
Proof.
  intros Ht. destruct t as [|c t _] using rev_ind; [done|].
  by rewrite app_assoc, !last_char_snoc.
Qed.

Lemma encode_string_app field s t :
  encode_string field (s ++ t) = encode_string field s ++ encode_string field t.
Proof. unfold encode_string. by rewrite flat_map_app. Qed.

(** The last character of an encoded field is a digit, or that of the field. *)
Lemma encode_last field s x :
  Forall ascii s -> existsb (Z.eqb x) hex_chars = false -> x <> 0 ->
  uri_character_escaped x field = false ->
  last_char (encode_string field s) = x <-> last_char s = x.
Proof.
  intros Hs Hx H0 He. destruct s as [|c s _] using rev_ind; [done|].
  apply Forall_app in Hs as [_ Hc]. inversion Hc as [|? ? Hc' _]; subst. clear Hc.
  rewrite last_char_snoc, encode_string_app. cbn [encode_string flat_map]. rewrite app_nil_r.
  unfold uri_encode_char. destruct (uri_character_escaped c field) eqn:E.
  - destruct (format_hex_ascii c Hc') as (Hl & _ & Hf).
    destruct (format_hex _ 2 ZPAD) as [|a [|b [|]]]; try discriminate.
    rewrite last_char_app by done. change (0x25 :: [a; b]) with ([0x25; a] ++ [b]).
    rewrite last_char_snoc. inversion Hf as [|? ? _ Hf']; subst. inversion Hf'; subst.
    split; intros ->; [by apply not_hex in Hx|congruence].
  - by rewrite last_char_snoc.
Qed.

Lemma encode_not_in_raw field s x :
  Forall ascii s -> x ∉ s -> existsb (Z.eqb x) hex_chars = false ->
  x ∉ encode_string field s.
Proof.
  intros Hs Hx Hh. induction Hs as [|c s Hc Hs IH]; [apply not_elem_of_nil|].
  apply not_elem_of_cons in Hx as [Hxc Hx].
  cbn [encode_string flat_map]. fold (encode_string field s). apply not_elem_of_app.
  split; [|by apply IH]. unfold uri_encode_char. destruct (uri_character_escaped c field).
  - apply not_elem_of_cons. split; [intros ->; discriminate|].
    destruct (format_hex_ascii c Hc) as (_ & _ & Hf). intros Hin.
    rewrite Forall_forall in Hf. apply (not_hex x Hh), Hf. by apply list_elem_of_In.
  - by rewrite list_elem_of_singleton.
Qed.

(** ** Authorities *)

Definition authority_text (user password : option cstring) (host : cstring)
    (port : option cstring) : cstring :=
  match user with
  | Some user => (encode_string URI_USER user
                  ++ tail_text 0x3a (encode_string URI_PASSWORD <$> password)) ++ [0x40]
  | None => []
  end ++ encode_string URI_HOST host ++ tail_text 0x3a (encode_string URI_PORT <$> port).

Definition ascii_field (s : option cstring) : Prop := from_option (Forall ascii) True s.

(** A port, if there is one, does not end in a bracket; otherwise the host
    contains no colon or ends in one (an IPv6 address). *)
Definition host_ok (host : cstring) (port : option cstring) : Prop :=
  match port with
  | Some port => last_char port <> 0x5d
  | None => 0x3a ∉ host \/ last_char host = 0x5d
  end.

Lemma not_in_tail x y s :
  x <> y -> from_option (fun s => x ∉ s) True s -> x ∉ tail_text y s.
Proof.
  intros Hxy Hs. destruct s as [s|]; cbn in *; [|apply not_elem_of_nil].
  apply not_elem_of_cons. by split.
Qed.

(** The characters that separate the parts of an authority, or end it, are
    escaped in its parts. *)
Lemma encode_separator field s x :
  In x [0x2f; 0x23; 0x40; 0x3f] -> (URI_USER <= field <= URI_PORT)%nat -> Forall ascii s ->
  x ∉ encode_string field s.
Proof.
  intros Hx Hf Hs. unfold URI_USER, URI_PORT in Hf.
  apply encode_not_in; [exact Hs|..].
  - destruct field as [|[|[|[|[|[|]]]]]]; try lia;
      cbn in Hx; destruct_or! Hx; subst; reflexivity || done.
  - cbn in Hx. destruct_or! Hx; subst; reflexivity || done.
Qed.

Lemma authority_separator user password host port x :
  In x [0x2f; 0x23; 0x3f] -> ascii_field user -> ascii_field password ->
  Forall ascii host -> ascii_field port -> x ∉ authority_text user password host port.
Proof.
  intros Hx Hu Hp Hh Hpo.
  assert (Hx4 : In x [0x2f; 0x23; 0x40; 0x3f]) by (cbn in *; tauto).
  assert (Hc : x <> 0x3a /\ x <> 0x40) by (cbn in Hx; destruct_or! Hx; subst; done || lia).
  unfold authority_text. apply not_elem_of_app. split; [|apply not_elem_of_app; split].
  - destruct user as [user|]; [|apply not_elem_of_nil]. rewrite !not_elem_of_app.
    split; [split|rewrite list_elem_of_singleton; tauto].
    + by apply encode_separator; unfold URI_USER, URI_PORT; [|lia|].
    + apply not_in_tail; [tauto|]. destruct password as [p|]; cbn; [|done].
      by apply encode_separator; unfold URI_USER, URI_PASSWORD, URI_PORT; [|lia|].
  - by apply encode_separator; unfold URI_USER, URI_HOST, URI_PORT; [|lia|].
  - apply not_in_tail; [tauto|]. destruct port as [p|]; cbn; [|done].
    by apply encode_separator; unfold URI_USER, URI_PORT; [|lia|].
Qed.

Lemma parse_host_port (host : cstring) (port u p : option cstring) :
  Forall ascii host -> ascii_field port -> host_ok host port ->
  let hp := encode_string URI_HOST host ++ tail_text 0x3a (encode_string URI_PORT <$> port) in
  match strrchr hp 0x3a with
  | Some n =>
      if char_at hp (length hp - 1) =? 0x5d then (u, p, Some hp, None)
      else (u, p, Some (take n hp), Some (drop (S n) hp))
  | None => (u, p, Some hp, None)
  end = (u, p, Some (encode_string URI_HOST host), encode_string URI_PORT <$> port).
Proof.
  intros Hh Hp Hok hp. fold (last_char hp). unfold hp. destruct port as [port|]; cbn [tail_text fmap option_fmap option_map].
  - assert (Hn : 0x3a ∉ encode_string URI_PORT port) by by apply encode_not_in.
    rewrite strrchr_app by exact Hn. rewrite take_app_length.
    replace (drop (S _) _) with (encode_string URI_PORT port).
    2: { change (0x3a :: ?s) with ([0x3a] ++ s). rewrite app_assoc, drop_app_length'; [done|].
         rewrite length_app. cbn. lia. }
    rewrite last_char_app by done. destruct (Z.eqb_spec (last_char (0x3a :: encode_string URI_PORT port)) 0x5d) as [E|]; [|done].
    exfalso. apply Hok. apply (encode_last URI_PORT port 0x5d Hp); try done.
    destruct (encode_string URI_PORT port) as [|c l]; [done|].
    change (0x3a :: c :: l) with ([0x3a] ++ c :: l) in E. by rewrite last_char_app in E.
  - rewrite app_nil_r. destruct Hok as [Hn|Hl].
    + rewrite strrchr_none; [done|]. by apply encode_not_in_raw.
    + rewrite (proj2 (encode_last URI_HOST host 0x5d Hh eq_refl ltac:(lia) eq_refl) Hl).
      by destruct (strrchr _ _).
Qed.

Lemma parse_authority_text (user password : option cstring) (host : cstring)
    (port : option cstring) :
  ascii_field user -> ascii_field password -> (user = None -> password = None) ->
  Forall ascii host -> ascii_field port -> host_ok host port ->
  parse_authority (authority_text user password host port)
  = (encode_string URI_USER <$> user, encode_string URI_PASSWORD <$> password,
     Some (encode_string URI_HOST host), encode_string URI_PORT <$> port).
Proof.
  intros Hu Hpw Hup Hh Hpo Hok. unfold parse_authority, authority_text.
  set (hp := encode_string URI_HOST host ++ _).
  assert (Hat : 0x40 ∉ hp).
  { apply not_elem_of_app. split.
    - apply encode_separator; [cbn; tauto|unfold URI_USER, URI_HOST, URI_PORT; lia|done].
    - apply not_in_tail; [lia|]. destruct port; cbn; [|done].
      apply encode_separator; [cbn; tauto|unfold URI_USER, URI_PORT; lia|done]. }
  destruct user as [user|].
  - rewrite <- app_assoc. change ([0x40] ++ hp) with (tail_text 0x40 (Some hp)).
    rewrite chop_tail; [|rewrite not_elem_of_app; split|lia].
    + rewrite chop_tail; [by apply parse_host_port|by apply encode_not_in|lia].
    + apply encode_separator; [cbn; tauto|unfold URI_USER, URI_PORT; lia|done].
    + apply not_in_tail; [lia|]. destruct password; cbn; [|done].
      apply encode_separator; [cbn; tauto|unfold URI_USER, URI_PASSWORD, URI_PORT; lia|done].
  - rewrite Hup by done. cbn [app]. rewrite <- (app_nil_r hp) at 1.
    change (@nil Z) with (tail_text 0x40 None). rewrite chop_tail by (done || lia).
    by apply parse_host_port.
Qed.

(** ** Well-formed URIs *)

Definition path_ok (e : cstring) : Prop := plain e /\ 0x3f ∉ e /\ 0x23 ∉ e /\ e <> [].
Definition query_ok (q : option cstring) : Prop :=
  from_option (fun q => plain q /\ 0x23 ∉ q) True q.
Definition fragment_ok (f : option cstring) : Prop := from_option plain True f.

(** URIs that a string denotes: with an opaque part, with an authority, with
    an absolute path, and relative ones.  The path is the decoded form of the
    encoded path. *)
Inductive uri_wf : uri -> Prop :=
| wf_opaque s o f :
    scheme_chars s -> Forall ascii o -> char_at o 0 <> 0x2f -> fragment_ok f ->
    uri_wf (mkUri (Some s) (Some o) None None None None None None None f)
| wf_net s user password host port e q f :
    scheme_chars s -> ascii_field user -> ascii_field password ->
    (user = None -> password = None) -> Forall ascii host -> ascii_field port ->
    host_ok host port -> from_option (fun e => path_ok e /\ char_at e 0 = 0x2f) True e ->
    query_ok q -> fragment_ok f ->
    uri_wf (mkUri (Some s) None user password (Some host) port
              (uri_decode_inplace <$> e) e q f)
| wf_absolute s e q f :
    scheme_chars s -> path_ok e -> char_at e 0 = 0x2f -> char_at e 1 <> 0x2f ->
    query_ok q -> fragment_ok f ->
    uri_wf (mkUri (Some s) None None None None None
              (Some (uri_decode_inplace e)) (Some e) q f)
| wf_relative e q f :
    from_option path_ok True e -> query_ok q -> fragment_ok f ->
    scheme_end (default [] e ++ tail_text 0x3f q) = None ->
    uri_wf (mkUri None None None None None None (uri_decode_inplace <$> e) e q f).

(** The text in front of the fragment. *)
Definition body_text (u : uri) : cstring :=
  match uri_scheme u with
  | None => default [] (uri_epath u) ++ tail_text 0x3f (uri_equery u)
  | Some s =>
      s ++ 0x3a ::
      match uri_opaque u with
      | Some o => encode_string URI_OPAQUE o
      | None =>
          (match uri_host u with
           | Some h => cs "//" ++ authority_text (uri_user u) (uri_password u) h (uri_port_ u)
           | None => []
           end ++ default [] (uri_epath u)) ++ tail_text 0x3f (uri_equery u)
      end
  end.

Lemma encode_query q : query_ok q -> encode_string URI_EQUERY <$> q = q.
Proof.
  destruct q as [q|]; [|done]. intros [Hq _]. cbn. f_equal.
  apply encode_plain; [unfold URI_EPATH, URI_EQUERY; lia|done].
Qed.

Lemma encode_fragment f : fragment_ok f -> encode_string URI_EFRAGMENT <$> f = f.
Proof.
  destruct f as [f|]; [|done]. intros Hf. cbn. f_equal.
  apply encode_plain; [unfold URI_EPATH, URI_EFRAGMENT; lia|done].
Qed.

Lemma encode_path e : path_ok e -> encode_string URI_EPATH e = e.
Proof. intros [He _]. apply encode_plain; [lia|done]. Qed.

(** Concatenations associated to the right. *)
Ltac flatten := repeat (progress (rewrite <- ?app_assoc; cbn [app])).

Lemma uri_text_wf u : uri_wf u -> uri_text u = body_text u ++ tail_text 0x23 (uri_efragment u).
Proof.
  assert (Q : forall q, query_ok q ->
    match q with Some s => 0x3f :: encode_string URI_EQUERY s ++ [] | None => [] end
    = tail_text 0x3f q).
  { intros q Hq. rewrite <- (encode_query q Hq) at 2. destruct q; [|done]. cbn. by rewrite app_nil_r. }
  assert (F : forall f, fragment_ok f ->
    match f with Some s => 0x23 :: encode_string URI_EFRAGMENT s ++ [] | None => [] end
    = tail_text 0x23 f).
  { intros f Hf. rewrite <- (encode_fragment f Hf) at 2. destruct f; [|done]. cbn. by rewrite app_nil_r. }
  assert (P : forall e, path_ok e -> encode_string 7 e = e) by exact encode_path.
  intros Hu. unfold uri_text, body_text, field_text.
  destruct Hu as [s o f Hs Ho _ Hf|s user password host port e q f Hs _ _ Hup _ _ _ He Hq Hf|
                  s e q f Hs He _ _ Hq Hf|e q f He Hq Hf _].
  all: cbn -[encode_string authority_text tail_text cs].
  all: change (cs ":") with [0x3a]; change (cs "://") with [0x3a; 0x2f; 0x2f];
    change (cs "//") with [0x2f; 0x2f].
  all: try (change (encode_string 0 s) with (encode_string URI_SCHEME s);
    rewrite (proj1 (encode_scheme s Hs))).
  all: rewrite ?Q, F by done.
  - by rewrite !app_nil_r, <- !app_assoc.
  - unfold authority_text. destruct user as [user|]; [|rewrite Hup by done]; [destruct password|];
      destruct port, e as [e|]; cbn -[encode_string]; cbn [tail_text fmap option_fmap option_map];
      rewrite ?(P _ (proj1 He)), ?app_nil_r;
      flatten; reflexivity.
  - rewrite (P e He), !app_nil_r. flatten. reflexivity.
  - destruct e as [e|]; cbn -[encode_string tail_text];
      rewrite ?(P _ He), ?app_nil_r, <- ?app_assoc; done.
Qed.

(** A separator occurs in none of the parts before it. *)
Lemma scheme_not_in s x : scheme_chars s -> scheme_char x = false -> x ∉ s.
Proof.
  intros Hs Hx Hin. unfold scheme_chars in Hs. rewrite Forall_forall in Hs.
  apply list_elem_of_In, Hs in Hin as [_ ?]. congruence.
Qed.

Lemma body_hash u : uri_wf u -> 0x23 ∉ body_text u.
Proof.
  assert (Hq23 : forall q, query_ok q -> 0x23 ∉ tail_text 0x3f q).
  { intros q Hq. apply not_in_tail; [lia|]. destruct q; cbn in *; tauto. }
  destruct 1 as [s o f Hs Ho _ Hf|s user password host port e q f Hs Hu Hpw Hup Hh Hpo _ He Hq Hf|
                 s e q f Hs He _ _ Hq Hf|e q f He Hq Hf _];
    cbn -[encode_string authority_text tail_text cs]; change (cs "//") with [0x2f; 0x2f].
  all: repeat first [apply authority_separator | apply not_elem_of_app; split | apply not_elem_of_cons; split; [lia|]].
  all: try (cbn in *; tauto).
  all: try solve [by apply scheme_not_in | by apply Hq23 | apply not_elem_of_nil].
  - by apply encode_not_in.
  - destruct e as [e|]; cbn in *; [unfold path_ok in He; tauto|apply not_elem_of_nil].
  - unfold path_ok in He. cbn. tauto.
  - destruct e as [e|]; cbn in *; [unfold path_ok in He; tauto|apply not_elem_of_nil].
Qed.

Lemma plain_no_nul s : plain s -> no_nul s.
Proof.
  intros Hs. eapply Forall_impl; [|exact Hs]. cbn. intros c [Hc _] ->. discriminate.
Qed.

(** ** Round trip *)

(** The fields that parsing finds before it decodes them. *)
Definition raw_uri (u : uri) : uri :=
  mkUri (uri_scheme u) (encode_string URI_OPAQUE <$> uri_opaque u)
    (encode_string URI_USER <$> uri_user u) (encode_string URI_PASSWORD <$> uri_password u)
    (encode_string URI_HOST <$> uri_host u) (encode_string URI_PORT <$> uri_port_ u)
    (uri_epath u) (uri_epath u) (uri_equery u) (uri_efragment u).

Lemma decode_raw u : uri_wf u -> decode_fields (raw_uri u) = u.
Proof.
  assert (D : forall field s, (field < URI_EPATH)%nat -> ascii_field s ->
    uri_decode_inplace <$> (encode_string field <$> s) = s).
  { intros field [s|] Hf Hs; [|done]. cbn in *. by rewrite decode_encode. }
  unfold decode_fields, raw_uri.
  destruct 1 as [s o f Hs Ho _ Hf|s user password host port e q f Hs Hu Hpw Hup Hh Hpo _ He Hq Hf|
                 s e q f Hs He _ _ Hq Hf|e q f He Hq Hf _];
    cbn -[encode_string uri_decode_inplace fmap];
    rewrite ?D by (done || (apply Nat.ltb_lt; reflexivity));
    cbn -[uri_decode_inplace]; rewrite ?decode_scheme by done; reflexivity.
Qed.

Lemma parse_scheme_text s t :
  scheme_chars s ->
  parse_scheme (s ++ 0x3a :: t)
  = if char_at t 0 =? 0x2f then (Some s, None, Some t) else (Some s, Some t, None).
Proof.
  intros Hs. unfold parse_scheme. rewrite scheme_end_app, take_app_length by done.
  replace (drop (S (length s)) (s ++ 0x3a :: t)) with t; [done|].
  change (0x3a :: t) with ([0x3a] ++ t). rewrite app_assoc, drop_app_length'; [done|].
  rewrite length_app. cbn. lia.
Qed.

Lemma encode_first field s :
  char_at s 0 <> 0x2f -> char_at (encode_string field s) 0 <> 0x2f.
Proof.
  destruct s as [|c s]; [done|]. cbn [encode_string flat_map]. unfold uri_encode_char.
  by destruct (uri_character_escaped c field).
Qed.

Lemma path_first e : path_ok e -> char_at e 0 <> 0.
Proof.
  intros (Hp & _ & _ & Hne). destruct e as [|c e]; [done|].
  inversion Hp as [|? ? [Hc _] _]; subst. cbn. intros ->. discriminate.
Qed.

Lemma query_tail e q : 0x3f ∉ e -> chop (e ++ tail_text 0x3f q) 0x3f = (e, q).
Proof. intros He. apply chop_tail; [exact He|lia]. Qed.

(** The parts of the text in front of the fragment. *)
Lemma split_net authority e :
  0x2f ∉ authority -> from_option (fun e => path_ok e /\ char_at e 0 = 0x2f) True e ->
  forall s, parse_net_path (Some s) (0x2f :: 0x2f :: authority ++ default [] e)
  = (Some authority, e).
Proof.
  intros Ha He s. unfold parse_net_path. change (strncmp _ _ _ =? 0) with true.
  change (drop 2 (0x2f :: 0x2f :: ?l)) with l. cbv zeta iota.
  destruct e as [[|c e]|]; cbn [from_option id] in *.
  - destruct He as [(_ & _ & _ & He) _]. done.
  - destruct He as [_ He]. cbn in He. subst c. rewrite strchr_app by done.
    by rewrite take_app_length, drop_app_length.
  - rewrite app_nil_r. by rewrite strchr_none.
Qed.

Lemma split_text u :
  uri_wf u -> strstr (uri_text u) (cs "##params") = None -> split_uri (uri_text u) = raw_uri u.
Proof.
  intros Hu Hpar. unfold split_uri. rewrite Hpar, uri_text_wf by done.
  rewrite chop_tail by (lia || by apply body_hash). unfold raw_uri.
  destruct Hu as [s o f Hs Ho Ho1 Hf|s user password host port e q f Hs Hu Hpw Hup Hh Hpo Hok He Hq Hf|
                  s e q f Hs He He0 He1 Hq Hf|e q f He Hq Hf Hend];
    unfold body_text; cbn [uri_scheme uri_opaque uri_user uri_password uri_host uri_port_
      uri_path uri_epath uri_equery uri_efragment fmap option_fmap option_map from_option id].
  - rewrite parse_scheme_text by done.
    by rewrite (proj2 (Z.eqb_neq _ _) (encode_first URI_OPAQUE o Ho1)).
  - rewrite parse_scheme_text by done. set (a := authority_text _ _ _ _).
    assert (Ha : 0x2f ∉ a /\ 0x3f ∉ a) by (split; apply authority_separator; cbn; tauto).
    change ((cs "//" ++ a) ++ ?l) with (0x2f :: 0x2f :: a ++ l).
    change (char_at ((0x2f :: ?k) ++ ?l) 0 =? 0x2f) with true. cbv iota.
    rewrite query_tail.
    2: { rewrite !not_elem_of_cons, not_elem_of_app. destruct e as [e|]; cbn in *;
           unfold path_ok in *; rewrite ?elem_of_nil; intuition lia. }
    change (char_at (0x2f :: ?l) 0 =? 0) with false. cbv iota.
    rewrite split_net by tauto. subst a. by rewrite parse_authority_text.
  - rewrite parse_scheme_text by done. cbn [app].
    destruct e as [|c e]; [by destruct He as (_ & _ & _ & ?)|].
    cbn in He0. subst c. change (char_at ((0x2f :: ?k) ++ ?l) 0 =? 0x2f) with true. cbv iota.
    rewrite query_tail by (by destruct He as (_ & ? & _)).
    change (char_at (0x2f :: ?l) 0 =? 0) with false. cbv iota. unfold parse_net_path.
    change (char_at e 0 <> 0x2f) in He1.
    change (strncmp _ _ _) with
      (if negb (char_at e 0 - 0x2f =? 0) then char_at e 0 - 0x2f
       else if char_at e 0 =? 0 then 0 else 0).
    assert (E : (char_at e 0 - 0x2f =? 0) = false) by (apply Z.eqb_neq; lia).
    by rewrite E; cbn [negb]; rewrite E.
  - unfold parse_scheme. rewrite Hend. destruct e as [e|]; cbn [from_option id] in *.
    + rewrite query_tail by (by destruct He as (_ & ? & _)).
      by rewrite (proj2 (Z.eqb_neq _ _) (path_first e He)).
    + rewrite query_tail by apply not_elem_of_nil. done.
Qed.

Lemma no_nul_tail x s : x <> 0 -> from_option no_nul True s -> no_nul (tail_text x s).
Proof. intros Hx Hs. destruct s; cbn in *; [by constructor|constructor]. Qed.

Lemma encoded_no_nul field x s :
  x <> 0 -> ascii_field s -> no_nul (tail_text x (encode_string field <$> s)).
Proof.
  intros Hx Hs. apply no_nul_tail; [done|]. destruct s; cbn in *; [by apply encode_no_nul|done].
Qed.

Lemma authority_no_nul user password host port :
  ascii_field user -> ascii_field password -> Forall ascii host -> ascii_field port ->
  no_nul (authority_text user password host port).
Proof.
  intros Hu Hpw Hh Hpo. unfold authority_text, no_nul.
  repeat apply Forall_app_2; try by apply encoded_no_nul.
  - destruct user; [|constructor]. repeat apply Forall_app_2; try by apply encoded_no_nul.
    + by apply encode_no_nul.
    + by repeat constructor.
  - by apply encode_no_nul.
Qed.

Lemma text_no_nul u : uri_wf u -> no_nul (uri_text u).
Proof.
  assert (Hpath : forall e, path_ok e -> no_nul e) by (intros e [He _]; by apply plain_no_nul).
  assert (Hq0 : forall q, query_ok q -> no_nul (tail_text 0x3f q)).
  { intros [q|] Hq; (apply no_nul_tail; [lia|]); [by apply plain_no_nul, Hq|done]. }
  assert (Hf0 : forall f, fragment_ok f -> no_nul (tail_text 0x23 f)).
  { intros [f|] Hf; (apply no_nul_tail; [lia|]); [by apply plain_no_nul|done]. }
  intros Hu. rewrite uri_text_wf by done. apply Forall_app_2.
  2: { apply Hf0. by destruct Hu. }
  assert (Hs0 : forall s, scheme_chars s -> no_nul s).
  { intros s Hs. eapply Forall_impl; [|exact (proj2 (encode_scheme s Hs))]. unfold ascii. cbn. lia. }
  destruct Hu as [s o f Hs Ho _ Hf|s user password host port e q f Hs Hu Hpw Hup Hh Hpo _ He Hq Hf|
                  s e q f Hs He _ _ Hq Hf|e q f He Hq Hf _];
    cbn -[encode_string authority_text tail_text cs].
  all: repeat first [by apply Hs0 | by apply Hq0 | by apply authority_no_nul | by apply encode_no_nul
                    | by apply Hpath | apply Forall_app_2 | apply Forall_cons_2; [done|]].
  - by repeat constructor.
  - destruct e as [e|]; [by apply Hpath, He|constructor].
  - destruct e as [e|]; [by apply Hpath|constructor].
Qed.

(** C22. Parsing what formatting writes gives the URI back: for every URI that
    is opaque, has an authority (user, password, host, IPv6 literal, port), an
    absolute path or a relative one, [format_uri] into a large enough buffer
    and [parse_uri] of the buffer agree, if the text does not contain the
    marker of a parameter list. *)
Theorem parse_format_roundtrip (u : uri) (buf : list Z) :
  uri_wf u ->
  strstr (uri_text u) (cs "##params") = None ->
  (length (uri_text u) < length buf)%nat ->
  parse_fields (cstr_at (format_uri (Some u) buf).1 0) = u.
Proof.
  intros Hu Hpar Hl. rewrite format_uri_printed. cbn [fst].
  rewrite cstr_printed by (done || by apply text_no_nul).
  unfold parse_fields. rewrite split_text by done. by apply decode_raw.
Qed.
