(* ===== verification/Pci.v ===== *)
(** * Pci

    PCI base address registers and device enabling (drivers/bus/pci.c,
    drivers/bus/pciextra.c).  A PCI device is named by its bus:dev.fn
    address. *)

From S2P Require Import Prelude.
From S2P Require Import Memory.
From S2P Require Import World.
From S2P Require Import Object.

Definition PCI_COMMAND : Z := 0x04.
Definition PCI_COMMAND_IO : Z := 0x0001.
Definition PCI_COMMAND_MEM : Z := 0x0002.
Definition PCI_COMMAND_MASTER : Z := 0x0004.
Definition PCI_LATENCY_TIMER : Z := 0x0d.
Definition PCI_BASE_ADDRESS_0 : Z := 0x10.
Definition PCI_BASE_ADDRESS_5 : Z := 0x24.
Definition PCI_BASE_ADDRESS_SPACE_IO : Z := 0x01.
Definition PCI_BASE_ADDRESS_IO_MASK : Z := 0x03.
Definition PCI_BASE_ADDRESS_MEM_TYPE_64 : Z := 0x04.
Definition PCI_BASE_ADDRESS_MEM_TYPE_MASK : Z := 0x06.
Definition PCI_BASE_ADDRESS_MEM_MASK : Z := 0x0f.

Section pci.
Context `{Platform}.

Definition pci_read_config_dword (pci reg : Z) : cprog Z :=
  gets (fun w => u32 (pci_config_read (w_hw w) 4 pci reg)).
Definition pci_read_config_word (pci reg : Z) : cprog Z :=
  gets (fun w => u16 (pci_config_read (w_hw w) 2 pci reg)).
Definition pci_read_config_byte (pci reg : Z) : cprog Z :=
  gets (fun w => u8 (pci_config_read (w_hw w) 1 pci reg)).
Definition pci_write_config (width pci reg v : Z) : cprog unit :=
  modify (fun w => set_w_hw (pci_config_write (w_hw w) width pci reg v) w).
Definition pci_write_config_dword : Z -> Z -> Z -> cprog unit :=
  pci_write_config 4.
Definition pci_write_config_word : Z -> Z -> Z -> cprog unit :=
  pci_write_config 2.
Definition pci_write_config_byte : Z -> Z -> Z -> cprog unit :=
  pci_write_config 1.

(** On a 32-bit platform a 64-bit BAR with a non-zero high dword is returned
    as an uninitialised 64-bit BAR. *)
Definition pci_bar (pci reg : Z) : cprog Z :=
  low <- pci_read_config_dword pci reg ;;
  if Z.land low (Z.lor PCI_BASE_ADDRESS_SPACE_IO PCI_BASE_ADDRESS_MEM_TYPE_MASK)
       =? PCI_BASE_ADDRESS_MEM_TYPE_64 then
    high <- pci_read_config_dword pci (reg + 4) ;;
    if negb (high =? 0) then ret PCI_BASE_ADDRESS_MEM_TYPE_64
    else ret low
  else ret low.

Definition pci_bar_start (pci reg : Z) : cprog Z :=
  bar <- pci_bar pci reg ;;
  if bool_of_Z (Z.land bar PCI_BASE_ADDRESS_SPACE_IO) then
    ret (Z.land bar (not32 PCI_BASE_ADDRESS_IO_MASK))
  else
    ret (Z.land bar (not32 PCI_BASE_ADDRESS_MEM_MASK)).

(** The first memory and I/O base addresses: the loop over the six BARs from
    register [reg], with [n] registers left to look at. *)
Fixpoint pci_read_bases_from (n : nat) (pci reg ioaddr membase : Z)
    : cprog (Z * Z) :=
  match n with
  | O => ret (ioaddr, membase)
  | S n =>
      if PCI_BASE_ADDRESS_5 <? reg then ret (ioaddr, membase) else
      bar <- pci_bar pci reg ;;
      if bool_of_Z (Z.land bar PCI_BASE_ADDRESS_SPACE_IO) then
        let ioaddr := if ioaddr =? 0
                      then Z.land bar (not32 PCI_BASE_ADDRESS_IO_MASK)
                      else ioaddr in
        pci_read_bases_from n pci (reg + 4) ioaddr membase
      else
        let membase := if membase =? 0
                       then Z.land bar (not32 PCI_BASE_ADDRESS_MEM_MASK)
                       else membase in
        (* Skip next BAR if 64-bit *)
        let reg := if bool_of_Z (Z.land bar PCI_BASE_ADDRESS_MEM_TYPE_64)
                   then reg + 4 else reg in
        pci_read_bases_from n pci (reg + 4) ioaddr membase
  end.

Definition pci_read_bases (pci : Z) : cprog (Z * Z) :=
  pci_read_bases_from 6 pci PCI_BASE_ADDRESS_0 0 0.

Definition adjust_pci_device (pci : Z) : cprog unit :=
  pci_command <- pci_read_config_word pci PCI_COMMAND ;;
  let new_command :=
    Z.lor (Z.lor (Z.lor pci_command PCI_COMMAND_MASTER) PCI_COMMAND_MEM)
      PCI_COMMAND_IO in
  when (negb (pci_command =? new_command))
    (pci_write_config_word pci PCI_COMMAND new_command) ;;
  pci_latency <- pci_read_config_byte pci PCI_LATENCY_TIMER ;;
  when (pci_latency <? 32) (pci_write_config_byte pci PCI_LATENCY_TIMER 32).

Definition pci_bar_size (pci reg : Z) : cprog Z :=
  (* Save the original command register and the original bar *)
  cmd <- pci_read_config_word pci PCI_COMMAND ;;
  start <- pci_read_config_dword pci reg ;;
  (* Compute which bits can be set *)
  pci_write_config_dword pci reg (not32 0) ;;
  size <- pci_read_config_dword pci reg ;;
  (* Restore the original bar and command register *)
  pci_write_config_dword pci reg start ;;
  pci_write_config_word pci PCI_COMMAND cmd ;;
  let size :=
    Z.land size
      (if bool_of_Z (Z.land start PCI_BASE_ADDRESS_SPACE_IO)
       then not32 PCI_BASE_ADDRESS_IO_MASK
       else not32 PCI_BASE_ADDRESS_MEM_MASK) in
  (* Find the lowest bit set *)
  ret (Z.land size (not32 (size - 1))).


(** ** Sizing a base address register *)

(** What a memory BAR reads back after [v] is written to it: the address bits
    that its size of [2 ^ n] leaves, and fixed type bits. *)
Definition bar_readback (n type v : Z) : Z :=
  Z.lor (Z.land v (2 ^ 32 - 2 ^ n)) type.

Lemma bar_size_bits n type :
  4 <= n <= 31 -> 0 <= type < 16 -> Z.testbit type 0 = false ->
  let size := Z.land (bar_readback n type (not32 0)) (not32 PCI_BASE_ADDRESS_MEM_MASK) in
  Z.land size (not32 (size - 1)) = 2 ^ n.
Proof.
  intros Hn Ht _.
  assert (T : forallb (fun k => forallb (fun t =>
    let n := Z.of_nat k in
    let size := Z.land (bar_readback n (Z.of_nat t) (not32 0))
                  (not32 PCI_BASE_ADDRESS_MEM_MASK) in
    Z.land size (not32 (size - 1)) =? 2 ^ n) (seq 0 16)) (seq 4 28) = true)
    by (vm_compute; reflexivity).
  rewrite forallb_forall in T. specialize (T (Z.to_nat n)).
  rewrite in_seq, forallb_forall in T. specialize (T ltac:(lia) (Z.to_nat type)).
  rewrite in_seq in T. specialize (T ltac:(lia)). cbv zeta in T.
  rewrite !Z2Nat.id in T by lia. apply Z.eqb_eq, T.
Qed.

Lemma bar_readback_idemp n type v :
  bar_readback n type (bar_readback n type v) = bar_readback n type v.
Proof.
  apply Z.bits_inj'. intros i Hi. unfold bar_readback. rewrite !Z.lor_spec, !Z.land_spec,
    Z.lor_spec, Z.land_spec.
  destruct (Z.testbit v i), (Z.testbit (2 ^ 32 - 2 ^ n) i), (Z.testbit type i); reflexivity.
Qed.

Lemma bar_readback_mem n type v :
  4 <= n <= 31 -> Z.testbit type 0 = false ->
  bool_of_Z (Z.land (bar_readback n type v) PCI_BASE_ADDRESS_SPACE_IO) = false.
Proof.
  intros Hn Ht. unfold PCI_BASE_ADDRESS_SPACE_IO. change 0x01 with (2 ^ 0).
  rewrite bool_of_Z_land_pow2 by lia. unfold bar_readback.
  rewrite Z.lor_spec, Z.land_spec, Ht, Z.bit0_odd.
  replace (2 ^ 32 - 2 ^ n) with (2 * (2 ^ 31 - 2 ^ (n - 1))).
  - rewrite Z.bit0_odd, Z.odd_mul. cbn [Z.odd andb]. by rewrite andb_false_r.
  - rewrite Z.mul_sub_distr_l, <- !Z.pow_succ_r by lia. repeat f_equal; lia.
Qed.

(** Sizing a memory BAR: on a device whose BAR of [2 ^ n] bytes behaves
    as the PCI specification says, [pci_bar_size] returns [2 ^ n] and leaves
    the BAR with the address it had. *)
Theorem pci_bar_size_correct pci reg n type addr (w : world) :
  4 <= n <= 31 -> 0 <= type < 16 -> Z.testbit type 0 = false ->
  u32 (pci_config_read (w_hw w) 4 pci reg) = bar_readback n type addr ->
  (forall h v, u32 (pci_config_read (pci_config_write h 4 pci reg v) 4 pci reg)
               = bar_readback n type v) ->
  (forall h v, pci_config_read (pci_config_write h 2 pci PCI_COMMAND v) 4 pci reg
               = pci_config_read h 4 pci reg) ->
  wp (pci_bar_size pci reg)
    (fun size w' => size = 2 ^ n /\
       u32 (pci_config_read (w_hw w') 4 pci reg) =
       u32 (pci_config_read (w_hw w) 4 pci reg)) w.
Proof.
  intros Hn Ht Hb Hcur Hwr Hcmd. unfold pci_bar_size, pci_read_config_word,
    pci_read_config_dword, pci_write_config_dword, pci_write_config_word, pci_write_config.
  repeat wp_prim. cbn [w_hw set_w_hw]. rewrite Hcur, !Hwr.
  rewrite bar_readback_mem by assumption. split; [by apply bar_size_bits|].
  rewrite Hcmd, Hwr. apply bar_readback_idemp.
Qed.
End pci.
