(* ===== verification/Blockdev.v ===== *)
(** * Blockdev

    The operations by which one object calls another over an interface:
    block devices (core/blockdev.c), EDD descriptions (core/edd.c), ACPI
    descriptions (core/acpi.c), hardware identification (core/device.c) and
    flow control windows (core/xfer.c). *)

From S2P Require Import Prelude.
From S2P Require Import Memory.
From S2P Require Import World.
From S2P Require Import Object.

Section blockdev.
Context `{Platform} `{!Methods}.

(** Call operation [type] of the destination of [intf], or return [default]
    if it is not implemented there. *)
Definition call_dest {A} (intf : intf_id) (type : op_type)
    (op : intf_desc -> intf_id -> cprog A) (default : A) : cprog A :=
  i <- get_intf intf ;;
  let! (dest, func) := intf_get_dest_op_untyped i type in
  r <- match func with
       | Some desc => op desc dest
       | None => ret default
       end ;;
  intf_put dest ;;
  ret r.

Definition block_read (control data : intf_id) (lba count buffer len : Z)
    : cprog Z :=
  call_dest control op_block_read
    (fun desc dest => m_block_read desc dest data lba count buffer len)
    (- EOPNOTSUPP).

Definition block_write (control data : intf_id) (lba count buffer len : Z)
    : cprog Z :=
  call_dest control op_block_write
    (fun desc dest => m_block_write desc dest data lba count buffer len)
    (- EOPNOTSUPP).

Definition block_read_capacity (control data : intf_id) : cprog Z :=
  call_dest control op_block_read_capacity
    (fun desc dest => m_block_read_capacity desc dest data) (- EOPNOTSUPP).

Definition block_capacity (intf : intf_id) (capacity : block_device_capacity)
    : cprog unit :=
  call_dest intf op_block_capacity
    (fun desc dest => m_block_capacity desc dest capacity) tt.

(** Status, EDD interface type and EDD device path (16 bytes). *)
Definition edd_describe (intf : intf_id) : cprog (Z * Z * list Z) :=
  call_dest intf op_edd_describe m_edd_describe
    (- ENOTSUP, 0, replicate 16 0).

Definition acpi_describe (intf : intf_id) : cprog (option Z) :=
  call_dest intf op_acpi_describe m_acpi_describe None.

(** Bus type and location of the device behind an interface, or NULL. *)
Definition identify_device (intf : intf_id) : cprog (option (Z * Z)) :=
  call_dest intf op_identify_device m_identify_device None.

Definition xfer_window (intf : intf_id) : cprog Z :=
  call_dest intf op_xfer_window m_xfer_window (2 ^ 32 - 1).

Definition acpi_add (desc : Z) : cprog unit :=
  modify (fun w =>
    set_w_san (set_acpi_descs (acpi_descs (w_san w) ++ [desc]) (w_san w)) w).

Definition acpi_del (desc : Z) : cprog unit :=
  modify (fun w =>
    set_w_san (set_acpi_descs (list_del desc (acpi_descs (w_san w)))
                 (w_san w)) w).

Lemma wp_call_dest {A} intf type op (default : A) i di desc Q w :
  (0 < fuel)%nat ->
  w_intfs w !! intf = Some i -> w_intfs w !! intf_dest i = Some di ->
  intf_desc_ di = Some desc ->
  wp (ref_get (intf_refcnt di))
    (fun _ w1 => wp (if bool_decide (type ∈ desc_op desc)
                     then op desc (intf_dest i) else ret default)
       (fun r w2 => wp (intf_put (intf_dest i)) (fun _ w3 => Q r w3) w2) w1) w ->
  wp (call_dest intf type op default) Q w.
Proof.
  intros Hf Hi Hdi Hdesc HQ. unfold call_dest, get_intf. wp_prim.
  eapply wp_deref; [exact Hi|]. wp_prim.
  eapply wp_get_dest_op; [exact Hf|exact Hdi|exact Hdesc|].
  eapply wp_mono; [exact HQ|]. intros [] w1 Hw1. wp_prim.
  destruct (bool_decide _); (eapply wp_mono; [exact Hw1|]);
    intros r w2 Hw2; wp_prim; (eapply wp_mono; [exact Hw2|]); auto.
Qed.

End blockdev.
