(* ===== verification/Nvme.v ===== *)
(** * Nvme

    The NVMe storage driver (drivers/block/nvme.c): queues, admin commands,
    controller bring-up, data transfer, and the block interface it offers to
    the SAN layer. *)

From S2P Require Import Prelude.
From S2P Require Import Memory.
From S2P Require Import World.
From S2P Require Import Object.
From S2P Require Import Malloc.
From S2P Require Import Pci.
From S2P Require Import Blockdev.

(** ** Constants of nvme-int.h *)

Definition NVME_CAP_CSS_NVME : Z := Z.shiftl 1 37.
Definition NVME_CSTS_RDY : Z := 1.
Definition NVME_CC_EN : Z := 1.
Definition NVME_SQE_OPC_ADMIN_CREATE_IO_SQ : Z := 1.
Definition NVME_SQE_OPC_ADMIN_CREATE_IO_CQ : Z := 5.
Definition NVME_SQE_OPC_ADMIN_IDENTIFY : Z := 6.
Definition NVME_SQE_OPC_IO_WRITE : Z := 1.
Definition NVME_SQE_OPC_IO_READ : Z := 2.
Definition NVME_ADMIN_IDENTIFY_CNS_ID_NS : Z := 0.
Definition NVME_ADMIN_IDENTIFY_CNS_ID_CTRL : Z := 1.
Definition NVME_CQE_DW3_P : Z := Z.shiftl 1 16.
Definition NVME_PAGE_SIZE : Z := 4096.
Definition NVME_SQE_SIZE_LOG : Z := 6.
Definition NVME_CQE_SIZE_LOG : Z := 4.
Definition NVME_MAX_PRPL_ENTRIES : Z := 15.

(** Offsets within [struct nvme_reg]. *)
Definition reg_cap : Z := 0x00.
Definition reg_vs : Z := 0x08.
Definition reg_cc : Z := 0x14.
Definition reg_csts : Z := 0x1c.
Definition reg_aqa : Z := 0x24.
Definition reg_asq : Z := 0x28.
Definition reg_acq : Z := 0x30.

(** Sizes of, and offsets within, queue entries. *)
Definition sizeof_sqe : Z := 64.
Definition sqe_cdw0 : Z := 0.
Definition sqe_nsid : Z := 4.
Definition sqe_mptr : Z := 16.
Definition sqe_dptr_prp1 : Z := 24.
Definition sqe_dptr_prp2 : Z := 32.
Definition sqe_dword (i : Z) : Z := 4 * i.
Definition sizeof_cqe : Z := 16.

(** A completion queue entry, copied out of the queue. *)
Record nvme_cqe : Type := mkCqe {
  cqe_dw0 : Z; cqe_dw1 : Z; cqe_dw2 : Z; cqe_dw3 : Z }.
Definition cqe_sq_head (c : nvme_cqe) : Z := Z.land (cqe_dw2 c) 0xffff.
Definition cqe_status (c : nvme_cqe) : Z := Z.shiftr (cqe_dw3 c) 16.

(** Offsets within [union nvme_identify]. *)
Definition id_ctrl_mdts : Z := 77.
Definition id_ctrl_nn : Z := 516.
Definition id_ns_nsze : Z := 0.
Definition id_ns_nlbaf : Z := 25.
Definition id_ns_flbas : Z := 26.
Definition id_ns_lbaf (i : Z) : Z := 128 + 4 * i.

Section nvme.
Context `{Platform} `{!Methods}.

(** ** Access to the driver's structures *)

Definition upd_nvme (f : nvme_state -> nvme_state) : cprog unit :=
  modify (fun w => set_w_nvme (f (w_nvme w)) w).

Definition get_nvme (a : Z) : cprog nvme_device :=
  deref (fun w => nvme_devs (w_nvme w) !! a).
Definition put_nvme (a : Z) (d : nvme_device) : cprog unit :=
  upd_nvme (fun s => set_nvme_devs (<[a := d]> (nvme_devs s)) s).
Definition get_ctrl (a : Z) : cprog nvme_ctrl :=
  deref (fun w => nvme_ctrls (w_nvme w) !! a).
Definition put_ctrl (a : Z) (c : nvme_ctrl) : cprog unit :=
  upd_nvme (fun s => set_nvme_ctrls (<[a := c]> (nvme_ctrls s)) s).
Definition get_ns (a : Z) : cprog nvme_namespace :=
  deref (fun w => nvme_nss (w_nvme w) !! a).
Definition put_ns (a : Z) (n : nvme_namespace) : cprog unit :=
  upd_nvme (fun s => set_nvme_nss (<[a := n]> (nvme_nss s)) s).

(** Queues are members of their controller. *)
Definition ctrl_sq (q : queue_id) (c : nvme_ctrl) : nvme_sq :=
  match q with Q_admin => admin_sq c | Q_io => io_sq c end.
Definition ctrl_cq (q : queue_id) (c : nvme_ctrl) : nvme_cq :=
  match q with Q_admin => admin_cq c | Q_io => io_cq c end.
Definition set_ctrl_sq (q : queue_id) (v : nvme_sq) (c : nvme_ctrl) : nvme_ctrl :=
  match q with Q_admin => set_admin_sq v c | Q_io => set_io_sq v c end.
Definition set_ctrl_cq (q : queue_id) (v : nvme_cq) (c : nvme_ctrl) : nvme_ctrl :=
  match q with Q_admin => set_admin_cq v c | Q_io => set_io_cq v c end.

Definition get_sq (ctrl : Z) (q : queue_id) : cprog nvme_sq :=
  c <- get_ctrl ctrl ;; ret (ctrl_sq q c).
Definition put_sq (ctrl : Z) (q : queue_id) (v : nvme_sq) : cprog unit :=
  c <- get_ctrl ctrl ;; put_ctrl ctrl (set_ctrl_sq q v c).
Definition get_cq (ctrl : Z) (q : queue_id) : cprog nvme_cq :=
  c <- get_ctrl ctrl ;; ret (ctrl_cq q c).
Definition put_cq (ctrl : Z) (q : queue_id) (v : nvme_cq) : cprog unit :=
  c <- get_ctrl ctrl ;; put_ctrl ctrl (set_ctrl_cq q v c).

(** ** Device registers

    A 64-bit register is accessed as two 32-bit halves. *)

Definition readl (a : Z) : cprog Z :=
  gets (fun w => u32 (mmio_read32 (w_hw w) a)).
Definition writel (a v : Z) : cprog unit :=
  modify (fun w => set_w_hw (mmio_write32 (w_hw w) a (u32 v)) w).
Definition readq (a : Z) : cprog Z :=
  lo <- readl a ;; hi <- readl (a + 4) ;; ret (Z.lor lo (Z.shiftl hi 32)).
Definition writeq (a v : Z) : cprog unit :=
  writel a (u32 v) ;; writel (a + 4) (u32 (Z.shiftr v 32)).

(** Let the hardware make progress. *)
Definition poll_hw : cprog unit :=
  modify (fun w => let (h, m) := hw_poll (w_hw w) (w_mem w) in
                   set_w_hw h (set_w_mem m w)).

(** [1U << n]: undefined for a shift of the operand's width or more. *)
Definition shl1 (n : Z) : cprog Z :=
  if n <? 32 then ret (Z.shiftl 1 n) else undef.

(** ** Queues *)

Definition zalloc_page_aligned (size : Z) : cprog Z :=
  res <- malloc_phys size NVME_PAGE_SIZE ;;
  when (negb (res =? NULL)) (memset res 0 size) ;;
  ret res.

Definition nvme_init_queue_common (c : nvme_ctrl) (q_idx length : Z) : nvme_queue :=
  mkQueue (u32 (ctrl_reg c + 0x1000 + q_idx * doorbell_stride c))
          (u16 (length - 1)).

(** Waits for CSTS.RDY to match rdy. *)
Definition nvme_wait_csts_rdy (ctrl : Z) (rdy : Z) : cprog Z :=
  while fuel
    (c <- get_ctrl ctrl ;;
     csts <- readl (ctrl_reg c + reg_csts) ;;
     ret (negb (rdy =? Z.land csts NVME_CSTS_RDY)))
    poll_hw ;;
  ret 0.

Definition nvme_init_sq (ctrl : Z) (q : queue_id) (q_idx length : Z)
    (cq : queue_id) : cprog Z :=
  c <- get_ctrl ctrl ;;
  let sq := ctrl_sq q c in
  let common := nvme_init_queue_common c q_idx length in
  sqe <- dma_alloc (u32 (sizeof_sqe * length)) 4096 ;;
  put_sq ctrl q (mkSq common sqe (sq_cq sq) (sq_head sq) (sq_tail sq)) ;;
  memset sqe 0 (u32 (sizeof_sqe * length)) ;;
  if sqe =? NULL then ret (-1) else
  put_sq ctrl q (mkSq common sqe cq 0 0) ;;
  ret 0.

Definition nvme_init_cq (ctrl : Z) (q : queue_id) (q_idx length : Z) : cprog Z :=
  c <- get_ctrl ctrl ;;
  let cq := ctrl_cq q c in
  let common := nvme_init_queue_common c q_idx length in
  cqe <- dma_alloc (u32 (sizeof_cqe * length)) 4096 ;;
  put_cq ctrl q (mkCq common cqe (cq_head cq) (cq_phase cq)) ;;
  memset cqe 0 (u32 (sizeof_cqe * length)) ;;
  if cqe =? NULL then ret (-1) else
  (* All CQE phase bits are initialized to zero *)
  put_cq ctrl q (mkCq common cqe 0 true) ;;
  ret 0.

(** Returns the next submission queue entry (or NULL if the queue is full),
    with Command Dword 0 filled out and the rest cleared. *)
Definition nvme_get_next_sqe (ctrl : Z) (q : queue_id)
    (opc metadata data data2 : Z) : cprog Z :=
  sq <- get_sq ctrl q ;;
  if Z.land (sq_head sq + 1) (q_mask (sq_common sq)) =? sq_tail sq then ret NULL
  else
  let sqe := sq_sqe sq + sizeof_sqe * sq_tail sq in
  memset sqe 0 sizeof_sqe ;;
  store32 (sqe + sqe_cdw0) (Z.lor opc (Z.shiftl (sq_tail sq) 16)) ;;
  store64 (sqe + sqe_mptr) (u32 metadata) ;;
  store64 (sqe + sqe_dptr_prp1) (u32 data) ;;
  store64 (sqe + sqe_dptr_prp2) (u32 data2) ;;
  ret sqe.

Definition nvme_poll_cq (ctrl : Z) (q : queue_id) : cprog bool :=
  cq <- get_cq ctrl q ;;
  dw3 <- load32 (cq_cqe cq + sizeof_cqe * cq_head cq + 12) ;;
  ret (Bool.eqb (bool_of_Z (Z.land dw3 NVME_CQE_DW3_P)) (cq_phase cq)).

Definition nvme_is_cqe_success (cqe : nvme_cqe) : bool :=
  Z.land (Z.shiftr (cqe_status cqe) 1) 0xff =? 0.

Definition nvme_error_cqe : nvme_cqe :=
  mkCqe 0xffffffff 0xffffffff 0xffffffff 0xffffffff.

Definition nvme_consume_cqe (ctrl : Z) (q : queue_id) : cprog nvme_cqe :=
  sq <- get_sq ctrl q ;;
  ready <- nvme_poll_cq ctrl (sq_cq sq) ;;
  if negb ready then ret nvme_error_cqe else
  cq <- get_cq ctrl (sq_cq sq) ;;
  let p := cq_cqe cq + sizeof_cqe * cq_head cq in
  dw0 <- load32 p ;;
  dw1 <- load32 (p + 4) ;;
  dw2 <- load32 (p + 8) ;;
  dw3 <- load32 (p + 12) ;;
  let cqe := mkCqe dw0 dw1 dw2 dw3 in
  let cq_next_head := u16 (Z.land (cq_head cq + 1) (q_mask (cq_common cq))) in
  let phase := if cq_next_head <? cq_head cq then negb (cq_phase cq)
               else cq_phase cq in
  put_cq ctrl (sq_cq sq) (set_cq_head cq_next_head (set_cq_phase phase cq)) ;;
  (* Update the submission queue head *)
  when (negb (cqe_sq_head cqe =? sq_head sq))
    (put_sq ctrl q (set_sq_head (cqe_sq_head cqe) sq)) ;;
  (* Tell the controller that we consumed the completion *)
  writel (q_dbl (cq_common cq)) cq_next_head ;;
  ret cqe.

Definition nvme_commit_sqe (ctrl : Z) (q : queue_id) : cprog unit :=
  sq <- get_sq ctrl q ;;
  let tail := u16 (Z.land (sq_tail sq + 1) (q_mask (sq_common sq))) in
  put_sq ctrl q (set_sq_tail tail sq) ;;
  writel (q_dbl (sq_common sq)) tail.

Definition nvme_wait (ctrl : Z) (q : queue_id) : cprog nvme_cqe :=
  while fuel
    (sq <- get_sq ctrl q ;;
     ready <- nvme_poll_cq ctrl (sq_cq sq) ;;
     ret (negb ready))
    poll_hw ;;
  nvme_consume_cqe ctrl q.

(** ** Admin commands *)

(** Perform an identify command on the admin queue and return the resulting
    buffer, or NULL. *)
Definition nvme_admin_identify (ctrl cns nsid : Z) : cprog Z :=
  identify_buf <- dma_alloc 4096 4096 ;;
  if identify_buf =? NULL then ret NULL else
  memset identify_buf 0 4096 ;;
  cmd_identify <- nvme_get_next_sqe ctrl Q_admin NVME_SQE_OPC_ADMIN_IDENTIFY
                    NULL (dma identify_buf) NULL ;;
  if cmd_identify =? NULL then dma_free identify_buf 4096 ;; ret NULL else
  store32 (cmd_identify + sqe_nsid) nsid ;;
  store32 (cmd_identify + sqe_dword 10) cns ;;
  nvme_commit_sqe ctrl Q_admin ;;
  cqe <- nvme_wait ctrl Q_admin ;;
  if negb (nvme_is_cqe_success cqe)
  then dma_free identify_buf 4096 ;; ret NULL
  else ret identify_buf.

(** The members of the union start at its address, so that NULL is passed
    on. *)
Definition nvme_admin_identify_ctrl (ctrl : Z) : cprog Z :=
  nvme_admin_identify ctrl NVME_ADMIN_IDENTIFY_CNS_ID_CTRL 0.
Definition nvme_admin_identify_ns (ctrl ns_id : Z) : cprog Z :=
  nvme_admin_identify ctrl NVME_ADMIN_IDENTIFY_CNS_ID_NS ns_id.

Definition nvme_destroy_cq (ctrl : Z) (q : queue_id) : cprog unit :=
  cq <- get_cq ctrl q ;;
  free (cq_cqe cq) ;;
  cq <- get_cq ctrl q ;;
  put_cq ctrl q (set_cq_cqe NULL cq).

Definition nvme_destroy_sq (ctrl : Z) (q : queue_id) : cprog unit :=
  sq <- get_sq ctrl q ;;
  free (sq_sqe sq) ;;
  sq <- get_sq ctrl q ;;
  put_sq ctrl q (set_sq_sqe NULL sq).

(** Entries of an I/O queue: CAP.MQES (zero's based), at most the completion
    entries of a page. *)
Definition io_queue_length (ctrl : Z) : cprog Z :=
  c <- get_ctrl ctrl ;;
  cap <- readq (ctrl_reg c + reg_cap) ;;
  let length := 1 + Z.land cap 0xffff in
  ret (if NVME_PAGE_SIZE / sizeof_cqe <? length
       then NVME_PAGE_SIZE / sizeof_cqe else length).

Definition nvme_create_io_cq (ctrl : Z) (q : queue_id) (q_idx : Z) : cprog Z :=
  length <- io_queue_length ctrl ;;
  rc <- nvme_init_cq ctrl q q_idx length ;;
  if negb (rc =? 0) then ret (-1) else
  cq <- get_cq ctrl q ;;
  cmd_create_cq <- nvme_get_next_sqe ctrl Q_admin
                     NVME_SQE_OPC_ADMIN_CREATE_IO_CQ NULL
                     (virt_to_phys (cq_cqe cq)) NULL ;;
  if cmd_create_cq =? NULL then nvme_destroy_cq ctrl q ;; ret (-1) else
  store32 (cmd_create_cq + sqe_dword 10)
    (Z.lor (Z.shiftl (q_mask (cq_common cq)) 16) (Z.shiftr q_idx 1)) ;;
  store32 (cmd_create_cq + sqe_dword 11) 1 (* physically contiguous *) ;;
  nvme_commit_sqe ctrl Q_admin ;;
  cqe <- nvme_wait ctrl Q_admin ;;
  if negb (nvme_is_cqe_success cqe)
  then nvme_destroy_cq ctrl q ;; ret (-1)
  else ret 0.

Definition nvme_create_io_sq (ctrl : Z) (q : queue_id) (q_idx : Z)
    (cq : queue_id) : cprog Z :=
  length <- io_queue_length ctrl ;;
  rc <- nvme_init_sq ctrl q q_idx length cq ;;
  if negb (rc =? 0) then ret (-1) else
  sq <- get_sq ctrl q ;;
  cmd_create_sq <- nvme_get_next_sqe ctrl Q_admin
                     NVME_SQE_OPC_ADMIN_CREATE_IO_SQ NULL
                     (virt_to_phys (sq_sqe sq)) NULL ;;
  if cmd_create_sq =? NULL then nvme_destroy_sq ctrl q ;; ret (-1) else
  store32 (cmd_create_sq + sqe_dword 10)
    (Z.lor (Z.shiftl (q_mask (sq_common sq)) 16) (Z.shiftr q_idx 1)) ;;
  store32 (cmd_create_sq + sqe_dword 11)
    (Z.lor (Z.shiftl (Z.shiftr q_idx 1) 16) 1 (* contiguous *)) ;;
  nvme_commit_sqe ctrl Q_admin ;;
  cqe <- nvme_wait ctrl Q_admin ;;
  if negb (nvme_is_cqe_success cqe)
  then nvme_destroy_sq ctrl q ;; ret (-1)
  else ret 0.

Definition nvme_create_io_queues (ctrl : Z) : cprog Z :=
  rc <- nvme_create_io_cq ctrl Q_io 3 ;;
  if negb (rc =? 0) then ret (-1) else
  rc <- nvme_create_io_sq ctrl Q_io 2 Q_io ;;
  if negb (rc =? 0) then nvme_destroy_cq ctrl Q_io ;; ret (-1) else
  ret 0.

(** ** Namespaces and controller bring-up *)

(** The body of [nvme_probe_ns] up to the label [free_buffer]. *)
Definition nvme_probe_ns_body (ctrl ns_id id mdts : Z) : cprog unit :=
  if id =? NULL then ret tt else
  flbas <- load_at ld8 (id + id_ns_flbas) ;;
  nlbaf <- load_at ld8 (id + id_ns_nlbaf) ;;
  let current_lba_format := Z.land flbas 0xf in
  if nlbaf <? current_lba_format then ret tt else
  nsze <- load_at ld64 (id + id_ns_nsze) ;;
  if nsze =? 0 then ret tt else
  buffer <- gets (fun w => nvme_dma_buffer (w_nvme w)) ;;
  buffer <- (if buffer =? NULL then
               b <- dma_alloc NVME_PAGE_SIZE NVME_PAGE_SIZE ;;
               upd_nvme (set_nvme_dma_buffer b) ;;
               when (negb (b =? NULL)) (memset b 0 NVME_PAGE_SIZE) ;;
               ret b
             else ret buffer) ;;
  if buffer =? NULL then ret tt else
  ns <- malloc sizeof_nvme_namespace ;;
  if ns =? NULL then ret tt else
  lbads <- load_at ld8 (id + id_ns_lbaf current_lba_format + 2) ;;
  ms <- load_at ld16 (id + id_ns_lbaf current_lba_format) ;;
  block_size <- shl1 lbads ;;
  put_ns ns (mkNs ctrl ns_id nsze block_size ms 0) ;;
  if NVME_PAGE_SIZE <? block_size then
    upd_nvme (fun s => set_nvme_nss (delete ns (nvme_nss s)) s) ;;
    free ns
  else
  max_req_size <-
    (if negb (mdts =? 0)
     then (m <- shl1 mdts ;; ret (u32 (m * NVME_PAGE_SIZE) / block_size))
     else ret (2 ^ 32 - 1)) ;;
  put_ns ns (mkNs ctrl ns_id nsze block_size ms max_req_size) ;;
  c <- get_ctrl ctrl ;;
  put_ctrl ctrl (set_ctrl_ns ns c).

Definition nvme_probe_ns (ctrl ns_idx mdts : Z) : cprog unit :=
  let ns_id := u32 (ns_idx + 1) in
  id <- nvme_admin_identify_ns ctrl ns_id ;;
  nvme_probe_ns_body ctrl ns_id id mdts ;;
  dma_free id 4096.

Definition err_destroy_admin_cq (ctrl : Z) : cprog Z :=
  nvme_destroy_cq ctrl Q_admin ;; ret (-1).
Definition err_destroy_admin_sq (ctrl : Z) : cprog Z :=
  nvme_destroy_sq ctrl Q_admin ;; err_destroy_admin_cq ctrl.

(** The second half of [nvme_controller_enable], from the identify command
    on. *)
Definition nvme_controller_identify (ctrl : Z) : cprog Z :=
  identify <- nvme_admin_identify_ctrl ctrl ;;
  if identify =? NULL then err_destroy_admin_sq ctrl else
  nn <- load_at ld32 (identify + id_ctrl_nn) ;;
  c <- get_ctrl ctrl ;;
  put_ctrl ctrl (set_ns_count nn c) ;;
  mdts <- load_at ld8 (identify + id_ctrl_mdts) ;;
  dma_free identify 4096 ;;
  rc <- (if nn =? 0 then ret (-1) else nvme_create_io_queues ctrl) ;;
  if negb (rc =? 0) then err_destroy_admin_sq ctrl else
  c <- get_ctrl ctrl ;;
  put_ctrl ctrl (set_ns_count 1 c) ;;
  (* Populate namespace IDs *)
  for_each [0] (fun ns_idx => nvme_probe_ns ctrl ns_idx mdts) ;;
  ret 0.

Definition nvme_controller_enable (ctrl : Z) : cprog Z :=
  (* Turn the controller off *)
  c <- get_ctrl ctrl ;;
  writel (ctrl_reg c + reg_cc) 0 ;;
  rc <- nvme_wait_csts_rdy ctrl 0 ;;
  if negb (rc =? 0) then ret (-1) else
  cap <- readq (ctrl_reg c + reg_cap) ;;
  c <- get_ctrl ctrl ;;
  put_ctrl ctrl
    (set_doorbell_stride (u32 (Z.shiftl 4 (Z.land (Z.shiftr cap 32) 0xf))) c) ;;
  rc <- nvme_init_cq ctrl Q_admin 1 (NVME_PAGE_SIZE / sizeof_cqe) ;;
  if negb (rc =? 0) then ret (-1) else
  rc <- nvme_init_sq ctrl Q_admin 0 (NVME_PAGE_SIZE / sizeof_sqe) Q_admin ;;
  if negb (rc =? 0) then err_destroy_admin_cq ctrl else
  c <- get_ctrl ctrl ;;
  writel (ctrl_reg c + reg_aqa)
    (Z.lor (Z.shiftl (q_mask (cq_common (admin_cq c))) 16)
       (q_mask (sq_common (admin_sq c)))) ;;
  writeq (ctrl_reg c + reg_asq) (dma (sq_sqe (admin_sq c))) ;;
  writeq (ctrl_reg c + reg_acq) (dma (cq_cqe (admin_cq c))) ;;
  writel (ctrl_reg c + reg_cc)
    (Z.lor (Z.lor NVME_CC_EN (Z.shiftl NVME_CQE_SIZE_LOG 20))
       (Z.shiftl NVME_SQE_SIZE_LOG 16)) ;;
  rc <- nvme_wait_csts_rdy ctrl 1 ;;
  if negb (rc =? 0) then err_destroy_admin_sq ctrl else
  nvme_controller_identify ctrl.

(** ** Data transfer *)

(** Submit the command for [count] blocks described by [prp1] and [prp2]. *)
Definition nvme_io_submit (ns lba prp1 prp2 count : Z) (write : bool)
    : cprog unit :=
  n <- get_ns ns ;;
  let ctrl := ns_ctrl n in
  io_read <- nvme_get_next_sqe ctrl Q_io
               (if write then NVME_SQE_OPC_IO_WRITE else NVME_SQE_OPC_IO_READ)
               NULL prp1 prp2 ;;
  via io_read (store32 (io_read + sqe_nsid) (ns_id n)) ;;
  store32 (io_read + sqe_dword 10) (u32 lba) ;;
  store32 (io_read + sqe_dword 11) (u32 (Z.shiftr lba 32)) ;;
  store32 (io_read + sqe_dword 12)
    (u32 (Z.lor (Z.shiftl 1 31 (* limited retry *)) (count - 1))) ;;
  nvme_commit_sqe ctrl Q_io.

(** Issue the command and wait for its completion. *)
Definition nvme_io_command (ns lba prp1 prp2 count : Z) (write : bool)
    : cprog nvme_cqe :=
  nvme_io_submit ns lba prp1 prp2 count write ;;
  n <- get_ns ns ;;
  nvme_wait (ns_ctrl n) Q_io.

(** Transfer [count] blocks; a command that fails is issued again. *)
Definition nvme_io_xfer (ns lba prp1 prp2 count : Z) (write : bool) : cprog Z :=
  if bool_of_Z (Z.land (u32 prp1) 0x3) || bool_of_Z (Z.land (u32 prp2) 0x3)
  then ret (- EBUSY) else
  iterate fuel (fun _ : unit =>
    cqe <- nvme_io_command ns lba prp1 prp2 count write ;;
    if negb (nvme_is_cqe_success cqe) then ret (inl tt)
    else ret (inr count)) tt.

(** Transfer up to one page of data using the internal bounce buffer. *)
Definition nvme_bounce_xfer (ns lba buf count : Z) (write : bool) : cprog Z :=
  n <- get_ns ns ;;
  buffer <- gets (fun w => nvme_dma_buffer (w_nvme w)) ;;
  let max_blocks := u16 (NVME_PAGE_SIZE / block_size n) in
  let blocks := if count <? max_blocks then count else max_blocks in
  when write (memcpy buffer buf (u32 (blocks * block_size n))) ;;
  res <- nvme_io_xfer ns lba buffer NULL blocks write ;;
  when (negb write && (0 <=? res)) (memcpy buf buffer (u32 (res * block_size n))) ;;
  ret res.

(** The page list of [nvme_prpl_xfer]: entries stored from [prpl_len] on for
    the pages after the first, or [false] if there are too many. *)
Fixpoint prpl_build (n : nat) (prpl base size prpl_len : Z) (first_page : bool)
    : cprog bool :=
  match n with
  | O => spin
  | S n =>
      if size <=? 0 then ret true
      else if first_page then
        prpl_build n prpl (u32 (base + NVME_PAGE_SIZE)) (size - NVME_PAGE_SIZE)
          prpl_len false
      else if NVME_MAX_PRPL_ENTRIES <=? prpl_len then ret false
      else
        store64 (prpl + 8 * prpl_len) base ;;
        prpl_build n prpl (u32 (base + NVME_PAGE_SIZE)) (size - NVME_PAGE_SIZE)
          (prpl_len + 1) false
  end.

(** Transfer data using page list (if applicable). *)
Definition nvme_prpl_xfer (ns lba buf count : Z) (write : bool) : cprog Z :=
  n <- get_ns ns ;;
  let base := u32 buf in
  let count := if max_req_size n <? count then u16 (max_req_size n) else count in
  let size := s32 (count * block_size n) in
  let offset := Z.land base (NVME_PAGE_SIZE - 1) in
  let single := nvme_io_xfer ns lba (virt_to_phys buf) NULL count write in
  let bounce := nvme_bounce_xfer ns lba (virt_to_phys buf) count write in
  (* Special case for transfers that fit into PRP1, but are unaligned *)
  if u32 (size + offset) <=? NVME_PAGE_SIZE then single
  (* Every request has to be page aligned *)
  else if bool_of_Z offset then bounce
  (* Make sure a full block fits into the last chunk *)
  else if bool_of_Z (Z.land (u64 size) (block_size n - 1)) then bounce
  (* Build PRP list if we need to describe more than 2 pages *)
  else if NVME_PAGE_SIZE * 2 <? u32 (block_size n * count) then
    prpl <- gets (fun w => nvme_dma_buffer (w_nvme w)) ;;
    fits <- prpl_build fuel prpl base size 0 true ;;
    if fits then
      nvme_io_xfer ns lba (virt_to_phys buf) (virt_to_phys prpl) count write
    else bounce
  (* Directly embed the 2nd page if we only need 2 pages *)
  else if NVME_PAGE_SIZE <? u32 (block_size n * count) then
    nvme_io_xfer ns lba (virt_to_phys buf) (virt_to_phys (buf + NVME_PAGE_SIZE))
      count write
  (* One page is enough, don't expose anything else *)
  else single.

(** ** The block device interface *)

(** Copy to a user buffer, given by its physical address. *)
Definition copy_to_user (dest dest_off src len : Z) : cprog unit :=
  via src (upd_mem (copy (u32 (dest + dest_off)) (virt_to_phys src) len)).

Definition nvme_close (nvme : Z) (rc : Z) : cprog unit :=
  intf_shutdown (I_nvme_block nvme) (- ENODEV) ;;
  d <- get_nvme nvme ;;
  put_nvme nvme (set_nvme_opened false d).

Definition nvme_step (nvme : Z) : cprog unit :=
  intfs_shutdown 0 [I_dummy] ;;
  process_del (P_nvme nvme) ;;
  ref_put (Some (R_nvme nvme)) ;;
  upd_nvme (set_nvme_busy false).

Definition nvme_read (nvme : Z) (block : intf_id) (lba count buffer len : Z)
    : cprog Z :=
  busy <- gets (fun w => nvme_busy (w_nvme w)) ;;
  if (busy : bool) then ret (- EBUSY) else
  d <- get_nvme nvme ;;
  c <- get_ctrl (nvme_ctrl_ d) ;;
  let ns := ctrl_ns c in
  if ns =? NULL then ref_get (Some (R_nvme nvme)) ;; ret (- EBUSY) else
  if negb (count =? 1) then ref_get (Some (R_nvme nvme)) ;; ret (- EBUSY) else
  n <- get_ns ns ;;
  if block_size n =? 0 then undef else
  if negb (len mod block_size n =? 0) then
    ref_get (Some (R_nvme nvme)) ;; ret (- EBUSY)
  else
  dma_buffer <- gets (fun w => nvme_dma_buffer (w_nvme w)) ;;
  nvme_io_xfer ns lba (virt_to_phys dma_buffer) NULL 1 false ;;
  copy_to_user buffer 0 dma_buffer 512 ;;
  process_add (P_nvme nvme) ;;
  intf_plug_plug I_dummy block ;;
  ref_get (Some (R_nvme nvme)) ;;
  upd_nvme (set_nvme_busy true) ;;
  ret 0.

Definition nvme_write (nvme : Z) (block : intf_id) (lba count buffer len : Z)
    : cprog Z :=
  process_add (P_nvme nvme) ;;
  intf_plug_plug I_dummy block ;;
  ref_get (Some (R_nvme nvme)) ;;
  upd_nvme (set_nvme_busy true) ;;
  ret 0.

Definition nvme_read_capacity (nvme : Z) (block : intf_id) : cprog Z :=
  d <- get_nvme nvme ;;
  c <- get_ctrl (nvme_ctrl_ d) ;;
  if ctrl_ns c =? NULL then ref_get (Some (R_nvme nvme)) ;; ret (- EBUSY) else
  process_add (P_nvme nvme) ;;
  n <- get_ns (ctrl_ns c) ;;
  let capacity := mkCap (lba_count n) (block_size n) 1 in
  intf_plug_plug I_dummy block ;;
  (* Return capacity to caller *)
  block_capacity I_dummy capacity ;;
  ref_get (Some (R_nvme nvme)) ;;
  ret 0.

(** ['R','A','I','D',' ',' ',' ',' '] as a little-endian 64-bit integer. *)
Definition EDD_INTF_TYPE_RAID : Z :=
  le_combine [0x52; 0x41; 0x49; 0x44; 0x20; 0x20; 0x20; 0x20].

Definition nvme_edd_describe (nvme : Z) : cprog (Z * Z * list Z) :=
  ret (0, EDD_INTF_TYPE_RAID, replicate 16 0).

Definition nvme_find (name : cstring) : cprog (option Z) :=
  gets (fun w => head (nvme_devices (w_nvme w))).

Definition nvme_open_uri (parent : intf_id) (opaque : option cstring) : cprog Z :=
  match opaque with
  | None => ret (- EINVAL)
  | Some name =>
      (* Find matching device *)
      found <- nvme_find name ;;
      match found with
      | None => ret (- ENOENT)
      | Some nvme =>
          d <- get_nvme nvme ;;
          (* Fail if device is already open *)
          if nvme_opened d then ret (- EBUSY) else
          ref_init (R_nvme nvme) free_refcnt ;;
          intf_init (I_nvme_block nvme) nvme_block_desc (Some (R_nvme nvme)) ;;
          intf_plug_plug (I_nvme_block nvme) parent ;;
          (* Fix up PCI device *)
          adjust_pci_device (nvme_pci_dev d) ;;
          (* Map registers *)
          bar_start <- pci_bar_start (nvme_pci_dev d) PCI_BASE_ADDRESS_0 ;;
          bar_size <- pci_bar_size (nvme_pci_dev d) PCI_BASE_ADDRESS_0 ;;
          let reg := pci_ioremap (nvme_pci_dev d) bar_start bar_size in
          if reg =? NULL then ret (- EBUSY) else
          ctrl <- malloc sizeof_nvme_ctrl ;;
          put_nvme nvme (set_nvme_ctrl_ ctrl d) ;;
          via ctrl
            (put_ctrl ctrl
               (set_ctrl_pci nvme (set_ctrl_reg reg (junk_ctrl ctrl)))) ;;
          version <- readl (reg + reg_vs) ;;
          cap <- readq (reg + reg_cap) ;;
          if bool_of_Z (Z.land (Z.lnot cap) NVME_CAP_CSS_NVME)
          then ret (- EBUSY) else
          rc <- nvme_controller_enable ctrl ;;
          if negb (rc =? 0) then ret (- EBUSY) else
          (* Mark as opened *)
          d <- get_nvme nvme ;;
          put_nvme nvme (set_nvme_opened true d) ;;
          ret 0
      end
  end.

Definition nvme_probe (pci : Z) : cprog Z :=
  nvme <- zalloc sizeof_nvme_device ;;
  if nvme =? NULL then ret (- ENOMEM) else
  put_nvme nvme (mkNvme false pci NULL) ;;
  put_ref (R_nvme nvme) (mkRefcnt 0 free_refcnt) ;;
  put_intf (I_nvme_block nvme) (mkIntf I_NULL None None None) ;;
  process_init_stopped (P_nvme nvme) nvme_process_desc (Some (R_nvme nvme)) ;;
  (* Add to list of devices *)
  upd_nvme (fun s => set_nvme_devices (nvme_devices s ++ [nvme]) s) ;;
  ret 0.

Definition nvme_remove (pci : Z) : cprog unit := ret tt.

End nvme.
