(* ===== verification/Sanboot.v ===== *)
(** * Sanboot

    SAN devices (core/sanboot.c): opening paths, running commands with
    retries and a timeout, splitting reads and writes into commands,
    registration.  Also the URI reference counting and opening of
    core/uri.c and core/open.c that it relies on, and core/quiesce.c. *)

From S2P Require Import Prelude.
From S2P Require Import Memory.
From S2P Require Import World.
From S2P Require Import Object.
From S2P Require Import Retry.
From S2P Require Import Malloc.
From S2P Require Import Blockdev.
From S2P Require Import Cstring.
From S2P Require Import Uri.

Definition SAN_COMMAND_TIMEOUT : Z := 15 * TICKS_PER_SEC.
Definition SAN_DEFAULT_RETRIES : Z := 10.
Definition SAN_REOPEN_DELAY_SECS : Z := 5.
Definition SAN_NO_DESCRIBE : Z := 0x0001.
Definition ISO9660_BLKSIZE : Z := 2048.
Definition ISO9660_PRIMARY_LBA : Z := 16.

(** [primary_check]: ISO9660_TYPE_PRIMARY and ISO9660_ID, "CD001". *)
Definition iso9660_primary_check : list Z :=
  [0x01; 0x43; 0x44; 0x30; 0x30; 0x31].

Section sanboot.
Context `{Platform} `{!Methods}.

(** ** URIs: core/cwuri.c, core/open.c *)

(** No current working URI is ever set on this path. *)
Definition cwuri : Z := NULL.

Definition xfer_open_uri (intf : intf_id) (uri : Z) : cprog Z :=
  (* Resolve URI *)
  resolved_uri <- resolve_uri cwuri uri ;;
  if resolved_uri =? NULL then ret (- ENOMEM) else
  (* Find opener which supports this URI scheme, and call it *)
  u <- get_uri resolved_uri ;;
  scheme <- deref (fun _ => uri_scheme u) ;;
  r <- m_open scheme intf resolved_uri ;;
  let rc := match r with None => - ENOTSUP | Some rc => rc end in
  uri_put resolved_uri ;;
  ret rc.

(** ** core/quiesce.c *)

Definition quiesce : cprog unit := m_quiesce.
Definition unquiesce : cprog unit := m_unquiesce.

(** ** Access to SAN devices *)

Definition upd_san (f : san_state -> san_state) : cprog unit :=
  modify (fun w => set_w_san (f (w_san w)) w).
Definition get_sandev (s : Z) : cprog san_device :=
  deref (fun w => sandevs (w_san w) !! s).
Definition put_sandev (s : Z) (d : san_device) : cprog unit :=
  upd_san (fun st => set_sandevs (<[s := d]> (sandevs st)) st).
Definition upd_sandev (s : Z) (f : san_device -> san_device) : cprog unit :=
  d <- get_sandev s ;; put_sandev s (f d).

(** [&sandev->path[i]] *)
Definition get_path (s i : Z) : cprog san_path :=
  d <- get_sandev s ;;
  deref (fun _ => path d !! Z.to_nat i).
Definition upd_path (s i : Z) (f : san_path -> san_path) : cprog unit :=
  upd_sandev s (fun d => set_path (alter f (Z.to_nat i) (path d)) d).

Definition sandev_blksize (d : san_device) : Z :=
  u32 (Z.shiftl (blksize (capacity d)) (blksize_shift d)).
Definition sandev_capacity (d : san_device) : Z :=
  Z.shiftr (blocks (capacity d)) (blksize_shift d).
Definition sandev_needs_reopen (s : Z) : cprog bool :=
  d <- get_sandev s ;;
  ret (match active d with None => true | Some _ => false end).
Definition have_sandevs : cprog bool :=
  gets (fun w => negb (bool_decide (san_devices (w_san w) = []))).

Definition sandev_get (s : Z) : cprog unit := ref_get (Some (R_sandev s)).
Definition sandev_put (s : Z) : cprog unit := ref_put (Some (R_sandev s)).

(** Find SAN device by drive number. *)
Definition sandev_find (drive_ : Z) : cprog (option Z) :=
  l <- gets (fun w => san_devices (w_san w)) ;;
  (fix go (l : list Z) : cprog (option Z) :=
     match l with
     | [] => ret None
     | s :: l => d <- get_sandev s ;;
                 if drive d =? drive_ then ret (Some s) else go l
     end) l.

Definition sandev_free (s : Z) : cprog unit :=
  d <- get_sandev s ;;
  for_each (path d) (fun p => uri_put (path_uri p)) ;;
  upd_san (fun st => set_sandevs (delete s (sandevs st)) st) ;;
  free s.

(** ** The command interface *)

Definition sandev_command_close (s rc : Z) : cprog unit :=
  (* Stop timer *)
  stop_timer (T_sandev s) ;;
  (* Restart interface *)
  intf_restart (I_sandev_command s) rc ;;
  (* Record command status *)
  upd_sandev s (set_command_rc rc).

Definition sandev_command_capacity (s : Z) (cap : block_device_capacity)
    : cprog unit :=
  upd_sandev s (set_capacity cap).

Definition sandev_command_expired (s : Z) (over : bool) : cprog unit :=
  sandev_command_close s (- ETIMEDOUT).

(** ** Paths *)

Definition sanpath_open (s i : Z) : cprog Z :=
  p <- get_path s i ;;
  (* Open interface *)
  rc <- xfer_open_uri (I_sanpath_block s i) (path_uri p) ;;
  if negb (rc =? 0) then ret rc else
  (* Update ACPI descriptor, if applicable *)
  d <- get_sandev s ;;
  when (Z.land (flags d) SAN_NO_DESCRIBE =? 0)
    (p <- get_path s i ;;
     match path_desc p with Some desc => acpi_del desc | None => ret tt end ;;
     desc <- acpi_describe (I_sanpath_block s i) ;;
     upd_path s i (set_path_desc desc) ;;
     match desc with Some desc => acpi_add desc | None => ret tt end) ;;
  (* Start process *)
  process_add (P_sanpath s i) ;;
  (* Mark as opened *)
  upd_sandev s (fun d => set_opened (opened d ++ [i])
                           (set_closed (list_del i (closed d)) d)) ;;
  (* Record as in progress *)
  upd_path s i (set_path_rc (- EINPROGRESS)) ;;
  ret 0.

Definition sanpath_close (s i rc : Z) : cprog unit :=
  (* Record status *)
  upd_path s i (set_path_rc rc) ;;
  (* Mark as closed *)
  upd_sandev s (fun d => set_closed (list_del i (closed d) ++ [i])
                           (set_opened (list_del i (opened d)) d)) ;;
  (* Stop process *)
  process_del (P_sanpath s i) ;;
  (* Restart interfaces, avoiding potential loops *)
  d <- get_sandev s ;;
  if decide (active d = Some i) then
    intfs_restart rc [I_sandev_command s; I_sanpath_block s i] ;;
    upd_sandev s (set_active None) ;;
    sandev_command_close s rc
  else
    intf_restart (I_sanpath_block s i) rc.

Definition sanpath_block_close (s i rc : Z) : cprog unit :=
  (* Any closure is an error from our point of view *)
  sanpath_close s i (if rc =? 0 then - ENOTCONN else rc).

(** We are never ready to receive data via this interface. *)
Definition sanpath_block_window (s i : Z) : cprog Z := ret 0.

Definition sanpath_step (s i : Z) : cprog unit :=
  d <- get_sandev s ;;
  (* Ignore if we are already the active device *)
  if decide (active d = Some i) then ret tt else
  (* Wait until path has become available *)
  window <- xfer_window (I_sanpath_block s i) ;;
  if window =? 0 then ret tt else
  (* Record status *)
  upd_path s i (set_path_rc 0) ;;
  (* Mark as active path or close as applicable *)
  d <- get_sandev s ;;
  match active d with
  | None => upd_sandev s (set_active (Some i))
  | Some _ => sanpath_close s i 0
  end.

(** ** Restarting and reopening *)

Definition sandev_restart (s rc : Z) : cprog unit :=
  (* Restart all block device interfaces *)
  iterate fuel (fun _ : unit =>
    d <- get_sandev s ;;
    match opened d with
    | [] => ret (inr tt)
    | i :: _ => sanpath_close s i rc ;; ret (inl tt)
    end) tt ;;
  (* Clear active path *)
  upd_sandev s (set_active None) ;;
  (* Close any outstanding command *)
  sandev_command_close s rc.

(** Open all paths; the status of the first failure. *)
Definition sandev_open_all (s : Z) : cprog Z :=
  iterate fuel (fun _ : unit =>
    d <- get_sandev s ;;
    match closed d with
    | [] => ret (inr 0)
    | i :: _ =>
        rc <- sanpath_open s i ;;
        ret (if negb (rc =? 0) then inr rc else inl tt)
    end) tt.

(** Wait for any device to become available ([None]), or for all to fail
    ([Some] status, which may be zero). *)
Definition sandev_wait_active (s : Z) : cprog (option Z) :=
  iterate fuel (fun _ : unit =>
    d <- get_sandev s ;;
    match active d with
    | Some _ => ret (inr None)
    | None =>
        step ;;
        d <- get_sandev s ;;
        match opened d with
        | [] =>
            (* Get status of the first device to be closed *)
            rc <- match closed d with
                  | [] => ret (- ENODEV)
                  | i :: _ => p <- get_path s i ;; ret (path_rc p)
                  end ;;
            ret (inr (Some rc))
        | _ => ret (inl tt)
        end
    end) tt.

Definition sandev_reopen (s : Z) : cprog Z :=
  (* Unquiesce system *)
  unquiesce ;;
  (* Close any outstanding command and restart interfaces *)
  sandev_restart s (- ECONNRESET) ;;
  (* Open all paths *)
  rc <- sandev_open_all s ;;
  if negb (rc =? 0) then sandev_restart s rc ;; ret rc else
  failed <- sandev_wait_active s ;;
  match failed with
  | None => ret 0
  | Some rc => sandev_restart s rc ;; ret rc
  end.

(** ** Commands *)

Inductive block_rw : Type := rw_read | rw_write.

(** [params->rw.block_rw] *)
Definition run_block_rw (rw : block_rw) :=
  match rw with rw_read => block_read | rw_write => block_write end.

(** [struct san_command_rw_params] *)
Record san_command_rw_params : Type := mkRw {
  rw_op : block_rw; rw_buffer : Z; rw_lba : Z; rw_count : Z }.

Definition sandev_command_rw (params : san_command_rw_params) (s : Z) : cprog Z :=
  d <- get_sandev s ;;
  let len := u32 (rw_count params * blksize (capacity d)) in
  match active d with
  | None => undef
  | Some i =>
      run_block_rw (rw_op params) (I_sanpath_block s i) (I_sandev_command s)
        (rw_lba params) (rw_count params) (rw_buffer params) len
  end.

Definition sandev_command_read_capacity (s : Z) : cprog Z :=
  d <- get_sandev s ;;
  match active d with
  | None => undef
  | Some i => block_read_capacity (I_sanpath_block s i) (I_sandev_command s)
  end.

(** One attempt at a command: [inr] if it succeeded, or [inl] of the number
    of retries counted and the status. *)
Definition sandev_command_try (s : Z) (command : Z -> cprog Z) (retries : Z)
    : cprog (Z * Z + unit) :=
  needs_reopen <- sandev_needs_reopen s ;;
  rc <- (if (needs_reopen : bool) then sandev_reopen s else ret 0) ;;
  if negb (rc =? 0) then
    (* Delay reopening attempts *)
    sleep_fixed SAN_REOPEN_DELAY_SECS ;;
    (* Retry opening indefinitely for multipath devices *)
    d <- get_sandev s ;;
    ret (inl (if paths d <=? 1 then u32 (retries + 1) else retries, rc))
  else
  (* Initiate command *)
  rc <- command s ;;
  if negb (rc =? 0) then ret (inl (u32 (retries + 1), rc)) else
  (* Start expiry timer *)
  start_timer_fixed (T_sandev s) SAN_COMMAND_TIMEOUT ;;
  (* Wait for command to complete *)
  while fuel (timer_running (T_sandev s)) step ;;
  (* Check command status *)
  d <- get_sandev s ;;
  if negb (command_rc d =? 0)
  then ret (inl (u32 (retries + 1), command_rc d))
  else ret (inr tt).

Definition sandev_command (s : Z) (command : Z -> cprog Z) : cprog Z :=
  (* Unquiesce system *)
  unquiesce ;;
  (* (Re)try command *)
  iterate fuel (fun retries =>
    r <- sandev_command_try s command retries ;;
    match r with
    | inr _ => ret (inr 0)
    | inl (retries, rc) =>
        limit <- gets (fun w => san_retries (w_san w)) ;;
        ret (if retries <=? limit then inl retries else inr rc)
    end) 0.

Definition sandev_reset (s : Z) : cprog Z := sandev_reopen s.

(** ** Reading and writing *)

Definition sandev_rw (s lba count buffer : Z) (rw : block_rw) : cprog Z :=
  d <- get_sandev s ;;
  let lba := u64 (Z.shiftl lba (blksize_shift d)) in
  let remaining := u32 (Z.shiftl count (blksize_shift d)) in
  (* Read/write fragments *)
  iterate fuel (fun '(params, remaining) =>
    if remaining =? 0 then ret (inr 0) else
    (* Determine fragment length *)
    let count := if remaining <? rw_count params then remaining
                 else rw_count params in
    let params := mkRw rw (rw_buffer params) (rw_lba params) count in
    (* Execute command *)
    rc <- sandev_command s (sandev_command_rw params) ;;
    if negb (rc =? 0) then ret (inr rc) else
    (* Move to next fragment *)
    d <- get_sandev s ;;
    let frag_len := u32 (blksize (capacity d) * count) in
    ret (inl (mkRw rw (u32 (rw_buffer params + frag_len))
                (u64 (rw_lba params + count)) count,
              remaining - count)))
    (mkRw rw buffer lba (max_count (capacity d)), remaining).

Definition sandev_read (s lba count buffer : Z) : cprog Z :=
  sandev_rw s lba count buffer rw_read.

Definition sandev_write (s lba count buffer : Z) : cprog Z :=
  rc <- sandev_rw s lba count buffer rw_write ;;
  if negb (rc =? 0) then ret rc else
  (* Quiesce system *)
  quiesce ;;
  ret 0.

(** ** Description *)

(** The status of the first incomplete descriptor among [l], or 0. *)
Fixpoint paths_complete (s : Z) (l : list Z) : cprog Z :=
  match l with
  | [] => ret 0
  | i :: l =>
      p <- get_path s i ;;
      match path_desc p with
      | None => paths_complete s l
      | Some desc =>
          rc <- m_acpi_complete desc ;;
          if negb (rc =? 0) then ret rc else paths_complete s l
      end
  end.

Definition sandev_describe (s : Z) : cprog Z :=
  iterate fuel (fun _ : unit =>
    (* Allow connections to progress *)
    step ;;
    (* Fail if any closed path has an incomplete descriptor *)
    d <- get_sandev s ;;
    rc <- paths_complete s (closed d) ;;
    if negb (rc =? 0) then ret (inr rc) else
    (* Succeed if no paths have an incomplete descriptor *)
    d <- get_sandev s ;;
    rc <- paths_complete s (opened d) ;;
    ret (if rc =? 0 then inr 0 else inl tt)) tt.

Definition sandev_undescribe (s : Z) : cprog unit :=
  d <- get_sandev s ;;
  for_each (seq 0 (Z.to_nat (paths d))) (fun i =>
    p <- get_path s (Z.of_nat i) ;;
    match path_desc p with
    | None => ret tt
    | Some desc =>
        acpi_del desc ;;
        upd_path s (Z.of_nat i) (set_path_desc None)
    end).

(** The block size shift for CD-ROM access: the least one that reaches 2048
    bytes, and the block size it gives. *)
Definition iso9660_shift (blksize : Z) : cprog (Z * Z) :=
  iterate fuel (fun '(blksize, shift) =>
    ret (if blksize <? ISO9660_BLKSIZE
         then inl (u32 (Z.shiftl blksize 1), shift + 1)
         else inr (blksize, shift))) (blksize, 0).

Definition sandev_parse_iso9660 (s : Z) : cprog Z :=
  d <- get_sandev s ;;
  let! (blksize, shift) := iso9660_shift (blksize (capacity d)) in
  (* Cannot be a CD-ROM.  This is not an error. *)
  if ISO9660_BLKSIZE <? blksize then ret 0 else
  let lba := u32 (Z.shiftl ISO9660_PRIMARY_LBA shift) in
  let count := u32 (Z.shiftl 1 shift) in
  (* Allocate scratch area *)
  scratch <- malloc ISO9660_BLKSIZE ;;
  if scratch =? NULL then ret (- ENOMEM) else
  (* Read primary volume descriptor *)
  rc <- sandev_read s lba count (virt_to_phys scratch) ;;
  (if negb (rc =? 0) then ret tt else
   (* Configure as CD-ROM if applicable *)
   primary <- load_at (load 6) scratch ;;
   when (bool_decide (primary = iso9660_primary_check))
     (upd_sandev s (fun d => set_is_cdrom true (set_blksize_shift shift d)))) ;;
  free scratch ;;
  ret rc.

(** ** Allocation and registration *)

Definition empty_int13 : int13_data := mkInt13 0 0 0 0 0 0.

(** The zeroed structure of [zalloc]. *)
Definition empty_sandev : san_device :=
  mkSandev 0 0 0 (mkCap 0 0 0) 0 false empty_int13 0 None [] [] [].

Definition alloc_sandev (uris : list Z) : cprog Z :=
  let count := Z.of_nat (length uris) in
  let size := sizeof_san_device + count * sizeof_san_path in
  s <- zalloc (u32 (size + sizeof_int13_data)) ;;
  if s =? NULL then ret NULL else
  put_ref (R_sandev s) (mkRefcnt 0 free_refcnt) ;;
  ref_init (R_sandev s) sandev_free_fn ;;
  intf_init (I_sandev_command s) sandev_command_desc (Some (R_sandev s)) ;;
  put_timer (T_sandev s) (mkTimer false 0 0 0 0 0 None) ;;
  timer_init (T_sandev s) (Some (R_sandev s)) ;;
  put_sandev s (set_paths count empty_sandev) ;;
  for_each (imap pair uris) (fun '(k, u) =>
    let i := Z.of_nat k in
    uri <- uri_get u ;;
    upd_sandev s (fun d =>
      set_closed (closed d ++ [i])
        (set_path (path d ++ [mkPath uri (- EINPROGRESS) None]) d)) ;;
    intf_init (I_sanpath_block s i) sanpath_block_desc (Some (R_sandev s)) ;;
    process_init_stopped (P_sanpath s i) sanpath_process_desc
      (Some (R_sandev s))) ;;
  ret s.

Definition register_sandev (s drive_ flags_ : Z) : cprog Z :=
  (* Check that drive number is not in use *)
  found <- sandev_find drive_ ;;
  match found with
  | Some _ => ret (- EADDRINUSE)
  | None =>
      (* Record drive number and flags *)
      upd_sandev s (fun d => set_flags flags_ (set_drive drive_ d)) ;;
      let err (rc : Z) : cprog Z :=
        sandev_restart s rc ;; sandev_undescribe s ;; ret rc in
      (* Check that device is capable of being opened *)
      rc <- sandev_reopen s ;;
      if negb (rc =? 0) then err rc else
      (* Describe device *)
      rc <- sandev_describe s ;;
      if negb (rc =? 0) then err rc else
      (* Read device capacity *)
      rc <- sandev_command s sandev_command_read_capacity ;;
      if negb (rc =? 0) then err rc else
      (* Configure as a CD-ROM, if applicable *)
      rc <- sandev_parse_iso9660 s ;;
      if negb (rc =? 0) then err rc else
      (* Add to list of SAN devices *)
      upd_san (fun st => set_san_devices (san_devices st ++ [s]) st) ;;
      ret 0
  end.

Definition unregister_sandev (s : Z) : cprog unit :=
  (* Remove from list of SAN devices *)
  upd_san (fun st => set_san_devices (list_del s (san_devices st)) st) ;;
  (* Shut down interfaces *)
  sandev_restart s 0 ;;
  (* Remove ACPI descriptors *)
  sandev_undescribe s.


(** ** CD-ROM block size *)

Lemma wp_iso9660_shift b Q (w : world) :
  0 < b < 2 ^ 32 -> (11 < fuel)%nat ->
  (forall k, 0 <= k <= 11 -> ISO9660_BLKSIZE <= b * 2 ^ k ->
     (0 < k -> b * 2 ^ (k - 1) < ISO9660_BLKSIZE) -> Q (b * 2 ^ k, k) w) ->
  wp (iso9660_shift b) Q w.
Proof.
  intros Hb Hf HQ. unfold iso9660_shift, ISO9660_BLKSIZE in *.
  eapply (wp_iterate (fun n '(bs, k) w' => w' = w /\ k + Z.of_nat n = 11 /\ 0 <= k /\
    bs = b * 2 ^ k /\ (0 < k -> b * 2 ^ (k - 1) < 2048))); [|exact Hf|].
  - intros n [bs k] w' (-> & Hn & Hk & -> & Hp). wp_prim.
    destruct (Z.ltb_spec (b * 2 ^ k) 2048) as [Hlt|Hge]; [|by apply HQ; try lia].
    assert (H11 : k < 11).
    { apply (Z.pow_lt_mono_r_iff 2); [lia|lia|]. change (2 ^ 11) with 2048. nia. }
    exists (pred n). split; [lia|]. rewrite Z.shiftl_mul_pow2, u32_small by lia.
    split_and!; [done|lia|lia|rewrite Z.pow_add_r by lia; lia|].
    intros _. by rewrite Z.add_simpl_r.
  - split_and!; [done|lia|lia|lia|lia].
Qed.

(** The search for the CD-ROM block size shift: for any non-zero block
    size it ends, with the least shift that makes the block at least 2048
    bytes; for a block size of zero it never ends. *)
Theorem iso9660_shift_correct b (w : world) :
  (11 < fuel)%nat -> 0 <= b < 2 ^ 32 ->
  if b =? 0 then iso9660_shift b w = Spin
  else exists k, iso9660_shift b w = Ret (b * 2 ^ k, k) w /\ 0 <= k <= 11 /\
    ISO9660_BLKSIZE <= b * 2 ^ k /\ (0 < k -> b * 2 ^ (k - 1) < ISO9660_BLKSIZE).
Proof.
  intros Hf Hb. destruct (Z.eqb_spec b 0) as [->|Hnz].
  - unfold iso9660_shift. clear Hf. generalize 0 at 2 as k.
    induction fuel as [|n IH]; intros k; [reflexivity|]. apply IH.
  - assert (W : wp (iso9660_shift b) (fun r w' => w' = w /\ exists k, r = (b * 2 ^ k, k) /\
      0 <= k <= 11 /\ ISO9660_BLKSIZE <= b * 2 ^ k /\
      (0 < k -> b * 2 ^ (k - 1) < ISO9660_BLKSIZE)) w)
      by (apply wp_iso9660_shift; [lia|exact Hf|eauto 10]).
    apply wp_run in W as (r & w' & E & -> & k & -> & H1). eauto.
Qed.

End sanboot.
