(* ===== verification/Biosint.v ===== *)
(** * Biosint

    Real-mode access (include/realmode.h), the processor registers
    (include/registers.h) and the hooking of BIOS interrupt vectors
    (interface/pcbios/biosint.c). *)

From S2P Require Import Prelude.
From S2P Require Import Memory.
From S2P Require Import World.
From S2P Require Import Object.

(** ** Registers *)

Definition lo8 (e : Z) : Z := Z.land e 0xff.
Definition hi8 (e : Z) : Z := Z.land (Z.shiftr e 8) 0xff.
Definition lo16 (e : Z) : Z := Z.land e 0xffff.
Definition put_lo8 (v e : Z) : Z := Z.lor (Z.land e 0xffffff00) (u8 v).
Definition put_hi8 (v e : Z) : Z :=
  Z.lor (Z.land e 0xffff00ff) (Z.shiftl (u8 v) 8).
Definition put_lo16 (v e : Z) : Z := Z.lor (Z.land e 0xffff0000) (u16 v).

Definition al (r : i386_all_regs) : Z := lo8 (eax r).
Definition ah (r : i386_all_regs) : Z := hi8 (eax r).
Definition ax (r : i386_all_regs) : Z := lo16 (eax r).
Definition bx (r : i386_all_regs) : Z := lo16 (ebx r).
Definition cl (r : i386_all_regs) : Z := lo8 (ecx r).
Definition ch (r : i386_all_regs) : Z := hi8 (ecx r).
Definition dl (r : i386_all_regs) : Z := lo8 (edx r).
Definition dh (r : i386_all_regs) : Z := hi8 (edx r).
Definition si (r : i386_all_regs) : Z := lo16 (esi r).

Definition set_ah (v : Z) (r : i386_all_regs) := set_eax (put_hi8 v (eax r)) r.
Definition set_bl (v : Z) (r : i386_all_regs) := set_ebx (put_lo8 v (ebx r)) r.
Definition set_bx (v : Z) (r : i386_all_regs) := set_ebx (put_lo16 v (ebx r)) r.
Definition set_cl (v : Z) (r : i386_all_regs) := set_ecx (put_lo8 v (ecx r)) r.
Definition set_ch (v : Z) (r : i386_all_regs) := set_ecx (put_hi8 v (ecx r)) r.
Definition set_cx (v : Z) (r : i386_all_regs) := set_ecx (put_lo16 v (ecx r)) r.
Definition set_dl (v : Z) (r : i386_all_regs) := set_edx (put_lo8 v (edx r)) r.
Definition set_dh (v : Z) (r : i386_all_regs) := set_edx (put_hi8 v (edx r)) r.
Definition set_dx (v : Z) (r : i386_all_regs) := set_edx (put_lo16 v (edx r)) r.
Definition set_di (v : Z) (r : i386_all_regs) := set_edi (put_lo16 v (edi r)) r.

(** Flags, by bit number. *)
Definition CF : Z := 0.
Definition PF : Z := 2.
Definition ZF : Z := 6.
Definition SF : Z := 7.
Definition OF : Z := 11.

Definition flag (b : Z) (r : i386_all_regs) : bool := Z.testbit (eflags r) b.
Definition put_flag (b : Z) (v : bool) (r : i386_all_regs) : i386_all_regs :=
  set_eflags (if v then Z.setbit (eflags r) b else Z.clearbit (eflags r) b) r.

(** ** Base memory *)

Definition BDA_SEG : Z := 0x0040.

Definition real_to_user (segment offset : Z) : Z :=
  u32 (u32 (Z.shiftl segment 4) + offset).

Section biosint.
Context `{Platform}.

Definition copy_to_real (dest_seg dest_off : Z) (src : list Z) : cprog unit :=
  modify (fun w =>
    set_w_mem (store (real_to_user dest_seg dest_off) src (w_mem w)) w).

Definition copy_from_real (n : nat) (src_seg src_off : Z) : cprog (list Z) :=
  gets (fun w => load n (real_to_user src_seg src_off) (w_mem w)).

(** [get_real] and [put_real] of a variable of [n] bytes. *)
Definition get_real (n : nat) (src_seg src_off : Z) : cprog Z :=
  bs <- copy_from_real n src_seg src_off ;; ret (le_combine bs).
Definition put_real (n : nat) (var dest_seg dest_off : Z) : cprog unit :=
  copy_to_real dest_seg dest_off (le_split n var).

(** ** Interrupt vectors *)

(** A [struct segoff] is (segment, offset), stored offset first. *)
Definition segoff_bytes (v : Z * Z) : list Z :=
  le_split 2 v.2 ++ le_split 2 v.1.
Definition segoff_of_bytes (bs : list Z) : Z * Z :=
  (le_combine (drop 2 bs), le_combine (take 2 bs)).

Definition get_vector (interrupt : Z) : cprog (Z * Z) :=
  bs <- copy_from_real 4 0 (interrupt * 4) ;; ret (segoff_of_bytes bs).
Definition put_vector (interrupt : Z) (v : Z * Z) : cprog unit :=
  copy_to_real 0 (interrupt * 4) (segoff_bytes v).

Definition upd_bios (f : bios_state -> bios_state) : cprog unit :=
  modify (fun w => set_w_bios (f (w_bios w)) w).

(** Hook a vector, given the contents of the chaining vector; the contents
    it is left with. *)
Definition hook_bios_interrupt (interrupt handler : Z) (chain_vector : Z * Z)
    : cprog (Z * Z) :=
  if negb (chain_vector.1 =? 0) || negb (chain_vector.2 =? 0)
  then ret chain_vector (* Already hooked; do nothing *)
  else
    chain_vector <- get_vector interrupt ;;
    put_vector interrupt (rm_cs, u16 handler) ;;
    upd_bios (fun b =>
      set_hooked_bios_interrupts (u16 (hooked_bios_interrupts b + 1)) b) ;;
    ret chain_vector.

(** Unhook a vector: the status and the contents of the chaining vector. *)
Definition unhook_bios_interrupt (interrupt handler : Z) (chain_vector : Z * Z)
    : cprog (Z * (Z * Z)) :=
  vector <- get_vector interrupt ;;
  if negb (vector.1 =? rm_cs) || negb (vector.2 =? handler)
  then ret (- EBUSY, chain_vector)
  else
    put_vector interrupt chain_vector ;;
    upd_bios (fun b =>
      set_hooked_bios_interrupts (u16 (hooked_bios_interrupts b - 1)) b) ;;
    ret (0, (0, 0)).

(** Call an interrupt handler that is not ours. *)
Definition call_handler (vector : Z * Z) (r : i386_all_regs)
    : cprog i386_all_regs :=
  let! (r, hw, m) :=
    gets (fun w => bios_handler vector r (w_hw w) (w_mem w)) in
  modify (fun w => set_w_hw hw (set_w_mem m w)) ;;
  ret r.

End biosint.

(** ** Register lemmas *)

Lemma land_u8 v : Z.land (u8 v) 0xff = u8 v.
Proof.
  change 0xff with (2 ^ 8 - 1). rewrite land_ones_mod by lia.
  apply Z.mod_small, u8_range.
Qed.

Lemma hi8_put_hi8 v e : hi8 (put_hi8 v e) = u8 v.
Proof.
  unfold hi8, put_hi8. rewrite Z.shiftr_lor, Z.shiftr_land, Z.land_lor_distr_l.
  rewrite <- Z.land_assoc. change (Z.land (Z.shiftr 0xffff00ff 8) 0xff) with 0.
  rewrite Z.land_0_r, Z.lor_0_l, Z.shiftr_shiftl_l, Z.sub_diag, Z.shiftl_0_r by lia.
  apply land_u8.
Qed.

Lemma lo8_put_hi8 v e : lo8 (put_hi8 v e) = lo8 e.
Proof.
  unfold lo8, put_hi8. rewrite Z.land_lor_distr_l, <- Z.land_assoc.
  change (Z.land 0xffff00ff 0xff) with 0xff.
  replace (Z.land (Z.shiftl (u8 v) 8) 0xff) with 0; [apply Z.lor_0_r|].
  change 0xff with (2 ^ 8 - 1). rewrite land_ones_mod, Z.shiftl_mul_pow2 by lia.
  symmetry. apply Z.mod_mul. lia.
Qed.

Lemma lo8_put_lo8 v e : lo8 (put_lo8 v e) = u8 v.
Proof.
  unfold lo8, put_lo8. rewrite Z.land_lor_distr_l, <- Z.land_assoc.
  change (Z.land 0xffffff00 0xff) with 0. rewrite Z.land_0_r, Z.lor_0_l.
  apply land_u8.
Qed.

Lemma hi8_put_lo8 v e : hi8 (put_lo8 v e) = hi8 e.
Proof.
  unfold hi8, put_lo8.
  rewrite Z.shiftr_lor, Z.shiftr_land, Z.land_lor_distr_l, <- Z.land_assoc.
  change (Z.land (Z.shiftr 0xffffff00 8) 0xff) with 0xff.
  rewrite (Z.shiftr_div_pow2 (u8 v)), Z.div_small by (lia || apply u8_range).
  apply Z.lor_0_r.
Qed.

Lemma lo16_put_lo16 v e : lo16 (put_lo16 v e) = u16 v.
Proof.
  unfold lo16, put_lo16. rewrite Z.land_lor_distr_l, <- Z.land_assoc.
  change (Z.land 0xffff0000 0xffff) with 0. rewrite Z.land_0_r, Z.lor_0_l.
  change 0xffff with (2 ^ 16 - 1). rewrite land_ones_mod by lia.
  apply Z.mod_small, u16_range.
Qed.

Lemma lo8_range e : 0 <= lo8 e < 256.
Proof.
  unfold lo8. change 0xff with (2 ^ 8 - 1). rewrite land_ones_mod by lia. dlia.
Qed.

Lemma hi8_range e : 0 <= hi8 e < 256.
Proof.
  unfold hi8. change 0xff with (2 ^ 8 - 1). rewrite land_ones_mod by lia. dlia.
Qed.

Lemma lo16_range e : 0 <= lo16 e < 65536.
Proof.
  unfold lo16. change 0xffff with (2 ^ 16 - 1). rewrite land_ones_mod by lia. dlia.
Qed.

(** Reading a flag back after an update. *)
Lemma flag_put_flag b v r : 0 <= b -> flag b (put_flag b v r) = v.
Proof.
  intros Hb. unfold flag, put_flag. cbn [set_eflags eflags]. destruct v.
  - apply Z.setbit_eq. exact Hb.
  - apply Z.clearbit_eq.
Qed.

Lemma flag_put_flag_ne b c v r :
  0 <= b -> 0 <= c -> b <> c -> flag b (put_flag c v r) = flag b r.
Proof.
  intros Hb Hc Hne. unfold flag, put_flag. cbn [set_eflags eflags]. destruct v.
  - apply Z.setbit_neq; lia.
  - apply Z.clearbit_neq; lia.
Qed.
