(* ===== verification/E820.v ===== *)
(** * E820

    The INT 15 handler in assembly that edits iPXE out of the memory map of
    the BIOS (arch/x86/interface/pcbios/e820mangler.S), and the hidden regions
    (arch/x86/interface/pcbios/hidemem.c, basemem.c). *)

From S2P Require Import Prelude.
From S2P Require Import Memory.
From S2P Require Import World.
From S2P Require Import Biosint.

Definition SMAP : Z := 0x534d4150.
Definition E820MAXSIZE : Z := 64.

(** ** INT 15,e820 *)

(** What a call returns: the carry flag, EAX, EBX and ECX, and the bytes
    stored in the caller's buffer from its start on. *)
Record e820_out : Type := mkOut {
  o_cf : bool;
  o_eax : Z;
  o_ebx : Z;
  o_ecx : Z;
  o_buf : list Z
}.

(** Bytes stored over the start of a buffer. *)
Definition overwrite (bytes buf : list Z) : list Z := bytes ++ drop (length bytes) buf.

(** ** e820mangler.S *)

(** The hidden regions, as (start, end). *)
Record hidden : Type := mkHidden {
  hidemem_base : Z * Z;
  hidemem_umalloc : Z * Z;
  hidemem_textdata : Z * Z
}.

Definition initial_hidden : hidden :=
  mkHidden (0x000a0000, 0x000a0000) (2 ^ 64 - 1, 2 ^ 64 - 1) (2 ^ 64 - 1, 2 ^ 64 - 1).

(** The same table, seen as the allowed windows between them. *)
Definition windows (h : hidden) : list (Z * Z) :=
  [(0, (hidemem_base h).1);
   ((hidemem_base h).2, (hidemem_umalloc h).1);
   ((hidemem_umalloc h).2, (hidemem_textdata h).1);
   ((hidemem_textdata h).2, 2 ^ 64 - 1)].

(** Truncate a region (start, length) to a window (start, end). *)
Definition window_region (start len : Z) (window : Z * Z) : Z * Z :=
  (* Convert (start,len) to (start, end) *)
  let end_ := u64 (start + len) in
  (* Truncate to window start *)
  let start := if start <? window.1 then window.1 else start in
  (* Truncate to window end *)
  let end_ := if window.2 <? end_ then window.2 else end_ in
  (* Convert (start, end) back to (start, len); if length is <0, set it to 0 *)
  (start, if end_ <? start then 0 else end_ - start).

Definition ext_memory_window (h : hidden) : Z * Z := ((hidemem_base h).2, (hidemem_umalloc h).1).

Definition patch_1m (h : hidden) (ax : Z) : Z :=
  let '(_, len) := window_region 0x100000 (Z.shiftl (u16 ax) 10) (ext_memory_window h) in
  u16 (Z.shiftr (u32 len) 10).

Definition patch_16m (h : hidden) (bx : Z) : Z :=
  let '(_, len) := window_region 0x1000000 (u32 (Z.shiftl bx 16)) (ext_memory_window h) in
  u16 (Z.shiftr (u32 len) 16).

(** AX and BX. *)
Definition patch_1m_16m (h : hidden) (ax bx : Z) : Z * Z :=
  let ax := patch_1m h ax in
  let bx := patch_16m h bx in
  (* If 1M region is no longer full-length, kill off the 16M region *)
  (ax, if ax =? 15 * 1024 then bx else 0).

(** The cache of the last region of the underlying map. *)
Record e820_cache : Type := mkCache {
  underlying_e820_index : Z;
  underlying_e820_ebx : Z;
  underlying_e820_cache : list Z;
  underlying_e820_cache_size : Z
}.

Section mangler.
(** The previous INT 15,e820 handler, by EBX and ECX; the windows; and their
    address in the data segment. *)
Context (int15_vector : Z -> Z -> e820_out) (windows : list (Z * Z)) (memory_windows : Z).

Notation mprog := (prog e820_cache).

Definition set_index (v : Z) : mprog unit :=
  modify (fun c => mkCache v (underlying_e820_ebx c) (underlying_e820_cache c)
                     (underlying_e820_cache_size c)).

(** At most [n] calls are made before it counts as spinning. *)
Fixpoint get_underlying_e820 (n : nat) (ebx ecx : Z) : mprog e820_out :=
  match n with
  | O => spin
  | S n =>
      let bx := u16 ebx in
      (* If the requested region is in the cache, return it *)
      index <- gets underlying_e820_index ;;
      if index =? bx then
        size <- gets underlying_e820_cache_size ;;
        cache <- gets underlying_e820_cache ;;
        let ecx := if ecx <=? size then ecx else size in
        ret (mkOut false SMAP (ebx - bx + u16 (bx + 1)) ecx (take (Z.to_nat (u16 ecx)) cache))
      else
        (* If the requested region is earlier than the cached region,
           invalidate the cache *)
        when (negb (index <=? bx)) (set_index 0xffff) ;;
        (* If the cache is invalid, reset the underlying %ebx *)
        index <- gets underlying_e820_index ;;
        when (index =? 0xffff)
          (modify (fun c => mkCache (underlying_e820_index c) 0 (underlying_e820_cache c)
                              (underlying_e820_cache_size c))) ;;
        (* If the cache is valid but the continuation value is zero, the
           previous underlying call was the last one *)
        underlying_ebx <- gets underlying_e820_ebx ;;
        if negb (index =? 0xffff) && (underlying_ebx =? 0)
        then ret (mkOut true 0xe820 ebx ecx []) else
        (* Get the next region into the cache *)
        let size := if ecx <=? E820MAXSIZE then ecx else E820MAXSIZE in
        let r := int15_vector underlying_ebx size in
        modify (fun c => mkCache (underlying_e820_index c) (underlying_e820_ebx c)
                           (overwrite (o_buf r) (underlying_e820_cache c))
                           (underlying_e820_cache_size c)) ;;
        (* Check for error return from underlying e820 call *)
        if o_cf r || negb (o_eax r =? SMAP)
        then ret (mkOut true (o_eax r) (o_ebx r) (o_ecx r) []) else
        (* Mark cache as containing this result *)
        modify (fun c => mkCache (u16 (underlying_e820_index c + 1)) (o_ebx r)
                           (underlying_e820_cache c) (o_ecx r)) ;;
        (* Loop until found *)
        get_underlying_e820 n ebx ecx
  end.

(** The window at an offset of the data segment. *)
Definition window_at (si : Z) : option (Z * Z) :=
  if (memory_windows <=? si) && ((si - memory_windows) mod 16 =? 0)
  then windows !! Z.to_nat ((si - memory_windows) / 16) else None.

Definition memory_windows_end : Z := memory_windows + 16 * Z.of_nat (length windows).

Definition get_windowed_e820 (n : nat) (ebx ecx : Z) : mprog e820_out :=
  (* Split %ebx into %si:%bx *)
  let bp := u16 ebx in
  let si := Z.shiftr ebx 16 in
  (* %si == 0 => start of memory_windows list *)
  let si := if si =? 0 then memory_windows else si in
  (* Get (cached) underlying e820 region to buffer *)
  r <- get_underlying_e820 n ebx ecx ;;
  if o_cf r then ret r else
  (* Truncate region to current window *)
  match window_at si with
  | None => undef
  | Some window =>
      let '(start, len) := window_region (le_combine (take 8 (o_buf r)))
                             (le_combine (take 8 (drop 8 (o_buf r)))) window in
      let buf := overwrite (le_split 8 start ++ le_split 8 len) (o_buf r) in
      (* Derive continuation value for next call *)
      let si := u16 (si + 16) in
      let '(si, bx) := if negb (si =? memory_windows_end) then (si, bp)
                       else (0, u16 (o_ebx r)) in
      ret (mkOut false (o_eax r) (Z.lor (Z.shiftl si 16) bx) (o_ecx r) buf)
  end.

(** [fuel]: the regions it may skip before it counts as spinning. *)
Fixpoint get_nonempty_e820 (fuel n : nat) (ebx ecx : Z) : mprog e820_out :=
  match fuel with
  | O => spin
  | S fuel =>
      (* Get next windowed region *)
      r <- get_windowed_e820 n ebx ecx ;;
      if o_cf r then ret r else
      (* If region is non-empty, finish here *)
      if negb (le_combine (take 4 (drop 8 (o_buf r))) =? 0) then ret r
      else if negb (le_combine (take 4 (drop 12 (o_buf r))) =? 0) then ret r
      (* Region was empty: go to next region *)
      else get_nonempty_e820 fuel n (o_ebx r) ecx
  end.

Definition get_mangled_e820 (fuel n : nat) (ebx ecx : Z) : mprog e820_out :=
  (* Get a nonempty region *)
  r <- get_nonempty_e820 fuel n ebx ecx ;;
  if o_cf r then ret r else
  (* Peek ahead to see if there are any further nonempty regions *)
  peek <- get_nonempty_e820 fuel n (o_ebx r) (o_ecx r) ;;
  if negb (o_cf peek) then ret r
  (* No further nonempty regions: zero %ebx and clear CF *)
  else ret (mkOut false (o_eax r) 0 (o_ecx r) (o_buf r)).
End mangler.

(** ** The INT 15 handler *)

(** AX, BX, CX and DX of INT 15,e801, from what the previous handler
    returned. *)
Definition int15_e801 (h : hidden) (r : Z * Z * Z * Z) : Z * Z * Z * Z :=
  let '(ax, bx, cx, dx) := r in
  let '(ax, bx) := patch_1m_16m h ax bx in
  let '(cx, dx) := patch_1m_16m h cx dx in
  (ax, bx, cx, dx).

(** AX of INT 15,88. *)
Definition int15_88 (h : hidden) (ax : Z) : Z := patch_1m h ax.

(** Which handler a call goes to. *)
Inductive int15_route : Type :=
  | to_e820
  | to_e801
  | to_88
  | to_previous.

Definition int15 (eax edx : Z) : int15_route :=
  if (lo16 eax =? 0xe820) && (edx =? SMAP) then to_e820
  else if lo16 eax =? 0xe801 then to_e801
  else if hi8 eax =? 0x88 then to_88
  else to_previous.

(** ** hidemem.c *)

Definition ALIGN_HIDDEN : Z := 4096.

Definition hide_region (start end_ : Z) : Z * Z :=
  (Z.land start (not32 (ALIGN_HIDDEN - 1)),
   Z.land (u32 (end_ + ALIGN_HIDDEN - 1)) (not32 (ALIGN_HIDDEN - 1))).

Definition hide_basemem (fbms : Z) (h : hidden) : hidden :=
  mkHidden (fbms * 1024, (hidemem_base h).2) (hidemem_umalloc h) (hidemem_textdata h).

Definition hide_umalloc (start end_ : Z) (h : hidden) : hidden :=
  mkHidden (hidemem_base h) (hide_region start end_) (hidemem_textdata h).

(** [textdata] and [etextdata]: the physical addresses of these symbols. *)
Definition hide_textdata (textdata etextdata : Z) (h : hidden) : hidden :=
  mkHidden (hidemem_base h) (hidemem_umalloc h) (hide_region textdata etextdata).

Section hidemem.
Context `{Platform}.

(** Symbols of the linker, and the offset of the handler. *)
Context (textdata etextdata text16_memsz data16_memsz int15_off : Z).

Definition BDA_FBMS : Z := 0x0013.
Definition get_fbms : cprog Z := get_real 2 BDA_SEG BDA_FBMS.

(** The hidden regions and the chaining vector.  The calls of [get_memmap],
    which only print the map, are left out. *)
Definition hide_etherboot (h : hidden) (int15_vector : Z * Z) : cprog (hidden * (Z * Z)) :=
  (* Initialise the hidden regions *)
  fbms <- get_fbms ;;
  let h := hide_basemem fbms h in
  let h := hide_umalloc textdata textdata h in
  let h := hide_textdata textdata etextdata h in
  (* Guess whether or not we are being loaded sensibly *)
  let rm_cs_top := Z.shiftr (Z.shiftl rm_cs 4 + text16_memsz + 1024 - 1) 10 in
  let rm_ds_top := Z.shiftr (Z.shiftl rm_ds 4 + data16_memsz + 1024 - 1) 10 in
  fbms <- get_fbms ;;
  if (rm_cs_top <? fbms) && (rm_ds_top <? fbms) then ret (h, int15_vector) else
  (* Hook INT 15 *)
  int15_vector <- hook_bios_interrupt 0x15 int15_off int15_vector ;;
  ret (h, int15_vector).

Definition unhide_etherboot (int15_vector : Z * Z) : cprog (Z * Z) :=
  (* Other vectors that are still hooked need our memory *)
  hooked <- gets (fun w => hooked_bios_interrupts (w_bios w)) ;;
  if 1 <? hooked then ret int15_vector else
  (* Try to unhook INT 15 *)
  let! (_, int15_vector) := unhook_bios_interrupt 0x15 int15_off int15_vector in
  ret int15_vector.

(** basemem.c *)
Definition set_fbms (new_fbms : Z) (h : hidden) : cprog hidden :=
  (* Update the BIOS memory counter *)
  put_real 2 (u16 new_fbms) BDA_SEG BDA_FBMS ;;
  (* Update our hidden memory region map *)
  fbms <- get_fbms ;;
  ret (hide_basemem fbms h).
End hidemem.
