(* ===== verification/E820Spec.v ===== *)
(** * E820Spec

    The edited memory map: what a caller of INT 15,e820 reads, call by call,
    is exactly the memory map of the BIOS without the hidden regions. *)

From S2P Require Import Prelude.
From S2P Require Import Memory.
From S2P Require Import World.
From S2P Require Import Biosint.
From S2P Require Import E820.

(** ** The memory map of the BIOS *)

(** The documented behaviour of INT 15,e820: from continuation value zero on,
    the entries come one by one, each with the next continuation value; after
    the last one it is zero, or the next call stores nothing and sets the carry
    flag.  Entries are [full] bytes long, and cut off at the size of the caller's buffer. *)
Record e820_bios (int15 : Z -> Z -> e820_out) (entries : list (list Z)) (full : nat)
    (cont : nat -> Z) : Prop := {
  eb_full : (20 <= full <= 64)%nat;
  eb_length : 0 < Z.of_nat (length entries) < 65535;
  eb_first : cont 0%nat = 0;
  eb_more : forall i, (0 < i < length entries)%nat -> cont i <> 0;
  eb_entry : forall i e, entries !! i = Some e -> length e = full /\ Forall is_byte e;
  eb_get : forall i e size, entries !! i = Some e -> 20 <= size <= 64 ->
    int15 (cont i) size =
    mkOut false SMAP (cont (S i)) (Z.min size (Z.of_nat full))
      (take (Z.to_nat (Z.min size (Z.of_nat full))) e);
  eb_end : forall size, cont (length entries) <> 0 ->
    o_cf (int15 (cont (length entries)) size) = true /\
    o_buf (int15 (cont (length entries)) size) = []
}.

(** ** Entries *)

Definition e820_start (e : list Z) : Z := le_combine (take 8 e).
Definition e820_len (e : list Z) : Z := le_combine (take 8 (drop 8 e)).
Definition covers (e : list Z) (a : Z) : Prop := e820_start e <= a < e820_start e + e820_len e.
Definition e820_type (e : list Z) : Z := le_combine (take 4 (drop 16 e)).

(** An entry, cut to a window. *)
Definition windowed (e : list Z) (window : Z * Z) : list Z :=
  let '(start, len) := window_region (e820_start e) (e820_len e) window in
  overwrite (le_split 8 start ++ le_split 8 len) e.

(** What a cut region holds; the two tests of the code see whether it is
    empty. *)
Lemma windowed_region e w start len :
  window_region (e820_start e) (e820_len e) w = (start, len) ->
  0 <= start < 2 ^ 64 -> 0 <= len < 2 ^ 64 ->
  e820_start (windowed e w) = start /\ e820_len (windowed e w) = len /\
  le_combine (take 4 (drop 8 (windowed e w))) = len mod 2 ^ 32 /\
  le_combine (take 4 (drop 12 (windowed e w))) = len / 2 ^ 32 /\
  drop 16 (windowed e w) = drop 16 e.
Proof.
  intros E Hs Hl. unfold windowed. rewrite E.
  change (overwrite (le_split 8 start ++ le_split 8 len) e)
    with (le_split 8 start ++ le_split 8 len ++ drop 16 e).
  split; [|split; [|split; [|split; [|reflexivity]]]].
  - change (le_combine (le_split 8 start) = start). rewrite le_combine_split. by apply Z.mod_small.
  - change (le_combine (le_split 8 len) = len). rewrite le_combine_split. by apply Z.mod_small.
  - change (le_combine (le_split 4 len) = len mod 2 ^ 32). by rewrite le_combine_split.
  - change (le_combine (le_split 4 (len / 256 / 256 / 256 / 256)) = len / 2 ^ 32).
    rewrite le_combine_split, !Z.div_div by lia. change (256 * 256 * 256 * 256) with (2 ^ 32).
    apply Z.mod_small. split; [apply Z.div_pos; lia|apply Z.div_lt_upper_bound; lia].
Qed.

Lemma windowed_rest e w : drop 16 (windowed e w) = drop 16 e.
Proof. unfold windowed. by destruct (window_region _ _ w). Qed.

Lemma window_region_range start len w :
  0 <= start < 2 ^ 64 -> 0 <= w.1 < 2 ^ 64 -> 0 <= w.2 < 2 ^ 64 ->
  let '(start', len') := window_region start len w in 0 <= start' < 2 ^ 64 /\ 0 <= len' < 2 ^ 64.
Proof.
  intros Hs H1 H2. unfold window_region, u64.
  pose proof (Z.mod_pos_bound (start + len) (2 ^ 64) ltac:(lia)).
  set (end_ := (start + len) mod 2 ^ 64) in *. clearbody end_.
  destruct (Z.ltb_spec start w.1), (Z.ltb_spec w.2 end_);
    repeat match goal with |- context [?a <? ?b] => destruct (Z.ltb_spec a b) end; lia.
Qed.

(** ** The cached underlying map *)

Section mangler.
Context (int15_vector : Z -> Z -> e820_out) (entries : list (list Z)) (full : nat)
  (cont : nat -> Z) (Hbios : e820_bios int15_vector entries full cont).

Lemma e820_bytes i e m : entries !! i = Some e ->
  0 <= e820_start (take m e) < 2 ^ 64 /\ 0 <= e820_len (take m e) < 2 ^ 64.
Proof.
  intros He. destruct (eb_entry _ _ _ _ Hbios _ _ He) as [_ Hb].
  assert (G : forall l, Forall is_byte l -> 0 <= le_combine (take 8 l) < 2 ^ 64).
  { intros l Hl. pose proof (le_combine_range (take 8 l) ltac:(by apply Forall_take)) as Hr.
    split; [lia|]. eapply Z.lt_le_trans; [apply Hr|]. apply Z.pow_le_mono_r; [lia|].
    rewrite length_take. lia. }
  split; apply G; [|apply Forall_drop]; by apply Forall_take.
Qed.

(** The size of the caller's buffer, and what the BIOS makes of it. *)
Context (ecx : Z) (Hecx : 20 <= ecx <= 64).
Let size : Z := Z.min ecx (Z.of_nat full).
Let n : nat := length entries.

(** The cache is invalid, or holds entry [i]. *)
Definition cached (c : e820_cache) (i : Z) : Prop :=
  exists e, 0 <= i /\ entries !! Z.to_nat i = Some e /\
    underlying_e820_index c = i /\ underlying_e820_ebx c = cont (S (Z.to_nat i)) /\
    underlying_e820_cache_size c = size /\
    take (Z.to_nat size) (underlying_e820_cache c) = take (Z.to_nat size) e.

Definition cache_ok (c : e820_cache) : Prop :=
  underlying_e820_index c = 0xffff \/ exists i, cached c i.

Lemma size_range : 20 <= size <= 64.
Proof. unfold size. destruct (eb_full _ _ _ _ Hbios). lia. Qed.

Lemma cached_range c i : cached c i -> 0 <= i < Z.of_nat n /\ i < 65535.
Proof.
  intros (e & H0 & He & _). apply lookup_lt_Some in He. fold n in He.
  pose proof (eb_length _ _ _ _ Hbios) as Hn. fold n in Hn. lia.
Qed.

Lemma min_size request : request = ecx \/ request = size ->
  (if request <=? size then request else size) = size /\ 20 <= request <= 64 /\
  Z.min request (Z.of_nat full) = size.
Proof.
  pose proof size_range. unfold size in *. intros [->| ->].
  - destruct (Z.leb_spec ecx (Z.min ecx (Z.of_nat full))); lia.
  - destruct (Z.leb_spec (Z.min ecx (Z.of_nat full)) (Z.min ecx (Z.of_nat full))); lia.
Qed.

(** What the underlying map gives for entry [b]. *)
Definition underlying_spec (ebx b : Z) (r : e820_out) (c : e820_cache) : Prop :=
  cache_ok c /\
  match entries !! Z.to_nat b with
  | Some e => r = mkOut false SMAP (ebx - b + u16 (b + 1)) size (take (Z.to_nat size) e)
  | None => o_cf r = true
  end.

Lemma take_overwrite m (e cache : list Z) :
  (m <= length e)%nat -> take m (overwrite (take m e) cache) = take m e.
Proof.
  intros Hm. unfold overwrite. rewrite take_app_le by (rewrite length_take; lia).
  rewrite take_take, Nat.min_id. done.
Qed.

(** The call of the previous handler with continuation value [ubx]. *)
Definition fetch (k : nat) (ebx request ubx : Z) (c : e820_cache) : outcome e820_cache e820_out :=
  let r := int15_vector ubx (if request <=? E820MAXSIZE then request else E820MAXSIZE) in
  let cache := overwrite (o_buf r) (underlying_e820_cache c) in
  if o_cf r || negb (o_eax r =? SMAP)
  then Ret (mkOut true (o_eax r) (o_ebx r) (o_ecx r) [])
         (mkCache (underlying_e820_index c) (underlying_e820_ebx c) cache
            (underlying_e820_cache_size c))
  else get_underlying_e820 int15_vector k ebx request
         (mkCache (u16 (underlying_e820_index c + 1)) (o_ebx r) cache (o_ecx r)).

Lemma underlying_invalid k ebx request c :
  underlying_e820_index c = 0xffff -> u16 ebx < 0xffff ->
  get_underlying_e820 int15_vector (S k) ebx request c =
  fetch k ebx request 0 (mkCache 0xffff 0 (underlying_e820_cache c) (underlying_e820_cache_size c)).
Proof.
  intros Hi Hb. cbn [get_underlying_e820]. unfold bind, gets, set_index, modify. rewrite Hi.
  destruct (Z.eqb_spec 0xffff (u16 ebx)), (Z.leb_spec 0xffff (u16 ebx)); try lia.
  cbn -[get_underlying_e820 u16 SMAP E820MAXSIZE overwrite].
  unfold fetch. cbn [underlying_e820_index underlying_e820_ebx underlying_e820_cache
    underlying_e820_cache_size]. by destruct (_ || _).
Qed.

Lemma underlying_earlier k ebx request c :
  underlying_e820_index c <> 0xffff -> underlying_e820_index c < u16 ebx ->
  get_underlying_e820 int15_vector (S k) ebx request c =
  if underlying_e820_ebx c =? 0 then Ret (mkOut true 0xe820 ebx request []) c
  else fetch k ebx request (underlying_e820_ebx c) c.
Proof.
  intros Hi Hb. cbn [get_underlying_e820]. unfold bind, gets, set_index, modify.
  destruct (Z.eqb_spec (underlying_e820_index c) (u16 ebx)),
    (Z.leb_spec (underlying_e820_index c) (u16 ebx)); try lia.
  cbn -[get_underlying_e820 u16 SMAP E820MAXSIZE overwrite].
  destruct (Z.eqb_spec (underlying_e820_index c) 0xffff); [lia|]. cbn [negb andb when].
  unfold ret. destruct (underlying_e820_ebx c =? 0); [done|].
  unfold fetch. by destruct (_ || _).
Qed.

Lemma underlying_later k ebx request c :
  0 <= u16 ebx < underlying_e820_index c ->
  get_underlying_e820 int15_vector (S k) ebx request c =
  fetch k ebx request 0 (mkCache 0xffff 0 (underlying_e820_cache c) (underlying_e820_cache_size c)).
Proof.
  intros Hb. cbn [get_underlying_e820]. unfold bind, gets, set_index, modify.
  destruct (Z.eqb_spec (underlying_e820_index c) (u16 ebx)),
    (Z.leb_spec (underlying_e820_index c) (u16 ebx)); try lia.
  cbn -[get_underlying_e820 u16 SMAP E820MAXSIZE overwrite].
  unfold fetch. cbn [underlying_e820_index underlying_e820_ebx underlying_e820_cache
    underlying_e820_cache_size]. by destruct (_ || _).
Qed.

Lemma overwrite_nil buf : overwrite [] buf = buf.
Proof. reflexivity. Qed.

Lemma cache_eta c : mkCache (underlying_e820_index c) (underlying_e820_ebx c)
  (underlying_e820_cache c) (underlying_e820_cache_size c) = c.
Proof. by destruct c. Qed.

Lemma cached_next i e request c :
  entries !! Z.to_nat (i + 1) = Some e -> -1 <= i -> underlying_e820_index c = u16 i ->
  request = ecx \/ request = size ->
  let r := int15_vector (cont (Z.to_nat (i + 1)))
             (if request <=? E820MAXSIZE then request else E820MAXSIZE) in
  o_cf r = false /\ o_eax r = SMAP /\
  cached (mkCache (u16 (underlying_e820_index c + 1)) (o_ebx r)
            (overwrite (o_buf r) (underlying_e820_cache c)) (o_ecx r)) (i + 1).
Proof.
  intros He Hi Hidx Hreq. destruct (min_size request Hreq) as (_ & Hrng & Hfull).
  pose proof size_range. pose proof (lookup_lt_Some _ _ _ He) as Hlt.
  pose proof (eb_length _ _ _ _ Hbios) as Hn. destruct (eb_entry _ _ _ _ Hbios _ _ He) as [Hlen _].
  unfold E820MAXSIZE. destruct (Z.leb_spec request 64); [|lia].
  cbv zeta. rewrite (eb_get _ _ _ _ Hbios _ _ _ He Hrng), Hfull. split; [done|]. split; [done|].
  exists e. cbn [o_ebx o_buf o_ecx underlying_e820_index underlying_e820_ebx underlying_e820_cache
    underlying_e820_cache_size]. split; [lia|]. split; [done|]. split; [|split; [done|split; [done|]]].
  - rewrite Hidx. destruct (Z.eq_dec i (-1)) as [->|]; [done|].
    unfold u16. rewrite (Z.mod_small i) by lia. apply Z.mod_small. lia.
  - apply take_overwrite. rewrite Hlen. unfold size. lia.
Qed.

(** From a cache at entry [i], before the one that is asked for. *)
Lemma fetch_spec k ebx b i request c :
  request = ecx \/ request = size -> -1 <= i < b -> b <= Z.of_nat n ->
  (i = -1 /\ underlying_e820_index c = 0xffff \/ cached c i) ->
  (0 <= i -> cont (Z.to_nat (i + 1)) <> 0) ->
  (forall c, cached c (i + 1) ->
     wp (get_underlying_e820 int15_vector k ebx request) (underlying_spec ebx b) c) ->
  wp (fun c => fetch k ebx request (cont (Z.to_nat (i + 1))) c) (underlying_spec ebx b) c.
Proof.
  intros Hreq Hi Hb Hc Hz IH. unfold wp, fetch.
  assert (Hidx : underlying_e820_index c = u16 i).
  { destruct Hc as [[-> ->]|Hc]; [done|]. destruct (cached_range _ _ Hc).
    destruct Hc as (e & _ & _ & -> & _). symmetry. apply Z.mod_small. lia. }
  destruct (entries !! Z.to_nat (i + 1)) as [e|] eqn:He.
  - destruct (cached_next i e request c He ltac:(lia) Hidx Hreq) as (-> & -> & Hnext).
    rewrite Z.eqb_refl. cbn [orb negb]. exact (IH _ Hnext).
  - apply lookup_ge_None in He. fold n in He.
    assert (Ei : Z.to_nat (i + 1) = n) by lia. rewrite Ei in *.
    pose proof (eb_length _ _ _ _ Hbios) as Hn. fold n in Hn.
    destruct (eb_end _ _ _ _ Hbios (if request <=? E820MAXSIZE then request else E820MAXSIZE)
      (Hz ltac:(lia))) as [E1 E2]. fold n in E1, E2. rewrite E1, E2, overwrite_nil, cache_eta.
    cbn [orb]. split.
    + destruct Hc as [[? ?]|Hc]; [by left|]. right. by exists i.
    + replace (entries !! Z.to_nat b) with (@None (list Z)); [done|].
      symmetry. apply lookup_ge_None. fold n. lia.
Qed.

Lemma wp_underlying_from k ebx b i request c :
  request = ecx \/ request = size -> u16 ebx = b -> 0 <= b <= Z.of_nat n ->
  -1 <= i <= b -> (Z.to_nat (b - i) < k)%nat ->
  (i = -1 /\ underlying_e820_index c = 0xffff \/ cached c i) ->
  wp (get_underlying_e820 int15_vector k ebx request) (underlying_spec ebx b) c.
Proof.
  intros Hreq Hb Hbn. pose proof (eb_length _ _ _ _ Hbios) as Hn. fold n in Hn.
  revert i c. induction k as [|k IH]; intros i c Hi Hk Hc; [lia|].
  destruct (Z.eq_dec i b) as [->|Hib].
  { destruct Hc as [[? _]|Hc]; [lia|]. pose proof Hc as (e & _ & He & Hidx & _ & Hsz & Htk).
    cbn [get_underlying_e820]. rewrite Hb. repeat wp_prim. rewrite Hidx, Z.eqb_refl. repeat wp_prim.
    rewrite Hsz. destruct (min_size request Hreq) as (-> & _). pose proof size_range.
    unfold u16 at 2. rewrite (Z.mod_small size) by lia. rewrite Htk.
    split; [right; by exists b|]. by rewrite He. }
  assert (Hf : forall c, (i = -1 /\ underlying_e820_index c = 0xffff \/ cached c i) ->
    (0 <= i -> cont (Z.to_nat (i + 1)) <> 0) ->
    wp (fun c => fetch k ebx request (cont (Z.to_nat (i + 1))) c) (underlying_spec ebx b) c).
  { intros c' Hc' Hz. apply fetch_spec; [done|lia|lia|done|done|].
    intros c'' Hc''. apply (IH (i + 1)); [lia|lia|by right]. }
  destruct Hc as [[-> Hinv]|Hc]; unfold wp.
  - rewrite underlying_invalid by (done || lia).
    change (cont (Z.to_nat (-1 + 1))) with (cont 0%nat) in Hf.
    rewrite (eb_first _ _ _ _ Hbios) in Hf. apply Hf; [by left|lia].
  - destruct (cached_range _ _ Hc). pose proof Hc as (e & Hi0 & He & Hidx & Hebx & _).
    rewrite underlying_earlier by (rewrite Hidx; lia). rewrite Hebx.
    replace (S (Z.to_nat i)) with (Z.to_nat (i + 1)) by lia.
    destruct (Z.eqb_spec (cont (Z.to_nat (i + 1))) 0) as [Ez|Ez]; [|apply Hf; [by right|done]].
    split; [right; by exists i|].
    replace (entries !! Z.to_nat b) with (@None (list Z)); [done|]. symmetry.
    apply lookup_ge_None. fold n. destruct (decide (Z.to_nat (i + 1) < n)%nat) as [Hlt|]; [|lia].
    by destruct (eb_more _ _ _ _ Hbios (Z.to_nat (i + 1)) ltac:(fold n; lia)).
Qed.

Lemma wp_underlying k ebx b request c :
  request = ecx \/ request = size -> u16 ebx = b -> 0 <= b <= Z.of_nat n ->
  (n + 2 < k)%nat -> cache_ok c ->
  wp (get_underlying_e820 int15_vector k ebx request) (underlying_spec ebx b) c.
Proof.
  intros Hreq Hb Hbn Hk [Hinv|[i Hc]].
  - apply (wp_underlying_from k ebx b (-1)); auto; lia.
  - destruct (cached_range _ _ Hc) as [Hi _]. destruct (Z.le_gt_cases i b).
    + apply (wp_underlying_from k ebx b i); auto; lia.
    + pose proof Hc as (e & _ & _ & Hidx & _). destruct k as [|k]; [lia|]. unfold wp.
      rewrite underlying_later by (rewrite Hidx; lia).
      pose proof (eb_length _ _ _ _ Hbios) as Hn. fold n in Hn.
      set (c0 := mkCache 0xffff 0 (underlying_e820_cache c) (underlying_e820_cache_size c)).
      pose proof (underlying_invalid k ebx request c0 eq_refl ltac:(lia)) as E.
      change (mkCache 0xffff 0 (underlying_e820_cache c0) (underlying_e820_cache_size c0)) with c0 in E.
      rewrite <- E. apply (wp_underlying_from (S k) ebx b (-1) request c0); auto; lia.
Qed.

(** ** Regions and windows *)

Context (windows : list (Z * Z)) (memory_windows : Z)
  (Hmw : 0 < memory_windows /\ memory_windows + 16 * Z.of_nat (length windows) < 65536)
  (Hw0 : (0 < length windows)%nat).
Let nw : nat := length windows.

(** Every entry in every window, in the order in which they are visited. *)
Definition slots : list (list Z) :=
  flat_map (fun e => map (windowed (take (Z.to_nat size) e)) windows) entries.

(** The continuation value for slot [j] of entry [b]. *)
Definition enc (b j : nat) : Z :=
  if (j =? 0)%nat then Z.of_nat b else Z.shiftl (memory_windows + 16 * Z.of_nat j) 16 + Z.of_nat b.

Lemma slots_lookup l b j e w :
  l !! b = Some e -> windows !! j = Some w ->
  flat_map (fun e => map (windowed (take (Z.to_nat size) e)) windows) l !! (nw * b + j)%nat =
  Some (windowed (take (Z.to_nat size) e) w).
Proof.
  intros Hb Hj. revert b Hb. induction l as [|e0 l IH]; intros b Hb; [done|]. cbn [flat_map].
  pose proof (lookup_lt_Some _ _ _ Hj) as Hlt. fold nw in Hlt.
  destruct b as [|b]; cbn in Hb.
  - injection Hb as ->. rewrite Nat.mul_0_r, Nat.add_0_l, lookup_app_l by (rewrite length_map; done).
    rewrite list_lookup_fmap, Hj. done.
  - rewrite lookup_app_r by (rewrite length_map; fold nw; nia).
    rewrite length_map. fold nw. rewrite <- (IH b Hb). f_equal. nia.
Qed.

Lemma enc_low b j : Z.of_nat b < 65536 -> u16 (enc b j) = Z.of_nat b.
Proof.
  intros Hb. unfold enc, u16. destruct (j =? 0)%nat; [apply Z.mod_small; lia|].
  rewrite Z.shiftl_mul_pow2, Z.add_comm, Z_mod_plus_full by lia. apply Z.mod_small. lia.
Qed.

Lemma enc_next b j : Z.of_nat b + 1 < 65536 ->
  u16 (enc b j - Z.of_nat b + u16 (Z.of_nat b + 1)) = Z.of_nat b + 1.
Proof.
  intros Hb. unfold enc, u16. rewrite (Z.mod_small (Z.of_nat b + 1)) by lia.
  destruct (j =? 0)%nat.
  - rewrite Z.sub_diag. apply Z.mod_small. lia.
  - rewrite Z.add_simpl_r, Z.shiftl_mul_pow2, Z.add_comm, Z_mod_plus_full by lia.
    apply Z.mod_small. lia.
Qed.

Lemma enc_high b j : Z.of_nat b < 65536 ->
  (let si := Z.shiftr (enc b j) 16 in if si =? 0 then memory_windows else si) =
  memory_windows + 16 * Z.of_nat j.
Proof.
  intros Hb. unfold enc. destruct (Nat.eqb_spec j 0) as [->|Hj]; cbv zeta;
    rewrite Z.shiftr_div_pow2 by lia.
  - rewrite Z.div_small by lia. cbn. lia.
  - rewrite Z.shiftl_mul_pow2, Z.add_comm, Z.div_add, Z.div_small by lia.
    destruct (Z.eqb_spec (0 + (memory_windows + 16 * Z.of_nat j)) 0); lia.
Qed.

Lemma window_at_slot j : window_at windows memory_windows (memory_windows + 16 * Z.of_nat j) = windows !! j.
Proof.
  unfold window_at. replace (memory_windows + 16 * Z.of_nat j - memory_windows)
    with (Z.of_nat j * 16) by lia.
  rewrite Z.mod_mul, Z.div_mul, Nat2Z.id by lia.
  destruct (Z.leb_spec memory_windows (memory_windows + 16 * Z.of_nat j)); [done|lia].
Qed.

(** The slot after this one. *)
Definition next_slot (b j : nat) : nat * nat := if (S j =? nw)%nat then (S b, 0%nat) else (b, S j).

Lemma wp_windowed k b j request c :
  request = ecx \/ request = size -> (b <= n)%nat -> (j < nw)%nat -> (n + 2 < k)%nat -> cache_ok c ->
  wp (get_windowed_e820 int15_vector windows memory_windows k (enc b j) request) (fun r c' =>
    cache_ok c' /\
    match entries !! b, windows !! j with
    | Some e, Some w =>
        r = mkOut false SMAP (let '(b, j) := next_slot b j in enc b j) size
              (windowed (take (Z.to_nat size) e) w)
    | _, _ => o_cf r = true
    end) c.
Proof.
  intros Hreq Hb Hj Hk Hc. pose proof (eb_length _ _ _ _ Hbios) as Hn. fold n in Hn.
  unfold get_windowed_e820. pose proof (enc_high b j ltac:(lia)) as Ehi. cbv zeta in Ehi.
  rewrite Ehi, enc_low by lia. clear Ehi. apply wp_bind. eapply wp_mono.
  { apply (wp_underlying k (enc b j) (Z.of_nat b) request c); auto; [apply enc_low; lia|lia]. }
  intros r c' [Hc' Hr]. rewrite Nat2Z.id in Hr.
  destruct (entries !! b) as [e|] eqn:He; [|rewrite Hr; wp_prim; done].
  subst r. cbn [o_cf o_buf o_ebx o_eax o_ecx]. rewrite window_at_slot.
  destruct (windows !! j) as [w|] eqn:Hw; [|apply lookup_ge_None in Hw; fold nw in Hw; lia].
  fold (e820_start (take (Z.to_nat size) e)) (e820_len (take (Z.to_nat size) e)).
  unfold windowed. destruct (window_region _ _ w) as [start len].
  unfold memory_windows_end. fold nw. unfold u16 at 1 2.
  rewrite (Z.mod_small (memory_windows + 16 * Z.of_nat j + 16)) by (fold nw in Hmw; lia).
  unfold next_slot. apply lookup_lt_Some in He. fold n in He.
  destruct (Nat.eqb_spec (S j) nw) as [Ej|Ej].
  - destruct (Z.eqb_spec (memory_windows + 16 * Z.of_nat j + 16)
      (memory_windows + 16 * Z.of_nat nw)); [|lia]. cbn [negb]. wp_prim. split; [done|].
    rewrite enc_next by lia. f_equal. unfold enc. cbn [Nat.eqb].
    rewrite Z.shiftl_0_l, Z.lor_0_l. lia.
  - destruct (Z.eqb_spec (memory_windows + 16 * Z.of_nat j + 16)
      (memory_windows + 16 * Z.of_nat nw)); [lia|]. cbn [negb]. wp_prim. split; [done|].
    f_equal. rewrite Z.lor_comm, lor_shiftl_add by lia. unfold enc. cbn [Nat.eqb].
    rewrite Z.shiftl_mul_pow2 by lia. lia.
Qed.

(** ** Regions that are not empty *)

Definition nonempty (e : list Z) : bool := negb (e820_len e =? 0).

Definition remaining (b j : nat) : list (list Z) := drop (nw * b + j) slots.
Definition valid_slot (b j : nat) : Prop := (b < n /\ j < nw \/ b = n /\ j = 0)%nat.

Lemma slots_length : length slots = (nw * n)%nat.
Proof.
  clear Hw0 Hmw.
  assert (G : forall l, length (flat_map (fun e =>
    map (windowed (take (Z.to_nat size) e)) windows) l) = (nw * length l)%nat); [|apply G].
  induction l as [|e l IH]; cbn [flat_map length]; [lia|].
  rewrite length_app, length_map, IH. fold nw. lia.
Qed.

Lemma valid_next b j : valid_slot b j -> (b < n)%nat ->
  let '(b', j') := next_slot b j in valid_slot b' j' /\ (0 < b' + j')%nat /\
    (nw * b' + j' = S (nw * b + j))%nat.
Proof.
  fold nw in Hw0. unfold next_slot, valid_slot. intros Hv Hb.
  destruct (Nat.eqb_spec (S j) nw) as [E|E]; nia.
Qed.

Lemma remaining_cons b j e : entries !! b = Some e -> (j < nw)%nat ->
  exists w, windows !! j = Some w /\
    remaining b j = windowed (take (Z.to_nat size) e) w ::
      (let '(b', j') := next_slot b j in remaining b' j').
Proof.
  intros He Hj. destruct (lookup_lt_is_Some_2 windows j Hj) as [w Hw]. exists w. split; [done|].
  pose proof (slots_lookup _ b j e w He Hw) as Hs. fold slots in Hs. unfold remaining.
  rewrite (drop_S _ _ _ Hs). f_equal. pose proof (lookup_lt_Some _ _ _ He) as Hb. fold n in Hb.
  pose proof (valid_next b j (or_introl (conj Hb Hj)) Hb) as Hnx.
  destruct (next_slot b j) as [b' j']. by destruct Hnx as (_ & _ & ->).
Qed.

Lemma remaining_end b j : valid_slot b j -> entries !! b = None -> remaining b j = [].
Proof.
  intros Hv He. apply lookup_ge_None in He. fold n in He. unfold remaining.
  apply drop_ge. rewrite slots_length. unfold valid_slot in Hv. nia.
Qed.

Context (Hwin : Forall (fun w => 0 <= w.1 < 2 ^ 64 /\ 0 <= w.2 < 2 ^ 64) windows).

Lemma nonempty_test i j e w : entries !! i = Some e -> windows !! j = Some w ->
  let buf := windowed (take (Z.to_nat size) e) w in
  nonempty buf = negb (le_combine (take 4 (drop 8 buf)) =? 0)
                 || negb (le_combine (take 4 (drop 12 buf)) =? 0).
Proof.
  intros He Hw. pose proof (e820_bytes _ _ (Z.to_nat size) He) as [Hs Hl].
  rewrite Forall_lookup in Hwin. destruct (Hwin _ _ Hw) as [H1 H2].
  pose proof (window_region_range (e820_start (take (Z.to_nat size) e))
    (e820_len (take (Z.to_nat size) e)) w Hs H1 H2) as Hr.
  destruct (window_region _ _ w) as [start len] eqn:E. destruct Hr as [Hr1 Hr2].
  destruct (windowed_region _ _ _ _ E Hr1 Hr2) as (_ & E2 & E3 & E4 & _).
  cbv zeta. unfold nonempty. rewrite E2, E3, E4.
  destruct (Z.eqb_spec len 0), (Z.eqb_spec (len mod 2 ^ 32) 0), (Z.eqb_spec (len / 2 ^ 32) 0);
    cbn [negb orb]; try done; exfalso; subst; dlia.
Qed.

Definition nonempty_spec (b j : nat) (r : e820_out) (c : e820_cache) : Prop :=
  cache_ok c /\
  match List.filter nonempty (remaining b j) with
  | [] => o_cf r = true
  | buf :: visible => exists b' j', valid_slot b' j' /\ (0 < b' + j')%nat /\
      r = mkOut false SMAP (enc b' j') size buf /\
      List.filter nonempty (remaining b' j') = visible
  end.

Lemma wp_nonempty fuel k b j request c :
  request = ecx \/ request = size -> valid_slot b j -> (n + 2 < k)%nat ->
  (length (remaining b j) < fuel)%nat -> cache_ok c ->
  wp (get_nonempty_e820 int15_vector windows memory_windows fuel k (enc b j) request)
    (nonempty_spec b j) c.
Proof.
  intros Hreq. revert b j c. induction fuel as [|fuel IH]; intros b j c Hv Hk Hf Hc; [lia|].
  cbn [get_nonempty_e820]. apply wp_bind. fold nw in Hw0. eapply wp_mono.
  { apply wp_windowed; auto; unfold valid_slot in Hv; lia. }
  intros r c' [Hc' Hr]. destruct (entries !! b) as [e|] eqn:He.
  2: { rewrite Hr. wp_prim. split; [done|]. by rewrite (remaining_end b j Hv He). }
  pose proof (lookup_lt_Some _ _ _ He) as Hb. fold n in Hb.
  assert (Hj : (j < nw)%nat) by (unfold valid_slot in Hv; lia).
  destruct (remaining_cons b j e He Hj) as (w & Hw & Hrem). rewrite Hw in Hr. subst r.
  cbn [o_cf o_buf o_ebx]. pose proof (nonempty_test b j e w He Hw) as Ht. cbv zeta in Ht.
  set (buf := windowed (take (Z.to_nat size) e) w) in *.
  pose proof (valid_next b j Hv Hb) as Hnx. unfold nonempty_spec. rewrite Hrem.
  destruct (next_slot b j) as [b' j']. destruct Hnx as (Hv' & Hpos & Hlt).
  cbn [List.filter]. rewrite Ht.
  destruct (le_combine (take 4 (drop 8 buf)) =? 0); cbn [negb orb].
  2: { wp_prim. split; [done|]. exists b', j'. done. }
  destruct (le_combine (take 4 (drop 12 buf)) =? 0); cbn [negb].
  2: { wp_prim. split; [done|]. exists b', j'. done. }
  apply IH; auto. rewrite Hrem in Hf. cbn [length] in Hf. lia.
Qed.

Lemma remaining_length b j : (length (remaining b j) <= nw * n)%nat.
Proof. unfold remaining. rewrite length_drop, slots_length. lia. Qed.

Lemma wp_mangled fuel k b j c :
  valid_slot b j -> (n + 2 < k)%nat -> (nw * n < fuel)%nat -> cache_ok c ->
  wp (get_mangled_e820 int15_vector windows memory_windows fuel k (enc b j) ecx) (fun r c' =>
    cache_ok c' /\
    match List.filter nonempty (remaining b j) with
    | [] => o_cf r = true
    | [buf] => r = mkOut false SMAP 0 size buf
    | buf :: visible => exists b' j', valid_slot b' j' /\ (0 < b' + j')%nat /\
        r = mkOut false SMAP (enc b' j') size buf /\
        List.filter nonempty (remaining b' j') = visible
    end) c.
Proof.
  intros Hv Hk Hf Hc. unfold get_mangled_e820. apply wp_bind. eapply wp_mono.
  { apply wp_nonempty; auto. pose proof (remaining_length b j). lia. }
  intros r c1 [Hc1 Hr]. destruct (List.filter nonempty (remaining b j)) as [|buf visible].
  { rewrite Hr. wp_prim. done. }
  destruct Hr as (b' & j' & Hv' & Hpos & -> & Hvis). cbn [o_cf o_ebx o_ecx o_eax o_buf].
  apply wp_bind. eapply wp_mono.
  { apply wp_nonempty; auto. pose proof (remaining_length b' j'). lia. }
  intros peek c2 [Hc2 Hp]. rewrite Hvis in Hp. destruct visible as [|buf' visible].
  - rewrite Hp. cbn [negb]. wp_prim. done.
  - destruct Hp as (? & ? & _ & _ & -> & _). cbn [o_cf negb]. wp_prim. split; [done|].
    exists b', j'. done.
Qed.

(** The caller's loop: from continuation value [ebx] on, until it is zero. *)
Fixpoint e820_read (calls fuel k : nat) (ebx : Z) : prog e820_cache (list (list Z)) :=
  match calls with
  | O => spin
  | S calls =>
      r <- get_mangled_e820 int15_vector windows memory_windows fuel k ebx ecx ;;
      if o_cf r then ret []
      else if o_ebx r =? 0 then ret [o_buf r]
      else rest <- e820_read calls fuel k (o_ebx r) ;; ret (o_buf r :: rest)
  end.

Lemma enc_nonzero b j : (0 < b + j)%nat -> enc b j <> 0.
Proof.
  intros Hp. unfold enc. destruct (Nat.eqb_spec j 0); [lia|].
  rewrite Z.shiftl_mul_pow2 by lia. lia.
Qed.

Lemma wp_e820_read calls fuel k b j c :
  valid_slot b j -> (n + 2 < k)%nat -> (nw * n < fuel)%nat ->
  (length (List.filter nonempty (remaining b j)) < calls)%nat -> cache_ok c ->
  wp (e820_read calls fuel k (enc b j))
    (fun l c' => cache_ok c' /\ l = List.filter nonempty (remaining b j)) c.
Proof.
  intros Hv Hk Hf. revert b j c Hv. induction calls as [|calls IH]; intros b j c Hv Hl Hc; [lia|].
  cbn [e820_read]. apply wp_bind. eapply wp_mono; [by apply wp_mangled|].
  intros r c1 [Hc1 Hr].
  destruct (List.filter nonempty (remaining b j)) as [|buf [|buf' visible]]; cbn [length] in Hl.
  - rewrite Hr. wp_prim. done.
  - subst r. cbn [o_cf o_ebx o_buf Z.eqb]. wp_prim. done.
  - destruct Hr as (b' & j' & Hv' & Hpos & -> & Hvis). cbn [o_cf o_ebx o_buf].
    destruct (Z.eqb_spec (enc b' j') 0) as [E|_]; [by apply enc_nonzero in E|].
    apply wp_bind. eapply wp_mono; [apply IH; auto; rewrite Hvis; cbn [length]; lia|].
    intros l c2 [Hc2 ->]. wp_prim. by rewrite Hvis.
Qed.

(** The visible regions. *)
Definition visible : list (list Z) := List.filter nonempty slots.

Lemma wp_e820_read_all calls fuel k c :
  (n + 2 < k)%nat -> (nw * n < fuel)%nat -> (length visible < calls)%nat -> cache_ok c ->
  wp (e820_read calls fuel k 0) (fun l c' => cache_ok c' /\ l = visible) c.
Proof.
  intros Hk Hf Hl Hc. assert (E0 : remaining 0 0 = slots) by (unfold remaining; by rewrite Nat.mul_0_r).
  change 0 with (enc 0 0) at 1. unfold visible in *. rewrite <- E0 in *. apply wp_e820_read; auto.
  pose proof (eb_length _ _ _ _ Hbios) as Hn. fold n in Hn. fold nw in Hw0. unfold valid_slot. lia.
Qed.

(** The regions of the underlying map, as the caller would have got them. *)
Definition underlying : list (list Z) := map (take (Z.to_nat size)) entries.
Lemma visible_elem buf : In buf visible <->
  exists e w, In e underlying /\ In w windows /\ buf = windowed e w /\ nonempty buf = true.
Proof.
  unfold visible, slots, underlying. rewrite filter_In, in_flat_map. setoid_rewrite in_map_iff. split.
  - intros [(e & He & w & <- & Hw) Hn]. exists (take (Z.to_nat size) e), w.
    split; [by exists e|done].
  - intros (e' & w & (e & <- & He) & Hw & -> & Hn). split; [|done]. exists e. split; [done|]. by exists w.
Qed.

Context (Hend : Forall (fun e => e820_start e + e820_len e < 2 ^ 64) entries).

Lemma windowed_covers e w a : In e underlying -> In w windows ->
  covers (windowed e w) a <-> covers e a /\ w.1 <= a < w.2.
Proof.
  clear Hw0 Hmw. intros He Hw. apply in_map_iff in He as (e0 & <- & He0).
  apply list_elem_of_In, list_elem_of_lookup in He0 as [i Hi].
  pose proof (e820_bytes _ _ (Z.to_nat size) Hi) as [Hs Hl].
  rewrite Forall_forall in Hwin. destruct (Hwin _ Hw) as [H1 H2].
  rewrite Forall_lookup in Hend. specialize (Hend _ _ Hi). pose proof size_range.
  assert (Es : forall m, (16 <= m)%nat ->
    e820_start (take m e0) = e820_start e0 /\ e820_len (take m e0) = e820_len e0).
  { intros m Hm. unfold e820_start, e820_len. rewrite take_take, skipn_firstn_comm, take_take.
    by rewrite !Nat.min_l by lia. }
  destruct (Es (Z.to_nat size) ltac:(lia)) as [E1 E2].
  set (e := take (Z.to_nat size) e0) in *. rewrite <- E1, <- E2 in Hend. clear E1 E2 Es.
  pose proof (window_region_range (e820_start e) (e820_len e) w Hs H1 H2) as Hr.
  destruct (window_region _ _ w) as [start len] eqn:E. destruct Hr as [Hr1 Hr2].
  destruct (windowed_region _ _ _ _ E Hr1 Hr2) as (E1 & E2 & _).
  unfold covers. rewrite E1, E2. unfold window_region, u64 in E. rewrite Z.mod_small in E by lia.
  injection E as <- <-.
  destruct (Z.ltb_spec (e820_start e) w.1), (Z.ltb_spec w.2 (e820_start e + e820_len e));
    repeat match goal with |- context [?a <? ?b] => destruct (Z.ltb_spec a b) end; lia.
Qed.

Lemma visible_covers a rest :
  (exists buf, In buf visible /\ covers buf a /\ drop 16 buf = rest) <->
  (exists e, In e underlying /\ covers e a /\ drop 16 e = rest) /\
  (exists w, In w windows /\ w.1 <= a < w.2).
Proof.
  setoid_rewrite visible_elem. split.
  - intros (buf & (e & w & He & Hw & -> & _) & Hc & Hr). rewrite windowed_rest in Hr.
    apply windowed_covers in Hc as [Hc Ha]; [|done..]. eauto 10.
  - intros [(e & He & Hc & Hr) (w & Hw & Ha)]. exists (windowed e w). rewrite windowed_rest.
    assert (Hcw : covers (windowed e w) a) by (by apply windowed_covers).
    split; [|done]. exists e, w. do 3 (split; [done|]). unfold nonempty, covers in *.
    destruct (Z.eqb_spec (e820_len (windowed e w)) 0); [lia|done].
Qed.
End mangler.

(** ** The hidden regions *)

Definition is_hidden (h : hidden) (a : Z) : Prop :=
  (hidemem_base h).1 <= a < (hidemem_base h).2 \/
  (hidemem_umalloc h).1 <= a < (hidemem_umalloc h).2 \/
  (hidemem_textdata h).1 <= a < (hidemem_textdata h).2.

(** The hidden regions lie one above the other; the external heap may share a
    page with the text and data above it. *)
Definition hidden_ok (h : hidden) : Prop :=
  0 <= (hidemem_base h).1 <= (hidemem_base h).2 /\
  (hidemem_base h).2 <= (hidemem_umalloc h).1 <= (hidemem_umalloc h).2 /\
  (hidemem_umalloc h).1 <= (hidemem_textdata h).1 /\
  (hidemem_umalloc h).2 <= (hidemem_textdata h).2 /\
  (hidemem_textdata h).1 <= (hidemem_textdata h).2 < 2 ^ 64.

Lemma windows_hidden h a : hidden_ok h -> 0 <= a < 2 ^ 64 - 1 ->
  (exists w, In w (windows h) /\ w.1 <= a < w.2) <-> ~ is_hidden h a.
Proof.
  unfold hidden_ok, is_hidden, windows. intros Ho Ha. split.
  - intros (w & Hin & Hw). cbn [In] in Hin.
    destruct Hin as [<-|[<-|[<-|[<-|[]]]]]; cbn [fst snd] in Hw; lia.
  - intros Hn. destruct (Z.lt_ge_cases a (hidemem_base h).1); [eexists; split; [left; done|cbn; lia]|].
    destruct (Z.lt_ge_cases a (hidemem_umalloc h).1);
      [eexists; split; [right; left; done|cbn [fst snd]; lia]|].
    destruct (Z.lt_ge_cases a (hidemem_textdata h).1);
      [eexists; split; [right; right; left; done|cbn [fst snd]; lia]|].
    eexists. split; [right; right; right; left; done|cbn [fst snd]; lia].
Qed.

Lemma windows_range h : hidden_ok h ->
  Forall (fun w => 0 <= w.1 < 2 ^ 64 /\ 0 <= w.2 < 2 ^ 64) (windows h).
Proof. unfold hidden_ok, windows. intros Ho. repeat constructor; cbn [fst snd]; lia. Qed.

(** C10. The edited memory map.  A caller that reads the map entry by entry,
    from continuation value zero until it is zero again, terminates, and
    finds exactly the memory that the BIOS reports and that is not hidden:
    each address with the same type and attributes, none of a hidden
    region. *)
Theorem e820_hides int15_vector entries full cont ecx h memory_windows c calls fuel k :
  e820_bios int15_vector entries full cont -> 20 <= ecx <= 64 ->
  Forall (fun e => e820_start e + e820_len e < 2 ^ 64) entries ->
  hidden_ok h -> 0 < memory_windows < 65536 - 64 ->
  underlying_e820_index c = 0xffff ->
  (length entries + 2 < k)%nat -> (4 * length entries < fuel)%nat -> (4 * length entries < calls)%nat ->
  wp (e820_read int15_vector ecx (windows h) memory_windows calls fuel k 0) (fun map _ =>
    forall a rest, 0 <= a < 2 ^ 64 - 1 ->
      (exists e, In e map /\ covers e a /\ drop 16 e = rest) <->
      (exists e, In e (underlying entries full ecx) /\ covers e a /\ drop 16 e = rest) /\
      ~ is_hidden h a) c.
Proof.
  intros Hb He Hend Ho Hm Hc Hk Hf Hcalls. eapply wp_mono.
  - eapply (wp_e820_read_all int15_vector entries full cont Hb ecx He (windows h) memory_windows);
      [split; cbn; lia|cbn; lia|by apply windows_range|lia|cbn; lia| |by left].
    eapply Nat.le_lt_trans; [|exact Hcalls]. unfold visible.
    etransitivity; [apply filter_length_le|]. rewrite slots_length. cbn. lia.
  - cbv beta. intros map c' [_ ->] a rest Ha. rewrite <- windows_hidden by done.
    eapply visible_covers; eauto using windows_range.
    Unshelve. cbn. lia.
Qed.

(** ** What iPXE hides *)

Lemma hide_region_covers start end_ : 0 <= start <= end_ -> end_ <= 2 ^ 32 - 4096 ->
  let r := hide_region start end_ in
  r.1 <= start < r.1 + 4096 /\ end_ <= r.2 < end_ + 4096 /\
  0 <= r.1 /\ r.1 mod 4096 = 0 /\ r.2 mod 4096 = 0.
Proof.
  intros Hs He. unfold hide_region, ALIGN_HIDDEN. cbn [fst snd]. change (4096 - 1) with (2 ^ 12 - 1).
  rewrite u32_small, !land_not32 by lia. change (2 ^ 12) with 4096. dlia.
Qed.

(** C12. iPXE hides itself: for text and data above 1MB and at most 640kB of
    base memory, the regions set up at startup are in order, cover all of the
    text and data and the base memory that iPXE has claimed, and are rounded
    outwards to whole pages above 1MB only. *)
Theorem hide_etherboot_correct `{Platform} textdata etextdata text16_memsz data16_memsz int15_off
    (int15_vector : Z * Z) (w : world) :
  0x100000 <= textdata <= etextdata -> etextdata <= 2 ^ 32 - 4096 ->
  let fbms := le_combine (load 2 (real_to_user BDA_SEG BDA_FBMS) (w_mem w)) in
  0 <= fbms <= 640 ->
  wp (hide_etherboot textdata etextdata text16_memsz data16_memsz int15_off initial_hidden
        int15_vector)
    (fun r _ => hidden_ok r.1 /\
       (forall a, textdata <= a < etextdata \/ fbms * 1024 <= a < 0xa0000 -> is_hidden r.1 a) /\
       (forall a, is_hidden r.1 a -> fbms * 1024 <= a < 0xa0000 \/
          textdata - 4096 < a < etextdata + 4096)) w.
Proof.
  intros Ht He fbms Hf.
  pose proof (hide_region_covers textdata textdata ltac:(lia) ltac:(lia)) as Hu. cbv zeta in Hu.
  pose proof (hide_region_covers textdata etextdata ltac:(lia) ltac:(lia)) as Hd. cbv zeta in Hd.
  assert (E : (hide_region textdata textdata).1 = (hide_region textdata etextdata).1) by done.
  assert (Hm : (hide_region textdata textdata).2 <= (hide_region textdata etextdata).2).
  { unfold hide_region, ALIGN_HIDDEN. cbn [snd]. change (4096 - 1) with (2 ^ 12 - 1).
    rewrite !u32_small, !land_not32 by lia. change (2 ^ 12) with 4096. dlia. }
  set (h := hide_textdata textdata etextdata
    (hide_umalloc textdata textdata (hide_basemem fbms initial_hidden))).
  assert (Hh : hidden_ok h /\
    (forall a, textdata <= a < etextdata \/ fbms * 1024 <= a < 0xa0000 -> is_hidden h a) /\
    (forall a, is_hidden h a -> fbms * 1024 <= a < 0xa0000 \/
       textdata - 4096 < a < etextdata + 4096)).
  { unfold hidden_ok, is_hidden, h. cbn [hidemem_base hidemem_umalloc hidemem_textdata hide_textdata
      hide_umalloc hide_basemem initial_hidden fst snd]. split_and!; intros; lia. }
  unfold hide_etherboot, get_fbms, get_real, copy_from_real. repeat wp_prim. fold fbms. fold h.
  destruct (_ && _); [by wp_prim|]. apply wp_bind. unfold hook_bios_interrupt.
  destruct (_ || _); [by repeat wp_prim|].
  unfold get_vector, put_vector, copy_from_real, copy_to_real, upd_bios. by repeat wp_prim.
Qed.
