(* ===== verification/Memmap.v ===== *)
(** * Memmap

    Reading of the system memory map
    (arch/x86/interface/pcbios/memmap.c), and its users: relocation of iPXE
    to the top of memory (arch/x86/core/relocate.c) and the choice of the
    external heap (arch/x86/interface/pcbios/memtop_umalloc.c). *)

From S2P Require Import Prelude.
From S2P Require Import Memory.
From S2P Require Import World.
From S2P Require Import Biosint.
From S2P Require Import E820.

Definition E820_TYPE_RAM : Z := 1.
Definition E820_ATTR_ENABLED : Z := 0x00000001.
Definition E820_ATTR_NONVOLATILE : Z := 0x00000002.
Definition E820_MIN_SIZE : Z := 20.
Definition sizeof_e820_entry : Z := 24.
Definition offsetof_attrs : Z := 20.
Definition MAX_MEMORY_REGIONS : nat := 8.

(** [struct memory_map]: the array of (start, end), and the number of used
    regions. *)
Record memory_map : Type := mkMap {
  regions : list (Z * Z);
  count : nat
}.

Definition empty_map : memory_map := mkMap (replicate MAX_MEMORY_REGIONS (0, 0)) 0.

Definition set_start (i : nat) (v : Z) (l : list (Z * Z)) : list (Z * Z) :=
  alter (fun r => (v, r.2)) i l.
Definition set_end (i : nat) (v : Z) (l : list (Z * Z)) : list (Z * Z) :=
  alter (fun r => (r.1, v)) i l.
Definition region (i : nat) (m : memory_map) : Z * Z := nth i (regions m) (0, 0).

(** ** Sizes *)

(** [r]: CF, AX, BX, CX and DX of INT 15,e801. *)
Definition extmemsize_e801 (memmap_post : bool) (r : bool * Z * Z * Z * Z) : Z :=
  (* Inhibit INT 15,e801 during POST *)
  if memmap_post then 0 else
  let '(cf, extmem_1m_to_16m_k, extmem_16m_plus_64k, confmem_1m_to_16m_k, confmem_16m_plus_64k)
    := r in
  if (cf : bool) then 0 else
  let '(extmem_1m_to_16m_k, extmem_16m_plus_64k) :=
    if Z.lor extmem_1m_to_16m_k extmem_16m_plus_64k =? 0
    then (confmem_1m_to_16m_k, confmem_16m_plus_64k)
    else (extmem_1m_to_16m_k, extmem_16m_plus_64k) in
  let extmem := extmem_1m_to_16m_k + extmem_16m_plus_64k * 64 in
  (* Some BIOSes report the entire 4GB address space as available *)
  if extmem =? 0x400000 - 0x400 then 0 else extmem.

(** [ax]: of INT 15,88. *)
Definition extmemsize_88 (ax : Z) : Z := ax.

Definition extmemsize (memmap_post : bool) (e801 : bool * Z * Z * Z * Z) (ax88 : Z) : Z :=
  let extmem_88 := extmemsize_88 ax88 in
  let extmem_e801 := extmemsize_e801 memmap_post e801 in
  if negb (extmem_e801 =? 0) then extmem_e801 else extmem_88.

(** ** The map *)

Section memmap.
(** INT 15,e820, by EBX and ECX. *)
Context {S : Type} (int15_e820 : Z -> Z -> prog S e820_out).

(** One turn of the loop: [inl] goes on with the map, the buffer and the next
    continuation value; [inr] leaves the loop with an error or with the
    map. *)
Definition meme820_step (memmap : memory_map) (e820buf : list Z) (next : Z)
    : prog S (memory_map * list Z * Z + Z * memory_map) :=
  r <- int15_e820 next sizeof_e820_entry ;;
  let e820buf := overwrite (o_buf r) e820buf in
  let next := o_ebx r in
  let size := o_ecx r in
  let type := le_combine (take 4 (drop 16 e820buf)) in
  let attrs := le_combine (take 4 (drop 20 e820buf)) in
  let continue memmap := ret (if negb (next =? 0) then inl (memmap, e820buf, next)
                              else inr (0, memmap)) in
  if negb (o_eax r =? SMAP) then ret (inr (- ENOTSUP, memmap))
  else if size <? E820_MIN_SIZE then ret (inr (- EINVAL, memmap))
  else if o_cf r then ret (inr (0, memmap))
  (* If first region is not RAM, assume map is invalid *)
  else if (count memmap =? 0)%nat && negb (type =? E820_TYPE_RAM)
  then ret (inr (- EINVAL, memmap))
  (* Discard non-RAM regions *)
  else if negb (type =? E820_TYPE_RAM) then continue memmap
  (* Check extended attributes, if present *)
  else if (offsetof_attrs <? size) && negb (bool_of_Z (Z.land attrs E820_ATTR_ENABLED))
  then continue memmap
  else if (offsetof_attrs <? size) && bool_of_Z (Z.land attrs E820_ATTR_NONVOLATILE)
  then continue memmap
  else
    let start := le_combine (take 8 e820buf) in
    let end_ := u64 (start + le_combine (take 8 (drop 8 e820buf))) in
    let regions := set_end (count memmap) end_ (set_start (count memmap) start (regions memmap)) in
    (* Check for adjacent regions and merge them *)
    let memmap :=
      match count memmap with
      | O => mkMap regions 1
      | Datatypes.S prev =>
          if start =? (nth prev regions (0, 0)).2
          then mkMap (set_end prev end_ regions) (count memmap)
          else mkMap regions (Datatypes.S (count memmap))
      end in
    (* Too many regions are not a fatal error *)
    if (MAX_MEMORY_REGIONS <=? count memmap)%nat then ret (inr (0, memmap))
    else continue memmap.

Definition meme820 (fuel : nat) (memmap_post : bool) (memmap : memory_map)
    : prog S (Z * memory_map) :=
  (* Inhibit INT 15,e820 during POST *)
  if memmap_post then ret (- ENOTTY, memmap) else
  let! (rc, memmap) :=
    iterate fuel (fun '(memmap, e820buf, next) => meme820_step memmap e820buf next)
      (memmap, replicate 24 0, 0) in
  if negb (rc =? 0) then ret (rc, memmap)
  (* Sanity checks *)
  else if (count memmap <? 2)%nat then ret (- EINVAL, memmap)
  else if negb ((region 0 memmap).1 =? 0) then ret (- EINVAL, memmap)
  else if negb ((region 1 memmap).1 =? 0x100000) then ret (- EINVAL, memmap)
  else ret (0, memmap).

Definition x86_get_memmap (fuel : nat) (memmap_post : bool) (basemem : Z)
    (e801 : bool * Z * Z * Z * Z) (ax88 : Z) : prog S memory_map :=
  (* Clear memory map *)
  let memmap := empty_map in
  (* Get base and extended memory sizes *)
  let extmem := extmemsize memmap_post e801 ax88 in
  (* Try INT 15,e820 first *)
  let! (rc, memmap) := meme820 fuel memmap_post memmap in
  if rc =? 0 then ret memmap else
  (* Fall back to constructing a map from basemem and extmem sizes *)
  let l := set_end 0 (u32 (basemem * 1024)) (regions memmap) in
  let l := set_start 1 0x100000 l in
  let l := set_end 1 (u32 (0x100000 + extmem * 1024)) l in
  ret (mkMap l 2).
End memmap.

(** ** Relocation *)

Definition MAX_ADDR : Z := 0xfff00000.
Definition ALIGN : Z := 4096.

(** The walk over the regions: the end of the best block so far. *)
Fixpoint relocate_walk (l : list (Z * Z)) (max size new_end : Z) : Z :=
  match l with
  | [] => new_end
  | (start, end_) :: l =>
      if max <? start then relocate_walk l max size new_end else
      let r_start := u32 start in
      (* Truncate block to maximum address *)
      let r_end := if max <? end_ then max else u32 end_ in
      if r_end <? r_start then relocate_walk l max size new_end
      (* Check that there is enough space to fit in iPXE *)
      else if u32 (r_end - r_start) <? size then relocate_walk l max size new_end
      (* If it would start above the current highest block, use this block *)
      else if new_end <? u32 (r_end - size) then relocate_walk l max size r_end
      else relocate_walk l max size new_end
  end.

(** ESI, EDI and ECX, for a copy at [start, end) and a maximum address in
    EBP. *)
Definition relocate (memmap : memory_map) (start end_ ebp : Z) : Z * Z * Z :=
  let size := u32 (end_ - start) in
  let padded_size := u32 (size + ALIGN - 1) in
  (* Determine maximum usable address *)
  let max := if ebp <? MAX_ADDR then ebp else MAX_ADDR in
  (* Find the highest address below 4GB that iPXE will fit into *)
  let new_end := relocate_walk (take (count memmap) (regions memmap)) max size end_ in
  (* Calculate new location of iPXE, and align it *)
  let new_start := u32 (new_end - padded_size) in
  let new_start := u32 (new_start + Z.land (u32 (start - new_start)) (ALIGN - 1)) in
  (start, new_start, size).

(** ** The largest block *)

Definition EM_MAX_ADDRESS : Z := 0xffffffff.

Fixpoint largest_walk (l : list (Z * Z)) (start len : Z) : Z * Z :=
  match l with
  | [] => (start, len)
  | (r_start, r_end) :: l =>
      (* Truncate block to maximum physical address *)
      if EM_MAX_ADDRESS <? r_start then largest_walk l start len else
      let region_start := u32 r_start in
      let region_end := if EM_MAX_ADDRESS <? r_end then 0 else u32 r_end in
      let region_len := u32 (region_end - region_start) in
      (* Use largest block *)
      if len <? region_len then largest_walk l region_start region_len
      else largest_walk l start len
  end.

(** Start (or zero) and length. *)
Definition largest_memblock (memmap : memory_map) : Z * Z :=
  largest_walk (take (count memmap) (regions memmap)) 0 0.
