(* ===== verification/MemmapSpec.v ===== *)
(** * MemmapSpec

    The memory map that iPXE reads through its own INT 15 handler leaves out
    what iPXE hides, and where relocation and the external heap end up. *)

From S2P Require Import Prelude.
From S2P Require Import Memory.
From S2P Require Import World.
From S2P Require Import Biosint.
From S2P Require Import E820.
From S2P Require Import E820Spec.
From S2P Require Import Memmap.

(** ** Reading a map *)

Section reader.
Context {St : Type} (int15_e820 : Z -> Z -> prog St e820_out) (good : Z -> Prop)
  (I : nat -> Z -> St -> Prop).

(** A region that comes in: RAM only where it is [good]. *)
Definition entry_ok (e : list Z) : Prop :=
  (20 <= length e)%nat /\ 0 <= e820_start e /\ 0 <= e820_len e /\
  e820_start e + e820_len e < 2 ^ 64 /\
  (e820_type e = E820_TYPE_RAM -> forall a, covers e a -> good a).

(** At most [k] more regions come from continuation value [next]. *)
Context (Hget : forall k next s, I k next s ->
  wp (int15_e820 next sizeof_e820_entry) (fun r s' => o_cf r = true \/
    entry_ok (o_buf r) /\ (o_ebx r = 0 \/ exists k', (k' < k)%nat /\ I k' (o_ebx r) s')) s).

Definition map_ok (m : memory_map) : Prop :=
  length (regions m) = MAX_MEMORY_REGIONS /\ (count m <= MAX_MEMORY_REGIONS)%nat /\
  forall i a, (i < count m)%nat -> (region i m).1 <= a < (region i m).2 -> good a.

Lemma overwrite_take m bytes buf : (m <= length bytes)%nat -> take m (overwrite bytes buf) = take m bytes.
Proof. intros Hm. unfold overwrite. by rewrite take_app_le. Qed.

Lemma overwrite_entry bytes buf : (20 <= length bytes)%nat ->
  le_combine (take 8 (overwrite bytes buf)) = e820_start bytes /\
  le_combine (take 8 (drop 8 (overwrite bytes buf))) = e820_len bytes /\
  le_combine (take 4 (drop 16 (overwrite bytes buf))) = e820_type bytes.
Proof.
  intros Hl. unfold e820_start, e820_len, e820_type. rewrite !firstn_skipn_comm.
  by rewrite !overwrite_take by (cbn; lia).
Qed.

Lemma nth_alter {A} (f : A -> A) i k (l : list A) d :
  (i < length l)%nat -> nth k (alter f i l) d = if (k =? i)%nat then f (nth i l d) else nth k l d.
Proof.
  intros Hi. rewrite !nth_lookup. destruct (Nat.eqb_spec k i) as [->|Hk].
  - rewrite list_lookup_alter_eq. destruct (lookup_lt_is_Some_2 l i Hi) as [x ->]. done.
  - by rewrite list_lookup_alter_ne.
Qed.

(** The array after a region has been put at its end, and perhaps merged. *)
Lemma map_ok_add m start end_ :
  map_ok m -> (count m < MAX_MEMORY_REGIONS)%nat -> (forall a, start <= a < end_ -> good a) ->
  let l := set_end (count m) end_ (set_start (count m) start (regions m)) in
  map_ok (mkMap l (S (count m))) /\
  forall prev, count m = S prev -> start = (nth prev l (0, 0)).2 ->
    map_ok (mkMap (set_end prev end_ l) (count m)).
Proof.
  intros (Hl & Hc & Hg) Hlt Hr. cbv zeta. unfold set_end, set_start, map_ok, region in *.
  cbn [regions count]. rewrite !length_alter. split.
  - split; [done|]. split; [lia|]. intros i a Hi.
    rewrite nth_alter by (rewrite length_alter; lia). rewrite !nth_alter by lia.
    destruct (Nat.eqb_spec i (count m)) as [->|]; [rewrite Nat.eqb_refl; cbn [fst snd]; apply Hr|].
    apply Hg. lia.
  - intros prev Ep Es. split; [by rewrite !length_alter|]. split; [lia|]. intros i a Hi.
    rewrite !nth_alter in * by (rewrite ?length_alter; lia).
    destruct (Nat.eqb_spec prev (count m)); [lia|].
    destruct (Nat.eqb_spec i (count m)); [lia|].
    destruct (Nat.eqb_spec i prev) as [->|]; [|by apply Hg].
    cbn [fst snd]. intros Ha. destruct (Z.lt_ge_cases a start); [|apply Hr; lia].
    apply (Hg prev); [lia|]. rewrite <- Es. lia.
Qed.

Lemma wp_meme820_step k m buf next s :
  map_ok m -> (count m < MAX_MEMORY_REGIONS)%nat -> I k next s ->
  wp (meme820_step int15_e820 m buf next) (fun x s' =>
    match x with
    | inl (m', _, next') => map_ok m' /\ (count m' < MAX_MEMORY_REGIONS)%nat /\
        exists k', (k' < k)%nat /\ I k' next' s'
    | inr (_, m') => map_ok m'
    end) s.
Proof.
  intros Hm Hc HI. unfold meme820_step. apply wp_bind. eapply wp_mono; [by apply Hget|].
  intros r s' Hr. cbv zeta.
  assert (Hcont : forall m', o_cf r = false -> map_ok m' -> (count m' < MAX_MEMORY_REGIONS)%nat ->
    wp (ret (if negb (o_ebx r =? 0) then inl (m', overwrite (o_buf r) buf, o_ebx r)
             else inr (0, m'))) (fun x s' =>
      match x with
      | inl (m', _, next') => map_ok m' /\ (count m' < MAX_MEMORY_REGIONS)%nat /\
          exists k', (k' < k)%nat /\ I k' next' s'
      | inr (_, m') => map_ok m'
      end) s').
  { intros m' Ef Hm' Hc'. wp_prim. destruct Hr as [?|[_ Hn]]; [congruence|].
    destruct (Z.eqb_spec (o_ebx r) 0) as [|Hz]; cbn [negb]; [done|]. destruct Hn; [done|]. auto. }
  destruct (negb (o_eax r =? SMAP)); [by wp_prim|].
  destruct (o_ecx r <? E820_MIN_SIZE); [by wp_prim|].
  destruct (o_cf r) eqn:Ef; [by wp_prim|]. destruct Hr as [?|[He _]]; [congruence|].
  destruct He as (Hlen & Hs & Hl & Hend & Hgood).
  destruct (overwrite_entry (o_buf r) buf Hlen) as (-> & -> & ->).
  destruct (_ && _); [by wp_prim|].
  destruct (Z.eqb_spec (e820_type (o_buf r)) E820_TYPE_RAM) as [Ht|]; cbn [negb]; [|by apply Hcont].
  destruct (_ && _); [by apply Hcont|]. destruct (_ && _); [by apply Hcont|].
  unfold u64. rewrite Z.mod_small by lia.
  destruct (map_ok_add m (e820_start (o_buf r)) (e820_start (o_buf r) + e820_len (o_buf r)) Hm Hc)
    as [Hadd Hmerge]; [intros a Ha; by apply Hgood|].
  set (l := set_end (count m) _ _) in *. clearbody l.
  assert (G : forall m', map_ok m' -> wp (if (MAX_MEMORY_REGIONS <=? count m')%nat
    then ret (inr (0, m'))
    else ret (if negb (o_ebx r =? 0) then inl (m', overwrite (o_buf r) buf, o_ebx r)
              else inr (0, m'))) (fun x s' =>
      match x with
      | inl (m', _, next') => map_ok m' /\ (count m' < MAX_MEMORY_REGIONS)%nat /\
          exists k', (k' < k)%nat /\ I k' next' s'
      | inr (_, m') => map_ok m'
      end) s').
  { intros m' Hm'. destruct (Nat.leb_spec MAX_MEMORY_REGIONS (count m')); [by wp_prim|].
    by apply Hcont. }
  destruct (count m) as [|prev] eqn:Ec; [by apply G|].
  destruct (Z.eqb_spec (e820_start (o_buf r)) (nth prev l (0, 0)).2) as [E|_]; apply G; auto.
Qed.

Lemma wp_meme820 fuel k m s :
  map_ok m -> (count m < MAX_MEMORY_REGIONS)%nat -> (k < fuel)%nat -> I k 0 s ->
  wp (meme820 int15_e820 fuel false m) (fun r _ => map_ok r.2) s.
Proof.
  intros Hm Hc Hf HI. unfold meme820. apply wp_bind.
  assert (G : forall fuel k m buf next s, map_ok m -> (count m < MAX_MEMORY_REGIONS)%nat ->
    (k < fuel)%nat -> I k next s ->
    wp (iterate fuel (fun '(memmap, e820buf, next) => meme820_step int15_e820 memmap e820buf next)
          (m, buf, next)) (fun r _ => map_ok r.2) s).
  { clear - Hget. intros fuel. induction fuel as [|fuel IH]; intros k m buf next s Hm Hc Hk HI; [lia|].
    cbn [iterate]. apply wp_bind. eapply wp_mono; [by apply (wp_meme820_step k)|].
    intros [[[m' buf'] next']|[rc m']] s' Hx; [|by wp_prim].
    destruct Hx as (Hm' & Hc' & k' & Hk' & HI'). apply (IH k'); auto. lia. }
  eapply wp_mono; [by apply (G fuel k)|]. intros [rc m'] s' Hm'. cbn [snd] in Hm'.
  repeat match goal with |- wp (if ?b then _ else _) _ _ => destruct b; [by wp_prim|] end.
  by wp_prim.
Qed.
End reader.

(** ** The map through the INT 15 handler of iPXE *)

Section hidden_map.
Context (int15_vector : Z -> Z -> e820_out) (entries : list (list Z)) (full : nat)
  (cont : nat -> Z) (Hbios : e820_bios int15_vector entries full cont)
  (Hend : Forall (fun e => e820_start e + e820_len e < 2 ^ 64) entries)
  (h : hidden) (Hh : hidden_ok h) (memory_windows : Z) (Hmw : 0 < memory_windows < 65536 - 64).

Lemma windowed_entry e w : In e (underlying entries full sizeof_e820_entry) -> In w (windows h) ->
  entry_ok (fun a => (exists e, In e (underlying entries full sizeof_e820_entry) /\
      covers e a /\ e820_type e = E820_TYPE_RAM) /\ ~ is_hidden h a) (windowed e w).
Proof.
  intros He Hw. pose proof He as He'. apply in_map_iff in He' as (e0 & <- & He0).
  apply list_elem_of_In, list_elem_of_lookup in He0 as [i Hi].
  set (m := Z.to_nat (Z.min sizeof_e820_entry (Z.of_nat full))) in *.
  pose proof (e820_bytes _ _ _ _ Hbios _ _ m Hi) as [Hs Hl].
  pose proof (windows_range h Hh) as Hwin. rewrite Forall_forall in Hwin.
  destruct (Hwin _ Hw) as [H1 H2]. set (e := take m e0) in *.
  pose proof (window_region_range (e820_start e) (e820_len e) w Hs H1 H2) as Hr.
  destruct (window_region (e820_start e) (e820_len e) w) as [start len] eqn:E.
  destruct Hr as [Hr1 Hr2]. destruct (windowed_region _ _ _ _ E Hr1 Hr2) as (E1 & E2 & _).
  assert (Hc : forall a, covers (windowed e w) a <-> covers e a /\ w.1 <= a < w.2).
  { intros a. eapply (windowed_covers _ _ _ _ Hbios sizeof_e820_entry ltac:(done) (windows h));
      eauto using windows_range. }
  assert (Hsum : start + len < 2 ^ 64).
  { unfold window_region, u64 in E. pose proof (Z.mod_pos_bound (e820_start e + e820_len e) (2 ^ 64)).
    set (x := (e820_start e + e820_len e) mod 2 ^ 64) in *. clearbody x. injection E as <- <-.
    destruct (Z.ltb_spec (e820_start e) w.1), (Z.ltb_spec w.2 x);
      repeat match goal with |- context [?a <? ?b] => destruct (Z.ltb_spec a b) end; lia. }
  assert (Et : e820_type (windowed e w) = e820_type e) by (unfold e820_type; by rewrite windowed_rest).
  unfold entry_ok. rewrite E1, E2, Et. split_and!; [|lia..|].
  - unfold windowed. rewrite E. unfold overwrite.
    rewrite length_app, length_drop, !length_app, !length_le_split. unfold e. rewrite length_take.
    destruct (eb_entry _ _ _ _ Hbios _ _ Hi) as [-> _]. destruct (eb_full _ _ _ _ Hbios).
    unfold m, sizeof_e820_entry. lia.
  - intros Ht a Ha. pose proof Ha as Ha'. apply Hc in Ha' as [Hca Haw]. split; [by exists e|].
    apply windows_hidden; [done| |by exists w]. unfold covers in Ha. rewrite E1, E2 in Ha. lia.
Qed.

(** C11. iPXE's own view of memory: reading the map through the INT 15
    handler terminates, with no more than eight regions, in which every
    address is RAM according to the BIOS and none is hidden; so neither
    relocation nor the external heap is placed over iPXE itself. *)
Theorem memmap_excludes_hidden fuel mangler_fuel k (c : e820_cache) :
  underlying_e820_index c = 0xffff -> (length entries + 2 < k)%nat ->
  (4 * length entries < mangler_fuel)%nat -> (4 * length entries < fuel)%nat ->
  wp (meme820 (get_mangled_e820 int15_vector (windows h) memory_windows mangler_fuel k) fuel false
        empty_map) (fun r _ => (count r.2 <= MAX_MEMORY_REGIONS)%nat /\
    forall i a, (i < count r.2)%nat -> (region i r.2).1 <= a < (region i r.2).2 ->
      (exists e, In e (underlying entries full sizeof_e820_entry) /\
         covers e a /\ e820_type e = E820_TYPE_RAM) /\ ~ is_hidden h a) c.
Proof.
  intros Hc Hk Hmf Hf. pose proof (windows_range h Hh) as Hwin.
  assert (He : 20 <= sizeof_e820_entry <= 64) by done.
  assert (Hmw' : 0 < memory_windows /\ memory_windows + 16 * Z.of_nat (length (windows h)) < 65536)
    by (cbn; lia).
  assert (Hw0 : (0 < length (windows h))%nat) by (cbn; lia).
  set (rem b j := List.filter nonempty
    (remaining entries full sizeof_e820_entry (windows h) b j)).
  eapply wp_mono.
  - eapply (wp_meme820 _ (fun a => _ /\ ~ is_hidden h a) (fun n next c => exists b j,
      next = enc memory_windows b j /\ valid_slot entries (windows h) b j /\
      cache_ok entries full cont sizeof_e820_entry c /\ length (rem b j) = n)).
    + intros n next s (b & j & -> & Hv & Hok & Hn). eapply wp_mono;
        [eapply (wp_mangled _ _ _ _ Hbios _ He (windows h)); eauto; cbn; lia|].
      cbv beta. fold (rem b j). intros r s' [Hok' Hr].
      assert (Hin : forall buf, In buf (rem b j) ->
        entry_ok (fun a => (exists e, In e (underlying entries full sizeof_e820_entry) /\
          covers e a /\ e820_type e = E820_TYPE_RAM) /\ ~ is_hidden h a) buf).
      { intros buf Hbuf. apply filter_In in Hbuf as [Hbuf Hne].
        assert (Hvis : In buf (visible entries full sizeof_e820_entry (windows h))).
        { apply filter_In. split; [|done]. rewrite <- (firstn_skipn (length (windows h) * b + j)%nat). apply in_or_app. by right. }
        apply visible_elem in Hvis as (e & w & Hine & Hinw & -> & _). by apply windowed_entry. }
      destruct (rem b j) as [|buf [|buf' vis]] eqn:Er; [by left| |]; right.
      * subst r. cbn [o_buf o_ebx]. split; [apply Hin; by left|by left].
      * destruct Hr as (b' & j' & Hv' & _ & -> & Hvis). cbn [o_buf o_ebx].
        split; [apply Hin; by left|]. right. exists (length (rem b' j')).
        split; [fold (rem b' j') in Hvis; rewrite Hvis; cbn [length] in *; lia|by exists b', j'].
    + split; [done|]. split; [cbn; lia|]. intros i a Hi. cbn in Hi. lia.
    + unfold MAX_MEMORY_REGIONS. cbn. lia.
    + instantiate (1 := length (rem 0%nat 0%nat)). eapply Nat.le_lt_trans; [|exact Hf].
      etransitivity; [apply filter_length_le|]. apply remaining_length; done.
    + exists 0%nat, 0%nat. split; [done|]. split; [|split; [by left|done]].
      pose proof (eb_length _ _ _ _ Hbios). unfold valid_slot. cbn. lia.
  - cbv beta. intros [rc m] s' (_ & Hcnt & Hgood). split; [done|]. exact Hgood.
Qed.
End hidden_map.

(** ** Relocation *)

(** The top of a region, as far as it can be used. *)
Definition usable_end (max : Z) (r : Z * Z) : Z := Z.min max r.2.

(** A region that iPXE fits into. *)
Definition viable (max size : Z) (r : Z * Z) : Prop :=
  r.1 <= max /\ r.1 <= usable_end max r /\ size <= usable_end max r - r.1.

Definition region_ok (r : Z * Z) : Prop := 0 <= r.1 < 2 ^ 64 /\ 0 <= r.2 < 2 ^ 64.

Lemma relocate_walk_spec l max size new_end :
  Forall region_ok l -> 0 <= max < 2 ^ 32 -> 0 <= size ->
  let r := relocate_walk l max size new_end in
  (r = new_end \/ exists b, In b l /\ viable max size b /\ r = usable_end max b /\ new_end < r - size) /\
  Forall (fun b => viable max size b -> usable_end max b - size <= r) l.
Proof.
  intros Hl Hm Hs. revert new_end. induction Hl as [|[start end_] l Hr Hl IH]; intros new_end;
    [by split; [left|constructor]|].
  unfold region_ok in Hr. cbn [fst snd] in Hr. unfold viable, usable_end in *. cbn [relocate_walk].
  assert (Hskip : forall ne, ~ (start <= max /\ start <= Z.min max end_ /\ size <= Z.min max end_ - start)
    \/ Z.min max end_ - size <= ne -> ne = new_end ->
    let r := relocate_walk l max size ne in
    (r = new_end \/ exists b, In b ((start, end_) :: l) /\
       (b.1 <= max /\ b.1 <= Z.min max b.2 /\ size <= Z.min max b.2 - b.1) /\
       r = Z.min max b.2 /\ new_end < r - size) /\
    Forall (fun b => (b.1 <= max /\ b.1 <= Z.min max b.2 /\ size <= Z.min max b.2 - b.1) ->
      Z.min max b.2 - size <= r) ((start, end_) :: l)).
  { intros ne Hn ->. cbv zeta. destruct (IH new_end) as [IH1 IH2].
    assert (new_end <= relocate_walk l max size new_end)
      by (destruct IH1 as [->|(b & _ & _ & _ & ?)]; lia).
    split; [destruct IH1 as [->|(b & Hb & IHb)]; [by left|right; exists b; by split; [right|]]|].
    constructor; [cbn [fst snd]; lia|done]. }
  destruct (Z.ltb_spec max start); [apply Hskip; [lia|done]|]. rewrite (u32_small start) by lia.
  assert (Er : (if max <? end_ then max else u32 end_) = Z.min max end_).
  { destruct (Z.ltb_spec max end_); [|rewrite u32_small]; lia. }
  rewrite Er. destruct (Z.ltb_spec (Z.min max end_) start); [apply Hskip; [lia|done]|].
  rewrite (u32_small (Z.min max end_ - start)) by lia.
  destruct (Z.ltb_spec (Z.min max end_ - start) size); [apply Hskip; [lia|done]|].
  rewrite u32_small by lia.
  destruct (Z.ltb_spec new_end (Z.min max end_ - size)); [|apply Hskip; [lia|done]].
  destruct (IH (Z.min max end_)) as [IH1 IH2].
  assert (Z.min max end_ <= relocate_walk l max size (Z.min max end_))
    by (destruct IH1 as [->|(b & _ & _ & _ & ?)]; lia).
  split.
  - right. destruct IH1 as [E|(b & Hb & Hv & Hb2 & Hlt)].
    + exists (start, end_). rewrite E. split; [by left|]. cbn [fst snd]. lia.
    + exists b. split; [by right|]. split; [done|]. split; [done|]. lia.
  - constructor; [cbn [fst snd]; lia|done].
Qed.

(** The largest address up to [x] with the alignment of [start]. *)
Lemma align_down start x size : 0 <= start <= x -> 0 <= size -> x + size + 4095 < 2 ^ 32 ->
  let new_start := u32 (x + size - (size + ALIGN - 1)) in
  u32 (new_start + Z.land (u32 (start - new_start)) (ALIGN - 1)) = x - (x - start) mod 4096.
Proof.
  intros Hs Hz Hx. unfold ALIGN. change (4096 - 1) with (2 ^ 12 - 1). rewrite land_ones_mod by lia.
  cbv zeta. change (2 ^ 12) with 4096. replace (x + size - (size + 4096 - 1)) with (x - 4095) by lia.
  assert (E : u32 (start - u32 (x - 4095)) mod 4096 = (start - (x - 4095)) mod 4096).
  { unfold u32. rewrite Z.mod_mod_divide by (exists (2 ^ 20); reflexivity).
    rewrite Zminus_mod, Z.mod_mod_divide by (exists (2 ^ 20); reflexivity).
    by rewrite <- Zminus_mod. }
  rewrite E. unfold u32. rewrite Zplus_mod_idemp_l.
  assert (Ed : x - 4095 + (start - (x - 4095)) mod 4096 = x - (x - start) mod 4096) by (clear; dlia).
  rewrite Ed. apply Z.mod_small. pose proof (Z.mod_le (x - start) 4096).
  pose proof (Z.mod_pos_bound (x - start) 4096). lia.
Qed.

(** C14. Relocation: iPXE is copied to an address with the same offset
    within its page, at or above where it is.  If it moves, then to the top of
    a region of the map that it fits into, below the maximum address, with
    less than a page left above it; if the region has a page to spare, then
    all of it lies in the region, and if the region ends a page more than its
    size above the old copy, the two do not overlap.  No region that it fits
    into would let it start above the new copy by more than its size and a
    page. *)
Theorem relocate_correct (m : memory_map) (start end_ ebp : Z) :
  0 <= start <= end_ -> end_ < MAX_ADDR -> 0 <= ebp < 2 ^ 32 -> Forall region_ok (regions m) ->
  let size := end_ - start in
  let max := Z.min ebp MAX_ADDR in
  let used := take (count m) (regions m) in
  exists edi, relocate m start end_ ebp = (start, edi, size) /\
    edi mod 4096 = start mod 4096 /\ start <= edi /\
    (edi = start \/ exists r, In r used /\ viable max size r /\
       usable_end max r - 4096 < edi + size <= usable_end max r /\
       (size + 4095 <= usable_end max r - r.1 -> r.1 <= edi) /\
       (end_ + 4095 <= usable_end max r - size -> end_ <= edi)) /\
    forall r, In r used -> viable max size r -> usable_end max r < edi + 2 * size + 4096.
Proof.
  intros Hs He Hb Hr size max used. unfold relocate.
  rewrite (u32_small (end_ - start)) by (unfold MAX_ADDR in He; lia). fold size.
  rewrite (u32_small (size + ALIGN - 1)) by (unfold ALIGN, MAX_ADDR, size in *; lia).
  assert (Em : (if ebp <? MAX_ADDR then ebp else MAX_ADDR) = max)
    by (unfold max; destruct (Z.ltb_spec ebp MAX_ADDR); lia).
  rewrite Em. fold used. assert (Hmax : max <= 0xfff00000) by (unfold max, MAX_ADDR; lia).
  assert (Hmax0 : 0 <= max) by (unfold max, MAX_ADDR; lia). clearbody max.
  destruct (relocate_walk_spec used max size end_) as [Hw Hall];
    [by apply Forall_take|lia|unfold size; lia|].
  set (new_end := relocate_walk used max size end_) in *.
  assert (Hne : end_ <= new_end < MAX_ADDR + 1).
  { unfold MAX_ADDR in *. destruct Hw as [->|(b & _ & _ & Eb & ?)]; [lia|]. unfold usable_end in Eb.
    unfold size in *. lia. }
  clearbody new_end. pose proof (align_down start (new_end - size) size) as Ha. cbv zeta in Ha.
  replace (new_end - size + size - (size + ALIGN - 1)) with (new_end - (size + ALIGN - 1)) in Ha by lia.
  rewrite Ha by (unfold size, MAX_ADDR in *; lia). clear Ha. eexists. split; [done|].
  set (x := new_end - size) in *. assert (Hx : start <= x) by (unfold x, size; lia).
  assert (Hd : 0 <= (x - start) mod 4096 < 4096) by (apply Z.mod_pos_bound; lia).
  assert (Hge : (x - start) mod 4096 <= x - start) by (apply Z.mod_le; lia).
  split; [clear - Hx; dlia|]. split; [lia|]. rewrite Forall_forall in Hall. split.
  - destruct Hw as [E|(b & Hin & Hv & Eb & Hlt)].
    + left. unfold x, size. rewrite E. replace (end_ - (end_ - start) - start) with 0 by lia.
      rewrite Z.mod_0_l by lia. lia.
    + right. exists b. split; [done|]. split; [done|]. fold x in Hlt. rewrite <- Eb in *.
      unfold x in *. split; [lia|]. split; lia.
  - intros b Hin Hv. specialize (Hall b Hin Hv). unfold x in *. lia.
Qed.

(** Where relocation goes wrong: the check for enough space uses the
    size of iPXE without the padding for its alignment, so that a block of
    just the right size has iPXE start below it; and a block less than a page
    above iPXE has it overlap the old copy. *)
Theorem relocate_misplaces :
  (let block := (0x100000, 0x110000) in
   let m := mkMap (block :: replicate 7 (0, 0)) 1 in
   exists edi, relocate m 0x20800 0x30800 0xffffffff = (0x20800, edi, 0x10000) /\
     viable MAX_ADDR 0x10000 block /\ edi < block.1) /\
  (let m := mkMap ((0x100000, 0x121200) :: replicate 7 (0, 0)) 1 in
   exists edi, relocate m 0x100000 0x110800 0xffffffff = (0x100000, edi, 0x10800) /\
     0x100000 < edi < 0x110800).
Proof.
  split; cbv zeta; eexists; (split; [vm_compute; reflexivity|]).
  - split; [|done]. unfold viable. vm_compute. split_and!; discriminate.
  - done.
Qed.

(** ** The largest block *)

(** The part of a region below 4GB. *)
Definition usable_len (r : Z * Z) : Z :=
  if EM_MAX_ADDRESS <? r.1 then 0 else Z.min (2 ^ 32) r.2 - r.1.

Lemma largest_walk_spec l start len :
  Forall (fun r => 0 <= r.1 <= r.2 /\ r.2 < 2 ^ 64 /\ usable_len r < 2 ^ 32) l -> 0 <= len ->
  let '(start', len') := largest_walk l start len in
  Forall (fun r => usable_len r <= len') l /\ len <= len' /\
  (start' = start /\ len' = len \/ exists r, In r l /\ start' = r.1 /\ len' = usable_len r).
Proof.
  intros Hl. revert start len. induction Hl as [|[rs re] l Hr Hl IH]; intros start len Hlen;
    cbn [largest_walk]; [split; [done|split; [lia|by left]]|].
  unfold usable_len, EM_MAX_ADDRESS in *. cbn [fst snd] in Hr.
  destruct (Z.ltb_spec 0xffffffff rs).
  - specialize (IH start len Hlen). destruct (largest_walk l start len) as [s' l'].
    destruct IH as (H1 & H2 & H3). split; [|split; [done|]].
    + constructor; [cbn [fst snd]; destruct (Z.ltb_spec 0xffffffff rs); lia|done].
    + destruct H3 as [?|(r & ? & ?)]; [by left|right; exists r; split; [by right|done]].
  - assert (El : u32 ((if 0xffffffff <? re then 0 else u32 re) - u32 rs) = Z.min (2 ^ 32) re - rs).
    { rewrite (u32_small rs) by lia. destruct (Z.ltb_spec 0xffffffff re).
      - unfold u32. rewrite <- (Z.mod_unique (0 - rs) (2 ^ 32) (-1) (2 ^ 32 - rs)); lia.
      - rewrite (u32_small re), u32_small; lia. }
    rewrite El, (u32_small rs) by lia.
    set (len1 := Z.min (2 ^ 32) re - rs) in *.
    destruct (Z.ltb_spec len len1).
    + specialize (IH rs len1 ltac:(lia)). destruct (largest_walk l rs len1) as [s' l'].
      destruct IH as (H1 & H2 & H3). split; [|split; [lia|]].
      * constructor; [cbn [fst snd]; destruct (Z.ltb_spec 0xffffffff rs); lia|done].
      * right. destruct H3 as [[-> ->]|(r & ? & ?)].
        -- exists (rs, re). split; [by left|]. cbn [fst snd].
           destruct (Z.ltb_spec 0xffffffff rs); [lia|done].
        -- exists r. split; [by right|done].
    + specialize (IH start len Hlen). destruct (largest_walk l start len) as [s' l'].
      destruct IH as (H1 & H2 & H3). split; [|split; [done|]].
      * constructor; [cbn [fst snd]; destruct (Z.ltb_spec 0xffffffff rs); lia|done].
      * destruct H3 as [?|(r & ? & ?)]; [by left|right; exists r; split; [by right|done]].
Qed.

(** The map that is made up when INT 15,e820 fails keeps the start of
    the first region that it reported: if that is 1MB, because base memory is
    missing from the map, the first region ends before it starts.  Its length
    wraps around, and it becomes the largest block, from 1MB almost to the top
    of the address space, whatever memory there is. *)
Theorem memmap_fallback_stale :
  let bios (_ _ : Z) : prog unit e820_out :=
    ret (mkOut false SMAP 0 20
           (le_split 8 0x100000 ++ le_split 8 0x1ff00000 ++ le_split 4 E820_TYPE_RAM)) in
  exists m, x86_get_memmap bios 10 false 640 (false, 15 * 1024, 496 * 16, 0, 0) 0 tt = Ret m tt /\
    take (count m) (regions m) = [(0x100000, 0xa0000); (0x100000, 0x20000000)] /\
    largest_memblock m = (0x100000, 0xfffa0000).
Proof. cbv zeta. eexists. split; [vm_compute; reflexivity|]. split; vm_compute; reflexivity. Qed.
