(* ===== verification/Umalloc.v ===== *)
(** * Umalloc

    External memory allocation
    (arch/x86/interface/pcbios/memtop_umalloc.c): blocks stacked downwards
    from the top of the largest region of memory, each below its successor's
    header, the lowest with its own header below it. *)

From S2P Require Import Prelude.
From S2P Require Import Memory.
From S2P Require Import Cmem.
From S2P Require Import World.
From S2P Require Import Biosint.
From S2P Require Import E820.
From S2P Require Import Memmap.

Definition EM_ALIGN : Z := 4 * 1024.
Definition UNULL : Z := 0.
Definition UNOWHERE : Z := not32 UNULL.
Definition sizeof_extmem : Z := 8.

(** [struct external_memory]: size and whether it is in use. *)
Definition read_extmem (ptr : Z) (m : mem) : Z * Z :=
  (ld32 (u32 (ptr - sizeof_extmem)) m, ld32 (u32 (ptr - 4)) m).
Definition write_extmem (ptr size used : Z) (m : mem) : mem :=
  store (u32 (ptr - sizeof_extmem)) (le_split 4 size ++ le_split 4 used) m.

Record eheap : Type := mkEheap {
  eh_mem : mem;
  top : Z;
  bottom : Z;
  heap_size : Z;
  eh_hidden : hidden
}.

Definition set_eh_mem (m : mem) (s : eheap) : eheap :=
  mkEheap m (top s) (bottom s) (heap_size s) (eh_hidden s).
Definition set_bottom (b size : Z) (s : eheap) : eheap :=
  mkEheap (eh_mem s) (top s) b size (eh_hidden s).

(** User pointers are physical addresses. *)
Definition init_eheap (memmap : memory_map) (s : eheap) : eheap :=
  let '(base, size) := largest_memblock memmap in
  let top := u32 (base + size) in
  mkEheap (eh_mem s) top top size (eh_hidden s).

(** Collect free blocks, at most [fuel]. *)
Definition ecollect_free (fuel : nat) : prog eheap unit :=
  iterate fuel (fun _ : unit =>
    s <- gets (fun s => s) ;;
    if bottom s =? top s then ret (inr tt) else
    let '(size, used) := read_extmem (bottom s) (eh_mem s) in
    if bool_of_Z used then ret (inr tt) else
    let len := u32 (size + sizeof_extmem) in
    modify (set_bottom (u32 (bottom s + len)) (u32 (heap_size s + len))) ;;
    ret (inl tt)) tt.

(** Write back block properties, collect free blocks and update the hidden
    memory region. *)
Definition urealloc_finish (fuel : nat) (new size used : Z) : prog eheap unit :=
  modify (fun s => set_eh_mem (write_extmem new size used (eh_mem s)) s) ;;
  ecollect_free fuel ;;
  modify (fun s =>
    let start := if bottom s =? top s then bottom s else u32 (bottom s - sizeof_extmem) in
    mkEheap (eh_mem s) (top s) (bottom s) (heap_size s) (hide_umalloc start (top s) (eh_hidden s))).

(** Expand or shrink the block at the bottom, from [size] to [new_size]. *)
Definition urealloc_bottom (fuel : nat) (ptr size new_size used : Z) : prog eheap Z :=
  s <- gets (fun s => s) ;;
  let new := u32 (ptr - (new_size - size)) in
  let align := Z.land new (EM_ALIGN - 1) in
  let new_size := u32 (new_size + align) in
  let new := u32 (new - align) in
  if u32 (heap_size s + size) <? new_size then ret UNULL else
  modify (fun s => set_eh_mem (__memmove new ptr (if size <? new_size then size else new_size)
                                 (eh_mem s)) s) ;;
  modify (set_bottom new (u32 (heap_size s - (new_size - size)))) ;;
  urealloc_finish fuel new new_size used ;;
  ret (if negb (new_size =? 0) then new else UNOWHERE).

Definition memtop_urealloc (fuel : nat) (memmap : memory_map) (ptr new_size : Z) : prog eheap Z :=
  (* (Re)initialise external memory allocator if necessary *)
  s <- gets (fun s => s) ;;
  when (bottom s =? top s) (modify (init_eheap memmap)) ;;
  (* Get block properties into extmem *)
  s <- gets (fun s => s) ;;
  block <- (if negb (ptr =? UNULL) && negb (ptr =? UNOWHERE) then
              (* Determine old size *)
              ret (Some (ptr, (read_extmem ptr (eh_mem s)).1))
            else
              (* Create a zero-length block *)
              if heap_size s <? sizeof_extmem then ret None else
              let ptr := u32 (bottom s - sizeof_extmem) in
              modify (set_bottom ptr (heap_size s - sizeof_extmem)) ;;
              ret (Some (ptr, 0))) ;;
  match block with
  | None => ret UNULL
  | Some (ptr, size) =>
      let used := Z_of_bool (0 <? new_size) in
      s <- gets (fun s => s) ;;
      (* Expand/shrink block if possible *)
      if ptr =? bottom s then
        urealloc_bottom fuel ptr size new_size used
      else
        (* Cannot expand; can only pretend to shrink *)
        if size <? new_size then ret UNULL else
        urealloc_finish fuel ptr size used ;;
        ret (if negb (new_size =? 0) then ptr else UNOWHERE)
  end.
