(* ===== verification/UmallocSpec.v ===== *)
(** * UmallocSpec

    The external heap: blocks do not overlap, what they hold is left alone, and
    free blocks are collected; and what happens when it runs out of space. *)

From S2P Require Import Prelude.
From S2P Require Import Memory.
From S2P Require Import Cmem.
From S2P Require Import CmemSpec.
From S2P Require Import World.
From S2P Require Import Biosint.
From S2P Require Import E820.
From S2P Require Import E820Spec.
From S2P Require Import Memmap.
From S2P Require Import Umalloc.

(** A block: address, size and whether it is in use. *)
Definition block : Type := Z * Z * bool.

(** The blocks from [b] up to the top, as memory has them. *)
Fixpoint chain (m : mem) (b t : Z) (blocks : list block) : Prop :=
  match blocks with
  | [] => b = t
  | (p, size, used) :: blocks =>
      p = b /\ b mod EM_ALIGN = 0 /\ 0 <= size /\ b + size + sizeof_extmem <= t /\
      read_extmem b m = (size, Z_of_bool used) /\
      chain m (b + size + sizeof_extmem) t blocks
  end.

(** The heap of the memory from [base] on. *)
Definition heap_ok (base : Z) (s : eheap) (blocks : list block) : Prop :=
  sizeof_extmem <= base <= bottom s /\ bottom s <= top s < 2 ^ 32 - 4096 /\
  heap_size s = bottom s - base /\ chain (eh_mem s) (bottom s) (top s) blocks.

(** The heap as an allocation finds it: initialised anew when it is empty. *)
Definition ready (memmap : memory_map) (s : eheap) : eheap :=
  if bottom s =? top s then init_eheap memmap s else s.

(** Blocks at the bottom that are not in use are collected. *)
Fixpoint collect (blocks : list block) : list block :=
  match blocks with
  | (_, _, false) :: blocks => collect blocks
  | _ => blocks
  end.

Lemma read_extmem_eq b m m' : sizeof_extmem <= b < 2 ^ 32 ->
  (forall a, b - sizeof_extmem <= a < b -> m a = m' a) -> read_extmem b m = read_extmem b m'.
Proof.
  intros Hb Hm. unfold read_extmem, sizeof_extmem, ld32, load in *. rewrite !u32_small by lia.
  f_equal; f_equal; apply map_ext_in; intros x Hx%in_seq; apply Hm; lia.
Qed.

Lemma chain_le m b t blocks : chain m b t blocks -> b <= t.
Proof.
  revert b. induction blocks as [|[[p size] used] blocks IH]; intros b; cbn [chain]; [lia|].
  unfold sizeof_extmem. lia.
Qed.

Lemma chain_eq m m' b t blocks : sizeof_extmem <= b -> t < 2 ^ 32 ->
  (forall a, b - sizeof_extmem <= a -> m a = m' a) -> chain m b t blocks -> chain m' b t blocks.
Proof.
  revert b. induction blocks as [|[[p size] used] blocks IH]; intros b Hb Ht Hm; cbn [chain]; [done|].
  intros (-> & Ha & Hs & Hle & Hr & Hc). do 4 (split; [done|]). unfold sizeof_extmem in *. split.
  - rewrite <- Hr. symmetry. apply read_extmem_eq; unfold sizeof_extmem; [lia|]. intros a Hx.
    apply Hm. lia.
  - apply IH; [lia|done| |done]. intros a Hx. apply Hm. lia.
Qed.

Lemma read_write_extmem p size used m : sizeof_extmem <= p < 2 ^ 32 -> 0 <= size < 2 ^ 32 ->
  0 <= used < 2 ^ 32 -> read_extmem p (write_extmem p size used m) = (size, used).
Proof.
  intros Hp Hs Hu. unfold read_extmem, write_extmem, sizeof_extmem, ld32 in *.
  rewrite !u32_small by lia.
  rewrite <- (Z.add_0_r (p - 8)) at 1. change 0 with (Z.of_nat 0) at 1.
  rewrite load_store_part by (cbn; lia).
  replace (p - 4) with (p - 8 + Z.of_nat 4) by lia. rewrite load_store_part by (cbn; lia).
  change (take 4 (drop 0 (le_split 4 size ++ le_split 4 used))) with (le_split 4 size).
  change (take 4 (drop 4 (le_split 4 size ++ le_split 4 used))) with (le_split 4 used).
  rewrite !le_combine_split. f_equal; apply Z.mod_small; lia.
Qed.

Lemma write_extmem_other p size used m a : sizeof_extmem <= p < 2 ^ 32 ->
  a < p - sizeof_extmem \/ p <= a -> write_extmem p size used m a = m a.
Proof.
  intros Hp Ha. unfold write_extmem, store, sizeof_extmem in *. rewrite u32_small by lia.
  rewrite length_app, !length_le_split. rewrite (proj2 (in_range_false _ _ _)); [done|lia].
Qed.

(** Collection: the blocks at the bottom that are free. *)
Lemma wp_ecollect_free fuel base s blocks :
  heap_ok base s blocks -> (length blocks < fuel)%nat ->
  wp (ecollect_free fuel) (fun _ s' => heap_ok base s' (collect blocks) /\
    eh_mem s' = eh_mem s /\ eh_hidden s' = eh_hidden s /\ top s' = top s) s.
Proof.
  revert s blocks. unfold ecollect_free. induction fuel as [|fuel IH]; intros s blocks Hok Hf; [lia|].
  pose proof Hok as (Hb & Ht & Hs & Hc). cbn [iterate]. repeat wp_prim.
  destruct blocks as [|[[p size] used] blocks]; cbn [chain] in Hc.
  { rewrite Hc, Z.eqb_refl. repeat wp_prim. cbn [collect]. done. }
  destruct Hc as (-> & Ha & Hs0 & Hle & Hr & Hc). unfold sizeof_extmem in *.
  destruct (Z.eqb_spec (bottom s) (top s)); [lia|]. rewrite Hr.
  destruct used; cbn [Z_of_bool bool_of_Z Z.eqb negb collect]; [repeat wp_prim; done|].
  change (bool_of_Z 0) with false. cbv iota. repeat wp_prim.
  rewrite (u32_small (size + 8)), !u32_small by lia.
  eapply wp_mono; [apply (IH _ blocks)|].
  - unfold heap_ok. cbn [bottom top heap_size eh_mem set_bottom]. unfold sizeof_extmem.
    split; [lia|]. split; [lia|]. split; [lia|]. by rewrite Z.add_assoc.
  - cbn [length] in Hf. lia.
  - intros _ s' (Hok' & -> & -> & ->). done.
Qed.

(** The end of a reallocation, from a heap that is as it should be but for
    the header that is still to be written. *)
Lemma wp_urealloc_finish fuel base new size used s blocks :
  heap_ok base (set_eh_mem (write_extmem new size used (eh_mem s)) s) blocks ->
  (length blocks < fuel)%nat ->
  wp (urealloc_finish fuel new size used) (fun _ s' => heap_ok base s' (collect blocks) /\
    eh_mem s' = write_extmem new size used (eh_mem s) /\ top s' = top s /\
    eh_hidden s' = hide_umalloc (if bottom s' =? top s' then bottom s'
                                 else u32 (bottom s' - sizeof_extmem)) (top s') (eh_hidden s)) s.
Proof.
  intros Hok Hf. unfold urealloc_finish. repeat wp_prim.
  eapply wp_mono; [by apply (wp_ecollect_free fuel base _ blocks)|].
  intros _ s' (Hok' & Em & Eh & Et). cbn [eh_mem eh_hidden top set_eh_mem] in *. wp_prim.
  unfold heap_ok in *. cbn [bottom top heap_size eh_mem eh_hidden]. rewrite Eh, Em in *. done.
Qed.

(** ** Reallocation at the bottom *)

Lemma wp_urealloc_bottom fuel base ptr size n used s blocks :
  sizeof_extmem <= base <= ptr -> 0 <= size -> ptr + size + sizeof_extmem <= top s ->
  top s < 2 ^ 32 - 4096 -> heap_size s = ptr - base -> 0 <= n ->
  chain (eh_mem s) (ptr + size + sizeof_extmem) (top s) blocks -> (length blocks + 1 < fuel)%nat ->
  let x := ptr + size - n in
  let new := x - x mod 4096 in
  base <= new ->
  wp (urealloc_bottom fuel ptr size n (Z_of_bool used)) (fun p s' =>
    let size' := ptr + size - new in
    p = (if negb (size' =? 0) then new else UNOWHERE) /\
    heap_ok base s' (collect ((new, size', used) :: blocks)) /\
    (forall a, a < new - sizeof_extmem \/ ptr + size <= a -> eh_mem s' a = eh_mem s a) /\
    eh_hidden s' = hide_umalloc (if bottom s' =? top s' then bottom s'
                                 else u32 (bottom s' - sizeof_extmem)) (top s') (eh_hidden s)) s.
Proof.
  intros Hb Hs Hle Ht Hhs Hn Hc Hf x new Hnew. unfold sizeof_extmem in *.
  assert (Hal : 0 <= x mod 4096 < 4096) by (apply Z.mod_pos_bound; lia).
  assert (Hax : new mod 4096 = 0) by (unfold new; clear; dlia).
  unfold urealloc_bottom. repeat wp_prim. replace (ptr - (n - size)) with x by (unfold x; lia).
  rewrite (u32_small x) by (unfold new, x in *; lia).
  change (EM_ALIGN - 1) with (2 ^ 12 - 1). rewrite land_ones_mod by lia. change (2 ^ 12) with 4096.
  rewrite (u32_small (n + x mod 4096)) by (unfold new, x in *; lia).
  fold new. replace (n + x mod 4096) with (ptr + size - new) by (unfold new, x; lia).
  rewrite (u32_small new) by (unfold new, x in *; lia).
  set (size' := ptr + size - new) in *. assert (Hs' : 0 <= size' <= heap_size s + size)
    by (unfold size', new, x in *; lia).
  rewrite (u32_small (heap_size s + size)) by lia.
  destruct (Z.ltb_spec (heap_size s + size) size'); [lia|]. repeat wp_prim.
  rewrite (u32_small (heap_size s - (size' - size))) by lia.
  set (len := if size <? size' then size else size').
  assert (Hlen : 0 <= len <= size') by (unfold len; destruct (Z.ltb_spec size size'); lia).
  set (m := __memmove new ptr len (eh_mem s)).
  assert (Hm : forall a, a < new - 8 \/ ptr + size <= a -> m a = eh_mem s a).
  { intros a Ha. unfold m. rewrite (memmove_copies new ptr len (eh_mem s) ltac:(lia) a). unfold copy.
    rewrite (proj2 (in_range_false _ _ _)); [done|unfold size' in *; lia]. }
  clearbody m. eapply wp_mono.
  - apply (wp_urealloc_finish fuel base _ _ _ _ ((new, size', used) :: blocks)); [|cbn [length]; lia].
    unfold heap_ok. cbn [bottom top heap_size eh_mem set_eh_mem set_bottom]. unfold sizeof_extmem.
    split; [lia|]. split; [unfold size' in *; lia|]. split; [unfold size'; lia|]. cbn [chain].
    split; [done|]. split; [exact Hax|]. split; [lia|]. unfold sizeof_extmem.
    split; [unfold size'; lia|]. split.
    + apply read_write_extmem; unfold sizeof_extmem; destruct used; cbn [Z_of_bool]; lia.
    + replace (new + size' + 8) with (ptr + size + 8) by (unfold size'; lia).
      eapply chain_eq; [unfold sizeof_extmem; lia|lia| |exact Hc]. unfold sizeof_extmem. intros a Ha.
      rewrite write_extmem_other, Hm; unfold sizeof_extmem; done || unfold size' in *; lia.
  - intros _ s' (Hok' & Em & Et & Eh). cbn [eh_mem set_eh_mem set_bottom top eh_hidden] in *.
    wp_prim. split; [done|]. split; [done|]. split; [|done].
    intros a Ha. rewrite Em, write_extmem_other, Hm; unfold sizeof_extmem; done || unfold size' in *; lia.
Qed.

(** The heap is initialised first, if it is empty. *)
Lemma wp_ready memmap s Q :
  Q tt (ready memmap s) -> wp (when (bottom s =? top s) (modify (init_eheap memmap))) Q s.
Proof. unfold ready. by destruct (bottom s =? top s). Qed.

Lemma ready_mem memmap s :
  eh_mem (ready memmap s) = eh_mem s /\ eh_hidden (ready memmap s) = eh_hidden s.
Proof.
  unfold ready, init_eheap. destruct (_ =? _); [destruct (largest_memblock memmap)|]; done.
Qed.

(** ** Freeing *)

Lemma chain_app m b t l1 p size used l2 :
  chain m b t (l1 ++ (p, size, used) :: l2) -> sizeof_extmem <= b ->
  b <= p /\ (l1 <> [] -> b + sizeof_extmem <= p) /\ p mod EM_ALIGN = 0 /\ 0 <= size /\
  p + size + sizeof_extmem <= t /\ read_extmem p m = (size, Z_of_bool used) /\
  chain m (p + size + sizeof_extmem) t l2.
Proof.
  unfold sizeof_extmem. revert b. induction l1 as [|[[q qs] qu] l1 IH]; intros b Hc Hb; cbn [app chain] in Hc;
    unfold sizeof_extmem in Hc; destruct Hc as (-> & Ha & Hs & Hle & Hr & Hc).
  - split_and!; done || lia.
  - destruct (IH _ Hc ltac:(lia)) as (H1 & _ & H3). split_and!; [lia|lia|apply H3..].
Qed.

(** Marking a block as free in memory. *)
Lemma chain_mark m b t l1 p size l2 :
  chain m b t (l1 ++ (p, size, true) :: l2) -> sizeof_extmem <= b -> t < 2 ^ 32 ->
  chain (write_extmem p size 0 m) b t (l1 ++ (p, size, false) :: l2).
Proof.
  unfold sizeof_extmem. revert b. induction l1 as [|[[q qs] qu] l1 IH]; intros b Hc Hb Ht;
    cbn [app chain] in *; unfold sizeof_extmem in *; destruct Hc as (-> & Ha & Hs & Hle & Hr & Hc).
  - do 4 (split; [done|]). split.
    + cbn [Z_of_bool]. apply read_write_extmem; unfold sizeof_extmem; lia.
    + eapply chain_eq; [unfold sizeof_extmem; lia|done| |exact Hc]. unfold sizeof_extmem. intros a Hx.
      rewrite write_extmem_other; unfold sizeof_extmem; done || lia.
  - do 4 (split; [done|]). split; [|apply IH; done || lia].
    destruct (chain_app _ _ _ _ _ _ _ _ Hc) as (Hp & _ & _ & H4 & H5 & _); unfold sizeof_extmem in *;
      [lia|].
    rewrite <- Hr. apply read_extmem_eq; unfold sizeof_extmem; [lia|]. intros a Hx.
    apply write_extmem_other; unfold sizeof_extmem; lia.
Qed.

Lemma wp_umalloc fuel base memmap s blocks n :
  heap_ok base (ready memmap s) blocks -> (length blocks + 1 < fuel)%nat ->
  0 < n -> n + 4096 + 2 * sizeof_extmem <= heap_size (ready memmap s) ->
  wp (memtop_urealloc fuel memmap UNULL n) (fun p s' => exists size,
    p mod EM_ALIGN = 0 /\ n <= size < n + 4096 /\ base + sizeof_extmem <= p /\
    heap_ok base s' ((p, size, true) :: blocks) /\
    (forall a, p + size <= a -> eh_mem s' a = eh_mem s a) /\
    eh_hidden s' = hide_umalloc (p - sizeof_extmem) (top s') (eh_hidden s)) s.
Proof.
  intros Hok Hf Hn Hsz. destruct (ready_mem memmap s) as [Em Eh].
  pose proof Hok as (Hb & Ht & Hs & Hc). unfold sizeof_extmem in Hb.
  unfold memtop_urealloc. apply wp_bind, wp_gets, wp_bind, wp_ready.
  rewrite <- Em, <- Eh. set (s0 := ready memmap s) in *. clearbody s0. unfold sizeof_extmem in *.
  cbn [UNULL Z.eqb negb andb]. apply wp_bind, wp_gets, wp_bind.
  destruct (Z.ltb_spec (heap_size s0) 8); [lia|].
  rewrite (u32_small (bottom s0 - 8)) by lia. repeat wp_prim.
  cbn [bottom set_bottom]. rewrite Z.eqb_refl. destruct (Z.ltb_spec 0 n); [|lia].
  assert (Hx : 0 <= (bottom s0 - 8 - n) mod 4096 < 4096) by (apply Z.mod_pos_bound; lia).
  set (new := bottom s0 - 8 - n - (bottom s0 - 8 - n) mod 4096).
  eapply wp_mono.
  - apply (wp_urealloc_bottom fuel base _ _ _ true _ blocks); unfold sizeof_extmem;
      cbn [top eh_mem heap_size set_bottom]; rewrite ?Z.add_0_r; try lia.
    by replace (bottom s0 - 8 + 8) with (bottom s0) by lia.
  - cbv beta zeta. cbn [eh_mem eh_hidden set_bottom]. unfold sizeof_extmem. rewrite !Z.add_0_r.
    fold new. intros p s' (-> & Hok' & Hmem & Hhid).
    destruct (Z.eqb_spec (bottom s0 - 8 - new) 0) as [|_]; [unfold new in *; lia|]. cbn [negb].
    exists (bottom s0 - 8 - new). cbn [collect] in Hok'.
    pose proof Hok' as (_ & Ht' & _ & Hc'). cbn [chain] in Hc'. unfold sizeof_extmem in Hc'.
    destruct Hc' as (Eb & Ha & Hs0 & Hle & _). rewrite <- Eb in *.
    split; [done|]. split; [unfold new; lia|]. split; [unfold new; lia|]. split; [done|].
    split; [intros a Hx'; apply Hmem; lia|]. rewrite Hhid.
    destruct (Z.eqb_spec new (top s')); [lia|]. rewrite u32_small by (unfold new; lia). done.
Qed.

Lemma wp_ufree fuel base memmap s (l1 : list block) p size (l2 : list block) :
  heap_ok base (ready memmap s) (l1 ++ (p, size, true) :: l2) ->
  (length (l1 ++ (p, size, true) :: l2) + 1 < fuel)%nat -> bottom s <> top s ->
  wp (memtop_urealloc fuel memmap p 0) (fun _ s' =>
    heap_ok base s' (collect (l1 ++ (p, size, false) :: l2)) /\
    (forall a, a < p - sizeof_extmem \/ p + size <= a -> eh_mem s' a = eh_mem s a)) s.
Proof.
  intros Hok Hf Hne. assert (E0 : ready memmap s = s).
  { unfold ready. by rewrite (proj2 (Z.eqb_neq _ _) Hne). }
  rewrite E0 in *. clear E0. pose proof Hok as (Hb & Ht & Hs & Hc).
  destruct (chain_app _ _ _ _ _ _ _ _ Hc) as (Hp & Hp1 & Ha & Hs0 & Hle & Hr & Hc2);
    unfold sizeof_extmem in *; [lia|].
  unfold memtop_urealloc. apply wp_bind, wp_gets, wp_bind.
  rewrite (proj2 (Z.eqb_neq _ _) Hne). wp_prim. apply wp_bind, wp_gets, wp_bind.
  unfold UNULL, UNOWHERE. change (not32 UNULL) with (2 ^ 32 - 1).
  destruct (Z.eqb_spec p 0), (Z.eqb_spec p (2 ^ 32 - 1)); try lia. cbn [negb andb]. rewrite Hr.
  cbn [fst]. repeat wp_prim. change (Z_of_bool (0 <? 0)) with (Z_of_bool false).
  destruct (Z.eqb_spec p (bottom s)) as [Ep|Ep].
  - assert (E1 : l1 = []) by (destruct l1; [done|]; specialize (Hp1 ltac:(done)); lia). subst l1.
    assert (Hx : 0 <= (p + size) mod 4096 < 4096) by (apply Z.mod_pos_bound; lia).
    assert (Hge : p <= p + size - (p + size) mod 4096).
    { unfold EM_ALIGN in Ha. clear - Ha Hs0. dlia. }
    eapply wp_mono.
    + apply (wp_urealloc_bottom fuel base p size 0 false s l2); unfold sizeof_extmem;
        rewrite ?Z.sub_0_r; cbn [app length] in *; done || lia.
    + cbv beta zeta. rewrite Z.sub_0_r. intros q s' (_ & Hok' & Hmem & _). split; [exact Hok'|].
      intros a Hx'. apply Hmem. unfold sizeof_extmem. lia.
  - destruct (Z.ltb_spec size 0); [lia|]. apply wp_bind. eapply wp_mono.
    + apply (wp_urealloc_finish fuel base p size 0 s (l1 ++ (p, size, false) :: l2)).
      * unfold heap_ok. cbn [bottom top heap_size eh_mem set_eh_mem]. unfold sizeof_extmem.
         do 3 (split; [lia|]). apply chain_mark; unfold sizeof_extmem; done || lia.
      * rewrite length_app in *. cbn [length] in *. lia.
    + intros _ s' (Hok' & Em & _ & _). wp_prim. split; [done|]. intros a Hx'.
      rewrite Em. apply write_extmem_other; unfold sizeof_extmem; lia.
Qed.

(** C15. The external heap.  An allocation for which there is room returns a
    block aligned to a page, of at least the size asked for, within the
    memory of the heap and below all other blocks; it changes nothing above
    the block.  Freeing a block gives it back, and with it the free blocks
    that it kept from being collected; it changes nothing outside the block
    and its header.  Both keep the heap well-formed and the memory below its
    top hidden. *)
Theorem umalloc_correct fuel base memmap s blocks :
  heap_ok base (ready memmap s) blocks -> (length blocks + 1 < fuel)%nat ->
  (forall n, 0 < n -> n + 4096 + 2 * sizeof_extmem <= heap_size (ready memmap s) ->
     wp (memtop_urealloc fuel memmap UNULL n) (fun p s' => exists size,
       p mod EM_ALIGN = 0 /\ n <= size < n + 4096 /\ base + sizeof_extmem <= p /\
       heap_ok base s' ((p, size, true) :: blocks) /\
       (forall a, p + size <= a -> eh_mem s' a = eh_mem s a) /\
       eh_hidden s' = hide_umalloc (p - sizeof_extmem) (top s') (eh_hidden s)) s) /\
  (forall l1 p size l2, bottom s <> top s -> blocks = l1 ++ (p, size, true) :: l2 ->
     wp (memtop_urealloc fuel memmap p 0) (fun _ s' =>
       heap_ok base s' (collect (l1 ++ (p, size, false) :: l2)) /\
       (forall a, a < p - sizeof_extmem \/ p + size <= a -> eh_mem s' a = eh_mem s a)) s).
Proof.
  intros Hok Hf. split; [intros; by apply wp_umalloc|].
  intros l1 p size l2 Hne ->. by apply wp_ufree.
Qed.

(** ** Running out of space *)

Section flaws.

(** Memory from 1MB to just above 2MB, with unrelated contents. *)
Let memmap : memory_map := mkMap ((0x100000, 0x200010) :: replicate 7 (0, 0)) 1.
Let start : eheap := mkEheap (fun _ => 0xff) 0 0 0 initial_hidden.

(** An allocation that fails for lack of space has already taken a header
    off the heap, but never writes it: after a failed allocation, an
    allocation that succeeds and is freed again, the heap is not empty, and
    its lowest block is what memory happened to hold. *)
Theorem umalloc_failure_corrupts :
  wp (q <- memtop_urealloc 9 memmap UNULL 0x200000 ;;
      p <- memtop_urealloc 9 memmap UNULL 0x1000 ;;
      memtop_urealloc 9 memmap p 0 ;; ret (q, p)) (fun r s =>
    r = (UNULL, 0x1ff000) /\ bottom s <> top s /\
    read_extmem (bottom s) (eh_mem s) = (0xffffffff, 0xffffffff)) start.
Proof. vm_compute. split; [reflexivity|]. split; [discriminate|reflexivity]. Qed.

(** The header of the lowest block is not counted: a block that takes all
    of the memory has its header written below it, outside the memory that
    the map reported. *)
Theorem umalloc_header_outside :
  wp (memtop_urealloc 9 memmap UNULL (0x100010 - sizeof_extmem)) (fun p s =>
    p = 0x100000 /\ heap_size s = 0 /\
    eh_mem s (0x100000 - sizeof_extmem) <> eh_mem start (0x100000 - sizeof_extmem)) start.
Proof. vm_compute. split; [reflexivity|]. split; [reflexivity|discriminate]. Qed.
End flaws.
