(* ===== verification/PciBus.v ===== *)
(** * PciBus

    Scanning of the PCI bus and matching of drivers (drivers/bus/pci.c), and
    the discovery of the buses through the PCI BIOS
    (arch/x86/interface/pcbios/pcibios.c). *)

From stdpp Require Import strings.
From S2P Require Import Prelude.
From S2P Require Import Memory.
From S2P Require Import World.
From S2P Require Import Cstring.
From S2P Require Import Printf.
From S2P Require Import Object.
From S2P Require Import Malloc.
From S2P Require Import Pci.
From S2P Require Import Biosint.

Definition PCI_VENDOR_ID : Z := 0x00.
Definition PCI_REVISION : Z := 0x08.
Definition PCI_HEADER_TYPE : Z := 0x0e.
Definition PCI_HEADER_TYPE_BRIDGE : Z := 0x01.
Definition PCI_HEADER_TYPE_MASK : Z := 0x7f.
Definition PCI_HEADER_TYPE_MULTI : Z := 0x80.
Definition PCI_SUBORDINATE : Z := 0x1a.
Definition PCI_INTERRUPT_LINE : Z := 0x3c.
Definition PCI_ANY_ID : Z := 0xffff.
Definition PCI_CLASS_MASSSTORAGE : Z := 0x01.
Definition PCI_CLASS_MASSSTORAGE_NVM : Z := 0x08.
Definition PCIBIOS_INSTALLATION_CHECK : Z := 0xb1010000.

Definition PCI_SEG (busdevfn : Z) : Z := Z.land (Z.shiftr busdevfn 16) 0xffff.
Definition PCI_BUS (busdevfn : Z) : Z := Z.land (Z.shiftr busdevfn 8) 0xff.
Definition PCI_SLOT (busdevfn : Z) : Z := Z.land (Z.shiftr busdevfn 3) 0x1f.
Definition PCI_FUNC (busdevfn : Z) : Z := Z.land (Z.shiftr busdevfn 0) 0x07.
Definition PCI_FIRST_FUNC (busdevfn : Z) : Z := Z.land busdevfn (not32 0x07).
Definition PCI_BUSDEVFN (segment bus slot func : Z) : Z :=
  u32 (Z.lor (Z.lor (Z.shiftl segment 16) (Z.shiftl bus 8))
         (Z.lor (Z.shiftl slot 3) (Z.shiftl func 0))).

(** ** Drivers *)

Record pci_device_id : Type := mkPciId { id_vendor : Z; id_device : Z }.

Definition PCI_CLASS (base sub progif : Z) : Z :=
  Z.lor (Z.lor (Z.shiftl (Z.land base 0xff) 16) (Z.shiftl (Z.land sub 0xff) 8))
    (Z.shiftl (Z.land progif 0xff) 0).

(** The class and the mask of PCI_CLASS_ID. *)
Definition PCI_CLASS_ID (base sub progif : Z) : Z * Z :=
  let mask x := if x =? PCI_ANY_ID then 0x00 else 0xff in
  (PCI_CLASS base sub progif,
   Z.lor (Z.lor (Z.shiftl (mask base) 16) (Z.shiftl (mask sub) 8))
     (Z.shiftl (mask progif) 0)).

Section pcibus.
Context `{Platform} `{!Methods}.

(** A driver; its methods take the address of the device on the bus. *)
Record pci_driver : Type := mkPciDriver {
  ids : list pci_device_id;
  driver_class : Z * Z;
  driver_probe : Z -> cprog Z;
  driver_remove : Z -> cprog unit }.

Context (PCI_DRIVERS : list pci_driver).

Definition get_pci (pci : Z) : cprog pci_device := deref (fun w => pci_devs (w_dev w) !! pci).
Definition upd_dev (f : dev_state -> dev_state) : cprog unit :=
  modify (fun w => set_w_dev (f (w_dev w)) w).
Definition put_pci (pci : Z) (d : pci_device) : cprog unit :=
  upd_dev (fun s => set_pci_devs (<[pci := d]> (pci_devs s)) s).

(** The structure of a cleared device with its address. *)
Definition pci_init (busdevfn_ : Z) : pci_device :=
  mkPci [] 0 0 0 0 0 0 0 busdevfn_ None.

(** The name of a device. *)
Definition pci_name (busdevfn_ : Z) : cstring :=
  default [] (vcprintf (fun _ => []) (fun _ => []) (cs "%04x:%02x:%02x.%x")
    [PCI_SEG busdevfn_; PCI_BUS busdevfn_; PCI_SLOT busdevfn_; PCI_FUNC busdevfn_]).

(** Read the configuration of the device in the structure [pci]. *)
Definition pci_read_config (pci : Z) : cprog Z :=
  d <- get_pci pci ;;
  let b := busdevfn d in
  (* Ignore all but the first function on non-multifunction devices *)
  multi <- (if negb (PCI_FUNC b =? 0) then
              hdrtype <- pci_read_config_byte (PCI_FIRST_FUNC b) PCI_HEADER_TYPE ;;
              ret (bool_of_Z (Z.land hdrtype PCI_HEADER_TYPE_MULTI))
            else ret true) ;;
  if negb multi then ret (- ENODEV) else
  (* Check for physical device presence *)
  tmp <- pci_read_config_dword b PCI_VENDOR_ID ;;
  if (tmp =? 0xffffffff) || (tmp =? 0) then ret (- ENODEV) else
  (* Populate struct pci_device *)
  rev <- pci_read_config_dword b PCI_REVISION ;;
  irq <- pci_read_config_byte b PCI_INTERRUPT_LINE ;;
  hdrtype <- pci_read_config_byte b PCI_HEADER_TYPE ;;
  let! (ioaddr, membase) := pci_read_bases b in
  put_pci pci (mkPci (pci_name b) membase ioaddr (Z.land tmp 0xffff)
                 (Z.shiftr tmp 16) (Z.shiftr rev 8) irq hdrtype b None) ;;
  ret 0.

(** The range of addresses that the BIOS reports: start and count. *)
Definition pcibios_discover : cprog (Z * Z) :=
  vector <- get_vector 0x1a ;;
  r <- call_handler vector
    (put_flag CF true
       (mkRegs (Z.shiftr PCIBIOS_INSTALLATION_CHECK 16) 0 0 0 0 0 rm_ds rm_ds 0)) ;;
  let num_bus := if flag CF r then 0 else u16 (lo8 (ecx r) + 1) in
  ret (PCI_BUSDEVFN 0 0 0 0, PCI_BUSDEVFN 0 num_bus 0 0).

(** Whether an address is outside the current range. *)
Definition out_of_range (busdevfn_ : Z) : cprog bool :=
  s <- gets w_dev ;;
  ret (range_count s <=? u32 (busdevfn_ - range_start s)).

(** The device is a bridge: expand the range to its subordinate buses. *)
Definition pci_expand (busdevfn_ : Z) : cprog unit :=
  hdrtype <- pci_read_config_byte busdevfn_ PCI_HEADER_TYPE ;;
  when (Z.land hdrtype PCI_HEADER_TYPE_MASK =? PCI_HEADER_TYPE_BRIDGE)
    (sub <- pci_read_config_byte busdevfn_ PCI_SUBORDINATE ;;
     let end_ := PCI_BUSDEVFN (PCI_SEG busdevfn_) (sub + 1) 0 0 in
     s <- gets w_dev ;;
     let count := u32 (end_ - range_start s) in
     when (range_count s <? count) (upd_dev (set_range_count count))).

(** One round of the search from an address: the status and the address of
    the device that is found, or the next address. *)
Definition pci_find_round (pci busdevfn_ : Z) : cprog (Z + Z * Z) :=
  (* Find next PCI bus:dev.fn address range, if necessary *)
  out <- out_of_range busdevfn_ ;;
  let! (busdevfn_, at_end) :=
    (if out then
       let! (start, count) := pcibios_discover in
       upd_dev (fun s => set_range_count count (set_range_start start s)) ;;
       let busdevfn_ := if busdevfn_ <? start then start else busdevfn_ in
       out <- out_of_range busdevfn_ ;;
       ret (busdevfn_, out)
     else ret (busdevfn_, false)) in
  if at_end then ret (inr (- ENODEV, busdevfn_)) else
  (* Check for PCI device existence *)
  put_pci pci (pci_init busdevfn_) ;;
  rc <- pci_read_config pci ;;
  if negb (rc =? 0) then
    let busdevfn_ := u32 (busdevfn_ + 1) in
    ret (if busdevfn_ =? 0 then inr (- ENODEV, busdevfn_) else inl busdevfn_)
  else
    pci_expand busdevfn_ ;;
    (* Return this device *)
    ret (inr (0, busdevfn_)).

Definition pci_find_next (n : nat) (pci busdevfn_ : Z) : cprog (Z * Z) :=
  iterate n (pci_find_round pci) busdevfn_.

(** Whether a driver is one for a device. *)
Definition driver_matches (driver : pci_driver) (d : pci_device) : bool :=
  let '(class_, mask) := driver_class driver in
  (Z.land (Z.lxor class_ (class d)) mask =? 0) &&
  existsb (fun id =>
      ((id_vendor id =? PCI_ANY_ID) || (id_vendor id =? vendor d)) &&
      ((id_device id =? PCI_ANY_ID) || (id_device id =? device d)))
    (ids driver).

Definition pci_find_driver (pci : Z) : cprog Z :=
  d <- get_pci pci ;;
  match list_find (fun driver => driver_matches driver d) PCI_DRIVERS with
  | Some (i, _) => put_pci pci (set_pci_driver_ (Some i) d) ;; ret 0
  | None => ret (- ENOENT)
  end.

(** The driver of a device. *)
Definition pci_get_driver (d : pci_device) : cprog pci_driver :=
  deref (fun _ => pci_driver_ d ≫= (PCI_DRIVERS !!.)).

Definition pci_probe (pci : Z) : cprog Z :=
  d <- get_pci pci ;;
  driver <- pci_get_driver d ;;
  driver_probe driver (busdevfn d).

Definition pci_remove (pci : Z) : cprog unit :=
  d <- get_pci pci ;;
  driver <- pci_get_driver d ;;
  driver_remove driver (busdevfn d).

Definition add_child (pci : Z) : cprog unit :=
  upd_dev (fun s => set_pci_children (pci :: pci_children s) s).
Definition del_child (pci : Z) : cprog unit :=
  upd_dev (fun s => set_pci_children (list_del pci (pci_children s)) s).

Fixpoint pcibus_remove_all (l : list Z) : cprog unit :=
  match l with
  | [] => ret tt
  | pci :: l => pci_remove pci ;; del_child pci ;; free pci ;; pcibus_remove_all l
  end.

Definition pcibus_remove : cprog unit :=
  l <- gets (fun w => pci_children (w_dev w)) ;; pcibus_remove_all l.

(** One round of the scan: the structure (or NULL) and the address to go on
    with, or the status. *)
Definition pcibus_probe_round (n : nat) (x : Z * Z) : cprog (Z * Z + Z) :=
  let '(pci, busdevfn_) := x in
  let next pci busdevfn_ : cprog (Z * Z + Z) :=
    let busdevfn_ := u32 (busdevfn_ + 1) in
    if busdevfn_ =? 0 then free pci ;; ret (inr 0) else ret (inl (pci, busdevfn_)) in
  (* Allocate struct pci_device *)
  pci <- (if pci =? NULL then malloc sizeof_pci_device else ret pci) ;;
  if pci =? NULL then
    free pci ;; pcibus_remove ;; ret (inr (- ENOMEM))
  else
  (* Find next PCI device, if any *)
  let! (rc, busdevfn_) := pci_find_next n pci busdevfn_ in
  if negb (rc =? 0) then free pci ;; ret (inr 0) else
  (* Look for a driver *)
  rc <- pci_find_driver pci ;;
  if negb (rc =? 0) then next pci busdevfn_ else
  (* Add to device hierarchy *)
  add_child pci ;;
  rc <- pci_probe pci ;;
  if rc =? 0 then next NULL busdevfn_
  else del_child pci ;; next pci busdevfn_.

Definition pcibus_probe (n : nat) : cprog Z :=
  iterate n (pcibus_probe_round n) (NULL, 0).
End pcibus.
