(* ===== verification/PciExtra.v ===== *)
(** * PciExtra

    PCI capability lists and function-level reset (drivers/bus/pciextra.c),
    with the backup and restoration of configuration space around it
    (drivers/bus/pcibackup.c). *)

From S2P Require Import Prelude.
From S2P Require Import Memory.
From S2P Require Import World.
From S2P Require Import Pci.
From S2P Require Import PciBus.

Definition PCI_STATUS : Z := 0x06.
Definition PCI_STATUS_CAP_LIST : Z := 0x0010.
Definition PCI_HEADER_TYPE_CARDBUS : Z := 0x02.
Definition PCI_CAPABILITY_LIST : Z := 0x34.
Definition PCI_CB_CAPABILITY_LIST : Z := 0x14.
Definition PCI_CAP_ID : Z := 0x00.
Definition PCI_CAP_NEXT : Z := 0x01.
Definition PCI_EXP_DEVCTL : Z := 0x08.
Definition PCI_EXP_DEVCTL_FLR : Z := 0x8000.
Definition PCI_EXP_FLR_DELAY_MS : Z := 100.
Definition PCI_CONFIG_BACKUP_ALL : Z := 0x100.
Definition PCI_CONFIG_BACKUP_STANDARD : Z := 0x40.
Definition PCI_CONFIG_BACKUP_EXCLUDE_END : Z := 0xff.

Section pciextra.
Context `{Platform}.

(** The loop, with [ttl] capabilities left to look at. *)
Fixpoint pci_find_capability_loop (ttl : nat) (pci pos cap : Z) : cprog Z :=
  match ttl with
  | O => ret 0
  | S ttl =>
      if pos <? 0x40 then ret 0 else
      let pos := u8 (Z.land pos (not32 3)) in
      id <- pci_read_config_byte pci (pos + PCI_CAP_ID) ;;
      if id =? 0xff then ret 0
      else if id =? cap then ret pos
      else
        pos <- pci_read_config_byte pci (pos + PCI_CAP_NEXT) ;;
        pci_find_capability_loop ttl pci pos cap
  end.

Definition pci_find_capability_common (pci pos cap : Z) : cprog Z :=
  pci_find_capability_loop 48 pci pos cap.

Definition pci_find_capability (pci cap : Z) : cprog Z :=
  status <- pci_read_config_word pci PCI_STATUS ;;
  if negb (bool_of_Z (Z.land status PCI_STATUS_CAP_LIST)) then ret 0 else
  hdr_type <- pci_read_config_byte pci PCI_HEADER_TYPE ;;
  pos <- (if Z.land hdr_type PCI_HEADER_TYPE_MASK =? PCI_HEADER_TYPE_CARDBUS
          then pci_read_config_byte pci PCI_CB_CAPABILITY_LIST
          else pci_read_config_byte pci PCI_CAPABILITY_LIST) ;;
  pci_find_capability_common pci pos cap.

Definition pci_find_next_capability (pci pos cap : Z) : cprog Z :=
  new_pos <- pci_read_config_byte pci (pos + PCI_CAP_NEXT) ;;
  pci_find_capability_common pci new_pos cap.

(** The exclusion list as the bytes up to its end marker. *)
Fixpoint pci_backup_excluded_from (offset : Z) (exclude : list Z) : bool :=
  match exclude with
  | [] => false
  | e :: exclude =>
      if e =? PCI_CONFIG_BACKUP_EXCLUDE_END then false
      else if offset =? e then true
      else pci_backup_excluded_from offset exclude
  end.

Definition pci_backup_excluded (offset : Z) (exclude : option (list Z)) : bool :=
  match exclude with
  | None => false
  | Some exclude => pci_backup_excluded_from offset exclude
  end.

(** The loops over [struct pci_config_backup], from dword [i] on, with [n]
    dwords of the structure left.  Running past its end is undefined. *)
Fixpoint pci_backup_from (n i : nat) (pci : Z) (backup : list Z) (limit : Z)
    (exclude : option (list Z)) : cprog (list Z) :=
  let offset := 4 * Z.of_nat i in
  if negb (offset <? limit) then ret backup else
  match n with
  | O => undef
  | S n =>
      backup <- (if negb (pci_backup_excluded offset exclude)
                 then v <- pci_read_config_dword pci offset ;; ret (<[i := v]> backup)
                 else ret backup) ;;
      pci_backup_from n (S i) pci backup limit exclude
  end.

Definition pci_backup (pci : Z) (backup : list Z) (limit : Z) (exclude : option (list Z))
    : cprog (list Z) :=
  pci_backup_from 64 0 pci backup limit exclude.

Fixpoint pci_restore_from (n i : nat) (pci : Z) (backup : list Z) (limit : Z)
    (exclude : option (list Z)) : cprog unit :=
  let offset := 4 * Z.of_nat i in
  if negb (offset <? limit) then ret tt else
  match n with
  | O => undef
  | S n =>
      (if negb (pci_backup_excluded offset exclude)
       then pci_write_config_dword pci offset (nth i backup 0) else ret tt) ;;
      pci_restore_from n (S i) pci backup limit exclude
  end.

Definition pci_restore (pci : Z) (backup : list Z) (limit : Z) (exclude : option (list Z))
    : cprog unit :=
  pci_restore_from 64 0 pci backup limit exclude.

(** [mdelay]: the wait of the timer.  [backup]: what the uninitialised
    structure on the stack holds. *)
Definition pci_reset (mdelay : Z -> cprog unit) (backup : list Z) (pci exp : Z) : cprog unit :=
  (* Back up configuration space *)
  backup <- pci_backup pci backup PCI_CONFIG_BACKUP_STANDARD None ;;
  (* Perform a PCIe function-level reset *)
  control <- pci_read_config_word pci (exp + PCI_EXP_DEVCTL) ;;
  let control := Z.lor control PCI_EXP_DEVCTL_FLR in
  pci_write_config_word pci (exp + PCI_EXP_DEVCTL) control ;;
  (* Allow time for reset to complete *)
  mdelay PCI_EXP_FLR_DELAY_MS ;;
  (* Restore configuration *)
  pci_restore pci backup PCI_CONFIG_BACKUP_STANDARD None.

(** ** The capability list *)

Definition config_byte (h : hw) (pci reg : Z) : Z := u8 (pci_config_read h 1 pci reg).
Definition cap_address (pos : Z) : Z := pos - pos mod 4.

(** The capabilities, with their addresses, of the list that starts at
    [pos]; it ends at a pointer below 0x40 or at an absent capability. *)
Inductive cap_list (h : hw) (pci : Z) : Z -> list (Z * Z) -> Prop :=
  | cap_list_end pos : pos < 0x40 -> cap_list h pci pos []
  | cap_list_absent pos :
      0x40 <= pos -> config_byte h pci (cap_address pos) = 0xff -> cap_list h pci pos []
  | cap_list_cons pos l :
      0x40 <= pos -> config_byte h pci (cap_address pos) <> 0xff ->
      cap_list h pci (config_byte h pci (cap_address pos + PCI_CAP_NEXT)) l ->
      cap_list h pci pos ((cap_address pos, config_byte h pci (cap_address pos)) :: l).

(** The address of the first capability [cap] of a list, or zero. *)
Fixpoint first_cap (cap : Z) (l : list (Z * Z)) : Z :=
  match l with
  | [] => 0
  | (pos, id) :: l => if id =? cap then pos else first_cap cap l
  end.

Lemma land_not32_3 pos : 0 <= pos < 256 -> u8 (Z.land pos (not32 3)) = cap_address pos.
Proof.
  intros Hp. change 3 with (2 ^ 2 - 1). rewrite land_not32 by lia. unfold cap_address, u8.
  change (2 ^ 2) with 4. apply Z.mod_small. dlia.
Qed.

Lemma config_byte_range h pci reg : 0 <= config_byte h pci reg < 256.
Proof. apply Z.mod_pos_bound. lia. Qed.

Lemma cap_list_det h pci pos l pos' l' :
  cap_list h pci pos l -> cap_list h pci pos' l' -> 0x40 <= pos -> 0x40 <= pos' ->
  cap_address pos = cap_address pos' -> l = l'.
Proof.
  intros Hl. revert pos' l'. induction Hl as [pos Hp|pos Hp Ha|pos l Hp Ha Hl IH];
    intros pos' l' Hl' Hge Hge' He; [lia|..]; destruct Hl' as [|? ? Hb|? l' ? Hb Hl']; try lia;
    rewrite <- ?He in *; try congruence.
  f_equal. set (next := config_byte h pci (cap_address pos + PCI_CAP_NEXT)) in *.
  destruct (Z.le_gt_cases 0x40 next) as [Hn|Hn]; [by eapply IH|].
  inversion Hl; inversion Hl'; subst; done || lia.
Qed.

(** From each capability of a list starts the rest of it. *)
Lemma cap_list_suffix h pci pos l1 p l2 :
  cap_list h pci pos (l1 ++ p :: l2) ->
  exists pos', 0x40 <= pos' /\ cap_address pos' = p.1 /\ cap_list h pci pos' (p :: l2) /\
    (0 <= pos < 256 -> 0 <= pos' < 256).
Proof.
  revert pos. induction l1 as [|q l1 IH]; intros pos Hl;
    inversion Hl as [| |? ? Hp Ha Hl']; subst; [by exists pos|].
  destruct (IH _ Hl') as (pos' & ? & ? & ? & Hr). exists pos'.
  split_and!; try done; intros _; apply Hr, config_byte_range.
Qed.

(** A list that ends visits no address twice. *)
Lemma cap_list_nodup h pci pos l : cap_list h pci pos l -> NoDup (map fst l).
Proof.
  induction 1 as [pos Hp|pos Hp Ha|pos l Hp Ha Hl IH]; cbn [map fst]; [constructor..|].
  constructor; [|done]. rewrite list_elem_of_fmap. intros ([p id] & Hpe & Hin). cbn [fst] in Hpe.
  apply list_elem_of_split in Hin as (l1 & l2 & ->).
  destruct (cap_list_suffix _ _ _ _ _ _ Hl) as (pos' & Hp' & Ea & Hs & _).
  pose proof (cap_list_det _ _ _ _ _ _ (cap_list_cons _ _ _ _ Hp Ha Hl) Hs Hp Hp'
    ltac:(cbn [fst] in Ea; congruence)) as E.
  apply (f_equal length) in E. cbn [length] in E. rewrite length_app in E. cbn [length] in E. lia.
Qed.

Lemma cap_list_addresses h pci pos l :
  cap_list h pci pos l -> 0 <= pos < 256 ->
  Forall (fun p => 0x40 <= p.1 < 256 /\ p.1 mod 4 = 0) l.
Proof.
  induction 1 as [pos Hp|pos Hp Ha|pos l Hp Ha Hl IH]; intros Hr; constructor.
  - cbn [fst]. unfold cap_address. dlia.
  - apply IH, config_byte_range.
Qed.

(** There is room for 48 capabilities. *)
Lemma cap_list_length h pci pos l :
  cap_list h pci pos l -> 0 <= pos < 256 -> (length l <= 48)%nat.
Proof.
  intros Hl Hp. pose proof (cap_list_nodup _ _ _ _ Hl) as Hn.
  pose proof (cap_list_addresses _ _ _ _ Hl Hp) as Ha. rewrite Forall_forall in Ha.
  rewrite <- (length_map fst l).
  change 48%nat with (length (map (fun k => 0x40 + 4 * Z.of_nat k) (seq 0 48))).
  apply NoDup_incl_length; [by apply NoDup_ListNoDup|].
  intros a Hin. apply in_map_iff in Hin as (p & <- & Hin).
  destruct (Ha p Hin) as [Hr Hm]. apply in_map_iff. exists (Z.to_nat ((p.1 - 0x40) / 4)).
  rewrite in_seq. split; dlia.
Qed.

Lemma wp_read_config_byte pci reg (Q : Z -> world -> Prop) w :
  Q (config_byte (w_hw w) pci reg) w -> wp (pci_read_config_byte pci reg) Q w.
Proof. auto. Qed.

Lemma wp_find_capability_loop ttl pci pos cap l (w : world) :
  cap_list (w_hw w) pci pos l -> 0 <= pos < 256 -> (length l <= ttl)%nat ->
  wp (pci_find_capability_loop ttl pci pos cap) (fun r w' => r = first_cap cap l /\ w' = w) w.
Proof.
  intros Hl. revert ttl. induction Hl as [pos Hp|pos Hp Ha|pos l Hp Ha Hl IH];
    intros [|ttl] Hr Hlen; cbn [length] in Hlen; try done; try lia;
    cbn [pci_find_capability_loop]; destruct (Z.ltb_spec pos 0x40); try done; try lia;
    rewrite land_not32_3 by done; change PCI_CAP_ID with 0; rewrite Z.add_0_r;
    apply wp_bind, wp_read_config_byte.
  - by rewrite Ha.
  - destruct (Z.eqb_spec (config_byte (w_hw w) pci (cap_address pos)) 0xff); [done|].
    cbn [first_cap]. destruct (_ =? cap); [done|].
    apply wp_bind, wp_read_config_byte, IH; [apply config_byte_range|lia].
Qed.

(** Where the list starts, if there is one. *)
Definition cap_start (h : hw) (pci : Z) : Z :=
  if Z.land (config_byte h pci PCI_HEADER_TYPE) PCI_HEADER_TYPE_MASK =? PCI_HEADER_TYPE_CARDBUS
  then config_byte h pci PCI_CB_CAPABILITY_LIST else config_byte h pci PCI_CAPABILITY_LIST.

Definition has_cap_list (h : hw) (pci : Z) : bool :=
  bool_of_Z (Z.land (u16 (pci_config_read h 2 pci PCI_STATUS)) PCI_STATUS_CAP_LIST).

Lemma wp_find_capability pci cap (Q : Z -> world -> Prop) w :
  (has_cap_list (w_hw w) pci = false -> Q 0 w) ->
  (has_cap_list (w_hw w) pci = true ->
   wp (pci_find_capability_common pci (cap_start (w_hw w) pci) cap) Q w) ->
  wp (pci_find_capability pci cap) Q w.
Proof.
  intros H0 H1. unfold pci_find_capability. apply wp_bind, wp_gets.
  fold (has_cap_list (w_hw w) pci). destruct (has_cap_list (w_hw w) pci); [|by apply H0].
  apply wp_bind, wp_read_config_byte. specialize (H1 eq_refl). unfold cap_start in H1.
  destruct (_ =? PCI_HEADER_TYPE_CARDBUS); by apply wp_bind, wp_read_config_byte.
Qed.

Lemma cap_start_range h pci : 0 <= cap_start h pci < 256.
Proof. unfold cap_start. destruct (_ =? _); apply config_byte_range. Qed.

(** Of any configuration space, cyclic lists included, the search returns
    zero or the address of a capability that matches. *)
Lemma wp_find_capability_safe ttl pci pos cap w :
  0 <= pos < 256 ->
  wp (pci_find_capability_loop ttl pci pos cap) (fun r w' => w' = w /\
    (r = 0 \/ 0x40 <= r < 256 /\ r mod 4 = 0 /\ config_byte (w_hw w) pci r = cap)) w.
Proof.
  revert pos. induction ttl as [|ttl IH]; intros pos Hr; cbn [pci_find_capability_loop];
    [by repeat wp_prim; auto|].
  destruct (Z.ltb_spec pos 0x40); [by repeat wp_prim; auto|].
  rewrite land_not32_3 by done. change PCI_CAP_ID with 0. rewrite Z.add_0_r.
  apply wp_bind, wp_read_config_byte. destruct (_ =? 0xff); [by repeat wp_prim; auto|].
  destruct (Z.eqb_spec (config_byte (w_hw w) pci (cap_address pos)) cap) as [E|E].
  - wp_prim. split; [done|]. right. unfold cap_address in *. split_and!; [dlia..|done].
  - apply wp_bind, wp_read_config_byte, IH, config_byte_range.
Qed.

(** Capability search: whatever configuration space holds, cyclic lists
    included, the search ends without changing anything, at zero or at the
    aligned address of a capability with the right identifier.  If the list
    of the device ends, its 48 steps reach all of it: the search returns the
    first matching capability and, continued from any capability of the list,
    the first matching one after that. *)
Theorem pci_find_capability_correct (pci cap : Z) (w : world) :
  wp (pci_find_capability pci cap) (fun r w' => w' = w /\
    (r = 0 \/ 0x40 <= r < 256 /\ r mod 4 = 0 /\ config_byte (w_hw w) pci r = cap)) w /\
  forall l, has_cap_list (w_hw w) pci = true ->
    cap_list (w_hw w) pci (cap_start (w_hw w) pci) l ->
    wp (pci_find_capability pci cap) (fun r w' => r = first_cap cap l /\ w' = w) w /\
    forall l1 p l2, l = l1 ++ p :: l2 ->
      wp (pci_find_next_capability pci p.1 cap) (fun r w' => r = first_cap cap l2 /\ w' = w) w.
Proof.
  pose proof (cap_start_range (w_hw w) pci) as Hr. split.
  - apply wp_find_capability; [auto|]. intros _. by apply wp_find_capability_safe.
  - intros l Hc Hl. split.
    + apply wp_find_capability; [congruence|]. intros _.
      apply wp_find_capability_loop; eauto using cap_list_length.
    + intros l1 p l2 ->. destruct (cap_list_suffix _ _ _ _ _ _ Hl) as (pos & Hp & _ & Hs & Hr').
      apply wp_bind, wp_read_config_byte. inversion Hs as [| |? ? _ _ Hn]; subst. cbn [fst].
      apply wp_find_capability_loop; eauto using cap_list_length, config_byte_range.
Qed.

(** ** Backup and restoration *)

(** The dwords of standard configuration space, written back as [h0] had
    them. *)
Definition restored (h0 : hw) (pci : Z) (regs : list nat) (h : hw) : hw :=
  foldl (fun h i => pci_config_write h 4 pci (4 * Z.of_nat i)
           (u32 (pci_config_read h0 4 pci (4 * Z.of_nat i)))) h regs.

Definition kept (limit : Z) (exclude : option (list Z)) (i : nat) : Prop :=
  4 * Z.of_nat i < limit /\ pci_backup_excluded (4 * Z.of_nat i) exclude = false.
#[global] Instance kept_dec limit exclude i : Decision (kept limit exclude i).
Proof. apply _. Defined.

Lemma wp_pci_backup_from n i pci backup limit exclude (w : world) :
  length backup = 64%nat -> (n + i = 64)%nat -> limit <= PCI_CONFIG_BACKUP_ALL ->
  wp (pci_backup_from n i pci backup limit exclude) (fun backup' w' => w' = w /\
    length backup' = 64%nat /\
    forall k, (k < 64)%nat -> nth k backup' 0 =
      if decide (i <= k /\ kept limit exclude k)%nat
      then u32 (pci_config_read (w_hw w) 4 pci (4 * Z.of_nat k)) else nth k backup 0) w.
Proof.
  revert i backup. unfold PCI_CONFIG_BACKUP_ALL, kept.
  induction n as [|n IH]; intros i backup Hb Hn Hl; cbn [pci_backup_from];
    destruct (Z.ltb_spec (4 * Z.of_nat i) limit); cbn [negb]; try lia.
  1,3: wp_prim; split_and!; [done..|]; intros k Hk; rewrite decide_False by lia; done.
  destruct (pci_backup_excluded (4 * Z.of_nat i) exclude) eqn:E; cbn [negb]; repeat wp_prim.
  - eapply wp_mono; [apply IH; [done|lia..]|]. intros b' w' (-> & Hb' & Hk).
    split_and!; [done..|]. intros k Hk'. rewrite Hk by done.
    destruct (decide (k = i)) as [->|];
      [rewrite !decide_False by (lia || (intros (? & ? & ?); congruence)); done|].
    apply decide_ext. split; intros [? ?]; split; done || lia.
  - unfold pci_read_config_dword. repeat wp_prim.
    eapply wp_mono; [apply IH; [by rewrite length_insert|lia..]|]. intros b' w' (-> & Hb' & Hk).
    split_and!; [done..|]. intros k Hk'. rewrite Hk by done.
    rewrite !nth_lookup. destruct (decide (k = i)) as [->|].
    + rewrite decide_False, decide_True by (lia || (repeat split; done || lia)). rewrite list_lookup_insert_eq by lia. done.
    + rewrite list_lookup_insert_ne by done. apply decide_ext. split; intros [? ?]; split; done || lia.
Qed.

Lemma filter_kept_none limit exclude i n :
  limit <= 4 * Z.of_nat i -> filter (kept limit exclude) (seq i n) = [].
Proof.
  revert i. induction n as [|n IH]; intros i Hi; [done|]. cbn [seq].
  rewrite filter_cons, decide_False by (unfold kept; lia). apply IH. lia.
Qed.

Lemma wp_pci_restore_from n i pci backup limit exclude (w : world) :
  (n + i = 64)%nat -> limit <= PCI_CONFIG_BACKUP_ALL ->
  wp (pci_restore_from n i pci backup limit exclude) (fun _ w' => w' = set_w_hw
    (foldl (fun h k => pci_config_write h 4 pci (4 * Z.of_nat k) (nth k backup 0)) (w_hw w)
      (filter (kept limit exclude) (seq i n))) w) w.
Proof.
  unfold PCI_CONFIG_BACKUP_ALL. revert i w.
  induction n as [|n IH]; intros i w Hn Hl; cbn [pci_restore_from seq];
    destruct (Z.ltb_spec (4 * Z.of_nat i) limit) as [Hi|Hi]; cbn [negb]; try lia.
  1,3: wp_prim; try change (i :: seq (S i) n) with (seq i (S n));
    rewrite ?filter_kept_none by done; by destruct w.
  rewrite filter_cons. apply wp_bind.
  destruct (pci_backup_excluded (4 * Z.of_nat i) exclude) eqn:E; cbn [negb].
  - wp_prim. rewrite decide_False by (unfold kept; intros [? ?]; congruence). apply IH; lia.
  - unfold pci_write_config_dword, pci_write_config. wp_prim.
    rewrite decide_True by done. cbn [foldl].
    eapply wp_mono; [apply IH; lia|]. intros _ w' ->. by destruct w.
Qed.

(** A function-level reset puts the whole standard header back: the dwords
    are written in ascending order, after the delay, with the values they had
    before the reset.  Nothing else is touched but by the reset itself and the
    delay. *)
Theorem pci_reset_restores (mdelay : Z -> cprog unit) backup pci exp (w : world) P :
  length backup = 64%nat ->
  wp (mdelay PCI_EXP_FLR_DELAY_MS) P (set_w_hw
    (pci_config_write (w_hw w) 2 pci (exp + PCI_EXP_DEVCTL)
      (Z.lor (u16 (pci_config_read (w_hw w) 2 pci (exp + PCI_EXP_DEVCTL))) PCI_EXP_DEVCTL_FLR))
    w) ->
  wp (pci_reset mdelay backup pci exp) (fun _ w' => exists w1, P tt w1 /\
    w' = set_w_hw (restored (w_hw w) pci (seq 0 16) (w_hw w1)) w1) w.
Proof.
  intros Hb Hd. unfold pci_reset, PCI_CONFIG_BACKUP_STANDARD. apply wp_bind.
  eapply wp_mono; [apply (wp_pci_backup_from 64 0); [done..|unfold PCI_CONFIG_BACKUP_ALL; lia]|].
  intros b w' (-> & Hlen & Hv). apply wp_bind, wp_gets, wp_bind, wp_modify, wp_bind.
  eapply wp_mono; [exact Hd|]. intros [] w1 HP.
  eapply wp_mono; [apply (wp_pci_restore_from 64 0); [done|unfold PCI_CONFIG_BACKUP_ALL; lia]|].
  intros _ w' ->. exists w1. split; [done|]. f_equal. unfold restored.
  replace (filter (kept 64 None) (seq 0 64)) with (seq 0 16) by (vm_compute; reflexivity).
  assert (G : Forall (fun k => nth k b 0 =
    u32 (pci_config_read (w_hw w) 4 pci (4 * Z.of_nat k))) (seq 0 16)).
  { apply Forall_forall. intros k Hk%in_seq. rewrite Hv, decide_True; [done| |lia].
    unfold kept. cbn [pci_backup_excluded]. split; [|split]; done || lia. }
  revert G. generalize (seq 0 16) (w_hw w1). intros ks. induction ks as [|k ks IH]; intros h G;
    [done|]. apply Forall_cons_1 in G as [G1 G2]. cbn [foldl]. rewrite G1. by apply IH.
Qed.
End pciextra.
