(* ===== verification/PciBusSpec.v ===== *)
(** * PciBusSpec

    The search for devices on the PCI bus: it finds the devices that are
    present, in order, and covers the buses behind the bridges it meets. *)

From S2P Require Import Prelude.
From S2P Require Import Memory.
From S2P Require Import World.
From S2P Require Import Object.
From S2P Require Import Pci.
From S2P Require Import Biosint.
From S2P Require Import PciBus.

Section pcibus_spec.
Context `{Platform}.

(** ** Presence *)

Definition config8 (h : hw) (b reg : Z) : Z := u8 (pci_config_read h 1 b reg).
Definition config32 (h : hw) (b reg : Z) : Z := u32 (pci_config_read h 4 b reg).

(** A device is present at [b]: there is an identification, and [b] is the
    first function of a device or belongs to a multifunction device. *)
Definition present (h : hw) (b : Z) : bool :=
  ((PCI_FUNC b =? 0) ||
   bool_of_Z (Z.land (config8 h (PCI_FIRST_FUNC b) PCI_HEADER_TYPE) PCI_HEADER_TYPE_MULTI)) &&
  negb ((config32 h b PCI_VENDOR_ID =? 0xffffffff) || (config32 h b PCI_VENDOR_ID =? 0)).

Definition device_at (h : hw) (b ioaddr_ membase_ : Z) : pci_device :=
  mkPci (pci_name b) membase_ ioaddr_ (Z.land (config32 h b PCI_VENDOR_ID) 0xffff)
    (Z.shiftr (config32 h b PCI_VENDOR_ID) 16) (Z.shiftr (config32 h b PCI_REVISION) 8)
    (config8 h b PCI_INTERRUPT_LINE) (config8 h b PCI_HEADER_TYPE) b None.

Definition is_bridge (h : hw) (b : Z) : bool :=
  Z.land (config8 h b PCI_HEADER_TYPE) PCI_HEADER_TYPE_MASK =? PCI_HEADER_TYPE_BRIDGE.

(** The end of the last bus behind a bridge. *)
Definition bridge_end (h : hw) (b : Z) : Z := 256 * (config8 h b PCI_SUBORDINATE + 1).

Lemma wp_pci_bar b reg Q w : (forall v, Q v w) -> wp (pci_bar b reg) Q w.
Proof.
  intros HQ. unfold pci_bar, pci_read_config_dword. repeat wp_prim.
  destruct (_ =? _); repeat wp_prim; [|apply HQ]. destruct (_ =? 0); cbn [negb]; wp_prim; apply HQ.
Qed.

Lemma wp_pci_read_bases_from n b reg io mb Q w :
  (forall io mb, Q (io, mb) w) -> wp (pci_read_bases_from n b reg io mb) Q w.
Proof.
  intros HQ. revert reg io mb. induction n as [|n IH]; intros reg io mb; cbn [pci_read_bases_from]; [wp_prim; auto|].
  destruct (_ <? _); [wp_prim; auto|]. wp_prim. apply wp_pci_bar. intros bar.
  destruct (bool_of_Z (Z.land bar PCI_BASE_ADDRESS_SPACE_IO)); apply IH.
Qed.

(** The state with a device structure written. *)
Definition with_pci (pci : Z) (d : pci_device) (w : world) : world :=
  set_w_dev (set_pci_devs (<[pci := d]> (pci_devs (w_dev w))) (w_dev w)) w.

Lemma wp_pci_read_config pci d Q w :
  pci_devs (w_dev w) !! pci = Some d ->
  (if present (w_hw w) (busdevfn d)
   then forall io mb, Q 0 (with_pci pci (device_at (w_hw w) (busdevfn d) io mb) w)
   else Q (- ENODEV) w) ->
  wp (pci_read_config pci) Q w.
Proof.
  intros Hd HQ. unfold pci_read_config, get_pci, pci_read_config_byte, pci_read_config_dword.
  unfold present, config8, config32 in HQ. wp_prim. eapply wp_deref; [exact Hd|]. wp_prim.
  destruct (PCI_FUNC (busdevfn d) =? 0); cbn [negb] in *; repeat wp_prim;
    rewrite ?orb_true_l, ?orb_false_l, ?andb_true_l in HQ.
  2: destruct (bool_of_Z _); rewrite ?andb_true_l in HQ; cbn [negb]; repeat wp_prim; [|exact HQ].
  all: cbn [negb]; repeat wp_prim; destruct (_ || _); cbn [negb] in HQ; repeat wp_prim; [exact HQ|].
  all: apply wp_pci_read_bases_from; intros io mb; unfold put_pci, upd_dev; repeat wp_prim; apply HQ.
Qed.

(** ** The search *)

(** The PCI BIOS (its presence check, INT 1A,B101) reports the number of the
    last bus in CL. *)
Definition pci_bios_reports (last : Z) : Prop :=
  forall v r h m, ax r = 0xb101 -> exists r',
    bios_handler v r h m = (r', h, m) /\ flag CF r' = false /\ lo8 (ecx r') = last.

Context (last : Z).
Hypothesis Hlast : 0 <= last < 256.
Hypothesis Hbios : pci_bios_reports last.

Lemma bus_start k : 0 <= k <= 256 -> PCI_BUSDEVFN 0 k 0 0 = 256 * k.
Proof.
  intros Hk. unfold PCI_BUSDEVFN. rewrite !Z.shiftl_0_l, !Z.lor_0_r, Z.lor_0_l, Z.shiftl_mul_pow2,
    u32_small by lia. lia.
Qed.

Lemma wp_pcibios_discover Q w : Q (0, 256 * (last + 1)) w -> wp pcibios_discover Q w.
Proof.
  intros HQ. unfold pcibios_discover, get_vector, copy_from_real, call_handler. repeat wp_prim.
  destruct (Hbios (segoff_of_bytes (load 4 (real_to_user 0 (0x1a * 4)) (w_mem w)))
    (put_flag CF true
       (mkRegs (Z.shiftr PCIBIOS_INSTALLATION_CHECK 16) 0 0 0 0 0 rm_ds rm_ds 0))
    (w_hw w) (w_mem w)) as (r & -> & Hcf & Hcl); [reflexivity|].
  repeat wp_prim. rewrite Hcf, Hcl, u16_small, !bus_start by lia. by destruct w.
Qed.

(** The addresses that a search covers: the current range, and after it what
    the BIOS reports. *)
Definition search_end (s : dev_state) : Z := Z.max (range_count s) (256 * (last + 1)).

Record range_ok (s : dev_state) : Prop := {
  ro_start : range_start s = 0;
  ro_count : 0 <= range_count s <= 65536 }.

Lemma wp_out_of_range b Q w :
  range_start (w_dev w) = 0 -> 0 <= b < 2 ^ 32 ->
  Q (range_count (w_dev w) <=? b) w -> wp (out_of_range b) Q w.
Proof.
  intros Hs Hb HQ. unfold out_of_range. repeat wp_prim. by rewrite Hs, Z.sub_0_r, u32_small by lia.
Qed.

(** Expanding the range to the buses behind a device. *)
Lemma wp_pci_expand b Q w :
  range_ok (w_dev w) -> 0 <= b < 65536 ->
  (forall s, range_ok s -> pci_devs s = pci_devs (w_dev w) ->
     range_count s = (if is_bridge (w_hw w) b
                      then Z.max (range_count (w_dev w)) (bridge_end (w_hw w) b)
                      else range_count (w_dev w)) ->
     Q tt (set_w_dev s w)) ->
  wp (pci_expand b) Q w.
Proof.
  intros [Hs Hc] Hb HQ. unfold pci_expand, pci_read_config_byte. repeat wp_prim.
  fold (config8 (w_hw w) b PCI_HEADER_TYPE). fold (is_bridge (w_hw w) b).
  assert (Hsame : set_w_dev (w_dev w) w = w) by by destruct w.
  destruct (is_bridge _ _); cbn [when]; repeat wp_prim.
  2: { rewrite <- Hsame. by apply HQ. }
  fold (config8 (w_hw w) b PCI_SUBORDINATE).
  assert (Hsub : 0 <= config8 (w_hw w) b PCI_SUBORDINATE < 256) by apply u8_range.
  replace (PCI_SEG b) with 0.
  2: { unfold PCI_SEG. rewrite Z.shiftr_div_pow2, Z.div_small by lia. reflexivity. }
  rewrite bus_start by lia. fold (bridge_end (w_hw w) b). rewrite Hs, Z.sub_0_r.
  unfold bridge_end in *. rewrite u32_small by lia.
  destruct (Z.ltb_spec (range_count (w_dev w)) (256 * (config8 (w_hw w) b PCI_SUBORDINATE + 1)));
    cbn [when]; unfold upd_dev; repeat wp_prim.
  - apply HQ; [constructor; cbn; lia|done|cbn; lia].
  - rewrite <- Hsame. apply HQ; [done..|lia].
Qed.

(** One round: the address is past the end, a device is found there, or the
    search goes on with the next address. *)
Lemma wp_pci_find_round pci b Q w :
  range_ok (w_dev w) -> 0 <= b < 2 ^ 32 ->
  (search_end (w_dev w) <= b -> forall s, Q (inr (- ENODEV, b)) (set_w_dev s w)) ->
  (b < search_end (w_dev w) -> present (w_hw w) b = false ->
     forall s, range_ok s -> search_end s = search_end (w_dev w) -> Q (inl (b + 1)) (set_w_dev s w)) ->
  (b < search_end (w_dev w) -> present (w_hw w) b = true ->
     forall s io mb, range_ok s -> pci_devs s !! pci = Some (device_at (w_hw w) b io mb) ->
       search_end s = (if is_bridge (w_hw w) b
                       then Z.max (search_end (w_dev w)) (bridge_end (w_hw w) b)
                       else search_end (w_dev w)) ->
       Q (inr (0, b)) (set_w_dev s w)) ->
  wp (pci_find_round pci b) Q w.
Proof.
  intros [Hs Hc] Hb Hend Hnext Hfound. unfold pci_find_round. wp_prim. apply wp_out_of_range; auto.
  apply wp_bind.
  assert (Hgo : forall s, range_ok s -> search_end s = search_end (w_dev w) ->
    b < search_end (w_dev w) ->
    wp (put_pci pci (pci_init b) ;; rc <- pci_read_config pci ;;
        if negb (rc =? 0) then
          let b := u32 (b + 1) in ret (if b =? 0 then inr (- ENODEV, b) else inl b)
        else pci_expand b ;; ret (inr (0, b))) Q (set_w_dev s w)).
  2: destruct (Z.leb_spec (range_count (w_dev w)) b) as [Hout|Hin].
  - intros s Hok Hse Hlt. unfold put_pci, upd_dev. repeat wp_prim.
    assert (Hsmall : search_end (w_dev w) <= 65536) by (unfold search_end; lia).
    eapply wp_pci_read_config; [cbn; lk|]. wsimpl.
    change (busdevfn (pci_init b)) with b.
    destruct (present (w_hw w) b) eqn:Hp.
    + intros io mb. change (negb (0 =? 0)) with false. cbn iota. unfold with_pci. wp_prim.
      apply wp_pci_expand; [by destruct Hok; constructor|lia|].
      intros s' Hok' Hdevs Hcount. wp_prim. apply Hfound with io mb; auto.
      * rewrite Hdevs. wsimpl. cbn. lk.
      * unfold search_end in *. rewrite Hcount. wsimpl. destruct (is_bridge _ _); cbn; lia.
    + change (negb (- ENODEV =? 0)) with true. cbn iota. wp_prim. rewrite u32_small by lia.
      rewrite (proj2 (Z.eqb_neq _ _)) by lia. apply Hnext; auto; by destruct Hok; constructor.
  - wp_prim. apply wp_pcibios_discover. unfold upd_dev. repeat wp_prim. wsimpl.
    rewrite (proj2 (Z.ltb_ge b 0)) by lia. apply wp_out_of_range; [done|lia|]. wp_prim.
    wsimpl. cbn [range_count set_range_count].
    destruct (Z.leb_spec (256 * (last + 1)) b).
    + wp_prim. apply Hend. unfold search_end. lia.
    + apply Hgo; unfold search_end; [constructor; cbn; lia|cbn; lia..].
  - wp_prim. replace w with (set_w_dev (w_dev w) w) by by destruct w.
    apply Hgo; unfold search_end; [done|done|lia].
Qed.

(** C30. The search for the next device on the bus.  It covers the current
    range of addresses and what the PCI BIOS reports, and with one round per
    address and one more it ends.  It returns the first address from [b] on at
    which a device is present, with the structure filled in, or -ENODEV when
    there is none; nothing but the structure and the range changes.  A bridge
    extends the addresses that later searches cover to the buses behind it. *)
Theorem pci_find_next_correct n pci b w :
  range_ok (w_dev w) -> 0 <= b < 2 ^ 32 -> (Z.to_nat (search_end (w_dev w) - b) < n)%nat ->
  wp (pci_find_next n pci b)
    (fun '(rc, b') w' => exists s, w' = set_w_dev s w /\
       ((rc = - ENODEV /\ forall x, b <= x < search_end (w_dev w) -> present (w_hw w) x = false) \/
        (rc = 0 /\ b <= b' < search_end (w_dev w) /\ present (w_hw w) b' = true /\
         (forall x, b <= x < b' -> present (w_hw w) x = false) /\
         range_ok s /\ (exists io mb, pci_devs s !! pci = Some (device_at (w_hw w) b' io mb)) /\
         search_end s = if is_bridge (w_hw w) b'
                        then Z.max (search_end (w_dev w)) (bridge_end (w_hw w) b')
                        else search_end (w_dev w)))) w.
Proof.
  intros Hok Hb Hn. unfold pci_find_next.
  eapply (wp_iterate (fun k b1 w1 => exists s, w1 = set_w_dev s w /\ range_ok s /\
    search_end s = search_end (w_dev w) /\ b <= b1 < 2 ^ 32 /\
    k = Z.to_nat (search_end (w_dev w) - b1) /\
    forall x, b <= x < b1 -> present (w_hw w) x = false)); [|exact Hn|].
  2: { exists (w_dev w). split_and!; [by destruct w|done|done|lia|lia|done|lia]. }
  intros k b1 w1 (s & -> & Hok1 & Hse & Hb1 & -> & Hnone).
  assert (Hsmall : search_end (w_dev w) <= 65536) by (destruct Hok; unfold search_end; lia).
  apply wp_pci_find_round; wsimpl; [exact Hok1|lia|rewrite Hse..].
  - intros Hend s'. exists s'. split; [done|]. left. split; [done|].
    intros x Hx. apply Hnone. lia.
  - intros Hlt Hp s' Hok' Hse'. eexists. split; [|exists s'; split_and!; [done..|lia|lia|done|]]; [lia|].
    intros x Hx. destruct (decide (x = b1)) as [->|]; [done|]. apply Hnone. lia.
  - intros Hlt Hp s' io mb Hok' Hdev Hse'. exists s'. split; [done|]. right.
    split_and!; auto; [lia|]. eauto.
Qed.
End pcibus_spec.
