(* ===== verification/Startup.v ===== *)
(** * Startup

    The device tree (core/device.c), initialisation, startup and shutdown
    (core/init.c), and the entry point (core/main.c).  The linker's tables are
    lists.  Console output is left out. *)

From S2P Require Import Prelude.
From S2P Require Import Memory.
From S2P Require Import World.
From S2P Require Import Object.
From S2P Require Import Malloc.
From S2P Require Import PciBus.

Section startup.
Context `{Platform}.

(** ** Root devices *)

Record root_device : Type := mkRoot {
  root_init_children : cprog unit;
  root_probe : cprog Z;
  root_remove : cprog unit }.

Context (ROOT_DEVICES : list root_device).

Definition get_root (i : nat) : cprog root_device := deref (fun _ => ROOT_DEVICES !! i).

Definition rootdev_probe (i : nat) : cprog Z :=
  rootdev <- get_root i ;; root_probe rootdev.
Definition rootdev_remove (i : nat) : cprog unit :=
  rootdev <- get_root i ;; root_remove rootdev.

(** Adding a device to a list that it is on corrupts the list. *)
Fixpoint probe_all (l : list nat) : cprog unit :=
  match l with
  | [] => ret tt
  | i :: l =>
      l' <- gets (fun w => devices (w_dev w)) ;;
      if bool_decide (i ∈ l') then undef else
      upd_dev (set_devices (i :: l')) ;;
      rootdev <- get_root i ;;
      root_init_children rootdev ;;
      rc <- rootdev_probe i ;;
      when (negb (rc =? 0)) (upd_dev (fun s => set_devices (list_del i (devices s)) s)) ;;
      probe_all l
  end.

Definition probe_devices : cprog unit := probe_all (seq 0 (length ROOT_DEVICES)).

Fixpoint remove_all (l : list nat) : cprog unit :=
  match l with
  | [] => ret tt
  | i :: l =>
      rootdev_remove i ;;
      upd_dev (fun s => set_devices (list_del i (devices s)) s) ;;
      remove_all l
  end.

Definition remove_devices (booting : Z) : cprog unit :=
  keep <- gets (fun w => device_keep_count (w_bios w)) ;;
  if negb (keep =? 0) then ret tt else
  l <- gets (fun w => devices (w_dev w)) ;;
  remove_all l.

(** ** Startup and shutdown *)

Record startup_fn : Type := mkStartup {
  startup_ : option (cprog unit);
  shutdown_ : option (Z -> cprog unit) }.

Definition startup_devices : startup_fn :=
  mkStartup (Some probe_devices) (Some remove_devices).

Context (INIT_FNS : list (cprog unit)) (STARTUP_FNS : list startup_fn).

Fixpoint run_all (l : list (cprog unit)) : cprog unit :=
  match l with
  | [] => ret tt
  | f :: l => f ;; run_all l
  end.

Definition initialise : cprog unit := run_all INIT_FNS.

Definition startup : cprog unit :=
  s <- gets (fun w => started (w_dev w)) ;;
  if s then ret tt else
  run_all (omap startup_ STARTUP_FNS) ;;
  upd_dev (set_started true).

Definition shutdown (flags : Z) : cprog unit :=
  s <- gets (fun w => started (w_dev w)) ;;
  if negb s then ret tt else
  (* Call registered shutdown functions (in reverse order) *)
  run_all (omap (fun f => (fun shutdown => shutdown flags) <$> shutdown_ f) (rev STARTUP_FNS)) ;;
  upd_dev (set_started false).

Definition shutdown_exit : cprog unit := shutdown 0.

(** ** The entry point, given the main flow *)

Definition main (ipxe : cprog Z) : cprog Z :=
  (* Perform one-time-only initialisation (e.g. heap) *)
  initialise ;;
  startup ;;
  (* Attempt to boot *)
  rc <- ipxe ;;
  shutdown_exit ;;
  ret rc.

(** The program, when its main flow is in two parts. *)
Lemma wp_main {A} (m : cprog A) k Q w :
  wp (initialise ;; startup ;; m)
    (fun a w => wp (k a) (fun rc w => wp (shutdown_exit ;; ret rc) Q w) w) w ->
  wp (main (bind m k)) Q w.
Proof.
  intros Hm. apply wp_bind. apply wp_bind_inv in Hm. eapply wp_mono; [exact Hm|].
  intros ? w1 H1. apply wp_bind. apply wp_bind_inv in H1. eapply wp_mono; [exact H1|].
  intros ? w2 H2. apply wp_bind, wp_bind. exact H2.
Qed.

(** When the removal of devices is inhibited, shutting down only clears the
    flag. *)
Lemma wp_shutdown_kept flags Q w :
  STARTUP_FNS = [startup_devices] -> started (w_dev w) = true ->
  device_keep_count (w_bios w) <> 0 ->
  Q tt (set_w_dev (set_started false (w_dev w)) w) ->
  wp (shutdown flags) Q w.
Proof.
  intros Hfns Hs Hk HQ. unfold shutdown. do 2 wp_prim. rewrite Hs. cbn [negb].
  rewrite Hfns. cbn [rev app omap list_omap startup_devices shutdown_ fmap option_fmap option_map
    run_all]. unfold remove_devices.
  repeat wp_prim. rewrite (proj2 (Z.eqb_neq _ _) Hk). cbn [negb]. repeat wp_prim.
  unfold upd_dev. wp_prim. exact HQ.
Qed.

(** The program cannot be started again while a drive is hooked: the
    shutdown then keeps the devices on the list of devices, and the next
    startup adds them to it once more. *)
Theorem restart_corrupts_devices flags w :
  STARTUP_FNS = [startup_devices] -> started (w_dev w) = true ->
  device_keep_count (w_bios w) <> 0 -> 0%nat ∈ devices (w_dev w) -> ROOT_DEVICES <> [] ->
  (shutdown flags ;; startup) w = Undef.
Proof.
  intros Hfns Hs Hk Hin Hne. unfold bind.
  assert (E : shutdown flags w = Ret tt (set_w_dev (set_started false (w_dev w)) w)).
  { pose proof (wp_shutdown_kept flags
      (fun _ w' => w' = set_w_dev (set_started false (w_dev w)) w) w Hfns Hs Hk eq_refl) as E.
    unfold wp in E. destruct (shutdown flags w) as [[]| |]; by subst. }
  rewrite E. unfold startup, bind, gets. wsimpl. cbn [started set_started].
  rewrite Hfns. cbn [omap list_omap startup_devices startup_ run_all].
  unfold probe_devices. destruct ROOT_DEVICES as [|r l]; [done|].
  cbn [length seq probe_all]. unfold bind, gets. wsimpl. cbn [devices set_started].
  by rewrite bool_decide_true.
Qed.
End startup.
