(* ===== verification/Acpi.v ===== *)
(** * Acpi

    core/acpi.c and arch/x86/interface/pcbios/rsdp.c: finding the tables that
    the BIOS provides, extracting values from them, checksums, and installing
    tables for a booted operating system.

    A table is named by its physical address; 0 is UNULL. *)

From stdpp Require Import strings.
From S2P Require Import Prelude.
From S2P Require Import Memory.
From S2P Require Import World.
From S2P Require Import Biosint.

(** ** Checksums *)

(** The sum of the bytes of a structure, as an 8-bit integer. *)
Definition sum_bytes (l : list Z) : Z := fold_left (fun s b => u8 (s + b)) l 0.

(** Offsets in an ACPI table header, and its size. *)
Definition acpi_length : Z := 4.
Definition acpi_checksum_byte : Z := 9.
Definition acpi_oem_id : Z := 10.
Definition acpi_oem_table_id : Z := 16.
Definition sizeof_acpi_header : Z := 36.

Definition acpi_checksum (table : Z) (m : mem) : Z :=
  sum_bytes (load (Z.to_nat (ld32 (table + acpi_length) m)) table m).

Definition acpi_fix_checksum (table : Z) (m : mem) : mem :=
  st8 (table + acpi_checksum_byte)
    (u8 (ld8 (table + acpi_checksum_byte) m - acpi_checksum table m)) m.

(** ** Finding tables *)

Definition ACPI_SIGNATURE (s : cstring) : Z := le_combine s.
Definition RSDP_SIGNATURE : cstring := cs "RSD PTR ".
Definition RSDT_SIGNATURE : Z := ACPI_SIGNATURE (cs "RSDT").
Definition FADT_SIGNATURE : Z := ACPI_SIGNATURE (cs "FACP").
Definition SSDT_SIGNATURE : Z := ACPI_SIGNATURE (cs "SSDT").
Definition S5_SIGNATURE : Z := ACPI_SIGNATURE (cs "_S5_").

Definition RSDP_EBDA_END_SEG : Z := 0xa000.
Definition RSDP_BIOS_START : Z := 0xe0000.
Definition RSDP_BIOS_LEN : Z := 0x20000.
Definition RSDP_STRIDE : Z := 16.
Definition sizeof_acpi_rsdp : Z := 20.
Definition BDA_EBDA : Z := 0x0e.

(** The loop over the range, with [n] strides left. *)
Fixpoint rsdp_search (n : nat) (start len offset : Z) (m : mem) : Z :=
  match n with
  | O => 0
  | S n =>
      if negb (offset + sizeof_acpi_rsdp <? len) then 0 else
      let rsdp := load (Z.to_nat sizeof_acpi_rsdp) (start + offset) m in
      (* Check signature and checksum *)
      if negb (bool_decide (take 8 rsdp = RSDP_SIGNATURE))
      then rsdp_search n start len (offset + RSDP_STRIDE) m
      else if negb (sum_bytes rsdp =? 0)
      then rsdp_search n start len (offset + RSDP_STRIDE) m
      else ld32 (start + offset + 16) m
  end.

Definition rsdp_find_rsdt_range (start len : Z) (m : mem) : Z :=
  rsdp_search (Z.to_nat (len / RSDP_STRIDE)) start len 0 m.

(** Locate the RSDT, given the static variable [rsdt]; the value returned is
    also what the variable is left with. *)
Definition rsdp_find_rsdt (rsdt : Z) (m : mem) : Z :=
  (* Return existing RSDT if already found *)
  if negb (rsdt =? 0) then rsdt else
  (* Search EBDA *)
  let ebda_seg := ld16 (real_to_user 0x40 BDA_EBDA) m in
  let rsdt :=
    if ebda_seg <? RSDP_EBDA_END_SEG then
      rsdp_find_rsdt_range (real_to_user ebda_seg 0)
        ((RSDP_EBDA_END_SEG - ebda_seg) * 16) m
    else 0 in
  if negb (rsdt =? 0) then rsdt else
  (* Search fixed BIOS area *)
  rsdp_find_rsdt_range RSDP_BIOS_START RSDP_BIOS_LEN m.

(** Entry [i] of the RSDT. *)
Definition rsdt_entry (rsdt i : Z) (m : mem) : Z :=
  ld32 (rsdt + sizeof_acpi_header + 4 * i) m.

(** The search through the entries, [n] of them from entry [i] on. *)
Fixpoint rsdt_search (n : nat) (rsdt i signature index : Z) (m : mem) : Z :=
  match n with
  | O => 0
  | S n =>
      let table := rsdt_entry rsdt i m in
      (* Check table signature *)
      if negb (ld32 table m =? signature)
      then rsdt_search n rsdt (i + 1) signature index m
      (* Check index *)
      else if negb (index =? 0)
      then rsdt_search n rsdt (i + 1) signature (index - 1) m
      (* Check table integrity *)
      else if negb (acpi_checksum table m =? 0) then 0
      else table
  end.

Definition acpi_find_via_rsdt (rsdt signature index : Z) (m : mem) : Z :=
  if rsdt =? 0 then 0 else
  (* Read RSDT header *)
  if negb (ld32 rsdt m =? RSDT_SIGNATURE) then 0 else
  let len := ld32 (rsdt + acpi_length) m in
  if len <? sizeof_acpi_header then 0 else
  (* Calculate number of entries *)
  let count := (len - sizeof_acpi_header) / 4 in
  (* Search through entries *)
  rsdt_search (Z.to_nat count) rsdt 0 signature index m.

Definition acpi_table (rsdt signature index : Z) (m : mem) : Z :=
  acpi_find_via_rsdt (rsdp_find_rsdt rsdt m) signature index m.

(** ** Extracting values *)

Section extract.
(** What an extraction method finds in a table of [len] bytes at [offset]. *)
Context {D : Type} (extract : Z -> Z -> Z -> mem -> option D).

Fixpoint zsdt_search (n : nat) (zsdt len signature offset : Z) (m : mem)
    : option D :=
  match n with
  | O => None
  | S n =>
      if negb (u32 (offset + 4) <? len) then None else
      (* Check signature *)
      if negb (ld32 (zsdt + offset) m =? signature)
      then zsdt_search n zsdt len signature (offset + 1) m
      else
        (* Attempt to extract data *)
        match extract zsdt len offset m with
        | Some d => Some d
        | None => zsdt_search n zsdt len signature (offset + 1) m
        end
  end.

Definition acpi_zsdt (zsdt signature : Z) (m : mem) : option D :=
  let len := ld32 (zsdt + acpi_length) m in
  zsdt_search (Z.to_nat len) zsdt len signature sizeof_acpi_header m.

(** The search through the SSDTs from number [i] on, with the static variable
    [rsdt] as the previous call left it; [None] if the fuel [n] is not
    enough. *)
Fixpoint ssdt_search (n : nat) (rsdt signature i : Z) (m : mem)
    : option (option D) :=
  match n with
  | O => None
  | S n =>
      let ssdt := acpi_table rsdt SSDT_SIGNATURE i m in
      let rsdt := rsdp_find_rsdt rsdt m in
      if ssdt =? 0 then Some None else
      match acpi_zsdt ssdt signature m with
      | Some d => Some (Some d)
      | None => ssdt_search n rsdt signature (i + 1) m
      end
  end.

Definition acpi_extract (n : nat) (rsdt signature : Z) (m : mem)
    : option (option D) :=
  (* Try DSDT first *)
  let fadt := acpi_table rsdt FADT_SIGNATURE 0 m in
  let rsdt := rsdp_find_rsdt rsdt m in
  let found := if fadt =? 0 then None
               else acpi_zsdt (ld32 (fadt + 40) m) signature m in
  match found with
  | Some d => Some (Some d)
  | None => ssdt_search n rsdt signature 0 m
  end.
End extract.

(** The sleep types of a _Sx object (acpipwr.c). *)
Definition acpi_extract_sx (zsdt len offset : Z) (m : mem) : option Z :=
  (* Skip signature and package header *)
  let offset := offset + (4 + 3) in
  (* Sanity check *)
  if len <? offset + 4 then None else
  let bytes := load 4 (zsdt + offset) m in
  let byte n := nth n bytes 0 in
  let i := if bool_of_Z (Z.land (byte 0%nat) 0x08) then 1%nat else 0%nat in
  let j := if bool_of_Z (Z.land (byte (S i)) 0x08) then S (S i) else S i in
  Some (Z.lor (byte i) (Z.shiftl (byte j) 8)).

(** ** Installing tables *)

Section install.
Context `{Platform}.

(** [models] are the installation methods of the table models. *)
Fixpoint acpi_install (models : list ((Z -> cprog Z) -> cprog Z))
    (install : Z -> cprog Z) : cprog Z :=
  match models with
  | [] => ret 0
  | model :: models =>
      rc <- model install ;;
      if negb (rc =? 0) then ret rc else acpi_install models install
  end.
End install.
