(* ===== verification/AcpiSpec.v ===== *)
(** * AcpiSpec

    Checksums of ACPI tables, and the search for the tables of the BIOS. *)

From S2P Require Import Prelude.
From S2P Require Import Memory.
From S2P Require Import World.
From S2P Require Import Biosint.
From S2P Require Import Acpi.

(** ** Checksums *)

Lemma sum_bytes_app l k : sum_bytes (l ++ k) = u8 (sum_bytes l + sum_bytes k).
Proof.
  unfold sum_bytes. rewrite fold_left_app.
  assert (I : forall k a, fold_left (fun s b => u8 (s + b)) k (u8 a)
                          = u8 (a + fold_left (fun s b => u8 (s + b)) k 0)).
  { clear. induction k as [|b k IH]; intros a; cbn [fold_left]; [by rewrite Z.add_0_r|].
    replace (u8 (u8 a + b)) with (u8 (a + b)) by (unfold u8; dlia).
    rewrite (IH (a + b)), (IH (0 + b)). unfold u8. dlia. }
  assert (E : fold_left (fun s b => u8 (s + b)) l 0 = u8 (fold_left (fun s b => u8 (s + b)) l 0)).
  { symmetry. apply u8_small. destruct l as [|b l] using rev_ind; [cbn; lia|].
    rewrite fold_left_app. apply u8_range. }
  rewrite E at 1. rewrite I. reflexivity.
Qed.

Lemma sum_bytes_range l : 0 <= sum_bytes l < 256.
Proof.
  rewrite <- (app_nil_r l), sum_bytes_app. apply u8_range.
Qed.

Lemma sum_bytes_one b : sum_bytes [b] = u8 b.
Proof. reflexivity. Qed.

Lemma length_field_st8 table m v :
  ld32 (table + 4) (st8 (table + 9) v m) = ld32 (table + 4) m.
Proof.
  unfold ld32, st8. rewrite load_store_disjoint; [done|].
  rewrite length_le_split. unfold disjoint. lia.
Qed.

(** Fixing the checksum of a table makes its bytes sum to zero, and changes
    at most its checksum byte. *)
Lemma fix_checksum_zero table m :
  byte_mem m -> 10 <= ld32 (table + 4) m ->
  acpi_checksum table (acpi_fix_checksum table m) = 0 /\
  mem_eq_except (table + 9) 1 m (acpi_fix_checksum table m).
Proof.
  unfold acpi_fix_checksum, acpi_checksum, acpi_checksum_byte, acpi_length.
  intros Hm Hlen. split.
  2: { apply mem_eq_except_store; [lia|]. rewrite length_le_split. lia. }
  rewrite length_field_st8. set (n := Z.to_nat (ld32 (table + 4) m)).
  assert (Hn : n = (9 + (1 + (n - 10)))%nat) by lia.
  set (c := u8 _). unfold st8.
  rewrite (load_store_within n table 9 (le_split 1 c)) by (rewrite length_le_split; lia).
  change (9 + length (le_split 1 c))%nat with 10%nat. rewrite take_load, drop_load by lia.
  assert (E : load n table m = load 9 table m ++ [ld8 (table + 9) m] ++
                               load (n - 10) (table + Z.of_nat 10) m).
  { rewrite Hn at 1. rewrite load_app, (load_app 1 (n - 10)). do 2 f_equal.
    - unfold load, ld8. cbn [map seq].
      by replace (table + Z.of_nat 9 + Z.of_nat 0) with (table + 9) by lia.
    - f_equal. lia. }
  change (le_split 1 c) with [c mod 256]. unfold c. rewrite E.
  rewrite !sum_bytes_app, !sum_bytes_one. unfold u8. dlia.
Qed.

(** ** Finding tables *)

(** The tables that an RSDT lists, and those of a signature among them. *)
Definition rsdt_entries (rsdt : Z) (m : mem) : list Z :=
  (fun i => rsdt_entry rsdt (Z.of_nat i) m) <$>
    seq 0 (Z.to_nat ((ld32 (rsdt + acpi_length) m - sizeof_acpi_header) / 4)).
Definition tables_signed (signature : Z) (tables : list Z) (m : mem) : list Z :=
  filter (fun t => ld32 t m = signature) tables.

(** A table with a good checksum, or UNULL. *)
Definition checked (table : option Z) (m : mem) : Z :=
  match table with
  | Some t => if acpi_checksum t m =? 0 then t else 0
  | None => 0
  end.

Lemma rsdt_search_spec n rsdt i signature index m :
  0 <= index ->
  rsdt_search n rsdt (Z.of_nat i) signature index m =
  checked (tables_signed signature
    ((fun i => rsdt_entry rsdt (Z.of_nat i) m) <$> seq i n) m !! Z.to_nat index) m.
Proof.
  revert i index. induction n as [|n IH]; intros i index Hi; [done|].
  cbn [rsdt_search seq fmap list_fmap]. unfold tables_signed in *.
  replace (Z.of_nat i + 1) with (Z.of_nat (S i)) by lia.
  destruct (Z.eqb_spec (ld32 (rsdt_entry rsdt (Z.of_nat i) m) m) signature) as [E|E]; cbn [negb].
  - rewrite filter_cons_True by exact E.
    destruct (Z.eqb_spec index 0) as [->|Hne]; cbn [negb].
    + change (Z.to_nat 0) with O. cbn [lookup list_lookup checked].
      by destruct (acpi_checksum _ m =? 0).
    + rewrite IH by lia. by replace (Z.to_nat index) with (S (Z.to_nat (index - 1))) by lia.
  - rewrite filter_cons_False by exact E. by apply IH.
Qed.

(** C28. The table that is found for a signature and an index is the one of
    that index among the tables of the RSDT with that signature, provided its
    bytes sum to zero; if there are not as many tables, or if its checksum is
    bad, none is found.  An RSDT without its signature or shorter than its
    header lists no tables. *)
Theorem acpi_find_via_rsdt_correct rsdt signature index m :
  0 <= index ->
  acpi_find_via_rsdt rsdt signature index m =
  if negb (rsdt =? 0) && (ld32 rsdt m =? RSDT_SIGNATURE) &&
     (sizeof_acpi_header <=? ld32 (rsdt + acpi_length) m)
  then checked (tables_signed signature (rsdt_entries rsdt m) m !! Z.to_nat index) m
  else 0.
Proof.
  intros Hi. unfold acpi_find_via_rsdt.
  destruct (rsdt =? 0), (ld32 rsdt m =? RSDT_SIGNATURE); try done. cbn [negb andb].
  rewrite Z.leb_antisym.
  destruct (ld32 (rsdt + acpi_length) m <? sizeof_acpi_header); [done|].
  exact (rsdt_search_spec _ rsdt 0 signature index m Hi).
Qed.

Lemma acpi_find_beyond rsdt signature index m :
  Z.of_nat (length (rsdt_entries rsdt m)) <= index ->
  acpi_find_via_rsdt rsdt signature index m = 0.
Proof.
  intros Hi. unfold acpi_find_via_rsdt. repeat case_match; try done.
  rewrite (rsdt_search_spec _ rsdt 0) by lia.
  rewrite lookup_ge_None_2; [done|]. unfold tables_signed.
  etrans; [apply length_filter|]. fold (rsdt_entries rsdt m). lia.
Qed.

#[local] Opaque rsdp_find_rsdt_range.

(** Once the RSDT is found it is found again. *)
Lemma rsdp_find_rsdt_again rsdt m :
  rsdp_find_rsdt (rsdp_find_rsdt rsdt m) m = rsdp_find_rsdt rsdt m.
Proof.
  unfold rsdp_find_rsdt at 1. destruct (Z.eqb_spec (rsdp_find_rsdt rsdt m) 0) as [E|]; [|done].
  cbn [negb]. rewrite E. unfold rsdp_find_rsdt in E. destruct (Z.eqb_spec rsdt 0) as [->|]; [|done].
  exact E.
Qed.

Lemma ssdt_search_ends {D} (extract : Z -> Z -> Z -> mem -> option D) rsdt signature m k i :
  Z.of_nat (length (rsdt_entries (rsdp_find_rsdt rsdt m) m)) <= i + Z.of_nat k ->
  exists r, forall n, (k < n)%nat -> ssdt_search extract n rsdt signature i m = Some r.
Proof.
  revert rsdt i. induction k as [|k IH]; intros rsdt i Hk.
  - exists None. intros [|n] Hn; [lia|]. cbn [ssdt_search].
    unfold acpi_table. by rewrite acpi_find_beyond by lia.
  - destruct (IH (rsdp_find_rsdt rsdt m) (i + 1)) as [r Hr].
    { rewrite rsdp_find_rsdt_again. lia. }
    exists (if acpi_table rsdt SSDT_SIGNATURE i m =? 0 then None
            else match acpi_zsdt extract (acpi_table rsdt SSDT_SIGNATURE i m) signature m with
                 | Some d => Some d | None => r end).
    intros [|n] Hn; [lia|]. cbn [ssdt_search].
    destruct (_ =? 0); [done|]. destruct acpi_zsdt; [done|]. apply Hr. lia.
Qed.

(** C29. The search for a value ends: the loop over the SSDTs, which has no
    bound of its own, finds its answer after at most one round more than the
    RSDT has entries, whatever memory holds and whether or not the RSDT has
    been found before. *)
Theorem acpi_extract_terminates {D} (extract : Z -> Z -> Z -> mem -> option D)
    rsdt signature m :
  exists r, forall n, (length (rsdt_entries (rsdp_find_rsdt rsdt m) m) < n)%nat ->
    acpi_extract extract n rsdt signature m = Some r.
Proof.
  unfold acpi_extract.
  destruct (if acpi_table rsdt FADT_SIGNATURE 0 m =? 0 then _ else _) as [d|];
    [by exists (Some d)|].
  apply ssdt_search_ends. rewrite rsdp_find_rsdt_again. lia.
Qed.
