(* ===== verification/Timer.v ===== *)
(** * Timer

    Timers: the generic layer (core/timer.c), the BIOS timer and the 8254
    interval timer behind it (arch/x86/interface/pcbios/bios_timer.c,
    arch/x86/core/pit8254.c), the ACPI power management timer
    (arch/x86/interface/pcbios/acpi_timer.c) and the time stamp counter
    (arch/x86/core/rdtsc_timer.c, arch/x86/core/cpuid.c).  The rest of the
    development uses time through [hw_ticks] and [hw_advance] of the platform;
    here is what reads it. *)

From stdpp Require Import strings.
From S2P Require Import Prelude.
From S2P Require Import Memory.
From S2P Require Import World.
From S2P Require Import Biosint.
From S2P Require Import Acpi.

Definition TICKS_PER_SEC : Z := 1024.
Definition BDA_TICKS : Z := 0x006c.
Definition BDA_MIDNIGHT : Z := 0x0070.
Definition BIOS_TICKS_PER_DAY : Z := 0x1800b0.
Definition TICKS_PER_BIOS_TICK : Z := (TICKS_PER_SEC * 60 * 60 * 24) / BIOS_TICKS_PER_DAY.

Definition PIT8254_HZ : Z := 1193182.
Definition PIT8254_CH_SPKR : Z := 2.
Definition PIT8254_DATA (channel : Z) : Z := 0x40 + channel.
Definition PIT8254_CMD : Z := 0x43.
Definition PIT8254_CMD_CHANNEL (channel : Z) : Z := Z.shiftl channel 6.
Definition PIT8254_CMD_ACCESS_LOHI : Z := 0x30.
Definition PIT8254_CMD_OP_TERMINAL : Z := 0x00.
Definition PIT8254_CMD_BINARY : Z := 0x00.
Definition PIT8254_SPKR : Z := 0x61.
Definition PIT8254_SPKR_GATE : Z := 0x01.
Definition PIT8254_SPKR_ENABLE : Z := 0x02.
Definition PIT8254_SPKR_OUT : Z := 0x20.

Definition ACPI_TIMER_HZ : Z := 3579545.
Definition ACPI_TIMER_MASK : Z := 0x00ffffff.
Definition ACPI_PM_TMR : Z := 0.
Definition fadt_pm_tmr_blk : Z := 76.

Definition CPUID_EXTENDED : Z := 0x80000000.
Definition CPUID_AMD_CHECK_MASK : Z := 0xffff0000.
Definition CPUID_APM : Z := 0x80000007.
Definition CPUID_APM_EDX_TSC_INVARIANT : Z := 0x00000100.
Definition TSC_CALIBRATE_US : Z := 1024.
Definition TSC_SCALED_HZ : Z := 32.

(** The machine as timers see it: ports, the time stamp counter, the
    interrupts that come in while they are enabled, and the CPUID
    instruction. *)
Class Ports : Type := {
  io : Type;
  port_in : Z -> Z -> io -> Z * io;
  port_out : Z -> Z -> Z -> io -> io;
  tsc : io -> Z * io;
  irq : io -> mem -> io * mem;
  cpuid_flag : bool;
  (** EAX and EDX of a function *)
  cpuid : Z -> Z * Z
}.

Section timer.
Context `{!Ports}.

(** The static variables of the timers, memory and the machine. *)
Record timer_state : Type := mkTimerState {
  t_io : io;
  t_mem : mem;
  t_rsdt : Z;
  (** [bios_currticks] *)
  t_bios_offset : Z;
  (** [acpi_currticks] *)
  t_acpi_offset : Z;
  t_acpi_prev : Z;
  pm_tmr : Z;
  tsc_per_us : Z;
  tsc_scale : Z;
  ticks_per_scaled_tsc : Z
}.

Definition set_t_io v s := mkTimerState v (t_mem s) (t_rsdt s) (t_bios_offset s)
  (t_acpi_offset s) (t_acpi_prev s) (pm_tmr s) (tsc_per_us s) (tsc_scale s) (ticks_per_scaled_tsc s).
Definition set_t_mem v s := mkTimerState (t_io s) v (t_rsdt s) (t_bios_offset s)
  (t_acpi_offset s) (t_acpi_prev s) (pm_tmr s) (tsc_per_us s) (tsc_scale s) (ticks_per_scaled_tsc s).
Definition set_t_rsdt v s := mkTimerState (t_io s) (t_mem s) v (t_bios_offset s)
  (t_acpi_offset s) (t_acpi_prev s) (pm_tmr s) (tsc_per_us s) (tsc_scale s) (ticks_per_scaled_tsc s).
Definition set_t_bios_offset v s := mkTimerState (t_io s) (t_mem s) (t_rsdt s) v
  (t_acpi_offset s) (t_acpi_prev s) (pm_tmr s) (tsc_per_us s) (tsc_scale s) (ticks_per_scaled_tsc s).
Definition set_t_acpi offset prev s := mkTimerState (t_io s) (t_mem s) (t_rsdt s) (t_bios_offset s)
  offset prev (pm_tmr s) (tsc_per_us s) (tsc_scale s) (ticks_per_scaled_tsc s).
Definition set_pm_tmr v s := mkTimerState (t_io s) (t_mem s) (t_rsdt s) (t_bios_offset s)
  (t_acpi_offset s) (t_acpi_prev s) v (tsc_per_us s) (tsc_scale s) (ticks_per_scaled_tsc s).
Definition set_tsc per_us scale ticks s := mkTimerState (t_io s) (t_mem s) (t_rsdt s)
  (t_bios_offset s) (t_acpi_offset s) (t_acpi_prev s) (pm_tmr s) per_us scale ticks.

Notation tprog := (prog timer_state).

(** [fuel]: the iterations a polling loop may make before it counts as
    spinning. *)
Context (fuel : nat).

Definition inb (port : Z) : tprog Z := fun s =>
  let '(v, h) := port_in 1 port (t_io s) in Ret (u8 v) (set_t_io h s).
Definition inl_ (port : Z) : tprog Z := fun s =>
  let '(v, h) := port_in 4 port (t_io s) in Ret (u32 v) (set_t_io h s).
Definition outb (v port : Z) : tprog unit :=
  modify (fun s => set_t_io (port_out 1 v port (t_io s)) s).

(** ** core/timer.c *)

Record timer : Type := mkTimer {
  timer_name : cstring;
  timer_probe_op : option (tprog Z);
  timer_currticks : tprog Z;
  timer_udelay : Z -> tprog unit
}.

(** [timer] is the selected timer, [None] before there is one. *)
Definition currticks (timer : option timer) : tprog Z :=
  match timer with
  | None => ret 0
  | Some timer => timer_currticks timer
  end.

Definition udelay (timer : option timer) (usecs : Z) : tprog unit :=
  match timer with
  | None => ret tt
  | Some timer => timer_udelay timer usecs
  end.

Fixpoint mdelay_loop (timer : option timer) (msecs : nat) : tprog unit :=
  match msecs with
  | O => ret tt
  | S msecs => udelay timer 1000 ;; mdelay_loop timer msecs
  end.

Definition mdelay (timer : option timer) (msecs : Z) : tprog unit :=
  match timer with
  | None => ret tt
  | Some _ => mdelay_loop timer (Z.to_nat msecs)
  end.

(** The selected timer; without a working one it loops forever. *)
Fixpoint timer_probe (timers : list timer) : tprog timer :=
  match timers with
  | [] => spin
  | timer :: timers =>
      match timer_probe_op timer with
      | None => ret timer
      | Some probe =>
          rc <- probe ;;
          if rc =? 0 then ret timer else timer_probe timers
      end
  end.

(** ** arch/x86/core/pit8254.c *)

Definition pit8254_speaker_delay (ticks : Z) : tprog unit :=
  (* Disable speaker, set speaker channel gate input high *)
  spkr <- inb PIT8254_SPKR ;;
  let spkr := u8 (Z.land spkr (not32 PIT8254_SPKR_ENABLE)) in
  let spkr := Z.lor spkr PIT8254_SPKR_GATE in
  outb spkr PIT8254_SPKR ;;
  (* Program speaker channel to "interrupt" on terminal count *)
  let cmd := Z.lor (Z.lor (Z.lor (PIT8254_CMD_CHANNEL PIT8254_CH_SPKR) PIT8254_CMD_ACCESS_LOHI)
                      PIT8254_CMD_OP_TERMINAL) PIT8254_CMD_BINARY in
  let low := Z.land (Z.shiftr ticks 0) 0xff in
  let high := Z.land (Z.shiftr ticks 8) 0xff in
  outb cmd PIT8254_CMD ;;
  outb low (PIT8254_DATA PIT8254_CH_SPKR) ;;
  outb high (PIT8254_DATA PIT8254_CH_SPKR) ;;
  (* Wait for channel to "interrupt" *)
  iterate fuel (fun _ : unit =>
    spkr <- inb PIT8254_SPKR ;;
    ret (if bool_of_Z (Z.land spkr PIT8254_SPKR_OUT) then inr tt else inl tt)) tt.

Definition pit8254_udelay (usecs : Z) : tprog unit :=
  pit8254_speaker_delay (u32 (usecs * PIT8254_HZ) / 1000000).

(** ** bios_timer.c *)

Definition bios_currticks : tprog Z :=
  (* Re-enable interrupts so that the timer interrupt can occur *)
  modify (fun s => let '(h, m) := irq (t_io s) (t_mem s) in set_t_mem m (set_t_io h s)) ;;
  (* Read current BIOS time of day *)
  ticks <- gets (fun s => ld32 (real_to_user BDA_SEG BDA_TICKS) (t_mem s)) ;;
  midnight <- gets (fun s => ld8 (real_to_user BDA_SEG BDA_MIDNIGHT) (t_mem s)) ;;
  (* Handle midnight rollover *)
  when (bool_of_Z midnight)
    (modify (fun s => set_t_mem (st8 (real_to_user BDA_SEG BDA_MIDNIGHT) 0 (t_mem s)) s) ;;
     modify (fun s => set_t_bios_offset (u32 (t_bios_offset s + BIOS_TICKS_PER_DAY)) s)) ;;
  offset <- gets t_bios_offset ;;
  let ticks := u32 (ticks + offset) in
  (* Convert to timer ticks *)
  ret (u32 (ticks * TICKS_PER_BIOS_TICK)).

Definition bios_timer : timer := mkTimer (cs "bios") None bios_currticks pit8254_udelay.

(** ** acpi_timer.c *)

Definition acpi_currticks : tprog Z :=
  pm_tmr <- gets pm_tmr ;;
  now <- inl_ pm_tmr ;;
  let now := Z.land now ACPI_TIMER_MASK in
  prev <- gets t_acpi_prev ;;
  offset <- gets t_acpi_offset ;;
  (* Account for wraparound *)
  let offset :=
    if now <? prev
    then u32 (offset + (ACPI_TIMER_MASK + 1) / (ACPI_TIMER_HZ / TICKS_PER_SEC))
    else offset in
  modify (set_t_acpi offset now) ;;
  (* Convert to timer ticks *)
  ret (u32 (offset + now / (ACPI_TIMER_HZ / TICKS_PER_SEC))).

Definition acpi_udelay (usecs : Z) : tprog unit :=
  pm_tmr <- gets pm_tmr ;;
  start <- inl_ pm_tmr ;;
  let threshold := u32 (usecs * ACPI_TIMER_HZ) / 1000000 in
  iterate fuel (fun _ : unit =>
    now <- inl_ pm_tmr ;;
    let elapsed := Z.land (u32 (now - start)) ACPI_TIMER_MASK in
    ret (if elapsed <? threshold then inl tt else inr tt)) tt.

Definition acpi_timer_probe : tprog Z :=
  (* Locate FADT *)
  fadt <- gets (fun s => acpi_table (t_rsdt s) FADT_SIGNATURE 0 (t_mem s)) ;;
  modify (fun s => set_t_rsdt (rsdp_find_rsdt (t_rsdt s) (t_mem s)) s) ;;
  if fadt =? 0 then ret (- ENOENT) else
  (* Read FADT *)
  pm_tmr_blk <- gets (fun s => ld32 (fadt + fadt_pm_tmr_blk) (t_mem s)) ;;
  if pm_tmr_blk =? 0 then ret (- ENOENT) else
  (* Record power management timer register address *)
  modify (set_pm_tmr (u32 (pm_tmr_blk + ACPI_PM_TMR))) ;;
  ret 0.

Definition acpi_timer : timer :=
  mkTimer (cs "acpi") (Some acpi_timer_probe) acpi_currticks acpi_udelay.

(** ** rdtsc_timer.c *)

Definition cpuid_instruction_supported : Z := if cpuid_flag then 0 else - ENOTSUP.

Definition cpuid_supported (function : Z) : Z :=
  (* Check that CPUID instruction is available *)
  let rc := cpuid_instruction_supported in
  if negb (rc =? 0) then rc else
  (* Find highest supported function number within this family *)
  let max_function := (cpuid (Z.land function CPUID_EXTENDED)).1 in
  (* Fail if maximum function number is meaningless *)
  if negb (Z.land max_function CPUID_AMD_CHECK_MASK =? Z.land function CPUID_AMD_CHECK_MASK)
  then - EINVAL
  (* Fail if this function is not supported *)
  else if max_function <? function then - ENOTTY
  else 0.

Definition rdtsc_raw : tprog Z := fun s =>
  let '(v, h) := tsc (t_io s) in Ret (u32 v) (set_t_io h s).

(** SHRD shifts by the count modulo 32. *)
Definition rdtsc_scaled : tprog Z := fun s =>
  let '(v, h) := tsc (t_io s) in
  Ret (u32 (Z.shiftr (u64 v) (tsc_scale s mod 32))) (set_t_io h s).

Definition rdtsc_currticks : tprog Z :=
  scaled <- rdtsc_scaled ;;
  ticks <- gets ticks_per_scaled_tsc ;;
  ret (u32 (scaled * ticks)).

Definition rdtsc_udelay (usecs : Z) : tprog unit :=
  start <- rdtsc_raw ;;
  per_us <- gets tsc_per_us ;;
  let threshold := u32 (usecs * per_us) in
  iterate fuel (fun _ : unit =>
    now <- rdtsc_raw ;;
    let elapsed := u32 (now - start) in
    ret (if elapsed <? threshold then inl tt else inr tt)) tt.

(** The [while] loop that scales down the number of ticks; the number of
    ticks halves each time. *)
Fixpoint tsc_calibrate (n : nat) (scale ticks : Z) : Z * Z :=
  match n with
  | O => (scale, ticks)
  | S n =>
      if TICKS_PER_SEC / TSC_SCALED_HZ <? ticks
      then tsc_calibrate n (scale - 1) (Z.shiftr ticks 1)
      else (scale, ticks)
  end.

Definition rdtsc_probe : tprog Z :=
  (* Check that TSC is invariant *)
  let rc := cpuid_supported CPUID_APM in
  if negb (rc =? 0) then ret rc else
  let apm := (cpuid CPUID_APM).2 in
  if negb (bool_of_Z (Z.land apm CPUID_APM_EDX_TSC_INVARIANT)) then ret (- ENOTTY) else
  (* Calibrate udelay() timer via 8254 PIT *)
  before <- rdtsc_raw ;;
  pit8254_udelay TSC_CALIBRATE_US ;;
  after <- rdtsc_raw ;;
  let elapsed := u32 (after - before) in
  let per_us := elapsed / TSC_CALIBRATE_US in
  modify (fun s => set_tsc per_us (tsc_scale s) (ticks_per_scaled_tsc s) s) ;;
  if per_us =? 0 then ret (- EIO) else
  (* Calibrate currticks() scaling factor *)
  let divisor := u32 (per_us * (1000000 / TICKS_PER_SEC)) in
  if divisor =? 0 then undef else
  let '(scale, ticks) := tsc_calibrate 32 31 (Z.shiftl 1 31 / divisor) in
  modify (set_tsc per_us scale ticks) ;;
  if ticks =? 0 then ret (- EIO) else ret 0.

Definition rdtsc_timer : timer :=
  mkTimer (cs "rdtsc") (Some rdtsc_probe) rdtsc_currticks rdtsc_udelay.
End timer.
