(* ===== verification/TimerSpec.v ===== *)
(** * TimerSpec

    The clocks are continuous when their counters wrap around, the delays
    last as long as they should, and where 32-bit arithmetic cuts them
    short. *)

From S2P Require Import Prelude.
From S2P Require Import Memory.
From S2P Require Import World.
From S2P Require Import Biosint.
From S2P Require Import Acpi.
From S2P Require Import Timer.

Section clocks.
Context `{!Ports}.

(** ** The BIOS timer *)

Definition bda_ticks (m : mem) : Z := ld32 (real_to_user BDA_SEG BDA_TICKS) m.
Definition bda_midnight (m : mem) : Z := ld8 (real_to_user BDA_SEG BDA_MIDNIGHT) m.

(** What the BIOS does to its time of day in [d] ticks, fewer than a day: it
    counts them, and at midnight starts over and sets the flag. *)
Definition bios_counts (m m' : mem) (d : Z) : Prop :=
  0 <= d < BIOS_TICKS_PER_DAY /\
  ((bda_ticks m' = bda_ticks m + d /\ bda_midnight m' = bda_midnight m) \/
   (bda_ticks m' = bda_ticks m + d - BIOS_TICKS_PER_DAY /\ bda_midnight m' <> 0)).

(** The time in BIOS ticks, when no midnight is pending. *)
Definition bios_time (s : timer_state) : Z :=
  u32 (bda_ticks (t_mem s) + t_bios_offset s).

Lemma bda_ticks_st8 m v : bda_ticks (st8 (real_to_user BDA_SEG BDA_MIDNIGHT) v m) = bda_ticks m.
Proof. reflexivity. Qed.

(** The BIOS timer across midnight: if no midnight is pending and the
    BIOS has counted [d] ticks since the last call, a call returns the time of
    that call plus [d], in timer ticks, whether or not midnight has passed,
    and leaves no midnight pending; so the times of successive calls differ
    by the time that has passed. *)
Theorem bios_currticks_continuous (d : Z) (s : timer_state) :
  bda_midnight (t_mem s) = 0 ->
  bios_counts (t_mem s) (irq (t_io s) (t_mem s)).2 d ->
  wp bios_currticks (fun ticks s' =>
    ticks = u32 (bios_time s' * TICKS_PER_BIOS_TICK) /\
    bios_time s' = u32 (bios_time s + d) /\ bda_midnight (t_mem s') = 0) s.
Proof.
  intros Hm (Hd & Hc). unfold bios_currticks. apply wp_bind, wp_modify.
  destruct (irq (t_io s) (t_mem s)) as [h m] eqn:E. cbn [snd] in Hc.
  repeat wp_prim. cbn [t_mem set_t_mem set_t_io t_bios_offset].
  fold (bda_ticks m) (bda_midnight m). unfold bios_time.
  destruct (bool_of_Z (bda_midnight m)) eqn:B.
  - assert (bda_midnight m <> 0) by (intros E0; by rewrite E0 in B).
    repeat wp_prim. cbn [t_mem set_t_mem set_t_io t_bios_offset set_t_bios_offset].
    rewrite bda_ticks_st8. split; [done|]. split; [|done].
    destruct Hc as [[_ ?]|[-> _]]; [congruence|]. unfold u32, BIOS_TICKS_PER_DAY in *. dlia.
  - assert (Hz : bda_midnight m = 0).
    { unfold bool_of_Z in B. destruct (Z.eqb_spec (bda_midnight m) 0); [done|discriminate B]. }
    repeat wp_prim. cbn [t_mem set_t_mem set_t_io t_bios_offset].
    split; [done|]. split; [|done].
    destruct Hc as [[-> _]|[_ ?]]; [|congruence]. unfold u32. dlia.
Qed.

(** ** Counters *)

(** A counter of [bits] bits that is read by [read]: [time] is how far it has
    got in all, and at least one and at most [gap] counts pass per read. *)
Definition counter (bits gap : Z) (read : prog timer_state Z) (time : io -> Z) : Prop :=
  forall s, wp read (fun v s' =>
    v mod 2 ^ bits = time (t_io s') mod 2 ^ bits /\
    time (t_io s) < time (t_io s') <= time (t_io s) + gap /\
    pm_tmr s' = pm_tmr s /\ tsc_per_us s' = tsc_per_us s /\
    t_acpi_prev s' = t_acpi_prev s /\ t_acpi_offset s' = t_acpi_offset s) s.

(** The ACPI timer's conversion of a count to ticks: whole turns of the
    counter and the rest are rounded down separately. *)
Definition acpi_ticks (t : Z) : Z := 4800 * (t / 2 ^ 24) + (t mod 2 ^ 24) / 3495.

Lemma acpi_ticks_mono t t' : t <= t' -> acpi_ticks t <= acpi_ticks t'.
Proof. unfold acpi_ticks. change (2 ^ 24) with 16777216. intros. dlia. Qed.

Lemma acpi_ticks_close t : 0 <= t -> t / 3495 - t / 2 ^ 24 <= acpi_ticks t <= t / 3495.
Proof. unfold acpi_ticks. change (2 ^ 24) with 16777216. intros. dlia. Qed.

Lemma land_timer_mask x : Z.land x ACPI_TIMER_MASK = x mod 2 ^ 24.
Proof. change ACPI_TIMER_MASK with (Z.ones 24). by rewrite Z.land_ones by lia. Qed.

(** The static variables of [acpi_currticks] after a call at count [t]. *)
Definition acpi_clock (t : Z) (s : timer_state) : Prop :=
  t_acpi_prev s = t mod 2 ^ 24 /\ t_acpi_offset s = u32 (4800 * (t / 2 ^ 24)).

(** The ACPI timer across wraparound: as long as it is called at least
    once per turn of the 24-bit counter, the time it returns is that of the
    counter's whole count, rounded down by at most a tick per turn; it never
    goes back (short of 2^32 ticks). *)
Theorem acpi_currticks_continuous (time : io -> Z) (s : timer_state) :
  counter 24 (2 ^ 24 - 1) (inl_ (pm_tmr s)) time -> 0 <= time (t_io s) ->
  acpi_clock (time (t_io s)) s ->
  wp acpi_currticks (fun ticks s' => let t := time (t_io s') in
    time (t_io s) < t < time (t_io s) + 2 ^ 24 /\
    acpi_clock t s' /\ ticks = u32 (acpi_ticks t) /\
    acpi_ticks (time (t_io s)) <= acpi_ticks t /\ t / 3495 - t / 2 ^ 24 <= acpi_ticks t <= t / 3495) s.
Proof.
  intros Hc H0 [Hp Ho]. unfold acpi_currticks. repeat wp_prim.
  eapply wp_mono; [apply Hc|]. intros v s' (Hv & Ht & _ & _ & Hp' & Ho').
  repeat wp_prim. rewrite land_timer_mask, Hv, Hp', Ho', Hp, Ho. cbn [t_io set_t_acpi].
  cbv zeta. set (t1 := time (t_io s')) in *. set (t0 := time (t_io s)) in *.
  split; [lia|]. split; [|split; [|split; [apply acpi_ticks_mono; lia|apply acpi_ticks_close; lia]]];
    unfold acpi_clock, acpi_ticks; cbn [t_acpi_prev t_acpi_offset set_t_acpi];
    change ((ACPI_TIMER_MASK + 1) / (ACPI_TIMER_HZ / TICKS_PER_SEC)) with 4800;
    change (ACPI_TIMER_HZ / TICKS_PER_SEC) with 3495; change (2 ^ 24) with 16777216 in *.
  - split; [done|]. destruct (Z.ltb_spec (t1 mod 16777216) (t0 mod 16777216)).
    + replace (t1 / 16777216) with (t0 / 16777216 + 1) by dlia. unfold u32. dlia.
    + by replace (t1 / 16777216) with (t0 / 16777216) by dlia.
  - destruct (Z.ltb_spec (t1 mod 16777216) (t0 mod 16777216)).
    + replace (t1 / 16777216) with (t0 / 16777216 + 1) by dlia. unfold u32. dlia.
    + replace (t1 / 16777216) with (t0 / 16777216) by dlia. unfold u32. dlia.
Qed.

(** ** Delays *)

Lemma wp_wait n (read : prog timer_state Z) time bits gap threshold t0 (elapsed : Z -> Z) s :
  counter bits gap read time -> 0 <= bits -> 0 <= threshold -> threshold + gap < 2 ^ bits ->
  (forall v t, v mod 2 ^ bits = t mod 2 ^ bits -> elapsed v = (t - t0) mod 2 ^ bits) ->
  t0 <= time (t_io s) < t0 + threshold \/ time (t_io s) = t0 ->
  threshold - (time (t_io s) - t0) <= Z.of_nat n -> (0 < n)%nat ->
  wp (iterate n (fun _ : unit => now <- read ;;
        ret (if elapsed now <? threshold then inl tt else inr tt)) tt)
    (fun _ s' => t0 + threshold <= time (t_io s') /\ time (t_io s) < time (t_io s') /\
       pm_tmr s' = pm_tmr s /\ tsc_per_us s' = tsc_per_us s) s.
Proof.
  intros Hc Hb H0 Hg He. revert s. induction n as [|n IH]; intros s Hs Hn Hpos; [lia|].
  cbn [iterate]. apply wp_bind, wp_bind. eapply wp_mono; [apply Hc|].
  intros v s' (Hv & Ht & Hpm & Htsc & _). rewrite (He _ _ Hv). wp_prim.
  assert (0 < 2 ^ bits) by lia.
  destruct (Z.ltb_spec ((time (t_io s') - t0) mod 2 ^ bits) threshold) as [Hlt|Hge].
  - destruct (Z.lt_ge_cases (time (t_io s') - t0) (2 ^ bits)).
    + rewrite Z.mod_small in Hlt by lia. eapply wp_mono; [apply IH; [lia..|]|].
      { destruct n; lia. }
      intros _ s'' (? & ? & ? & ?). split_and!; [lia..|congruence|congruence].
    + exfalso. lia.
  - wp_prim. split_and!; [|lia|done|done].
    destruct (Z.lt_ge_cases (time (t_io s') - t0) (2 ^ bits)); [|lia].
    rewrite Z.mod_small in Hge by lia. lia.
Qed.

Lemma elapsed_mod bits x v v0 t t0 :
  0 <= bits <= 32 -> v mod 2 ^ bits = t mod 2 ^ bits -> v0 mod 2 ^ bits = t0 mod 2 ^ bits ->
  x = u32 (v - v0) -> x mod 2 ^ bits = (t - t0) mod 2 ^ bits.
Proof.
  intros Hb Hv Hv0 ->. unfold u32.
  assert (0 < 2 ^ bits) by lia.
  assert (E : 2 ^ 32 = 2 ^ bits * 2 ^ (32 - bits)) by (rewrite <- Z.pow_add_r by lia; f_equal; lia).
  rewrite Z.mod_mod_divide by (exists (2 ^ (32 - bits)); lia).
  rewrite Zminus_mod, Hv, Hv0, <- Zminus_mod. done.
Qed.

Lemma wp_acpi_udelay fuel usecs gap time s :
  counter 24 gap (inl_ (pm_tmr s)) time -> 0 <= usecs <= 1199 -> gap < 2 ^ 24 - 5000 ->
  (5000 <= fuel)%nat ->
  wp (acpi_udelay fuel usecs) (fun _ s' =>
    time (t_io s) + usecs * ACPI_TIMER_HZ / 1000000 <= time (t_io s') /\ pm_tmr s' = pm_tmr s) s.
Proof.
  intros Hc Hu Hg Hf. unfold acpi_udelay, ACPI_TIMER_HZ. repeat wp_prim.
  eapply wp_mono; [apply Hc|]. intros v0 s1 (Hv0 & Ht & Hp & _).
  rewrite (u32_small (usecs * 3579545)) by lia.
  eapply wp_mono; [eapply (wp_wait fuel _ time 24 gap _ (time (t_io s1))
    (fun now => Z.land (u32 (now - v0)) ACPI_TIMER_MASK)); [done|lia|dlia|dlia| |auto|dlia|lia]|].
  - intros v t Hv. rewrite land_timer_mask. by eapply elapsed_mod; [lia|..].
  - intros _ s' (Hw & _ & Hp' & _). split; [lia|congruence].
Qed.

Lemma wp_rdtsc_udelay fuel usecs gap time s :
  counter 32 gap rdtsc_raw time -> 0 <= usecs -> 0 <= tsc_per_us s ->
  usecs * tsc_per_us s + gap < 2 ^ 32 -> usecs * tsc_per_us s < Z.of_nat fuel ->
  wp (rdtsc_udelay fuel usecs) (fun _ s' =>
    time (t_io s) + usecs * tsc_per_us s <= time (t_io s') /\ tsc_per_us s' = tsc_per_us s) s.
Proof.
  intros Hc Hu H0 Hg Hf. unfold rdtsc_udelay. repeat wp_prim.
  eapply wp_mono; [apply Hc|]. intros v0 s1 (Hv0 & Ht & _ & Hp & _). repeat wp_prim.
  rewrite Hp, u32_small by nia.
  eapply wp_mono; [eapply (wp_wait fuel _ time 32 gap _ (time (t_io s1))
    (fun now => u32 (now - v0))); [done|lia|nia|lia| |auto|lia|lia]|].
  - intros v t Hv. unfold u32. rewrite <- Z.mod_mod by lia. by eapply elapsed_mod; [lia|..].
  - intros _ s' (Hw & _ & _ & Hp'). split; [lia|congruence].
Qed.

(** A delay in milliseconds is that many delays of 1000 microseconds. *)
Lemma wp_mdelay_loop timer (I : timer_state -> Prop) (time : io -> Z) ms msecs s :
  (forall s, I s -> wp (timer_udelay timer 1000)
     (fun _ s' => I s' /\ time (t_io s) + ms <= time (t_io s')) s) ->
  I s -> wp (mdelay_loop (Some timer) msecs)
    (fun _ s' => I s' /\ time (t_io s) + Z.of_nat msecs * ms <= time (t_io s')) s.
Proof.
  intros Hd. revert s. induction msecs as [|msecs IH]; intros s Hs; cbn [mdelay_loop udelay].
  - wp_prim. split; [done|lia].
  - wp_prim. eapply wp_mono; [by apply Hd|]. intros _ s1 [H1 Ht].
    eapply wp_mono; [by apply IH|]. intros _ s2 [H2 Ht2]. split; [done|lia].
Qed.

(** Delays end, and last long enough: on a counter that advances, by
    less than a turn between two reads, [mdelay] returns after at least the
    given number of milliseconds, with the ACPI timer (3579 counts per
    millisecond) and with the time stamp counter (1000 times [tsc_per_us]). *)
Theorem mdelay_waits (fuel : nat) (gap msecs : Z) (time : io -> Z) (s : timer_state) :
  0 <= msecs < 2 ^ 32 ->
  (counter 24 gap (inl_ (pm_tmr s)) time -> gap < 2 ^ 24 - 5000 -> (5000 <= fuel)%nat ->
   wp (mdelay (Some (acpi_timer fuel)) msecs)
     (fun _ s' => time (t_io s) + msecs * 3579 <= time (t_io s')) s) /\
  (counter 32 gap rdtsc_raw time -> 0 <= tsc_per_us s ->
   1000 * tsc_per_us s + gap < 2 ^ 32 -> 1000 * tsc_per_us s < Z.of_nat fuel ->
   wp (mdelay (Some (rdtsc_timer fuel)) msecs)
     (fun _ s' => time (t_io s) + msecs * (1000 * tsc_per_us s) <= time (t_io s')) s).
Proof.
  intros Hm. split.
  - intros Hc Hg Hf. eapply wp_mono;
      [apply (wp_mdelay_loop (acpi_timer fuel) (fun s' => pm_tmr s' = pm_tmr s) time 3579)|].
    + intros s1 Hs1. eapply wp_mono; [apply (wp_acpi_udelay fuel 1000 gap time s1);
        [by rewrite Hs1|lia..]|].
      intros _ s2 [Ht Hp]. split; [congruence|]. exact Ht.
    + done.
    + intros _ s' [_ Ht]. rewrite Z2Nat.id in Ht by lia. done.
  - intros Hc H0 Hg Hf. eapply wp_mono;
      [apply (wp_mdelay_loop (rdtsc_timer fuel) (fun s' => tsc_per_us s' = tsc_per_us s) time
         (1000 * tsc_per_us s))|].
    + intros s1 Hs1. rewrite <- Hs1 in *. eapply wp_mono;
        [by apply (wp_rdtsc_udelay fuel 1000 gap time s1)|].
      intros _ s2 [Ht Hp]. split; [congruence|done].
    + done.
    + intros _ s' [_ Ht]. rewrite Z2Nat.id in Ht by lia. done.
Qed.

(** ** Arithmetic that is too narrow *)

(** The threshold of the ACPI timer's delay is computed in 32 bits: a
    delay of 1200 microseconds, the first that overflows, ends at the first
    look at the counter, whatever it reads. *)
Theorem acpi_udelay_overflow (fuel : nat) (s : timer_state) :
  acpi_udelay (S fuel) 1200 s =
  let '(_, h1) := port_in 4 (pm_tmr s) (t_io s) in
  let '(_, h2) := port_in 4 (pm_tmr s) h1 in Ret tt (set_t_io h2 s).
Proof.
  unfold acpi_udelay, inl_, bind, gets. destruct (port_in 4 (pm_tmr s) (t_io s)) as [v0 h1].
  cbn [iterate t_io set_t_io]. unfold bind. destruct (port_in 4 (pm_tmr s) h1) as [v h2] eqn:E.
  change (u32 (1200 * ACPI_TIMER_HZ) / 1000000) with 0.
  cbn [t_io set_t_io]. rewrite E. unfold ret. cbv beta iota. rewrite land_timer_mask.
  destruct (Z.ltb_spec (u32 (u32 v - u32 v0) mod 2 ^ 24) 0) as [Hn|_]; [|by destruct s].
  pose proof (Z.mod_pos_bound (u32 (u32 v - u32 v0)) (2 ^ 24)). lia.
Qed.

(** The same holds of the 8254 from 3600 microseconds on. *)
Lemma pit8254_udelay_overflow fuel :
  pit8254_udelay fuel 3600 = pit8254_speaker_delay fuel 0 /\
  forall usecs, 0 <= usecs < 3600 ->
    pit8254_udelay fuel usecs = pit8254_speaker_delay fuel (usecs * PIT8254_HZ / 1000000).
Proof.
  split; [reflexivity|]. intros usecs Hu. unfold pit8254_udelay, PIT8254_HZ.
  by rewrite u32_small by lia.
Qed.

(** ** Calibration of the time stamp counter *)

Lemma tsc_calibrate_spec n scale ticks :
  0 <= ticks < 32 * 2 ^ Z.of_nat n ->
  let '(scale', ticks') := tsc_calibrate n scale ticks in
  0 <= ticks' <= 32 /\ scale - Z.of_nat n <= scale' <= scale /\
  ticks' = ticks / 2 ^ (scale - scale') /\ (scale' < scale -> 16 <= ticks').
Proof.
  revert scale ticks. induction n as [|n IH]; intros scale ticks Ht; cbn [tsc_calibrate].
  - rewrite Z.sub_diag, Z.div_1_r. lia.
  - change (TICKS_PER_SEC / TSC_SCALED_HZ) with 32. destruct (Z.ltb_spec 32 ticks) as [Hl|Hl].
    + rewrite Nat2Z.inj_succ, Z.pow_succ_r in Ht by lia.
      rewrite Z.shiftr_div_pow2 by lia. change (2 ^ 1) with 2.
      specialize (IH (scale - 1) (ticks / 2) ltac:(dlia)).
      destruct (tsc_calibrate n (scale - 1) (ticks / 2)) as [scale' ticks'].
      destruct IH as (H1 & H2 & H3 & H4). split; [done|]. split; [lia|].
      assert (0 < 2 ^ (scale - 1 - scale')) by lia.
      split.
      * rewrite H3, Z.div_div by lia. rewrite <- (Z.pow_succ_r 2) by lia. do 2 f_equal. lia.
      * intros _. destruct (Z.eq_dec scale' (scale - 1)) as [E|E]; [|apply H4; lia].
        rewrite H3, E, Z.sub_diag, Z.div_1_r. dlia.
    + rewrite Z.sub_diag, Z.div_1_r. lia.
Qed.

(** A postcondition of a program that never has undefined behaviour, but may
    fail to return. *)
Definition safe {A} (m : prog timer_state A) (Q : A -> timer_state -> Prop) (s : timer_state)
    : Prop :=
  match m s with Ret a s' => Q a s' | Undef => False | Spin => True end.

Lemma safe_bind {A B} (m : prog timer_state A) (k : A -> prog timer_state B) Q s :
  safe m (fun a => safe (k a) Q) s -> safe (bind m k) Q s.
Proof. unfold safe, bind. by destruct (m s). Qed.

Lemma safe_mono {A} (m : prog timer_state A) (P Q : A -> timer_state -> Prop) s :
  safe m P s -> (forall a s', P a s' -> Q a s') -> safe m Q s.
Proof. unfold safe. destruct (m s); auto. Qed.

Lemma safe_iterate {X A} n (body : X -> prog timer_state (X + A)) x s :
  (forall x s, safe (body x) (fun _ _ => True) s) -> safe (iterate n body x) (fun _ _ => True) s.
Proof.
  intros Hb. revert x s. induction n as [|n IH]; intros x s; [done|]. cbn [iterate].
  apply safe_bind. eapply safe_mono; [apply Hb|]. intros [x'|a] s' _; [apply IH|done].
Qed.

Lemma safe_rdtsc_raw s : safe rdtsc_raw (fun v _ => 0 <= v < 2 ^ 32) s.
Proof. unfold safe, rdtsc_raw. destruct (tsc (t_io s)) as [v h]. apply Z.mod_pos_bound. lia. Qed.

Lemma safe_inb port s : safe (inb port) (fun _ _ => True) s.
Proof. unfold safe, inb. by destruct (port_in 1 port (t_io s)). Qed.

Lemma safe_pit8254_udelay fuel usecs s : safe (pit8254_udelay fuel usecs) (fun _ _ => True) s.
Proof.
  unfold pit8254_udelay, pit8254_speaker_delay. apply safe_bind.
  eapply safe_mono; [apply safe_inb|]. intros spkr s1 _.
  do 4 (apply safe_bind; unfold outb, safe at 1, modify). apply safe_iterate. intros [] s2.
  apply safe_bind. eapply safe_mono; [apply safe_inb|]. done.
Qed.

(** Calibration of the time stamp counter: whatever the counter and the
    interval timer do, there is no division by zero and no overflow; if the
    probe succeeds, the rate is positive, and the scaled counter advances by
    between 1 and 32 timer ticks at a time, for a shift count that the
    processor does not cut off. *)
Theorem rdtsc_probe_calibrates (fuel : nat) (s : timer_state) :
  safe (rdtsc_probe fuel) (fun rc s' => rc = 0 ->
    1 <= tsc_per_us s' < 2 ^ 22 /\ 1 <= ticks_per_scaled_tsc s' <= 32 /\
    0 <= tsc_scale s' <= 31 /\
    ticks_per_scaled_tsc s' = 2 ^ 31 / (tsc_per_us s' * 976) / 2 ^ (31 - tsc_scale s')) s.
Proof.
  unfold rdtsc_probe. destruct (negb (cpuid_supported CPUID_APM =? 0)) eqn:E0;
    [by apply negb_true_iff, Z.eqb_neq in E0|].
  destruct (negb (bool_of_Z _)); [done|].
  apply safe_bind. eapply safe_mono; [apply safe_rdtsc_raw|]. intros before s1 _.
  apply safe_bind. eapply safe_mono; [apply safe_pit8254_udelay|]. intros _ s2 _.
  apply safe_bind. eapply safe_mono; [apply safe_rdtsc_raw|]. intros after s3 _.
  unfold TSC_CALIBRATE_US. change (1000000 / TICKS_PER_SEC) with 976.
  assert (He : 0 <= u32 (after - before) < 2 ^ 32) by (apply Z.mod_pos_bound; lia).
  set (per_us := u32 (after - before) / 1024) in *.
  assert (Hp : 0 <= per_us < 4194304) by (unfold per_us; clear - He; dlia). clearbody per_us.
  apply safe_bind. unfold safe at 1, modify.
  destruct (Z.eqb_spec per_us 0) as [|Hn]; [done|]. rewrite u32_small by lia.
  destruct (Z.eqb_spec (per_us * 976) 0) as [|_]; [lia|].
  change (Z.shiftl 1 31) with (2 ^ 31). set (ticks := 2 ^ 31 / (per_us * 976)).
  assert (Ht : 0 <= ticks < 32 * 2 ^ 26).
  { unfold ticks. split; [apply Z.div_pos; lia|apply Z.div_lt_upper_bound; lia]. }
  pose proof (tsc_calibrate_spec 32 31 ticks ltac:(change (Z.of_nat 32) with 32; lia)) as Hc.
  destruct (tsc_calibrate 32 31 ticks) as [scale ticks'] eqn:Ec. destruct Hc as (H1 & H2 & H3 & H4).
  apply safe_bind. unfold safe at 1, modify. destruct (Z.eqb_spec ticks' 0) as [|Hz]; [done|].
  intros _. cbn [tsc_per_us ticks_per_scaled_tsc tsc_scale set_tsc].
  split; [lia|]. split; [lia|]. split; [|done]. split; [|lia].
  destruct (Z.le_gt_cases 0 scale) as [|Hs]; [done|]. exfalso.
  replace scale with (-1) in H3 by lia. rewrite Z.div_small in H3 by lia. lia.
Qed.
End clocks.
