(* ===== verification/Int13.v ===== *)
(** * Int13

    The INT 13 emulation of interface/pcbios/int13.c: geometry, BIOS drive
    counts, the functions of the interrupt, its handler and assembly wrapper,
    hooking and unhooking of drives, and booting. *)

From S2P Require Import Prelude.
From S2P Require Import Memory.
From S2P Require Import World.
From S2P Require Import Object.
From S2P Require Import Retry.
From S2P Require Import Malloc.
From S2P Require Import Pci.
From S2P Require Import Blockdev.
From S2P Require Import Sanboot.
From S2P Require Import Biosint.
From S2P Require Import PciBus.
From S2P Require Import Acpi.

(** ** Constants (include/int13.h, include/bios.h) *)

Definition INT13_RESET : Z := 0x00.
Definition INT13_GET_LAST_STATUS : Z := 0x01.
Definition INT13_READ_SECTORS : Z := 0x02.
Definition INT13_WRITE_SECTORS : Z := 0x03.
Definition INT13_GET_PARAMETERS : Z := 0x08.
Definition INT13_GET_DISK_TYPE : Z := 0x15.
Definition INT13_EXTENSION_CHECK : Z := 0x41.
Definition INT13_EXTENDED_READ : Z := 0x42.
Definition INT13_EXTENDED_WRITE : Z := 0x43.
Definition INT13_EXTENDED_VERIFY : Z := 0x44.
Definition INT13_EXTENDED_SEEK : Z := 0x47.
Definition INT13_GET_EXTENDED_PARAMETERS : Z := 0x48.
Definition INT13_CDROM_STATUS_TERMINATE : Z := 0x4b.
Definition INT13_CDROM_READ_BOOT_CATALOG : Z := 0x4d.

Definition INT13_STATUS_INVALID : Z := 0x01.
Definition INT13_STATUS_READ_ERROR : Z := 0x04.
Definition INT13_STATUS_RESET_FAILED : Z := 0x05.

Definition INT13_BLKSIZE : Z := 512.
Definition INT13_FDD_TYPE_1M44 : Z := 0x04.
Definition INT13_DISK_TYPE_FDD : Z := 0x01.
Definition INT13_DISK_TYPE_HDD : Z := 0x03.
Definition INT13_FL_DMA_TRANSPARENT : Z := 0x01.
Definition INT13_FL_CHS_VALID : Z := 0x02.
Definition INT13_EXTENSION_LINEAR : Z := 0x01.
Definition INT13_EXTENSION_EDD : Z := 0x04.
Definition INT13_EXTENSION_64BIT : Z := 0x08.
Definition INT13_EXTENSION_VER_3_0 : Z := 0x30.
Definition INT13_MAX_CHS_SECTORS : Z := 15482880.
Definition INT13_MBR_MAGIC : Z := 0xaa55.

Definition BDA_EQUIPMENT_WORD : Z := 0x0010.
Definition BDA_NUM_DRIVES : Z := 0x0075.

Definition BUS_TYPE_PCI : Z := 1.
Definition EDD_DEVICE_PATH_INFO_KEY : Z := 0xbedd.
(** EDD_BUS_TYPE ( 'P', 'C', 'I' ) *)
Definition EDD_BUS_TYPE_PCI : Z := le_combine [0x50; 0x43; 0x49; 0x20].

Definition ELTORITO_LBA : Z := 17.
Definition ELTORITO_PLATFORM_X86 : Z := 0x00.
Definition ELTORITO_BOOTABLE : Z := 0x88.
Definition ELTORITO_NO_EMULATION : Z := 0.

(** Offsets in [struct int13_disk_address] and its size. *)
Definition addr_buffer_phys : Z := 16.
Definition sizeof_addr : nat := 32.

(** Offsets in [struct int13_disk_parameters]. *)
Definition params_dpte : Z := 26.
Definition params_dpi : Z := 30.

(** Field [n] bytes wide at offset [off] of a structure held as bytes. *)
Definition field (off n : nat) (bs : list Z) : Z :=
  le_combine (take n (drop off bs)).

(** ** Geometry *)

(** INT 13 drive properties of [d] that need no state. *)
Definition int13_capacity32 (d : san_device) : Z :=
  let capacity := sandev_capacity d in
  if capacity <=? 0xffffffff then capacity else 0xffffffff.

Definition int13_is_fdd (d : san_device) : bool :=
  Z.land (drive d) 0x80 =? 0.

(** [PART_HEAD], [PART_SECTOR] and [PART_CYLINDER] of the C/H/S address at
    [off]. *)
Definition PART_HEAD (off : nat) (p : list Z) : Z := field off 1 p.
Definition PART_SECTOR (off : nat) (p : list Z) : Z :=
  Z.land (field (off + 1) 1 p) 0x3f.
Definition PART_CYLINDER (off : nat) (p : list Z) : Z :=
  Z.lor (field (off + 2) 1 p)
    (Z.shiftl (Z.land (field (off + 1) 1 p) 0xc0) 2).

(** Offsets in [struct partition_table_entry]. *)
Definition part_chs_start : nat := 1.
Definition part_type : nat := 4.
Definition part_chs_end : nat := 5.
Definition part_start : nat := 8.

(** What one partition table entry does to the guessed (heads, sectors). *)
Definition guess_partition (guess : Z * Z) (p : list Z) : Z * Z :=
  let '(heads, sectors) := guess in
  (* Skip empty partitions *)
  if field part_type 1 p =? 0 then guess else
  (* If partition starts on cylinder 0 then we can unambiguously determine
     the number of sectors *)
  let start_cylinder := PART_CYLINDER part_chs_start p in
  let start_head := PART_HEAD part_chs_start p in
  let start_sector := PART_SECTOR part_chs_start p in
  let sectors :=
    if (start_cylinder =? 0) && negb (start_head =? 0)
    then u32 (field part_start 4 p + 1 - start_sector) / start_head
    else sectors in
  (* If partition ends on a higher head or sector number than our current
     guess, then increase the guess *)
  let end_head := PART_HEAD part_chs_end p in
  let end_sector := PART_SECTOR part_chs_end p in
  let heads := if heads <? end_head + 1 then end_head + 1 else heads in
  let sectors := if sectors <? end_sector then end_sector else sectors in
  (heads, sectors).

(** The partition table of a boot sector held as bytes. *)
Definition mbr_partitions (mbr : list Z) : list (list Z) :=
  map (fun i => take 16 (drop (446 + 16 * i) mbr)) (seq 0 4).

Definition guess_geometry_mbr (mbr : list Z) : Z * Z :=
  let '(heads, sectors) :=
    fold_left guess_partition (mbr_partitions mbr) (0, 0) in
  (* Default guess is xx/255/63 *)
  (if heads =? 0 then 255 else heads, if sectors =? 0 then 63 else sectors).

(** [INT13_FDD_GEOMETRY]: tracks and heads_spt. *)
Definition INT13_FDD_GEOMETRY (cylinders heads sectors : Z) : Z * Z :=
  (u8 cylinders, u8 (Z.lor (Z.shiftl heads 6) sectors)).
Definition INT13_FDD_CYLINDERS (g : Z * Z) : Z := g.1.
Definition INT13_FDD_HEADS (g : Z * Z) : Z := Z.shiftr g.2 6.
Definition INT13_FDD_SECTORS (g : Z * Z) : Z := Z.land g.2 0x3f.

Definition int13_fdd_geometries : list (Z * Z) :=
  [ INT13_FDD_GEOMETRY 40 1 8;  INT13_FDD_GEOMETRY 40 1 9;
    INT13_FDD_GEOMETRY 40 2 8;  INT13_FDD_GEOMETRY 40 1 9;
    INT13_FDD_GEOMETRY 80 2 8;  INT13_FDD_GEOMETRY 80 2 9;
    INT13_FDD_GEOMETRY 80 2 15; INT13_FDD_GEOMETRY 80 2 18;
    INT13_FDD_GEOMETRY 80 2 20; INT13_FDD_GEOMETRY 80 2 21;
    INT13_FDD_GEOMETRY 82 2 21; INT13_FDD_GEOMETRY 83 2 21;
    INT13_FDD_GEOMETRY 80 2 22; INT13_FDD_GEOMETRY 80 2 23;
    INT13_FDD_GEOMETRY 80 2 24; INT13_FDD_GEOMETRY 80 2 36;
    INT13_FDD_GEOMETRY 80 2 39; INT13_FDD_GEOMETRY 80 2 40;
    INT13_FDD_GEOMETRY 80 2 44; INT13_FDD_GEOMETRY 80 2 48 ].

(** Look for a match against a known geometry. *)
Fixpoint fdd_geometry_lookup (blocks : Z) (l : list (Z * Z)) : Z * Z :=
  match l with
  | [] => (2, 18)
  | g :: l =>
      let cylinders := INT13_FDD_CYLINDERS g in
      let heads := INT13_FDD_HEADS g in
      let sectors := INT13_FDD_SECTORS g in
      if u32 (cylinders * heads * sectors) =? blocks then (heads, sectors)
      else fdd_geometry_lookup blocks l
  end.

Definition int13_guess_geometry_fdd (d : san_device) : Z * Z :=
  fdd_geometry_lookup (u32 (sandev_capacity d)) int13_fdd_geometries.

(** Apply guesses if no geometry is already specified; [None] for the
    division by zero of a geometry without sectors. *)
Definition apply_geometry (d : san_device) (guess : Z * Z)
    : option int13_data :=
  let i := priv d in
  let i := if heads i =? 0 then set_heads guess.1 i else i in
  let i := if sectors_per_track i =? 0 then set_sectors_per_track guess.2 i
           else i in
  if negb (cylinders i =? 0) then Some i else
  let blocks := int13_capacity32 d in
  let blocks_per_cyl := u32 (heads i * sectors_per_track i) in
  if blocks_per_cyl =? 0 then None else
  let c := blocks / blocks_per_cyl in
  Some (set_cylinders (if 1024 <? c then 1024 else c) i).

(** C/H/S address of INT 13,02 and 13,03, and its linear address. *)
Definition rw_cylinder (r : i386_all_regs) : Z :=
  Z.lor (Z.shiftl (Z.land (cl r) 0xc0) 2) (ch r).
Definition rw_head (r : i386_all_regs) : Z := dh r.
Definition rw_sector (r : i386_all_regs) : Z := Z.land (cl r) 0x3f.

Definition chs_in_range (i : int13_data) (cylinder head sector : Z) : bool :=
  negb ((cylinders i <=? cylinder) || (heads i <=? head) ||
        (sector <? 1) || (sectors_per_track i <? sector)).

Definition chs_to_lba (i : int13_data) (cylinder head sector : Z) : Z :=
  u32 (u32 (u32 (u32 (cylinder * heads i) + head) * sectors_per_track i)
       + sector - 1).

(** The bytes of the EDD device path information of a PCI device, with the
    checksum fixed. *)
Definition edd_dpi (location type : Z) (device_path : list Z) : list Z :=
  let fields :=
    le_split 2 EDD_DEVICE_PATH_INFO_KEY ++ [44] ++ [0; 0; 0] ++
    le_split 4 EDD_BUS_TYPE_PCI ++ le_split 8 type ++
    [PCI_BUS location; PCI_SLOT location; PCI_FUNC location; 0xff] ++
    [0; 0; 0; 0] ++ device_path ++ [0] in
  fields ++ [u8 (0 - sum_bytes (fields ++ [0]))].

(** The bytes of [struct int13_disk_parameters] up to the device path
    information. *)
Definition disk_parameters (d : san_device) (bufsize : Z) : list Z :=
  let i := priv d in
  let flags :=
    if (cylinders i <? 1024) && (sandev_capacity d <=? INT13_MAX_CHS_SECTORS)
    then Z.lor INT13_FL_DMA_TRANSPARENT INT13_FL_CHS_VALID
    else INT13_FL_DMA_TRANSPARENT in
  le_split 2 bufsize ++ le_split 2 flags ++
  le_split 4 (cylinders i) ++ le_split 4 (heads i) ++
  le_split 4 (sectors_per_track i) ++ le_split 8 (sandev_capacity d) ++
  le_split 2 (sandev_blksize d) ++ [0xff; 0xff; 0xff; 0xff].

(** [boot_check] of the El Torito boot record volume descriptor: type, id
    "CD001", version and system_id "EL TORITO SPECIFICATION". *)
Definition eltorito_boot_check : list Z :=
  [0x00; 0x43; 0x44; 0x30; 0x30; 0x31; 1;
   0x45; 0x4c; 0x20; 0x54; 0x4f; 0x52; 0x49; 0x54; 0x4f; 0x20;
   0x53; 0x50; 0x45; 0x43; 0x49; 0x46; 0x49; 0x43; 0x41; 0x54; 0x49; 0x4f;
   0x4e] ++ replicate 9 0.

Section int13.
Context `{Platform} `{!Methods}.

Definition upd_priv (s : Z) (f : int13_data -> int13_data) : cprog unit :=
  upd_sandev s (fun d => set_priv (f (priv d)) d).

Definition int13_parse_eltorito (s scratch : Z) : cprog Z :=
  (* Read boot record volume descriptor *)
  rc <- sandev_read s ELTORITO_LBA 1 (virt_to_phys scratch) ;;
  if negb (rc =? 0) then ret rc else
  (* Check for an El Torito boot catalog *)
  boot <- load_at (load 75) scratch ;;
  when (bool_decide (take 39 boot = eltorito_boot_check))
    (upd_priv s (set_boot_catalog (field 71 4 boot))) ;;
  ret 0.

(** Status, and the guessed heads and sectors if it is 0. *)
Definition int13_guess_geometry_hdd (s scratch : Z) : cprog (Z * (Z * Z)) :=
  (* Read partition table *)
  rc <- sandev_read s 0 1 (virt_to_phys scratch) ;;
  if negb (rc =? 0) then ret (rc, (0, 0)) else
  mbr <- load_at (load 512) scratch ;;
  ret (0, guess_geometry_mbr mbr).

Definition int13_guess_geometry (s scratch : Z) : cprog Z :=
  d <- get_sandev s ;;
  let! (rc, guess) :=
    (if int13_is_fdd d then ret (0, int13_guess_geometry_fdd d)
     else int13_guess_geometry_hdd s scratch) in
  if negb (rc =? 0) then ret rc else
  d <- get_sandev s ;;
  i <- deref (fun _ => apply_geometry d guess) ;;
  upd_priv s (fun _ => i) ;;
  ret 0.

(** ** BIOS drive counts *)

(** Make the drive counts (floppies, hard disks) large enough for [d]. *)
Definition count_drive (counts : Z * Z) (d : san_device) : Z * Z :=
  let max_drive := u8 (drive d) in
  let max_drive := if max_drive <? natural_drive (priv d)
                   then u8 (natural_drive (priv d)) else max_drive in
  let required := u8 (Z.land max_drive 0x7f + 1) in
  let grow (counter : Z) := if counter <? required then required else counter in
  if int13_is_fdd d then (grow counts.1, counts.2)
  else (counts.1, grow counts.2).

(** Floppy drives counted by an equipment word, and the word for a count. *)
Definition equipment_fdds (equipment : Z) : Z :=
  if bool_of_Z (Z.land equipment 0x0001)
  then Z.land (Z.shiftr equipment 6) 0x3 + 1 else 0.
Definition equipment_with_fdds (equipment fdds : Z) : Z :=
  let equipment := Z.land equipment 0xff3e in
  if negb (fdds =? 0)
  then Z.lor equipment (Z.lor 0x0001 (Z.shiftl (Z.land (fdds - 1) 0x3) 6))
  else equipment.

(** The devices of [for_each_sandev]. *)
Definition all_sandevs : cprog (list Z) := gets (fun w => san_devices (w_san w)).

Fixpoint count_drives (l : list Z) (counts : Z * Z) : cprog (Z * Z) :=
  match l with
  | [] => ret counts
  | s :: l => d <- get_sandev s ;; count_drives l (count_drive counts d)
  end.

Definition int13_sync_num_drives : cprog unit :=
  (* Get current drive counts *)
  equipment <- get_real 2 BDA_SEG BDA_EQUIPMENT_WORD ;;
  drives <- get_real 1 BDA_SEG BDA_NUM_DRIVES ;;
  let fdds := equipment_fdds equipment in
  (* Ensure count is large enough to cover all of our SAN devices *)
  l <- all_sandevs ;;
  let! (fdds, drives) := count_drives l (fdds, drives) in
  (* Update current drive count *)
  let equipment := equipment_with_fdds equipment fdds in
  upd_bios (fun b => set_equipment_word equipment
                       (set_num_drives drives (set_num_fdds fdds b))) ;;
  put_real 2 equipment BDA_SEG BDA_EQUIPMENT_WORD ;;
  put_real 1 drives BDA_SEG BDA_NUM_DRIVES.

Definition int13_check_num_drives : cprog unit :=
  check_equipment_word <- get_real 2 BDA_SEG BDA_EQUIPMENT_WORD ;;
  check_num_drives <- get_real 1 BDA_SEG BDA_NUM_DRIVES ;;
  b <- gets w_bios ;;
  when (negb (check_equipment_word =? equipment_word b) ||
        negb (check_num_drives =? num_drives b))
    int13_sync_num_drives.

(** ** The INT 13 functions

    Each returns its status and the registers it leaves. *)

Definition int13_reset (s : Z) (r : i386_all_regs)
    : cprog (Z * i386_all_regs) :=
  rc <- sandev_reset s ;;
  ret (if negb (rc =? 0) then - INT13_STATUS_RESET_FAILED else 0, r).

Definition int13_get_last_status (s : Z) (r : i386_all_regs)
    : cprog (Z * i386_all_regs) :=
  d <- get_sandev s ;;
  ret (last_status (priv d), r).

(** [sandev_read] or [sandev_write], as passed to the functions below. *)
Definition run_sandev_rw (rw : block_rw) :=
  match rw with rw_read => sandev_read | rw_write => sandev_write end.

Definition int13_rw_sectors (s : Z) (r : i386_all_regs) (rw : block_rw)
    : cprog (Z * i386_all_regs) :=
  d <- get_sandev s ;;
  (* Validate blocksize *)
  if negb (sandev_blksize d =? INT13_BLKSIZE)
  then ret (- INT13_STATUS_INVALID, r) else
  (* Calculate parameters *)
  let cylinder := rw_cylinder r in
  let head := rw_head r in
  let sector := rw_sector r in
  if negb (chs_in_range (priv d) cylinder head sector)
  then ret (- INT13_STATUS_INVALID, r) else
  let lba := chs_to_lba (priv d) cylinder head sector in
  let count := al r in
  let buffer := real_to_user (seg_es r) (bx r) in
  (* Read from / write to block device *)
  rc <- run_sandev_rw rw s lba count buffer ;;
  ret (if negb (rc =? 0) then - INT13_STATUS_READ_ERROR else 0, r).

Definition int13_read_sectors (s : Z) (r : i386_all_regs) :=
  int13_rw_sectors s r rw_read.
Definition int13_write_sectors (s : Z) (r : i386_all_regs) :=
  int13_rw_sectors s r rw_write.

Definition int13_get_parameters (s : Z) (r : i386_all_regs)
    : cprog (Z * i386_all_regs) :=
  d <- get_sandev s ;;
  let i := priv d in
  let max_cylinder := u32 (cylinders i - 1) in
  let max_head := u32 (heads i - 1) in
  let max_sector := sectors_per_track i in
  (* Validate blocksize *)
  if negb (sandev_blksize d =? INT13_BLKSIZE)
  then ret (- INT13_STATUS_INVALID, r) else
  (* Common parameters *)
  b <- gets w_bios ;;
  let r := set_ch (Z.land max_cylinder 0xff) r in
  let r := set_cl (Z.lor (Z.shiftl (Z.shiftr max_cylinder 8) 6) max_sector) r in
  let r := set_dh max_head r in
  let r := set_dl (if int13_is_fdd d then num_fdds b else num_drives b) r in
  (* Floppy-specific parameters *)
  ret (0, if int13_is_fdd d
          then set_di int13_fdd_params_off
                 (set_seg_es rm_ds (set_bl INT13_FDD_TYPE_1M44 r))
          else r).

Definition int13_get_disk_type (s : Z) (r : i386_all_regs)
    : cprog (Z * i386_all_regs) :=
  d <- get_sandev s ;;
  if int13_is_fdd d then ret (INT13_DISK_TYPE_FDD, r) else
  let blocks := int13_capacity32 d in
  ret (INT13_DISK_TYPE_HDD,
       set_dx (Z.land blocks 0xffff) (set_cx (Z.shiftr blocks 16) r)).

Definition int13_extension_check (s : Z) (r : i386_all_regs)
    : cprog (Z * i386_all_regs) :=
  d <- get_sandev s ;;
  if (bx r =? 0x55aa) && negb (int13_is_fdd d) then
    let r := set_bx 0xaa55 r in
    let r := set_cx (Z.lor INT13_EXTENSION_LINEAR
                       (Z.lor INT13_EXTENSION_EDD INT13_EXTENSION_64BIT)) r in
    ret (INT13_EXTENSION_VER_3_0, r)
  else ret (- INT13_STATUS_INVALID, r).

(** The bytes of a disk address packet: buffer, LBA and count, or [None] for
    an invalid count. *)
Definition addr_count (addr : list Z) : Z := field 2 1 addr.
Definition addr_lba (addr : list Z) : Z := field 8 8 addr.
Definition addr_buffer (addr : list Z) : Z :=
  let segment := field 6 2 addr in
  let offset := field 4 2 addr in
  if (addr_count addr =? 0xff) || ((segment =? 0xffff) && (offset =? 0xffff))
  then u32 (field 16 8 addr)
  else real_to_user segment offset.
Definition addr_blocks (addr : list Z) : option Z :=
  let count := addr_count addr in
  if count <=? 0x7f then Some count
  else if count =? 0xff then Some (field 24 4 addr)
  else None.

Definition int13_extended_rw (s : Z) (r : i386_all_regs) (rw : block_rw)
    : cprog (Z * i386_all_regs) :=
  d <- get_sandev s ;;
  (* Extended reads are not allowed on floppy drives *)
  if int13_is_fdd d then ret (- INT13_STATUS_INVALID, r) else
  (* Get buffer size *)
  bufsize <- get_real 1 (seg_ds r) (si r) ;;
  if bufsize <? addr_buffer_phys then ret (- INT13_STATUS_INVALID, r) else
  (* Read parameters from disk address structure; a copy past its end is
     undefined *)
  if Z.of_nat sizeof_addr <? bufsize then undef else
  packet <- copy_from_real (Z.to_nat bufsize) (seg_ds r) (si r) ;;
  let addr := packet ++ replicate (sizeof_addr - Z.to_nat bufsize) 0 in
  match addr_blocks addr with
  | None => ret (- INT13_STATUS_INVALID, r)
  | Some count =>
      (* Read from / write to block device *)
      rc <- run_sandev_rw rw s (addr_lba addr) count (addr_buffer addr) ;;
      if negb (rc =? 0) then
        (* Record that no blocks were transferred successfully *)
        put_real 1 0 (seg_ds r) (si r + 2) ;;
        ret (- INT13_STATUS_READ_ERROR, r)
      else ret (0, r)
  end.

Definition int13_extended_read (s : Z) (r : i386_all_regs) :=
  int13_extended_rw s r rw_read.
Definition int13_extended_write (s : Z) (r : i386_all_regs) :=
  int13_extended_rw s r rw_write.

(** We have no mechanism for verifying sectors. *)
Definition int13_extended_verify (s : Z) (r : i386_all_regs)
    : cprog (Z * i386_all_regs) := ret (- INT13_STATUS_INVALID, r).
(** Ignore and return success. *)
Definition int13_extended_seek (s : Z) (r : i386_all_regs)
    : cprog (Z * i386_all_regs) := ret (0, r).

(** Status, and the device path information if it is 0. *)
Definition int13_device_path_info (s : Z) : cprog (Z * list Z) :=
  (* Reopen block device if necessary *)
  needs_reopen <- sandev_needs_reopen s ;;
  rc <- (if (needs_reopen : bool) then sandev_reopen s else ret 0) ;;
  if negb (rc =? 0) then ret (rc, []) else
  d <- get_sandev s ;;
  sanpath <- deref (fun _ => active d) ;;
  (* Get underlying hardware device *)
  device <- identify_device (I_sanpath_block s sanpath) ;;
  match device with
  | None => ret (- ENODEV, [])
  | Some (bus_type, location) =>
      if negb (bus_type =? BUS_TYPE_PCI) then ret (- ENOTSUP, []) else
      (* Get EDD block device description *)
      let! (rc, type, device_path) :=
        edd_describe (I_sanpath_block s sanpath) in
      if negb (rc =? 0) then ret (rc, []) else
      ret (0, edd_dpi location type device_path)
  end.

Definition int13_get_extended_parameters (s : Z) (r : i386_all_regs)
    : cprog (Z * i386_all_regs) :=
  (* Get buffer size *)
  bufsize <- get_real 2 (seg_ds r) (si r) ;;
  (* Build drive parameters *)
  d <- get_sandev s ;;
  let! (rc, dpi) := int13_device_path_info s in
  (* Calculate returned buffer size *)
  if bufsize <? params_dpte then ret (- INT13_STATUS_INVALID, r) else
  let size := if bufsize <? params_dpi then params_dpte else params_dpi in
  let params := disk_parameters d size ++ (if rc =? 0 then dpi else []) in
  (* Return drive parameters *)
  copy_to_real (seg_ds r) (si r) (take (Z.to_nat bufsize) params) ;;
  ret (0, r).

Definition int13_cdrom_status_terminate (s : Z) (r : i386_all_regs)
    : cprog (Z * i386_all_regs) :=
  d <- get_sandev s ;;
  (* Fail if we are not a CD-ROM *)
  if negb (is_cdrom d) then ret (- INT13_STATUS_INVALID, r) else
  (* Return specification packet *)
  copy_to_real (seg_ds r) (si r)
    ([19; 0; u8 (drive d)] ++ replicate 16 0) ;;
  ret (0, r).

Definition int13_cdrom_read_boot_catalog (s : Z) (r : i386_all_regs)
    : cprog (Z * i386_all_regs) :=
  (* Read parameters from command packet *)
  command <- copy_from_real 8 (seg_ds r) (si r) ;;
  (* Fail if we have no boot catalog *)
  d <- get_sandev s ;;
  if boot_catalog (priv d) =? 0 then ret (- INT13_STATUS_INVALID, r) else
  let start := u32 (boot_catalog (priv d) + field 6 2 command) in
  (* Read from boot catalog *)
  rc <- sandev_read s start (field 1 1 command) (field 2 4 command) ;;
  ret (if negb (rc =? 0) then - INT13_STATUS_READ_ERROR else 0, r).

(** ** The handler *)

Definition int13_function (command s : Z) (r : i386_all_regs)
    : cprog (Z * i386_all_regs) :=
  if command =? INT13_RESET then int13_reset s r
  else if command =? INT13_GET_LAST_STATUS then int13_get_last_status s r
  else if command =? INT13_READ_SECTORS then int13_read_sectors s r
  else if command =? INT13_WRITE_SECTORS then int13_write_sectors s r
  else if command =? INT13_GET_PARAMETERS then int13_get_parameters s r
  else if command =? INT13_GET_DISK_TYPE then int13_get_disk_type s r
  else if command =? INT13_EXTENSION_CHECK then int13_extension_check s r
  else if command =? INT13_EXTENDED_READ then int13_extended_read s r
  else if command =? INT13_EXTENDED_WRITE then int13_extended_write s r
  else if command =? INT13_EXTENDED_VERIFY then int13_extended_verify s r
  else if command =? INT13_EXTENDED_SEEK then int13_extended_seek s r
  else if command =? INT13_GET_EXTENDED_PARAMETERS
  then int13_get_extended_parameters s r
  else if command =? INT13_CDROM_STATUS_TERMINATE
  then int13_cdrom_status_terminate s r
  else if command =? INT13_CDROM_READ_BOOT_CATALOG
  then int13_cdrom_read_boot_catalog s r
  else ret (- INT13_STATUS_INVALID, r).

(** The registers for a status: AH, CF and OF. *)
Definition int13_result (status : Z) (r : i386_all_regs) : i386_all_regs :=
  let r := if status <? 0 then r else put_flag CF false r in
  put_flag OF true (set_ah (if status <? 0 then - status else status) r).

(** Execute a call on drive [s]. *)
Definition int13_execute (s : Z) (r : i386_all_regs) : cprog i386_all_regs :=
  let! (status, r) := int13_function (ah r) s r in
  (* Store status for INT 13,01 *)
  upd_priv s (set_last_status status) ;;
  ret (int13_result status r).

Fixpoint int13_search (l : list Z) (r : i386_all_regs) : cprog i386_all_regs :=
  match l with
  | [] => ret r
  | s :: l =>
      d <- get_sandev s ;;
      let bios_drive := dl r in
      if bios_drive =? drive d then int13_execute s r
      (* Remap any accesses to this drive's natural number *)
      else if bios_drive =? natural_drive (priv d)
      then ret (set_dl (drive d) r)
      (* Catch non-drive-specific CD-ROM calls *)
      else if (Z.land bios_drive 0x7f =? 0x7f) &&
              (ah r =? INT13_CDROM_STATUS_TERMINATE) && is_cdrom d
      then int13_execute s r
      else int13_search l r
  end.

Definition int13 (r : i386_all_regs) : cprog i386_all_regs :=
  (* Check BIOS hasn't killed off our drive *)
  int13_check_num_drives ;;
  l <- all_sandevs ;;
  int13_search l r.

(** ** The assembly wrapper *)

(** [orb $0, %al]: clears OF and CF, sets SF, ZF and PF from AL. *)
Fixpoint parity (n : nat) (v : Z) : bool :=
  match n with
  | O => true
  | S n => xorb (Z.odd v) (parity n (Z.div2 v))
  end.
Definition orb0_al (r : i386_all_regs) : i386_all_regs :=
  put_flag PF (parity 8 (al r))
    (put_flag ZF (al r =? 0)
       (put_flag SF (Z.testbit (al r) 7)
          (put_flag CF false (put_flag OF false r)))).

Definition int13_wrapper (r : i386_all_regs) : cprog i386_all_regs :=
  (* Preserve %ax and %dx for future reference *)
  let old := r in
  (* Clear OF, set CF, call int13() *)
  r <- int13 (put_flag CF true (orb0_al r)) ;;
  (* Chain if OF not set *)
  r <- (if flag OF r then ret r else
          b <- gets w_bios ;;
          call_handler (int13_vector b) r) ;;
  (* Fix up %dl *)
  b <- gets w_bios ;;
  if (ah old =? 0x15) && Z.testbit (dl old) 7 then ret r
  else if negb (ah old =? 0x08) then ret (set_dl (dl old) r)
  else if Z.testbit (dl old) 7 then ret (set_dl (num_drives b) r)
  else ret (set_dl (num_fdds b) r).

(** [int $0x13], through the interrupt vector table. *)
Definition int_0x13 (r : i386_all_regs) : cprog i386_all_regs :=
  vector <- get_vector 0x13 ;;
  if bool_decide (vector = (rm_cs, int13_wrapper_off)) then int13_wrapper r
  else call_handler vector r.

(** ** Hooking and unhooking *)

Definition int13_hook_vector : cprog unit :=
  b <- gets w_bios ;;
  v <- hook_bios_interrupt 0x13 int13_wrapper_off (int13_vector b) ;;
  upd_bios (set_int13_vector v).

Definition int13_unhook_vector : cprog unit :=
  b <- gets w_bios ;;
  let! (_, v) :=
    unhook_bios_interrupt 0x13 int13_wrapper_off (int13_vector b) in
  upd_bios (set_int13_vector v).

Definition devices_get : cprog unit :=
  upd_bios (fun b => set_device_keep_count (device_keep_count b + 1) b).
Definition devices_put : cprog unit :=
  upd_bios (fun b => set_device_keep_count (device_keep_count b - 1) b).

(** Parse parameters and give the drive a default geometry. *)
Definition int13_configure (s scratch : Z) : cprog Z :=
  d <- get_sandev s ;;
  rc <- (if is_cdrom d then int13_parse_eltorito s scratch else ret 0) ;;
  if negb (rc =? 0) then ret rc else
  d <- get_sandev s ;;
  if sandev_blksize d =? INT13_BLKSIZE then int13_guess_geometry s scratch
  else ret 0.

Definition int13_hook (drive_ : Z) (uris : list Z) (flags_ : Z) : cprog Z :=
  have <- have_sandevs ;;
  let need_hook := negb have in
  (* Calculate natural drive number *)
  int13_sync_num_drives ;;
  b <- gets w_bios ;;
  let natural_drive_ := if bool_of_Z (Z.land drive_ 0x80)
                        then Z.lor (num_drives b) 0x80 else num_fdds b in
  (* Use natural drive number if directed to do so *)
  let drive_ := if Z.land drive_ 0x7f =? 0x7f then natural_drive_ else drive_ in
  (* Allocate SAN device *)
  s <- alloc_sandev uris ;;
  if s =? NULL then ret (- ENOMEM) else
  upd_priv s (set_natural_drive natural_drive_) ;;
  (* Register SAN device *)
  rc <- register_sandev s drive_ flags_ ;;
  if negb (rc =? 0) then sandev_put s ;; ret rc else
  (* Allocate scratch area *)
  d <- get_sandev s ;;
  scratch <- malloc (sandev_blksize d) ;;
  if scratch =? NULL then
    unregister_sandev s ;; sandev_put s ;; ret rc
  else
  rc <- int13_configure s scratch ;;
  if negb (rc =? 0) then
    free scratch ;; unregister_sandev s ;; sandev_put s ;; ret rc
  else
  (* Hook INT 13 vector if not already hooked *)
  when need_hook (int13_hook_vector ;; devices_get) ;;
  (* Update BIOS drive count *)
  int13_sync_num_drives ;;
  free scratch ;;
  ret drive_.

Definition int13_unhook (drive_ : Z) : cprog unit :=
  (* Find drive *)
  found <- sandev_find drive_ ;;
  match found with
  | None => ret tt
  | Some s =>
      (* Unregister SAN device *)
      unregister_sandev s ;;
      (* Unhook INT 13 vector if no more drives *)
      have <- have_sandevs ;;
      when (negb have) (devices_put ;; int13_unhook_vector) ;;
      (* Drop reference to drive *)
      sandev_put s
  end.

(** ** Booting *)

(** Run [int $0x13] with a fresh set of registers: AX, or 0 if CF is clear. *)
Definition int13_status (r : i386_all_regs) : cprog Z :=
  r <- int_0x13 (put_flag CF true r) ;;
  ret (if flag CF r then ax r else 0).

(** Load and verify the master boot record: status and boot address. *)
Definition int13_load_mbr (drive_ : Z) : cprog (Z * (Z * Z)) :=
  (* Use INT 13, 02 to read the MBR *)
  let address := (0, 0x7c00) in
  status <- int13_status (mkRegs 0x0201 0x7c00 1 drive_ 0 0 rm_ds 0 0) ;;
  if negb (status =? 0) then ret (- EIO, address) else
  (* Check magic signature *)
  magic <- get_real 2 0 (0x7c00 + 510) ;;
  if negb (magic =? INT13_MBR_MAGIC) then ret (- ENOEXEC, address)
  else ret (0, address).

(** Load and verify the El Torito boot image: status and boot address. *)
Definition int13_load_eltorito (drive_ : Z) : cprog (Z * (Z * Z)) :=
  (* Use INT 13, 4d to read the boot catalog *)
  status <- int13_status
    (mkRegs 0x4d00 0 0 drive_ eltorito_cmd_off 0 rm_ds rm_ds 0) ;;
  if negb (status =? 0) then ret (- EIO, (0, 0)) else
  buffer <- get_real 4 rm_ds (eltorito_cmd_off + 2) ;;
  catalog <- gets (fun w => load 64 buffer (w_mem w)) ;;
  (* Sanity checks *)
  if negb (field 1 1 catalog =? ELTORITO_PLATFORM_X86)
  then ret (- ENOEXEC, (0, 0)) else
  if negb (field 32 1 catalog =? ELTORITO_BOOTABLE)
  then ret (- ENOEXEC, (0, 0)) else
  if negb (field 33 1 catalog =? ELTORITO_NO_EMULATION)
  then ret (- ENOTSUP, (0, 0)) else
  let load_segment := field 34 2 catalog in
  let segment := if load_segment =? 0 then 0x7c0 else load_segment in
  (* Use INT 13, 42 to read the boot image *)
  put_real 1 addr_buffer_phys rm_ds eltorito_address_off ;;
  put_real 1 (field 38 2 catalog) rm_ds (eltorito_address_off + 2) ;;
  copy_to_real rm_ds (eltorito_address_off + 4) (segoff_bytes (segment, 0)) ;;
  put_real 8 (field 40 4 catalog) rm_ds (eltorito_address_off + 8) ;;
  status <- int13_status
    (mkRegs 0x4200 0 0 drive_ eltorito_address_off 0 rm_ds rm_ds 0) ;;
  ret (if negb (status =? 0) then - EIO else 0, (segment, 0)).

(** Boot, given what jumping to a boot sector does. *)
Definition int13_boot (call_bootsector : Z -> Z -> Z -> cprog Z) (drive_ : Z)
    : cprog Z :=
  (* Look for a usable boot sector *)
  let! (rc, address) := int13_load_mbr drive_ in
  let! (rc, address) :=
    (if negb (rc =? 0) then int13_load_eltorito drive_
     else ret (rc, address)) in
  if negb (rc =? 0) then ret rc else
  (* Jump to boot sector *)
  rc <- call_bootsector address.1 address.2 drive_ ;;
  if negb (rc =? 0) then ret rc else ret (- ECANCELED).

(** ** Boot firmware tables *)

Definition XBFTAB_SIZE : Z := 768.
Definition XBFTAB_ALIGN : Z := 16.

(** "FENSYS" and "iPXE", the latter padded by strncpy. *)
Definition oem_id : list Z := [0x46; 0x45; 0x4e; 0x53; 0x59; 0x53].
Definition oem_table_id : list Z := [0x69; 0x50; 0x58; 0x45; 0; 0; 0; 0].

Definition xbftab : Z := real_to_user rm_ds xbftab_off.

Definition int13_install (acpi : Z) : cprog Z :=
  (* Check length *)
  used <- gets (fun w => xbftab_used (w_bios w)) ;;
  len <- load32 (u32 (acpi + acpi_length)) ;;
  if u32 (XBFTAB_SIZE - used) <? len then ret (- ENOSPC) else
  (* Install table *)
  let installed := xbftab + used in
  table <- load_at (load (Z.to_nat len)) acpi ;;
  modify (fun w =>
    let m := store installed table (w_mem w) in
    (* Fill in common parameters *)
    let m := store (installed + acpi_oem_id) oem_id m in
    let m := store (installed + acpi_oem_table_id) oem_table_id m in
    (* Fix checksum *)
    set_w_mem (acpi_fix_checksum installed m) w) ;;
  (* Update used length *)
  upd_bios (set_xbftab_used
    (Z.land (u32 (used + len + XBFTAB_ALIGN - 1)) (not32 (XBFTAB_ALIGN - 1)))) ;;
  ret 0.

(** Describe SAN devices, given the tables the ACPI models install. *)
Definition int13_describe (acpi_install : (Z -> cprog Z) -> cprog Z)
    : cprog Z :=
  (* Clear tables *)
  modify (fun w => set_w_mem (fill xbftab 0 XBFTAB_SIZE (w_mem w)) w) ;;
  upd_bios (set_xbftab_used 0) ;;
  (* Install ACPI tables *)
  acpi_install int13_install.

End int13.
