(* ===== verification/Xbft.v ===== *)
(** * Xbft

    The boot firmware tables that [int13_describe] leaves for the operating
    system: a packed sequence of valid ACPI tables in a fixed area. *)

From S2P Require Import Prelude.
From S2P Require Import Memory.
From S2P Require Import World.
From S2P Require Import Object.
From S2P Require Import Malloc.
From S2P Require Import Biosint.
From S2P Require Import Acpi.
From S2P Require Import AcpiSpec.
From S2P Require Import Int13.

(** Where the next table goes after [x] bytes. *)
Definition xbft_align (x : Z) : Z :=
  Z.land (u32 (x + XBFTAB_ALIGN - 1)) (not32 (XBFTAB_ALIGN - 1)).

Section xbft.
Context `{Platform}.

(** Tables of the lengths [lens], one after the other from offset [from] to
    offset [used]: each is within the area, has a good checksum and starts at
    a multiple of the alignment. *)
Fixpoint tables_at (from : Z) (lens : list Z) (used : Z) (m : mem) : Prop :=
  match lens with
  | [] => from = used
  | len :: lens =>
      sizeof_acpi_header <= len /\ from + len <= XBFTAB_SIZE /\
      ld32 (xbftab + from + acpi_length) m = len /\
      acpi_checksum (xbftab + from) m = 0 /\
      tables_at (xbft_align (from + len)) lens used m
  end.

Definition xbftab_ok (lens : list Z) (w : world) : Prop :=
  byte_mem (w_mem w) /\ tables_at 0 lens (xbftab_used (w_bios w)) (w_mem w).

Lemma xbft_align_spec x :
  0 <= x < 2 ^ 31 -> xbft_align x mod 16 = 0 /\ x <= xbft_align x < x + 16.
Proof.
  intros Hx. unfold xbft_align, XBFTAB_ALIGN. rewrite land_not32_15 by apply u32_range.
  rewrite u32_small by lia. split; dlia.
Qed.

Lemma tables_at_used from lens used m :
  tables_at from lens used m -> 0 <= from <= XBFTAB_SIZE -> from mod 16 = 0 ->
  from <= used <= XBFTAB_SIZE /\ used mod 16 = 0.
Proof.
  revert from. induction lens as [|len lens IH]; intros from; cbn [tables_at].
  - intros <- Hf Hm. lia.
  - intros (Hh & Hl & _ & _ & Ht) Hf Hm. unfold sizeof_acpi_header, XBFTAB_SIZE in *.
    destruct (xbft_align_spec (from + len)) as [Ha Hr]; [lia|].
    destruct (IH _ Ht) as [Hu Hmu]; [|done|]; [split; [lia|dlia]|]. lia.
Qed.

(** A table does not notice changes outside it. *)
Lemma checksum_frame table len a n m m' :
  ld32 (table + acpi_length) m = len -> 8 <= len ->
  mem_eq_except a n m m' -> disjoint a n table len ->
  ld32 (table + acpi_length) m' = len /\ acpi_checksum table m' = acpi_checksum table m.
Proof.
  unfold acpi_checksum, ld32, acpi_length, disjoint. intros Hl Hlen Hm Hd.
  rewrite (load_eq_except 4 (table + 4) a n m m' Hm) by (unfold disjoint; lia).
  split; [exact Hl|]. rewrite Hl.
  by rewrite (load_eq_except _ table a n m m' Hm) by (unfold disjoint; lia).
Qed.

Lemma tables_at_frame from lens used n m m' :
  tables_at from lens used m -> 0 <= from <= XBFTAB_SIZE -> from mod 16 = 0 ->
  mem_eq_except (xbftab + used) n m m' -> tables_at from lens used m'.
Proof.
  revert from. induction lens as [|len lens IH]; intros from; cbn [tables_at]; [done|].
  intros (Hh & Hl & Hlen & Hc & Ht) Hf Hm Heq. unfold sizeof_acpi_header, XBFTAB_SIZE in *.
  destruct (xbft_align_spec (from + len)) as [Ha Hr]; [lia|].
  destruct (tables_at_used _ _ _ _ Ht) as [Hu _]; [split; [lia|unfold XBFTAB_SIZE; dlia]|done|].
  destruct (checksum_frame (xbftab + from) len (xbftab + used) n m m' Hlen) as [E1 E2];
    [lia|exact Heq|unfold disjoint; lia|].
  split_and!; [lia..|exact E1|congruence|]. apply IH; [done|split; [lia|dlia]|done|done].
Qed.

Lemma tables_at_snoc from lens used len m :
  tables_at from lens used m -> tables_at used [len] (xbft_align (used + len)) m ->
  tables_at from (lens ++ [len]) (xbft_align (used + len)) m.
Proof.
  revert from. induction lens as [|l lens IH]; intros from; cbn [tables_at app].
  - by intros ->.
  - intros (? & ? & ? & ? & Ht) Hlast. split_and!; auto.
Qed.

(** A table as it is installed. *)
Definition installed_mem (installed : Z) (table : list Z) (m : mem) : mem :=
  acpi_fix_checksum installed
    (store (installed + acpi_oem_table_id) oem_table_id
      (store (installed + acpi_oem_id) oem_id (store installed table m))).

(** The parts of a table that installing it leaves alone. *)
Lemma load_named k o a table m :
  (o + k <= 10 \/ 24 <= o)%nat -> (o + k <= length table)%nat ->
  load k (a + Z.of_nat o)
    (store (a + acpi_oem_table_id) oem_table_id
      (store (a + acpi_oem_id) oem_id (store a table m))) = take k (drop o table).
Proof.
  intros Ho Hk. unfold acpi_oem_table_id, acpi_oem_id.
  rewrite !load_store_disjoint by (unfold disjoint; cbn [length oem_id oem_table_id]; lia).
  by apply load_store_part.
Qed.

Lemma installed_mem_spec a table m :
  (36 <= length table)%nat -> byte_mem m -> Forall is_byte table ->
  le_combine (take 4 (drop 4 table)) = Z.of_nat (length table) ->
  let m' := installed_mem a table m in
  byte_mem m' /\ mem_eq_except a (Z.of_nat (length table)) m m' /\
  ld32 (a + acpi_length) m' = Z.of_nat (length table) /\ acpi_checksum a m' = 0 /\
  load 9 a m' = take 9 table /\
  load (length table - 24) (a + 24) m' = drop 24 table.
Proof.
  intros Hl Hm Ht Hlen m'. unfold m', installed_mem. set (m1 := store (a + acpi_oem_table_id) _ _).
  assert (Hm1 : byte_mem m1).
  { repeat apply byte_mem_store; auto; repeat constructor; unfold is_byte; lia. }
  assert (Hlen1 : ld32 (a + 4) m1 = Z.of_nat (length table)).
  { unfold ld32, m1. change (a + 4) with (a + Z.of_nat 4).
    rewrite load_named by lia. exact Hlen. }
  destruct (fix_checksum_zero a m1 Hm1) as [Hc Heq]; [lia|].
  assert (E9 : load 9 a m1 = take 9 table).
  { pose proof (load_named 9 0 a table m) as E. rewrite Z.add_0_r in E. apply E; lia. }
  assert (E24 : load (length table - 24) (a + 24) m1 = drop 24 table).
  { unfold m1. change (a + 24) with (a + Z.of_nat 24). rewrite load_named by lia.
    apply take_ge. rewrite length_drop. lia. }
  split_and!.
  - apply byte_mem_store; [apply le_split_bytes|exact Hm1].
  - eapply mem_eq_except_trans; [|eapply mem_eq_except_mono; [exact Heq|lia..]].
    unfold m1, acpi_oem_table_id, acpi_oem_id.
    do 2 (eapply mem_eq_except_trans; [|apply mem_eq_except_store; cbn; lia]).
    apply mem_eq_except_store; lia.
  - unfold acpi_length, acpi_fix_checksum, acpi_checksum_byte. by rewrite length_field_st8.
  - exact Hc.
  - by rewrite (load_eq_except 9 a _ _ _ _ Heq) by (unfold disjoint; lia).
  - by rewrite (load_eq_except _ (a + 24) _ _ _ _ Heq) by (unfold disjoint; lia).
Qed.

(** Installing a table in the boot firmware area: if it does not fit
    behind those already there, -ENOSPC is returned and nothing changes.
    Otherwise it is appended, at a multiple of 16: its signature, length,
    revision and its contents behind the OEM fields are those of the original,
    its bytes sum to zero, the tables before it are still valid, and no memory
    outside its place in the area changes. *)
Theorem int13_install_appends lens acpi (w : world) :
  let used := xbftab_used (w_bios w) in
  let len := ld32 (virt_to_phys acpi + acpi_length) (w_mem w) in
  let table := load (Z.to_nat len) (virt_to_phys acpi) (w_mem w) in
  xbftab_ok lens w -> 0 < acpi -> acpi + 4 < 2 ^ 32 ->
  virt_to_phys acpi + 4 < 2 ^ 32 -> sizeof_acpi_header <= len ->
  wp (int13_install acpi)
    (fun rc w' =>
       if XBFTAB_SIZE - used <? len then rc = - ENOSPC /\ w' = w
       else rc = 0 /\ xbftab_ok (lens ++ [len]) w' /\
            mem_eq_except (xbftab + used) len (w_mem w) (w_mem w') /\
            load 9 (xbftab + used) (w_mem w') = take 9 table /\
            load (Z.to_nat len - 24) (xbftab + used + 24) (w_mem w') = drop 24 table) w.
Proof.
  intros used len table [Hm Ht] Ha Ha4 Hv Hlen.
  destruct (tables_at_used _ _ _ _ Ht) as [Hu Hmu]; [unfold XBFTAB_SIZE; lia|done|].
  fold used in Hu, Hmu. unfold int13_install. wp_prim. wp_prim. fold used.
  apply wp_bind. apply wp_load_at; [unfold acpi_length; rewrite u32_small by lia; lia|].
  rewrite (u32_small (acpi + acpi_length)) by (unfold acpi_length; lia).
  rewrite virt_to_phys_add by (unfold acpi_length; lia). fold len.
  unfold XBFTAB_SIZE in *. rewrite (u32_small (768 - used)) by lia.
  destruct (Z.ltb_spec (768 - used) len) as [Hfull|Hfit]; [by wp_prim|].
  apply wp_bind, wp_load_at; [lia|]. fold table. repeat wp_prim.
  unfold upd_bios. repeat wp_prim.
  assert (Hn : Z.of_nat (length table) = len).
  { unfold table. rewrite length_load. unfold sizeof_acpi_header in Hlen. lia. }
  destruct (installed_mem_spec (xbftab + used) table (w_mem w))
    as (Hb' & Heq & Hl' & Hc' & H9 & H24); [unfold sizeof_acpi_header in Hlen; lia|done|
    by apply load_bytes| |].
  { unfold table. rewrite drop_load, take_load by (unfold sizeof_acpi_header in Hlen; lia).
    rewrite length_load. etrans; [|symmetry; apply Z2Nat.id; unfold sizeof_acpi_header in Hlen; lia]. done. }
  rewrite Hn in *. split_and!; [done| |exact Heq|exact H9|].
  - split; [exact Hb'|]. wsimpl. apply tables_at_snoc.
    + eapply tables_at_frame; [exact Ht|unfold XBFTAB_SIZE; lia|done|exact Heq].
    + cbn [tables_at]. unfold XBFTAB_SIZE. split_and!; auto; lia.
  - rewrite <- H24. unfold table. by rewrite length_load.
Qed.
End xbft.
