(* ===== verification/Autoboot.v ===== *)
(** * Autoboot

    The program's main flow, from usr/autoboot.c: the URI of the NVMe drive is
    parsed, the drive is hooked as BIOS drive 0x80 and described, and its boot
    sector is run (arch/x86/image/bootsector.c).  Console output is left
    out. *)

From stdpp Require Import strings.
From S2P Require Import Prelude.
From S2P Require Import Memory.
From S2P Require Import World.
From S2P Require Import Object.
From S2P Require Import Malloc.
From S2P Require Import Cstring.
From S2P Require Import Uri.
From S2P Require Import Sanboot.
From S2P Require Import Biosint.
From S2P Require Import Acpi.
From S2P Require Import Int13.

(** The registers with which a boot sector starts: all clear but for the
    drive number in EDX. *)
Definition bootsector_regs (drive_ : Z) : i386_all_regs :=
  mkRegs 0 0 0 drive_ 0 0 0 0 0.

Section autoboot.
Context `{Platform} `{!Methods}.

(** Code at a real-mode address, run with given registers until it gives up
    by INT 18 or INT 19. *)
Context (run_bootsector : Z * Z -> i386_all_regs -> cprog unit).
(** The installation methods of the ACPI table models. *)
Context (acpi_models : list ((Z -> cprog Z) -> cprog Z)).

Definition call_bootsector (segment offset drive_ : Z) : cprog Z :=
  (* Hook INTs 18 and 19 to capture failure paths *)
  v <- gets (fun w => int18_vector (w_bios w)) ;;
  v <- hook_bios_interrupt 0x18 bootsector_exec_fail v ;;
  upd_bios (set_int18_vector v) ;;
  v <- gets (fun w => int19_vector (w_bios w)) ;;
  v <- hook_bios_interrupt 0x19 bootsector_exec_fail v ;;
  upd_bios (set_int19_vector v) ;;
  (* Boot the loaded sector *)
  run_bootsector (u16 segment, u16 offset) (bootsector_regs drive_) ;;
  (* Unhook INTs 18 and 19 *)
  v <- gets (fun w => int18_vector (w_bios w)) ;;
  let! (_, v) := unhook_bios_interrupt 0x18 bootsector_exec_fail v in
  upd_bios (set_int18_vector v) ;;
  v <- gets (fun w => int19_vector (w_bios w)) ;;
  let! (_, v) := unhook_bios_interrupt 0x19 bootsector_exec_fail v in
  upd_bios (set_int19_vector v) ;;
  ret (- ECANCELED).

Definition san_hook := int13_hook.
Definition san_describe : cprog Z := int13_describe (acpi_install acpi_models).
Definition san_boot : Z -> cprog Z := int13_boot call_bootsector.

(** Open, hook and describe the drive: its number, or the status that the
    program ends with. *)
Definition ipxe_open : cprog (Z + Z) :=
  _ <- parse_uri (cs "") ;;
  nvme_uri <- parse_uri (cs "nvme:0") ;;
  drive_ <- san_hook 0x80 [nvme_uri] 0 ;;
  if drive_ <? 0 then ret (inl drive_) else
  rc <- san_describe ;;
  if negb (rc =? 0) then ret (inl rc) else
  ret (inr drive_).

Definition ipxe : cprog Z :=
  r <- ipxe_open ;;
  match r with
  | inl rc => ret rc
  | inr drive_ => san_boot drive_
  end.

End autoboot.
