(* ===== verification/Geometry.v ===== *)
(** * Geometry

    Drive geometry of int13.c: addresses in cylinders, heads and sectors
    against linear addresses, their encoding in registers, and the guessing
    of a geometry. *)

From S2P Require Import Prelude.
From S2P Require Import Memory.
From S2P Require Import World.
From S2P Require Import Object.
From S2P Require Import Blockdev.
From S2P Require Import Sanboot.
From S2P Require Import Biosint.
From S2P Require Import Acpi.
From S2P Require Import Int13.

(** The inverse of the conversion that INT 13,02 does. *)
Definition lba_to_chs (i : int13_data) (lba : Z) : Z * Z * Z :=
  (lba / (heads i * sectors_per_track i),
   lba / sectors_per_track i mod heads i,
   lba mod sectors_per_track i + 1).

(** A geometry that fits the registers of INT 13. *)
Record geometry_ok (i : int13_data) : Prop := {
  geo_c : 1 <= cylinders i <= 1024;
  geo_h : 1 <= heads i <= 256;
  geo_s : 1 <= sectors_per_track i <= 63 }.

(** CX and DH for an address, as callers of INT 13,02 build them. *)
Definition put_chs (c h s : Z) (r : i386_all_regs) : i386_all_regs :=
  set_dh h (set_cl (Z.lor (Z.shiftl (Z.shiftr c 8) 6) s)
              (set_ch (Z.land c 0xff) r)).

(** A boot sector with a partition at LBA 16777216, head 1 to head 255. *)
Definition wrapping_partition : list Z :=
  [0; 1; 1; 0; 7; 255; 1; 0] ++ le_split 4 16777216 ++ [0; 0; 0; 0].
Definition wrapping_mbr : list Z :=
  replicate 446 0 ++ wrapping_partition ++ replicate 48 0 ++ [0x55; 0xaa].

(** The number of blocks of a floppy geometry. *)
Definition fdd_blocks (g : Z * Z) : Z :=
  INT13_FDD_CYLINDERS g * INT13_FDD_HEADS g * INT13_FDD_SECTORS g.

Lemma chs_in_range_spec i c h s :
  chs_in_range i c h s = true <->
  c < cylinders i /\ h < heads i /\ 1 <= s <= sectors_per_track i.
Proof. unfold chs_in_range. lia. Qed.

(** Without the wrap-arounds. *)
Lemma chs_to_lba_small i c h s :
  cylinders i * heads i * sectors_per_track i <= 2 ^ 32 ->
  0 <= c -> 0 <= h -> chs_in_range i c h s = true ->
  chs_to_lba i c h s = (c * heads i + h) * sectors_per_track i + (s - 1) /\
  0 <= chs_to_lba i c h s < cylinders i * heads i * sectors_per_track i.
Proof.
  intros Hsize H0 H1 Hr. apply chs_in_range_spec in Hr.
  assert (A : 0 <= c * heads i <= c * heads i + h /\ c * heads i + h < cylinders i * heads i) by nia.
  assert (C : c * heads i + h <= (c * heads i + h) * sectors_per_track i
              <= (cylinders i * heads i - 1) * sectors_per_track i) by nia.
  unfold chs_to_lba.
  rewrite (u32_small (c * heads i)) by lia. rewrite (u32_small (_ + h)) by lia.
  rewrite (u32_small (_ * sectors_per_track i)) by lia. rewrite u32_small by lia.
  split; lia.
Qed.

Lemma chs_to_lba_flat i c h s :
  geometry_ok i -> 0 <= c -> 0 <= h -> chs_in_range i c h s = true ->
  chs_to_lba i c h s = (c * heads i + h) * sectors_per_track i + (s - 1).
Proof.
  intros [Hc Hh Hs]. intros. apply chs_to_lba_small; auto.
  assert (cylinders i * heads i <= 1024 * 256) by nia. nia.
Qed.

Lemma lba_to_chs_range i lba c h s :
  geometry_ok i -> 0 <= lba < cylinders i * heads i * sectors_per_track i ->
  lba_to_chs i lba = (c, h, s) ->
  chs_in_range i c h s = true /\ 0 <= c /\ 0 <= h /\
  (c * heads i + h) * sectors_per_track i + (s - 1) = lba.
Proof.
  intros [Hc Hh Hs] Hl E. unfold lba_to_chs in E. simplify_eq.
  rewrite (Z.mul_comm (heads i)), <- Z.div_div by lia.
  set (q := lba / sectors_per_track i) in *.
  pose proof (Z.div_mod lba (sectors_per_track i) ltac:(lia)) as E1. fold q in E1.
  pose proof (Z.mod_pos_bound lba (sectors_per_track i) ltac:(lia)).
  pose proof (Z.div_mod q (heads i) ltac:(lia)) as E2.
  pose proof (Z.mod_pos_bound q (heads i) ltac:(lia)).
  assert (0 <= q < cylinders i * heads i) by nia.
  assert (0 <= q / heads i < cylinders i)
    by (split; [apply Z.div_pos|apply Z.div_lt_upper_bound]; lia).
  split_and!; try lia. apply chs_in_range_spec; lia.
Qed.

(** C25. Conversion between addresses is a bijection: every linear address
    below [cylinders * heads * sectors] is that of exactly one address in
    range, and conversion there and back is the identity either way. *)
Theorem chs_lba_roundtrip i :
  geometry_ok i ->
  (forall lba, 0 <= lba < cylinders i * heads i * sectors_per_track i ->
     let '(c, h, s) := lba_to_chs i lba in
     chs_in_range i c h s = true /\ chs_to_lba i c h s = lba) /\
  (forall c h s, 0 <= c -> 0 <= h -> chs_in_range i c h s = true ->
     lba_to_chs i (chs_to_lba i c h s) = (c, h, s)).
Proof.
  intros Hg. split.
  - intros lba Hl. destruct (lba_to_chs i lba) as [[c h] s] eqn:E.
    destruct (lba_to_chs_range _ _ _ _ _ Hg Hl E) as (Hr & Hc & Hh & Hv).
    split; [exact Hr|]. rewrite chs_to_lba_flat by assumption. exact Hv.
  - intros c h s Hc Hh Hr. rewrite chs_to_lba_flat by assumption. apply chs_in_range_spec in Hr. destruct Hg as [_ Gh Gs].
    unfold lba_to_chs. rewrite (Z.mul_comm (heads i)), <- Z.div_div by lia.
    rewrite Z.div_add_l, (Z.div_small (s - 1)), Z.add_0_r by lia.
    rewrite Z.div_add_l, (Z.div_small h), Z.add_0_r by lia.
    rewrite (Z.add_comm _ (s - 1)), Z.mod_add, (Z.mod_small (s - 1)) by lia.
    rewrite (Z.add_comm _ h), Z.mod_add, (Z.mod_small h) by lia.
    repeat f_equal; lia.
Qed.

(** ** Register encodings *)

Lemma cl_bits c s : 0 <= c < 1024 -> 0 <= s < 64 ->
  let v := Z.lor (Z.shiftl (Z.shiftr c 8) 6) s in
  u8 v = v /\ v = c / 256 * 64 + s.
Proof.
  intros Hc Hs v. unfold v. rewrite Z.lor_comm, lor_shiftl_add by lia.
  rewrite Z.shiftr_div_pow2 by lia. change (2 ^ 8) with 256. change (2 ^ 6) with 64.
  split; [apply u8_small; dlia|lia].
Qed.

Lemma rw_put_chs c h s r : 0 <= c < 1024 -> 0 <= h < 256 -> 0 <= s < 64 ->
  rw_cylinder (put_chs c h s r) = c /\ rw_head (put_chs c h s r) = h /\
  rw_sector (put_chs c h s r) = s.
Proof.
  intros Hc Hh Hs. destruct (cl_bits c s Hc Hs) as [Hu Hv].
  unfold rw_cylinder, rw_head, rw_sector, put_chs, ch, cl, dh, set_dh, set_cl, set_ch.
  cbn [ecx edx set_ecx set_edx].
  rewrite lo8_put_lo8, hi8_put_lo8, !hi8_put_hi8, Hu, Hv.
  change 0xff with (2 ^ 8 - 1). rewrite land_ones_mod, (u8_small (c mod _)), (u8_small h) by dlia.
  change 0x3f with (2 ^ 6 - 1). rewrite land_ones_mod by lia.
  split_and!; [|reflexivity|dlia].
  change 192 with (Z.shiftl 3 6). rewrite land_shiftl_mask by lia.
  change 3 with (2 ^ 2 - 1). rewrite land_ones_mod, Z.shiftr_div_pow2 by lia.
  rewrite Z.shiftl_shiftl by lia. rewrite Z.lor_comm, lor_shiftl_add by dlia.
  change (2 ^ (6 + 2)) with 256. change (2 ^ 8) with 256. change (2 ^ 6) with 64.
  change (2 ^ 2) with 4. dlia.
Qed.

(** INT 13,08 reports, in the encoding that INT 13,02 reads, an address
    that is in range and is that of the last sector of the geometry, and the
    number of hard disks. *)
Theorem get_parameters_last_sector `{Platform} s d r (w : world) :
  sandevs (w_san w) !! s = Some d -> geometry_ok (priv d) ->
  sandev_blksize d = INT13_BLKSIZE -> int13_is_fdd d = false ->
  wp (int13_get_parameters s r)
    (fun '(status, r') w' =>
       let c := rw_cylinder r' in
       let h := rw_head r' in
       let sec := rw_sector r' in
       status = 0 /\ w' = w /\ dl r' = u8 (num_drives (w_bios w)) /\
       chs_in_range (priv d) c h sec = true /\
       chs_to_lba (priv d) c h sec =
         cylinders (priv d) * heads (priv d) * sectors_per_track (priv d) - 1) w.
Proof.
  intros Hd Hg Hb Hf. pose proof Hg as [Hc Hh Hs].
  unfold int13_get_parameters, get_sandev. wp_prim. eapply wp_deref; [exact Hd|].
  rewrite Hb, Hf. change (negb (INT13_BLKSIZE =? INT13_BLKSIZE)) with false. cbn iota.
  repeat wp_prim. rewrite !u32_small by lia.
  change (set_dh _ (set_cl _ (set_ch _ r)))
    with (put_chs (cylinders (priv d) - 1) (heads (priv d) - 1) (sectors_per_track (priv d)) r).
  set (r1 := put_chs _ _ _ r).
  destruct (rw_put_chs (cylinders (priv d) - 1) (heads (priv d) - 1)
    (sectors_per_track (priv d)) r ltac:(lia) ltac:(lia) ltac:(lia)) as (E1 & E2 & E3).
  fold r1 in E1, E2, E3.
  assert (F2 : rw_head (set_dl (num_drives (w_bios w)) r1) = rw_head r1)
    by apply hi8_put_lo8.
  change (rw_cylinder (set_dl (num_drives (w_bios w)) r1)) with (rw_cylinder r1).
  change (rw_sector (set_dl (num_drives (w_bios w)) r1)) with (rw_sector r1).
  rewrite F2, E1, E2, E3.
  assert (Hr : chs_in_range (priv d) (cylinders (priv d) - 1) (heads (priv d) - 1)
    (sectors_per_track (priv d)) = true) by (apply chs_in_range_spec; lia).
  split_and!; auto; [apply lo8_put_lo8|].
  rewrite chs_to_lba_flat by (assumption || lia). ring.
Qed.

(** ** Guessing *)


Lemma field_range off n bs :
  Forall is_byte bs -> 0 <= field off n bs < 2 ^ (8 * Z.of_nat n).
Proof.
  intros Hb. unfold field. pose proof (le_combine_range (take n (drop off bs))) as Hr.
  split; [apply Hr; by apply Forall_take, Forall_drop|].
  eapply Z.lt_le_trans; [apply Hr; by apply Forall_take, Forall_drop|].
  apply Z.pow_le_mono_r; [lia|]. rewrite length_take. lia.
Qed.

Lemma guess_partition_bounds g p :
  Forall is_byte p -> 0 <= g.1 <= 256 -> 0 <= g.2 < 2 ^ 32 ->
  0 <= (guess_partition g p).1 <= 256 /\ 0 <= (guess_partition g p).2 < 2 ^ 32.
Proof.
  intros Hp Hh Hs. destruct g as [h s]. unfold guess_partition.
  destruct (_ =? 0); [auto|]. cbn [fst snd] in *.
  pose proof (field_range part_chs_end 1 p Hp) as He. fold (PART_HEAD part_chs_end p) in He.
  assert (0 <= PART_SECTOR part_chs_end p < 64).
  { unfold PART_SECTOR. change 0x3f with (2 ^ 6 - 1). rewrite land_ones_mod by lia. dlia. }
  set (n := u32 _ / _).
  assert (PART_HEAD part_chs_start p <> 0 -> 0 <= n < 2 ^ 32).
  { intros Hn. pose proof (field_range part_chs_start 1 p Hp) as Hs'.
    fold (PART_HEAD part_chs_start p) in Hs'. unfold n.
    pose proof (u32_range (field part_start 4 p + 1 - PART_SECTOR part_chs_start p)) as Hu.
    split; [apply Z.div_pos; lia|]. apply Z.div_lt_upper_bound; nia. }
  change (2 ^ (8 * Z.of_nat 1)) with 256 in He.
  destruct (Z.ltb_spec h (PART_HEAD part_chs_end p + 1)),
    (Z.eqb_spec (PART_HEAD part_chs_start p) 0),
    (Z.eqb_spec (PART_CYLINDER part_chs_start p) 0); cbn [andb negb];
    case Z.ltb_spec; lia.
Qed.

(** Whatever bytes the boot sector holds, the geometry guessed from it
    has 1 to 256 heads and at least one sector per track. *)
Theorem guess_geometry_bounds mbr :
  Forall is_byte mbr ->
  1 <= (guess_geometry_mbr mbr).1 <= 256 /\ 1 <= (guess_geometry_mbr mbr).2 < 2 ^ 32.
Proof.
  intros Hb. unfold guess_geometry_mbr.
  assert (I : forall l g, Forall (Forall is_byte) l -> 0 <= g.1 <= 256 -> 0 <= g.2 < 2 ^ 32 ->
    0 <= (fold_left guess_partition l g).1 <= 256 /\
    0 <= (fold_left guess_partition l g).2 < 2 ^ 32).
  { induction l as [|p l IH]; intros g Hl Hh Hs; [auto|]. inversion Hl; subst.
    destruct (guess_partition_bounds g p) as [Hh' Hs']; auto. by apply IH. }
  destruct (I (mbr_partitions mbr) (0, 0)) as [Hh Hs]; [|cbn; lia..|].
  { unfold mbr_partitions. apply Forall_map. apply Forall_forall. intros j _.
    by apply Forall_take, Forall_drop. }
  destruct (fold_left _ _ _) as [h s]. cbn [fst snd] in *.
  destruct (Z.eqb_spec h 0), (Z.eqb_spec s 0); lia.
Qed.

(** C40. The guess can have more sectors per track than the sector field of
    CL holds, and its product can wrap around to zero: a partition of type 7
    that starts at head 1 and at LBA 16777216 and ends at head 255 leads to a
    division by zero, for a drive of any capacity. *)
Theorem guess_geometry_divides_by_zero d :
  priv d = mkInt13 0x80 0 0 0 0 0 ->
  (guess_geometry_mbr wrapping_mbr).2 = 16777216 /\
  apply_geometry d (guess_geometry_mbr wrapping_mbr) = None.
Proof.
  intros Hp. split; [vm_compute; reflexivity|].
  replace (guess_geometry_mbr wrapping_mbr) with (256, 16777216) by (vm_compute; reflexivity).
  unfold apply_geometry. rewrite Hp. reflexivity.
Qed.

(** The floppy table: a drive of the size of a listed geometry gets the
    heads and sectors of that geometry.  A 360 kB floppy (720 blocks: 40
    cylinders, 2 heads, 9 sectors) is not recognised, because the table lists
    40 cylinders with one head and nine sectors twice, and is given the
    geometry of a 1.44 MB disk. *)
Theorem fdd_geometry_correct d :
  (forall g, In g int13_fdd_geometries -> sandev_capacity d = fdd_blocks g ->
     int13_guess_geometry_fdd d = (INT13_FDD_HEADS g, INT13_FDD_SECTORS g)) /\
  (sandev_capacity d = 720 -> int13_guess_geometry_fdd d = (2, 18)).
Proof.
  unfold int13_guess_geometry_fdd. split; [|intros ->; reflexivity].
  intros g Hg ->. assert (T : forallb (fun g =>
    bool_decide (fdd_geometry_lookup (u32 (fdd_blocks g)) int13_fdd_geometries =
                 (INT13_FDD_HEADS g, INT13_FDD_SECTORS g))) int13_fdd_geometries = true)
    by (vm_compute; reflexivity).
  rewrite forallb_forall in T. exact (bool_decide_eq_true_1 _ (T g Hg)).
Qed.
