(* ===== verification/Int13Spec.v ===== *)
(** * Int13Spec

    The INT 13 handler and its assembly wrapper: which calls are executed, on
    which drive, what the registers hold afterwards, what is passed on to the
    previous handler; the drive counts kept in the BIOS data area; and the
    tables that int13.c builds. *)

From S2P Require Import Prelude.
From S2P Require Import Memory.
From S2P Require Import World.
From S2P Require Import Object.
From S2P Require Import Blockdev.
From S2P Require Import Sanboot.
From S2P Require Import Biosint.
From S2P Require Import Acpi.
From S2P Require Import AcpiSpec.
From S2P Require Import Int13.

(** Functions that INT 13 implements. *)
Definition int13_supported : list Z :=
  [INT13_RESET; INT13_GET_LAST_STATUS; INT13_READ_SECTORS; INT13_WRITE_SECTORS;
   INT13_GET_PARAMETERS; INT13_GET_DISK_TYPE; INT13_EXTENSION_CHECK;
   INT13_EXTENDED_READ; INT13_EXTENDED_WRITE; INT13_EXTENDED_VERIFY;
   INT13_EXTENDED_SEEK; INT13_GET_EXTENDED_PARAMETERS;
   INT13_CDROM_STATUS_TERMINATE; INT13_CDROM_READ_BOOT_CATALOG].

(** A call that is for drive [d], by its number or as a call for any CD-ROM;
    a call for the number that the BIOS would give [d]. *)
Definition executes (r : i386_all_regs) (d : san_device) : bool :=
  (dl r =? drive d) ||
  (negb (dl r =? natural_drive (priv d)) && (Z.land (dl r) 0x7f =? 0x7f) &&
   (ah r =? INT13_CDROM_STATUS_TERMINATE) && is_cdrom d).
Definition remaps (r : i386_all_regs) (d : san_device) : bool :=
  negb (dl r =? drive d) && (dl r =? natural_drive (priv d)).

(** The registers that the wrapper passes to the handler. *)
Definition wrapper_regs (r : i386_all_regs) : i386_all_regs :=
  put_flag CF true (orb0_al r).

Section int13_spec.
Context `{Platform}.

(** None of the devices [l] has anything to do with the call. *)
Definition passes (w : world) (r : i386_all_regs) (l : list Z) : Prop :=
  Forall (fun s => exists d, sandevs (w_san w) !! s = Some d /\
                             executes r d = false /\ remaps r d = false) l.

(** The BIOS data area agrees with the cached drive counts. *)
Definition bda_in_sync (w : world) : Prop :=
  le_combine (load 2 (real_to_user BDA_SEG BDA_EQUIPMENT_WORD) (w_mem w))
    = equipment_word (w_bios w) /\
  le_combine (load 1 (real_to_user BDA_SEG BDA_NUM_DRIVES) (w_mem w))
    = num_drives (w_bios w).

Lemma wp_int13_check_num_drives (w : world) Q :
  bda_in_sync w -> Q tt w -> wp int13_check_num_drives Q w.
Proof.
  intros [He Hn] HQ. unfold int13_check_num_drives, get_real, copy_from_real.
  repeat wp_prim. rewrite He, Hn, !Z.eqb_refl. exact HQ.
Qed.

Section search.
Context `{!Methods}.

Lemma wp_int13_search_one s l r d (w : world) Q :
  sandevs (w_san w) !! s = Some d ->
  (executes r d = true -> wp (int13_execute s r) Q w) ->
  (remaps r d = true -> Q (set_dl (drive d) r) w) ->
  (executes r d = false -> remaps r d = false -> wp (int13_search l r) Q w) ->
  wp (int13_search (s :: l) r) Q w.
Proof.
  intros Hd He Hr Hn. cbn [int13_search]. unfold get_sandev. wp_prim.
  eapply wp_deref; [exact Hd|]. unfold executes, remaps in *.
  destruct (dl r =? drive d); [by apply He|].
  destruct (dl r =? natural_drive (priv d)); [by apply Hr|].
  cbn [orb andb negb] in *. destruct (_ && is_cdrom d); auto.
Qed.

Lemma wp_int13_search_skip l l' r (w : world) Q :
  passes w r l -> wp (int13_search l' r) Q w -> wp (int13_search (l ++ l') r) Q w.
Proof.
  intros Hl HQ. induction Hl as [|s l (d & Hd & He & Hr) Hl IH]; [exact HQ|].
  apply (wp_int13_search_one s (l ++ l') r d); congruence || auto.
Qed.

(** The search for the drive of a call, with the drive counts in order. *)
Lemma wp_int13_skip l l' r (w : world) Q :
  bda_in_sync w -> san_devices (w_san w) = l ++ l' -> passes w r l ->
  wp (int13_search l' r) Q w -> wp (int13 r) Q w.
Proof.
  intros Hb Hl Hp HQ. unfold int13, all_sandevs. wp_prim.
  apply wp_int13_check_num_drives; [exact Hb|]. repeat wp_prim. rewrite Hl.
  by apply wp_int13_search_skip.
Qed.

(** A call for a drive is executed on it. *)
Lemma wp_int13_on_drive l l' s r d (w : world) Q :
  bda_in_sync w -> san_devices (w_san w) = l ++ s :: l' -> passes w r l ->
  sandevs (w_san w) !! s = Some d -> executes r d = true ->
  wp (int13_execute s r) Q w -> wp (int13 r) Q w.
Proof.
  intros Hb Hl Hp Hd He HQ. eapply wp_int13_skip; [exact Hb|exact Hl|exact Hp|].
  apply (wp_int13_search_one s l' r d); [exact Hd|auto|unfold remaps, executes in *..].
  - destruct (dl r =? drive d); [done|]. cbn in *. intros E. rewrite E in He. done.
  - rewrite He. done.
Qed.
End search.

Lemma int13_result_ok r :
  ah (int13_result 0 r) = 0 /\ flag CF (int13_result 0 r) = false /\
  flag OF (int13_result 0 r) = true.
Proof.
  unfold int13_result. cbn [Z.ltb Z.compare]. split_and!.
  - unfold ah, put_flag, set_ah. cbn [set_eflags set_eax eax].
    apply hi8_put_hi8.
  - rewrite flag_put_flag_ne by (unfold CF, OF; lia).
    unfold set_ah, flag. cbn [set_eax eflags].
    apply (flag_put_flag CF false). unfold CF. lia.
  - apply flag_put_flag. unfold OF. lia.
Qed.

(** The wrapper around a call that the handler executes. *)
Lemma wp_int13_wrapper `{!Methods} r (w : world) Q :
  ah r <> 0x15 -> ah r <> 0x08 ->
  wp (int13 (wrapper_regs r))
    (fun r' w' => flag OF r' = true /\ Q (set_dl (dl r) r') w') w ->
  wp (int13_wrapper r) Q w.
Proof.
  intros H15 H08 HQ. unfold int13_wrapper. wp_prim.
  eapply wp_mono; [exact HQ|]. intros r' w' [Hof Hq]. rewrite Hof.
  repeat wp_prim. rewrite (proj2 (Z.eqb_neq (ah r) 0x15)) by done.
  rewrite (proj2 (Z.eqb_neq (ah r) 0x08)) by done. exact Hq.
Qed.

(** ** Status *)

(** No function touches the flags: they are the wrapper's business. *)
Lemma int13_function_eflags `{!Methods} command s r :
  returns (fun '(_, r') => eflags r' = eflags r) (int13_function command s r).
Proof.
  unfold int13_function, int13_reset, int13_get_last_status, int13_read_sectors,
    int13_write_sectors, int13_get_parameters, int13_get_disk_type,
    int13_extension_check, int13_extended_read, int13_extended_write,
    int13_extended_verify, int13_extended_seek, int13_get_extended_parameters,
    int13_cdrom_status_terminate, int13_cdrom_read_boot_catalog,
    int13_rw_sectors, int13_extended_rw.
  cbv zeta. repeat returns_step; repeat case_match; reflexivity.
Qed.

Lemma ah_int13_result status r : ah (int13_result status r) = u8 (Z.abs status).
Proof.
  unfold int13_result, ah, put_flag, set_ah. cbn [set_eflags set_eax eax].
  rewrite hi8_put_hi8. f_equal. destruct (Z.ltb_spec status 0); lia.
Qed.

Lemma cf_int13_result status r :
  flag CF r = true -> flag CF (int13_result status r) = (status <? 0).
Proof.
  intros Hr. unfold int13_result. rewrite flag_put_flag_ne by (unfold CF, OF; lia).
  unfold set_ah. destruct (status <? 0); [exact Hr|].
  change (flag CF (put_flag CF false r) = false). apply flag_put_flag. done.
Qed.

Lemma of_int13_result status r : flag OF (int13_result status r) = true.
Proof. apply flag_put_flag. done. Qed.

(** The registers after the wrapper returned from a call that was executed. *)
Lemma wp_int13_execute `{!Methods} s r Q (w : world) :
  wp (int13_function (ah r) s r)
    (fun '(status, r') w' => exists d, sandevs (w_san w') !! s = Some d /\
       Q (int13_result status r')
         (set_w_san (set_sandevs (<[s := set_priv (set_last_status status (priv d)) d]>
                                    (sandevs (w_san w'))) (w_san w')) w')) w ->
  wp (int13_execute s r) Q w.
Proof.
  intros HQ. unfold int13_execute. wp_prim. eapply wp_mono; [exact HQ|].
  intros [status r'] w' (d & Hd & Hq).
  unfold upd_priv, upd_sandev, get_sandev, put_sandev, upd_san. repeat wp_prim.
  exact Hq.
Qed.

Lemma dl_set_dl r r' : dl (set_dl (dl r) r') = dl r.
Proof.
  unfold dl, set_dl. cbn [edx set_edx]. rewrite lo8_put_lo8. apply u8_small, lo8_range.
Qed.

(** C27. A function that is not implemented fails with status 1 (invalid) and
    carry set, leaves DL alone and changes nothing but the recorded status of
    the drive. *)
Theorem int13_unsupported `{!Methods} l l' s r d (w : world) :
  bda_in_sync w -> san_devices (w_san w) = l ++ s :: l' ->
  passes w (wrapper_regs r) l ->
  sandevs (w_san w) !! s = Some d -> dl r = drive d -> ah r ∉ int13_supported ->
  wp (int13_wrapper r)
    (fun r' w' =>
       ah r' = INT13_STATUS_INVALID /\ flag CF r' = true /\ dl r' = dl r /\
       w' = set_w_san (set_sandevs
              (<[s := set_priv (set_last_status (- INT13_STATUS_INVALID) (priv d)) d]>
                 (sandevs (w_san w))) (w_san w)) w) w.
Proof.
  intros Hb Hl Hp Hd Hdl Hah.
  assert (Hne : forall k, In k int13_supported -> (ah r =? k) = false).
  { intros k Hk. apply Z.eqb_neq. intros E. subst k. apply Hah. by apply list_elem_of_In. }
  apply wp_int13_wrapper.
  - apply Z.eqb_neq, Hne. cbn. tauto.
  - apply Z.eqb_neq, Hne. cbn. tauto.
  - eapply wp_int13_on_drive; [exact Hb|exact Hl|exact Hp|exact Hd| |].
    { unfold executes. change (dl (wrapper_regs r)) with (dl r).
      by rewrite Hdl, Z.eqb_refl. }
    apply wp_int13_execute. change (ah (wrapper_regs r)) with (ah r).
    unfold int13_function. rewrite !Hne by (cbn; tauto). wp_prim.
    exists d. split; [exact Hd|]. rewrite of_int13_result. split; [done|].
    split_and!; [..|reflexivity].
    + apply (ah_int13_result (- INT13_STATUS_INVALID)).
    + change (flag CF (int13_result (- INT13_STATUS_INVALID) (wrapper_regs r)) = true).
      apply (cf_int13_result (- INT13_STATUS_INVALID)). by apply flag_put_flag.
    + apply dl_set_dl.
Qed.

(** The wrapper around a call that the handler leaves to the BIOS. *)
Lemma wp_wrapper_chain `{!Methods} r r1 r2 h m (w : world) Q :
  ah r <> 0x15 -> ah r <> 0x08 ->
  wp (int13 (wrapper_regs r)) (fun r' w' => r' = r1 /\ w' = w) w ->
  flag OF r1 = false ->
  bios_handler (int13_vector (w_bios w)) r1 (w_hw w) (w_mem w) = (r2, h, m) ->
  Q (set_dl (dl r) r2) (set_w_hw h (set_w_mem m w)) ->
  wp (int13_wrapper r) Q w.
Proof.
  intros H15 H08 Hi Hof Hb HQ. unfold int13_wrapper. wp_prim.
  eapply wp_mono; [exact Hi|]. intros r' w' [-> ->]. rewrite Hof. wp_prim.
  wp_prim. wp_prim. unfold call_handler. repeat wp_prim. rewrite Hb. repeat wp_prim.
  rewrite (proj2 (Z.eqb_neq (ah r) 0x15)), (proj2 (Z.eqb_neq (ah r) 0x08)) by done.
  exact HQ.
Qed.

Lemma of_wrapper_regs r : flag OF (wrapper_regs r) = false.
Proof.
  unfold wrapper_regs, orb0_al.
  rewrite !(flag_put_flag_ne OF) by (unfold OF, CF, PF, ZF, SF; lia).
  by apply flag_put_flag.
Qed.

(** A call for a drive number that no SAN device has or displaced goes to
    the previous INT 13 handler with its registers but for the flags; it sees
    all of memory unchanged, and its results are returned with DL restored. *)
Theorem int13_passes_on `{!Methods} r r2 h m (w : world) :
  bda_in_sync w -> passes w (wrapper_regs r) (san_devices (w_san w)) ->
  ah r <> 0x15 -> ah r <> 0x08 ->
  bios_handler (int13_vector (w_bios w)) (wrapper_regs r) (w_hw w) (w_mem w) = (r2, h, m) ->
  int13_wrapper r w = Ret (set_dl (dl r) r2) (set_w_hw h (set_w_mem m w)).
Proof.
  intros Hb Hp H15 H08 Hh.
  assert (W : wp (int13_wrapper r) (fun r' w' => r' = set_dl (dl r) r2 /\
    w' = set_w_hw h (set_w_mem m w)) w).
  { eapply wp_wrapper_chain; [exact H15|exact H08| |apply of_wrapper_regs|exact Hh|done].
    eapply (wp_int13_skip _ []); [exact Hb|by rewrite app_nil_r|exact Hp|].
    cbn [int13_search]. by wp_prim. }
  apply wp_run in W as (r' & w' & E & -> & ->). exact E.
Qed.

(** A call for the natural number of a SAN drive (the number it would
    have had after the drives of the BIOS) is passed on with DL replaced by
    the number the SAN drive took, so that the BIOS drive of that number stays
    reachable; the caller gets its DL back. *)
Theorem int13_remaps_natural_drive `{!Methods} l l' s d r r2 h m (w : world) :
  bda_in_sync w -> san_devices (w_san w) = l ++ s :: l' ->
  passes w (wrapper_regs r) l -> sandevs (w_san w) !! s = Some d ->
  dl r = natural_drive (priv d) -> dl r <> drive d ->
  ah r <> 0x15 -> ah r <> 0x08 ->
  bios_handler (int13_vector (w_bios w)) (set_dl (drive d) (wrapper_regs r))
    (w_hw w) (w_mem w) = (r2, h, m) ->
  int13_wrapper r w = Ret (set_dl (dl r) r2) (set_w_hw h (set_w_mem m w)).
Proof.
  intros Hb Hl Hp Hd Hn Hnd H15 H08 Hh.
  assert (W : wp (int13_wrapper r) (fun r' w' => r' = set_dl (dl r) r2 /\
    w' = set_w_hw h (set_w_mem m w)) w).
  { eapply (wp_wrapper_chain _ (set_dl (drive d) (wrapper_regs r)));
      [exact H15|exact H08| |exact (of_wrapper_regs r)|exact Hh|done].
    eapply wp_int13_skip; [exact Hb|exact Hl|exact Hp|].
    eapply wp_int13_search_one; [exact Hd|unfold executes, remaps..];
      change (dl (wrapper_regs r)) with (dl r);
      rewrite (proj2 (Z.eqb_neq (dl r) (drive d))), Hn, Z.eqb_refl by done; done. }
  apply wp_run in W as (r' & w' & E & -> & ->). exact E.
Qed.

(** INT 13,01 reports the outcome of the previous call on the drive: the
    same AH and the same carry flag. *)
Theorem int13_last_status `{!Methods} s r1 r2 r1' (w w' : world) :
  flag CF r1 = true -> flag CF r2 = true -> ah r2 = INT13_GET_LAST_STATUS ->
  int13_execute s r1 w = Ret r1' w' ->
  wp (int13_execute s r2)
    (fun r2' _ => ah r2' = ah r1' /\ flag CF r2' = flag CF r1') w'.
Proof.
  intros Hc1 Hc2 Hah E. unfold int13_execute in E at 1.
  unfold bind at 1 in E. destruct (int13_function (ah r1) s r1 w) as [[st r] w1| |] eqn:Ef;
    try discriminate.
  pose proof (int13_function_eflags (ah r1) s r1 w) as Hfl. rewrite Ef in Hfl.
  unfold upd_priv, upd_sandev, get_sandev, put_sandev, upd_san in E.
  unfold bind, deref, modify, ret in E.
  destruct (sandevs (w_san w1) !! s) as [d|]; [|discriminate]. injection E as <- <-.
  apply wp_int13_execute. rewrite Hah.
  change (int13_function INT13_GET_LAST_STATUS s r2) with (int13_get_last_status s r2).
  unfold int13_get_last_status, get_sandev. wp_prim. eapply wp_deref; [lk|]. wp_prim.
  eexists. split; [lk|]. rewrite !ah_int13_result, !cf_int13_result; [done| |exact Hc2].
  unfold flag. rewrite Hfl. exact Hc1.
Qed.

(** ** Drive counts *)

Lemma equipment_with_fdds_range e n : 0 <= equipment_with_fdds e n < 2 ^ 16.
Proof.
  unfold equipment_with_fdds.
  pose proof (land_range e 0xff3e 16 ltac:(lia) ltac:(lia)).
  pose proof (land_range (n - 1) 3 2 ltac:(lia) ltac:(lia)).
  destruct (negb _); [|lia]. apply lor_range; [lia..|].
  apply lor_range; [lia..|]. rewrite Z.shiftl_mul_pow2 by lia. lia.
Qed.

Lemma equipment_fdds_with e n :
  0 <= n <= 4 -> equipment_fdds (equipment_with_fdds e n) = n.
Proof.
  intros Hn. unfold equipment_fdds, equipment_with_fdds.
  assert (H1 : forall c, Z.land (Z.lor (Z.land e 0xff3e) c) 1 = Z.land c 1).
  { intros c. rewrite Z.land_lor_distr_l, <- Z.land_assoc. by rewrite Z.land_0_r. }
  assert (H6 : forall c, Z.land (Z.shiftr (Z.lor (Z.land e 0xff3e) c) 6) 3
                         = Z.land (Z.shiftr c 6) 3).
  { intros c. rewrite Z.shiftr_lor, Z.shiftr_land, Z.land_lor_distr_l, <- Z.land_assoc.
    by rewrite Z.land_0_r. }
  assert (n = 0 \/ n = 1 \/ n = 2 \/ n = 3 \/ n = 4) as [->|Hcases] by lia.
  - change (negb (0 =? 0)) with false. cbn iota. rewrite <- Z.land_assoc.
    by rewrite Z.land_0_r.
  - rewrite (proj2 (Z.eqb_neq n 0)) by lia. cbn [negb]. rewrite H1, H6.
    by destruct Hcases as [->|[->|[->| ->]]].
Qed.

(** The counts (floppies, hard disks) cover drive [d]. *)
Definition counted (counts : Z * Z) (d : san_device) : Prop :=
  Z.land (drive d) 0x7f < (if int13_is_fdd d then counts.1 else counts.2).

(** The two numbers of a drive are bytes and of the same kind. *)
Definition numbers_ok (d : san_device) : Prop :=
  0 <= drive d < 256 /\ 0 <= natural_drive (priv d) < 256 /\
  Z.land (natural_drive (priv d)) 0x80 = Z.land (drive d) 0x80.

Lemma byte_split v : 0 <= v < 256 -> v = Z.land v 0x80 + Z.land v 0x7f.
Proof.
  intros Hv. change 0x80 with (Z.shiftl 1 7). rewrite land_shiftl_mask by lia.
  change 1 with (2 ^ 1 - 1) at 1. change 0x7f with (2 ^ 7 - 1).
  rewrite !land_ones_mod, Z.shiftl_mul_pow2, Z.shiftr_div_pow2 by lia.
  change (2 ^ 7) with 128. change (2 ^ 1) with 2. dlia.
Qed.

Lemma count_drive_spec counts d :
  numbers_ok d ->
  counted (count_drive counts d) d /\
  counts.1 <= (count_drive counts d).1 /\ counts.2 <= (count_drive counts d).2 /\
  (counts.2 < 256 -> (count_drive counts d).2 < 256).
Proof.
  intros (Hd & Hn & Hk). unfold count_drive, counted.
  pose proof (byte_split _ Hd). pose proof (byte_split _ Hn).
  pose proof (land_range (drive d) 0x7f 7 ltac:(lia) ltac:(lia)).
  pose proof (land_range (natural_drive (priv d)) 0x7f 7 ltac:(lia) ltac:(lia)).
  rewrite !(u8_small (drive d)), (u8_small (natural_drive (priv d))) by lia.
  set (m := if _ <? natural_drive (priv d) then _ else _).
  assert (Hm : Z.land (drive d) 0x7f <= Z.land m 0x7f < 128)
    by (unfold m; destruct (Z.ltb_spec (drive d) (natural_drive (priv d))); lia).
  rewrite u8_small by lia.
  destruct (int13_is_fdd d); cbn [fst snd]; split_and!; try lia;
    case Z.ltb_spec; lia.
Qed.

Lemma wp_count_drives l counts (w : world) Q :
  Forall (fun s => exists d, sandevs (w_san w) !! s = Some d /\ numbers_ok d) l ->
  (forall counts',
     (forall s d, s ∈ l -> sandevs (w_san w) !! s = Some d -> counted counts' d) ->
     counts.1 <= counts'.1 -> counts.2 <= counts'.2 ->
     (counts.2 < 256 -> counts'.2 < 256) -> Q counts' w) ->
  wp (count_drives l counts) Q w.
Proof.
  intros Hl. revert counts Q. induction Hl as [|s l (d & Hd & Hok) Hl IH]; intros counts Q HQ.
  - cbn [count_drives]. wp_prim. apply HQ; [|lia..]. intros s d Hin. inversion Hin.
  - cbn [count_drives]. unfold get_sandev. wp_prim. eapply wp_deref; [exact Hd|].
    destruct (count_drive_spec counts d Hok) as (Hc & H1 & H2 & H3).
    apply IH. intros c' Hall G1 G2 G3. apply HQ; [|lia..]. intros s' d' Hin Hd'.
    apply elem_of_cons in Hin as [->|Hin]; [|by apply (Hall s')].
    simplify_eq. unfold counted in *. destruct (int13_is_fdd d); lia.
Qed.

Lemma bda_addresses :
  real_to_user BDA_SEG BDA_EQUIPMENT_WORD = 0x410 /\
  real_to_user BDA_SEG BDA_NUM_DRIVES = 0x475.
Proof. split; reflexivity. Qed.

(** Synchronising the drive counts leaves the BIOS data area and the
    cached counts in agreement, covers the number of every SAN drive, and
    never lowers a count of the BIOS. *)
Theorem sync_num_drives_correct (w : world) :
  byte_mem (w_mem w) ->
  Forall (fun s => exists d, sandevs (w_san w) !! s = Some d /\ numbers_ok d)
    (san_devices (w_san w)) ->
  wp int13_sync_num_drives
    (fun _ w' =>
       bda_in_sync w' /\ w_san w' = w_san w /\
       (forall s d, s ∈ san_devices (w_san w) -> sandevs (w_san w) !! s = Some d ->
          counted (num_fdds (w_bios w'), num_drives (w_bios w')) d) /\
       equipment_fdds (ld16 0x410 (w_mem w)) <= num_fdds (w_bios w') /\
       ld8 0x475 (w_mem w) <= num_drives (w_bios w') < 256 /\
       (num_fdds (w_bios w') <= 4 ->
        equipment_fdds (equipment_word (w_bios w')) = num_fdds (w_bios w'))) w.
Proof.
  intros Hm Hl. unfold int13_sync_num_drives, get_real, copy_from_real, all_sandevs,
    put_real, copy_to_real, upd_bios. destruct bda_addresses as [-> ->].
  repeat wp_prim. eapply wp_count_drives; [exact Hl|].
  intros [fdds drives] Hall Hf Hd Hlt. repeat wp_prim. wsimpl.
  pose proof (Hm 0x475) as Hb. unfold is_byte in Hb.
  assert (E1 : le_combine (load 1 0x475 (w_mem w)) = ld8 0x475 (w_mem w)) by
    (change (w_mem w 0x475 + 256 * 0 = w_mem w 0x475); lia).
  cbn [fst snd] in *. rewrite E1 in *. unfold ld8 in *.
  pose proof (equipment_with_fdds_range (le_combine (load 2 0x410 (w_mem w))) fdds) as He.
  split_and!; auto; try lia.
  - unfold bda_in_sync. destruct bda_addresses as [-> ->]. wsimpl.
    rewrite load_store_disjoint by (rewrite length_le_split; unfold disjoint; lia).
    rewrite (load_store_same 1040 (le_split 2 _)), (load_store_same 1141 (le_split 1 _)).
    rewrite !le_combine_split. change (2 ^ (8 * Z.of_nat 2)) with (2 ^ 16).
    change (2 ^ (8 * Z.of_nat 1)) with 256. rewrite !Z.mod_small by lia. done.
  - intros H4. apply equipment_fdds_with. split; [|exact H4].
    etransitivity; [|exact Hf]. unfold equipment_fdds. destruct (bool_of_Z _); [|done].
    pose proof (land_range (Z.shiftr (le_combine (load 2 1040 (w_mem w))) 6) 3 2). lia.
Qed.

(** ** Interrupt vectors *)

Lemma segoff_roundtrip v :
  0 <= v.1 < 65536 -> 0 <= v.2 < 65536 -> segoff_of_bytes (segoff_bytes v) = v.
Proof.
  destruct v as [sg off]. cbn [fst snd]. intros Hs Ho. unfold segoff_of_bytes, segoff_bytes.
  cbn [fst snd].
  change (drop 2 (le_split 2 off ++ le_split 2 sg)) with (le_split 2 sg).
  change (take 2 (le_split 2 off ++ le_split 2 sg)) with (le_split 2 off).
  rewrite !le_combine_split, !Z.mod_small by (change (2 ^ (8 * Z.of_nat 2)) with 65536; lia).
  reflexivity.
Qed.

Lemma le_split_load n a m : byte_mem m -> le_split n (le_combine (load n a m)) = load n a m.
Proof.
  intros Hm. rewrite <- (length_load n a m) at 1. by apply le_split_combine, load_bytes.
Qed.

Lemma segoff_bytes_roundtrip a m :
  byte_mem m -> segoff_bytes (segoff_of_bytes (load 4 a m)) = load 4 a m.
Proof.
  intros Hm. unfold segoff_bytes, segoff_of_bytes. cbn [fst snd].
  rewrite take_load, drop_load by lia. change (4 - 2)%nat with 2%nat.
  rewrite !le_split_load by exact Hm.
  symmetry. apply (load_app 2 2).
Qed.

Lemma store_load_back a bs m x :
  store a (load (length bs) a m) (store a bs m) x = m x.
Proof.
  unfold store. rewrite length_load. destruct (in_range _ _ x) eqn:E; [|done].
  apply in_range_spec in E. rewrite nth_load by lia. f_equal. lia.
Qed.

(** Hooking an interrupt makes its vector point to our handler and
    remembers the old vector; unhooking it then restores the vector table, the
    chaining vector and the count of hooked interrupts.  If something else
    has hooked the vector meanwhile, unhooking fails with -EBUSY and changes
    nothing. *)
Theorem hook_unhook_roundtrip n handler (w : world) :
  byte_mem (w_mem w) -> 0 <= n < 256 -> 0 <= handler < 65536 -> 0 <= rm_cs < 65536 ->
  0 <= hooked_bios_interrupts (w_bios w) < 65535 ->
  wp (hook_bios_interrupt n handler (0, 0))
    (fun v w1 =>
       segoff_of_bytes (load 4 (4 * n) (w_mem w1)) = (rm_cs, handler) /\
       v = segoff_of_bytes (load 4 (4 * n) (w_mem w)) /\
       wp (unhook_bios_interrupt n handler v)
         (fun '(rc, v') w2 => rc = 0 /\ v' = (0, 0) /\ w_bios w2 = w_bios w /\
            forall x, w_mem w2 x = w_mem w x) w1 /\
       (forall w3, segoff_of_bytes (load 4 (4 * n) (w_mem w3)) <> (rm_cs, handler) ->
          unhook_bios_interrupt n handler v w3 = Ret (- EBUSY, v) w3)) w.
Proof.
  intros Hm Hn Hh Hcs Hc.
  assert (Ea : real_to_user 0 (n * 4) = 4 * n)
    by (unfold real_to_user; cbn [Z.shiftl]; rewrite Z.add_0_l, u32_small; lia).
  unfold hook_bios_interrupt, get_vector, put_vector, copy_from_real, copy_to_real, upd_bios.
  cbn [fst snd Z.eqb negb orb]. rewrite Ea. repeat wp_prim. wsimpl.
  rewrite (u16_small handler) by lia.
  set (old := load 4 (4 * n) (w_mem w)). set (ours := segoff_bytes (rm_cs, handler)).
  assert (Hours : segoff_of_bytes (load 4 (4 * n) (store (4 * n) ours (w_mem w))) = (rm_cs, handler)).
  { change 4%nat with (length ours). rewrite load_store_same. by apply segoff_roundtrip. }
  split_and!; [exact Hours|reflexivity|..].
  - unfold unhook_bios_interrupt, get_vector, put_vector, copy_from_real, copy_to_real, upd_bios.
    rewrite Ea. repeat wp_prim. wsimpl. rewrite Hours. cbn [fst snd].
    rewrite !Z.eqb_refl. cbn [negb orb]. repeat wp_prim. wsimpl. split_and!; auto.
    + rewrite (u16_small (_ + 1)), Z.add_simpl_r, u16_small by lia. by destruct (w_bios w).
    + intros x. unfold old. rewrite segoff_bytes_roundtrip by exact Hm.
      apply (store_load_back (4 * n) ours).
  - intros w3 Hne. unfold unhook_bios_interrupt, get_vector, copy_from_real, bind, gets, ret.
    rewrite Ea. destruct (segoff_of_bytes (load 4 (4 * n) (w_mem w3))) as [sg off].
    cbn [fst snd]. destruct (Z.eqb_spec sg rm_cs), (Z.eqb_spec off handler); cbn; congruence.
Qed.

(** ** EDD device paths *)

(** The EDD device path information that INT 13,48 returns for a PCI
    device is 44 bytes long, starts with the key 0xBEDD and its length, and
    its bytes sum to zero. *)
Theorem edd_dpi_correct location type device_path :
  length device_path = 16%nat ->
  let dpi := edd_dpi location type device_path in
  length dpi = 44%nat /\ field 0 2 dpi = EDD_DEVICE_PATH_INFO_KEY /\
  field 2 1 dpi = Z.of_nat (length dpi) /\ sum_bytes dpi = 0.
Proof.
  intros Hl dpi. assert (Hlen : length dpi = 44%nat).
  { unfold dpi, edd_dpi. rewrite !length_app, !length_le_split, Hl. reflexivity. }
  rewrite Hlen. split_and!; [done|reflexivity..|].
  unfold dpi, edd_dpi. cbv zeta. set (f := _ ++ [0]).
  rewrite !sum_bytes_app, !sum_bytes_one. unfold u8. dlia.
Qed.

End int13_spec.
