(* ===== verification/Int13Type.v ===== *)
(** * Int13Type

    The registers of a call to INT 13 stay what the processor can hold, and
    real-mode callers keep the parts of them that no function returns
    anything in. *)

From S2P Require Import Prelude.
From S2P Require Import Memory.
From S2P Require Import World.
From S2P Require Import Object.
From S2P Require Import Sanboot.
From S2P Require Import Biosint.
From S2P Require Import Int13.

(** Registers as wide as those of the processor. *)
Definition is_u32 (v : Z) : Prop := 0 <= v < 2 ^ 32.
Definition is_u16 (v : Z) : Prop := 0 <= v < 2 ^ 16.

Definition regs_typed (r : i386_all_regs) : Prop :=
  is_u32 (eax r) /\ is_u32 (ebx r) /\ is_u32 (ecx r) /\ is_u32 (edx r) /\ is_u32 (esi r) /\
  is_u32 (edi r) /\ is_u16 (seg_ds r) /\ is_u16 (seg_es r) /\ is_u32 (eflags r).

(** The upper half of a register. *)
Definition upper (e : Z) : Z := Z.land e 0xffff0000.

(** What all calls preserve. *)
Definition preserves (r r' : i386_all_regs) : Prop :=
  upper (eax r') = upper (eax r) /\ upper (ebx r') = upper (ebx r) /\
  upper (ecx r') = upper (ecx r) /\ upper (edx r') = upper (edx r) /\
  upper (edi r') = upper (edi r) /\ esi r' = esi r /\ seg_ds r' = seg_ds r.

Definition calls (r r' : i386_all_regs) : Prop := regs_typed r' /\ preserves r r'.

#[global] Instance preserves_preorder : PreOrder preserves.
Proof. split; unfold preserves; [done|intros ? ? ?; intuition congruence]. Qed.

(** ** Parts of registers *)

Lemma put_typed mask v e : 0 <= mask < 2 ^ 32 -> Z.land mask 0xffff0000 = 0xffff0000 ->
  0 <= v < 2 ^ 16 -> let e' := Z.lor (Z.land e mask) v in is_u32 e' /\ upper e' = upper e.
Proof.
  intros Hm Hmask Hv. cbn. unfold is_u32, upper. split.
  - apply lor_range; [lia|apply land_range; lia|lia].
  - rewrite Z.land_lor_distr_l, <- Z.land_assoc, Hmask.
    replace (Z.land v 0xffff0000) with 0; [apply Z.lor_0_r|].
    change 0xffff0000 with (Z.shiftl 0xffff 16). rewrite land_shiftl_mask, Z.shiftr_div_pow2, Z.div_small by lia.
    done.
Qed.

Lemma put_lo8_typed v e : is_u32 (put_lo8 v e) /\ upper (put_lo8 v e) = upper e.
Proof. apply put_typed; [done..|]. pose proof (u8_range v). lia. Qed.

Lemma put_hi8_typed v e : is_u32 (put_hi8 v e) /\ upper (put_hi8 v e) = upper e.
Proof.
  apply put_typed; [done..|]. pose proof (u8_range v). rewrite Z.shiftl_mul_pow2 by lia. lia.
Qed.

Lemma put_lo16_typed v e : is_u32 (put_lo16 v e) /\ upper (put_lo16 v e) = upper e.
Proof. apply put_typed; [done..|]. pose proof (u16_range v). lia. Qed.

(** Setting or clearing a flag. *)
Lemma flag_typed b (v : bool) e : 0 <= b < 32 -> is_u32 e ->
  is_u32 (if v then Z.setbit e b else Z.clearbit e b).
Proof.
  unfold is_u32. intros Hb He. rewrite Z.setbit_spec', Z.clearbit_spec'. destruct v.
  - apply lor_range; [lia..|]. split; [lia|apply Z.pow_lt_mono_r; lia].
  - rewrite Z.ldiff_land, Z.land_comm. apply land_range; lia.
Qed.

Create HintDb regs.

(** One register is set, with what [H] says of its new contents. *)
Ltac set_register H :=
  destruct H as [? He]; unfold calls, regs_typed, preserves in *; cbn in *; rewrite ?He; tauto.

Section setters.
Context (r0 r : i386_all_regs) (Hr : calls r0 r).

Lemma set_ah_calls v : calls r0 (set_ah v r).
Proof. unfold set_ah. set_register (put_hi8_typed v (eax r)). Qed.
Lemma set_bl_calls v : calls r0 (set_bl v r).
Proof. unfold set_bl. set_register (put_lo8_typed v (ebx r)). Qed.
Lemma set_bx_calls v : calls r0 (set_bx v r).
Proof. unfold set_bx. set_register (put_lo16_typed v (ebx r)). Qed.
Lemma set_cl_calls v : calls r0 (set_cl v r).
Proof. unfold set_cl. set_register (put_lo8_typed v (ecx r)). Qed.
Lemma set_ch_calls v : calls r0 (set_ch v r).
Proof. unfold set_ch. set_register (put_hi8_typed v (ecx r)). Qed.
Lemma set_cx_calls v : calls r0 (set_cx v r).
Proof. unfold set_cx. set_register (put_lo16_typed v (ecx r)). Qed.
Lemma set_dl_calls v : calls r0 (set_dl v r).
Proof. unfold set_dl. set_register (put_lo8_typed v (edx r)). Qed.
Lemma set_dh_calls v : calls r0 (set_dh v r).
Proof. unfold set_dh. set_register (put_hi8_typed v (edx r)). Qed.
Lemma set_dx_calls v : calls r0 (set_dx v r).
Proof. unfold set_dx. set_register (put_lo16_typed v (edx r)). Qed.
Lemma set_di_calls v : calls r0 (set_di v r).
Proof. unfold set_di. set_register (put_lo16_typed v (edi r)). Qed.

Lemma set_es_calls v : is_u16 v -> calls r0 (set_seg_es v r).
Proof. intros Hv. unfold calls, regs_typed, preserves in *; cbn in *; tauto. Qed.

Lemma put_flag_calls b v : 0 <= b < 32 -> calls r0 (put_flag b v r).
Proof.
  intros Hb. destruct Hr as [(? & ? & ? & ? & ? & ? & ? & ? & Hf) ?].
  pose proof (flag_typed b v (eflags r) Hb Hf).
  unfold calls, regs_typed, preserves, put_flag in *; cbn in *; tauto.
Qed.

End setters.

#[export] Hint Resolve set_ah_calls set_bl_calls set_bx_calls set_cl_calls set_ch_calls
  set_cx_calls set_dl_calls set_dh_calls set_dx_calls set_di_calls set_es_calls : regs.
#[export] Hint Extern 2 (calls _ (put_flag _ _ _)) => apply put_flag_calls; [|done] : regs.

Section types.
Context `{Platform} `{!Methods} (Hds : is_u16 rm_ds).

Lemma int13_function_types command s r : regs_typed r ->
  returns (fun out => calls r out.2) (int13_function command s r).
Proof.
  intros Hr. assert (Hc : calls r r) by done. unfold int13_function.
  unfold int13_reset, int13_get_last_status, int13_read_sectors, int13_write_sectors,
    int13_rw_sectors, int13_get_parameters, int13_get_disk_type, int13_extension_check,
    int13_extended_read, int13_extended_write, int13_extended_rw, int13_extended_verify,
    int13_extended_seek, int13_get_extended_parameters, int13_cdrom_status_terminate,
    int13_cdrom_read_boot_catalog.
  repeat (destruct (command =? _); [cbv zeta; repeat returns_step; cbn [snd];
    repeat case_match; auto 8 with regs|]).
  by apply returns_ret.
Qed.

Lemma int13_result_calls status r0 r : calls r0 r -> calls r0 (int13_result status r).
Proof. intros Hr. unfold int13_result. destruct (status <? 0); auto 8 with regs. Qed.

Lemma int13_execute_types s r : regs_typed r -> returns (calls r) (int13_execute s r).
Proof.
  intros Hr. unfold int13_execute. eapply returns_bind; [by apply int13_function_types|].
  intros [status r'] Hc. repeat returns_step. by apply int13_result_calls.
Qed.

Lemma int13_search_types l r : regs_typed r -> returns (calls r) (int13_search l r).
Proof.
  intros Hr. assert (Hc : calls r r) by done.
  induction l as [|s l IH]; cbn [int13_search]; cbv zeta; repeat returns_step;
    auto using int13_execute_types with regs.
Qed.

Lemma int13_types r : regs_typed r -> returns (calls r) (int13 r).
Proof. intros Hr. unfold int13. repeat returns_step. by apply int13_search_types. Qed.

Lemma orb0_al_calls r : regs_typed r -> calls r (orb0_al r).
Proof. intros Hr. assert (Hc : calls r r) by done. unfold orb0_al. auto 9 with regs. Qed.

Lemma calls_trans r1 r2 r3 : calls r1 r2 -> calls r2 r3 -> calls r1 r3.
Proof. intros [? H12] [? H23]. split; [done|by etrans]. Qed.

(** The wrapper returns what [int13] or the handler it chains to returns, up
    to DL. *)
Lemma int13_wrapper_returns (P : i386_all_regs -> Prop) r : regs_typed r ->
  (forall r', calls r r' -> P r') -> (forall v r', P r' -> P (set_dl v r')) ->
  (forall v r' h m, P r' -> P (bios_handler v r' h m).1.1) ->
  returns P (int13_wrapper r).
Proof.
  intros Hr Hcalls Hdl Hbios. unfold int13_wrapper. cbv zeta.
  pose proof (orb0_al_calls r Hr) as Ho.
  assert (Hf : calls r (put_flag CF true (orb0_al r))) by auto with regs.
  eapply returns_bind; [apply int13_types, Hf|]. intros r1 Hr1.
  assert (HP : P r1) by eauto using calls_trans.
  apply (returns_bind P); [|intros r2 Hr2; repeat returns_step; auto].
  destruct (flag OF r1); [by apply returns_ret|]. apply returns_any. intros b s.
  unfold call_handler, bind, gets, modify. pose proof (Hbios (int13_vector b) r1 (w_hw s) (w_mem s) HP).
  by destruct (bios_handler _ _ _ _) as [[r2 h] m].
Qed.

(** C19. Type preservation of the INT 13 interface: from registers that the
    processor can hold, [int13] returns registers that the processor can hold
    -- no function, status, drive number or disk size overflows the register
    or the part of a register it is returned in -- and every call leaves ESI,
    DS and the upper halves of EAX, EBX, ECX, EDX and EDI as the caller had
    them, as 32-bit callers rely on.  The assembly wrapper, which chains calls
    for other drives to the BIOS, has the same type if the handlers it may
    chain to have, and it keeps what those preserve. *)
Theorem int13_preserves_types r : regs_typed r ->
  returns (fun r' => regs_typed r' /\ preserves r r') (int13 r) /\
  ((forall v r h m, regs_typed r -> regs_typed (bios_handler v r h m).1.1) ->
   returns regs_typed (int13_wrapper r)) /\
  ((forall v r h m, regs_typed r -> calls r (bios_handler v r h m).1.1) ->
   returns (fun r' => regs_typed r' /\ preserves r r') (int13_wrapper r)).
Proof.
  intros Hr. split; [by apply int13_types|].
  assert (Hset : forall v r', calls r r' -> calls r (set_dl v r')) by auto with regs.
  split; intros Hb; apply int13_wrapper_returns; auto.
  - by intros r' [].
  - intros v r' Ht. by apply (set_dl_calls r' r').
  - intros v r' h m Hc. apply (calls_trans _ _ _ Hc), Hb, Hc.
Qed.

End types.
