(* ===== verification/AutobootSpec.v ===== *)
(** * AutobootSpec

    Jumping to a boot sector: interrupts 0x18 and 0x19, by which a boot sector
    gives up, lead back to us while it runs and are as before afterwards. *)

From S2P Require Import Prelude.
From S2P Require Import Memory.
From S2P Require Import World.
From S2P Require Import Object.
From S2P Require Import Biosint.
From S2P Require Import Acpi.
From S2P Require Import Int13.
From S2P Require Import Int13Spec.
From S2P Require Import Autoboot.

Section autoboot_spec.
Context `{Platform}.

Definition vector (n : Z) (w : world) : Z * Z :=
  segoff_of_bytes (load 4 (4 * n) (w_mem w)).

(** The state after a vector is replaced, with the count of hooked interrupts
    changed by [k]. *)
Definition revectored (n : Z) (v : Z * Z) (k : Z) (w : world) : world :=
  set_w_bios (set_hooked_bios_interrupts
                (u16 (hooked_bios_interrupts (w_bios w) + k)) (w_bios w))
    (set_w_mem (store (4 * n) (segoff_bytes v) (w_mem w)) w).

Lemma vector_address n : 0 <= n < 256 -> real_to_user 0 (n * 4) = 4 * n.
Proof. intros Hn. unfold real_to_user. cbn [Z.shiftl]. rewrite Z.add_0_l, u32_small; lia. Qed.

Lemma wp_hook_bios_interrupt n handler w Q :
  0 <= n < 256 ->
  Q (vector n w) (revectored n (rm_cs, u16 handler) 1 w) ->
  wp (hook_bios_interrupt n handler (0, 0)) Q w.
Proof.
  intros Hn HQ. unfold hook_bios_interrupt, get_vector, put_vector, copy_from_real,
    copy_to_real, upd_bios. cbn [fst snd Z.eqb negb orb].
  rewrite vector_address by done. repeat wp_prim. exact HQ.
Qed.

Lemma wp_unhook_bios_interrupt n handler v w Q :
  0 <= n < 256 -> vector n w = (rm_cs, handler) ->
  Q (0, (0, 0)) (revectored n v (-1) w) ->
  wp (unhook_bios_interrupt n handler v) Q w.
Proof.
  intros Hn Hv HQ. unfold unhook_bios_interrupt, get_vector, put_vector, copy_from_real,
    copy_to_real, upd_bios. rewrite vector_address by done. repeat wp_prim.
  fold (vector n w). rewrite Hv. cbn [fst snd]. rewrite !Z.eqb_refl. cbn [negb orb].
  repeat wp_prim. exact HQ.
Qed.

Lemma vector_revectored n v k w :
  0 <= v.1 < 65536 -> 0 <= v.2 < 65536 -> vector n (revectored n v k w) = v.
Proof.
  intros H1 H2. unfold vector, revectored. wsimpl.
  rewrite (load_store_same (4 * n) (segoff_bytes v)).
  by apply segoff_roundtrip.
Qed.

Lemma vector_revectored_ne n n' v k w : n <> n' -> vector n (revectored n' v k w) = vector n w.
Proof.
  intros Hn. unfold vector, revectored. wsimpl. rewrite load_store_disjoint; [done|].
  change (Z.of_nat (length (segoff_bytes v))) with 4. unfold disjoint. lia.
Qed.

Lemma vector_set_bios n b w : vector n (set_w_bios b w) = vector n w.
Proof. done. Qed.

Lemma vector_range n w :
  Forall is_byte (load 4 (4 * n) (w_mem w)) ->
  0 <= (vector n w).1 < 65536 /\ 0 <= (vector n w).2 < 65536.
Proof.
  intros Hm. unfold vector, segoff_of_bytes. cbn [fst snd].
  pose proof (le_combine_range _ (Forall_take _ 2 _ Hm)) as H1.
  pose proof (le_combine_range _ (Forall_drop _ 2 _ Hm)) as H2.
  rewrite length_take, length_load in H1. rewrite length_drop, length_load in H2.
  change (2 ^ (8 * Z.of_nat (2 `min` 4))) with 65536 in H1.
  change (2 ^ (8 * Z.of_nat (4 - 2))) with 65536 in H2. lia.
Qed.

(** Vectors of updated states. *)
Ltac vectors :=
  repeat first [rewrite vector_set_bios | rewrite vector_revectored_ne by done
               | rewrite vector_revectored by (cbn [fst snd]; assumption)].

(** What a boot sector that starts in [w1] finds, when it is called in [w]. *)
Record booting (w w1 : world) : Prop := {
  bt_int18 : vector 0x18 w1 = (rm_cs, bootsector_exec_fail);
  bt_int19 : vector 0x19 w1 = (rm_cs, bootsector_exec_fail);
  bt_mem : mem_eq_except 0x60 8 (w_mem w) (w_mem w1);
  bt_rest : exists m k v v', w1 =
    set_w_bios (set_int18_vector v (set_int19_vector v'
      (set_hooked_bios_interrupts k (w_bios w)))) (set_w_mem m w) }.

(** The boot sector returned by interrupt 0x18 or 0x19, which it has left
    alone together with our variables. *)
Record gave_up (w1 w2 : world) : Prop := {
  gu_int18 : vector 0x18 w2 = vector 0x18 w1;
  gu_int19 : vector 0x19 w2 = vector 0x19 w1;
  gu_bios : w_bios w2 = w_bios w1;
  gu_dev : w_dev w2 = w_dev w1 }.

(** The states in which a boot sector is started and left. *)
Definition hook18 (w : world) : world :=
  let w' := revectored 0x18 (rm_cs, bootsector_exec_fail) 1 w in
  set_w_bios (set_int18_vector (vector 0x18 w) (w_bios w')) w'.
Definition hook19 (w : world) : world :=
  let w' := revectored 0x19 (rm_cs, bootsector_exec_fail) 1 w in
  set_w_bios (set_int19_vector (vector 0x19 w) (w_bios w')) w'.
Definition unhook18 (w : world) : world :=
  let w' := revectored 0x18 (int18_vector (w_bios w)) (-1) w in
  set_w_bios (set_int18_vector (0, 0) (w_bios w')) w'.
Definition unhook19 (w : world) : world :=
  let w' := revectored 0x19 (int19_vector (w_bios w)) (-1) w in
  set_w_bios (set_int19_vector (0, 0) (w_bios w')) w'.

Hypothesis Hcs : 0 <= rm_cs < 65536.
Hypothesis Hfail : 0 <= bootsector_exec_fail < 65536.

Lemma hooked_booting w : booting w (hook19 (hook18 w)).
Proof.
  unfold hook19, hook18. constructor.
  - by vectors.
  - by vectors.
  - unfold revectored. wsimpl. eapply mem_eq_except_trans; apply mem_eq_except_store; cbn; lia.
  - eexists _, _, _, _. reflexivity.
Qed.

(** What the saved vectors are, and that unhooking undoes the bookkeeping. *)
Lemma hooked_saved w :
  int18_vector (w_bios (hook19 (hook18 w))) = vector 0x18 w /\
  int19_vector (w_bios (hook19 (hook18 w))) = vector 0x19 w.
Proof.
  split; [done|]. change (vector 0x19 (hook18 w) = vector 0x19 w). unfold hook18. by vectors.
Qed.

Lemma unhooked_bios w w2 :
  int18_vector (w_bios w) = (0, 0) -> int19_vector (w_bios w) = (0, 0) ->
  0 <= hooked_bios_interrupts (w_bios w) < 65534 ->
  w_bios w2 = w_bios (hook19 (hook18 w)) -> w_bios (unhook19 (unhook18 w2)) = w_bios w.
Proof.
  intros H18 H19 Hn E. unfold unhook19, unhook18, revectored. wsimpl. rewrite E.
  unfold hook19, hook18, revectored. wsimpl. destruct (w_bios w) as [v13 eq fd dr n k x v18 v19].
  cbn in *. subst. rewrite (u16_small (n + 1)), (u16_small (n + 1 + 1)) by lia.
  rewrite (u16_small (n + 1 + 1 + -1)), (u16_small (n + 1 + 1 + -1 + -1)) by lia.
  replace (n + 1 + 1 + -1 + -1) with n by lia. done.
Qed.

(** Jumping to a boot sector: while it runs, interrupts 0x18 and 0x19
    point to our restart point, and nothing else has changed.  When it gives
    up by one of them, both vectors, their saved copies and the count of
    hooked interrupts are as before the call, memory is otherwise as the boot
    sector left it, and the call returns -ECANCELED. *)
Lemma wp_call_bootsector run_bootsector segment offset drive_ R (w : world) :
  Forall is_byte (load 8 0x60 (w_mem w)) ->
  int18_vector (w_bios w) = (0, 0) -> int19_vector (w_bios w) = (0, 0) ->
  0 <= hooked_bios_interrupts (w_bios w) < 65534 ->
  (forall w1, booting w w1 ->
     wp (run_bootsector (u16 segment, u16 offset) (bootsector_regs drive_))
       (fun _ w2 => gave_up w1 w2 /\ R w2) w1) ->
  wp (call_bootsector run_bootsector segment offset drive_)
    (fun rc w3 => rc = - ECANCELED /\
       vector 0x18 w3 = vector 0x18 w /\ vector 0x19 w3 = vector 0x19 w /\
       w_bios w3 = w_bios w /\ w_dev w3 = w_dev w /\
       exists w2, R w2 /\ mem_eq_except 0x60 8 (w_mem w2) (w_mem w3)) w.
Proof.
  intros Hm H18 H19 Hn Hrun. unfold call_bootsector, upd_bios.
  repeat wp_prim. rewrite H18. apply wp_hook_bios_interrupt; [lia|]. repeat wp_prim.
  rewrite (u16_small bootsector_exec_fail) by lia. fold (hook18 w).
  change (int19_vector (w_bios (hook18 w))) with (int19_vector (w_bios w)).
  rewrite H19. apply wp_hook_bios_interrupt; [lia|]. repeat wp_prim.
  rewrite (u16_small bootsector_exec_fail) by lia. fold (hook19 (hook18 w)).
  pose proof (hooked_booting w) as Hw1. pose proof (hooked_saved w) as [E18 E19].
  rewrite (load_app 4 4), Forall_app in Hm. destruct Hm as [Hm18 Hm19].
  pose proof (vector_range 0x18 w Hm18) as [R18 R18'].
  pose proof (vector_range 0x19 w Hm19) as [R19 R19'].
  eapply wp_mono; [by apply Hrun|]. intros _ w2 [[G18 G19 Gb Gd] HR]. repeat wp_prim.
  apply wp_unhook_bios_interrupt; [lia|rewrite G18; apply Hw1|]. repeat wp_prim.
  fold (unhook18 w2). apply wp_unhook_bios_interrupt; [lia| |].
  { unfold unhook18. vectors. rewrite G19. apply Hw1. }
  repeat wp_prim. fold (unhook19 (unhook18 w2)).
  rewrite (unhooked_bios w w2) by done. unfold unhook19, unhook18.
  change (int19_vector (w_bios (set_w_bios _ _))) with (int19_vector (w_bios w2)).
  rewrite Gb, E18, E19. split_and!; [done|by vectors..|done|exact Gd|].
  exists w2. split; [done|]. unfold revectored. wsimpl.
  eapply mem_eq_except_trans; apply mem_eq_except_store; cbn; lia.
Qed.
End autoboot_spec.
