(* ===== verification/NvmeIo.v ===== *)
(** * NvmeIo

    The contract between the driver and an NVMe controller for I/O commands:
    the submission and completion entry formats, what an idle controller does
    with a command once the doorbell is rung, and what the driver's I/O
    queue state has to do with it.  Against this contract, [nvme_io_xfer]
    transfers the block it is asked for. *)

From S2P Require Import Prelude.
From S2P Require Import Memory.
From S2P Require Import World.
From S2P Require Import Object.
From S2P Require Import Malloc.
From S2P Require Import Nvme.

(** ** Entry formats (NVM Express specification, figures of SQE and CQE) *)

(** A submission entry for [count] blocks from [lba], with limited retry. *)
Definition io_sqe (opc cid nsid prp1 prp2 lba count : Z) : list Z :=
  le_split 4 (opc + cid * 2 ^ 16) ++ le_split 4 nsid ++ replicate 16 0 ++
  le_split 8 prp1 ++ le_split 8 prp2 ++ le_split 4 lba ++
  le_split 4 (lba / 2 ^ 32) ++ le_split 4 (2 ^ 31 + (count - 1)) ++
  replicate 12 0.

(** A completion entry. *)
Definition cqe_bytes (dw0 dw1 sq_head sqid cid status : Z) (phase : bool)
    : list Z :=
  le_split 4 dw0 ++ le_split 4 dw1 ++ le_split 2 sq_head ++ le_split 2 sqid ++
  le_split 2 cid ++ le_split 2 (2 * status + Z_of_bool phase).

(** ** Queue pairs *)

(** The I/O queue pair of an idle controller: physical addresses of the rings,
    doorbells, index mask, next submission slot, next completion slot and its
    phase. *)
Record io_queues : Type := mkQs {
  qs_sq : Z; qs_cq : Z; qs_sq_dbl : Z; qs_cq_dbl : Z; qs_mask : Z;
  qs_tail : Z; qs_head : Z; qs_phase : bool }.

Definition qs_next (qs : io_queues) (i : Z) : Z := Z.land (i + 1) (qs_mask qs).

Definition qs_sqe (qs : io_queues) : Z := qs_sq qs + 64 * qs_tail qs.
Definition qs_cqe (qs : io_queues) : Z := qs_cq qs + 16 * qs_head qs.

(** The queue pair after one command. *)
Definition qs_advance (qs : io_queues) : io_queues :=
  mkQs (qs_sq qs) (qs_cq qs) (qs_sq_dbl qs) (qs_cq_dbl qs) (qs_mask qs)
    (qs_next qs (qs_tail qs)) (qs_next qs (qs_head qs))
    (if qs_next qs (qs_head qs) <? qs_head qs then negb (qs_phase qs)
     else qs_phase qs).

Section contract.
Context `{Platform}.

(** [n] polls of the hardware. *)
Fixpoint polls (n : nat) (h : hw) (m : mem) : hw * mem :=
  match n with
  | O => (h, m)
  | S n => let (h, m) := hw_poll h m in polls n h m
  end.

(** ** The controller *)

(** What the driver relies on of a controller with one namespace of 512-byte
    blocks.  [io_status] is the status code with which a read of a block is
    completed; 0 is success. *)
Class NvmeController : Type := {
  io_idle : hw -> io_queues -> Prop;
  io_nsid : Z;
  io_data : hw -> Z -> list Z;
  io_status : hw -> Z -> Z;
  io_latency : nat;

  io_status_range h lba : 0 <= io_status h lba < 256;

  (** Time passing leaves an idle controller alone, and less than a second
      passes between two reads of the clock. *)
  idle_advance h qs : io_idle h qs -> io_idle (hw_advance h) qs;
  data_advance h lba : io_data (hw_advance h) lba = io_data h lba;
  status_advance h lba : io_status (hw_advance h) lba = io_status h lba;
  clock_advance h : u32 (hw_ticks (hw_advance h) - hw_ticks h) < 1024;

  (** A read command in the next submission slot of an idle controller, once
      the tail doorbell is written, completes within [io_latency] polls.
      Until then memory changes at most in the data buffer.  The completion
      goes to the next completion slot, and on success the data buffer holds
      the block.  The head doorbell makes the controller idle again. *)
  read_completes h qs m lba prp1 cid :
    io_idle h qs ->
    0 <= lba < 2 ^ 64 ->
    0 <= cid < 2 ^ 16 ->
    0 <= prp1 < 2 ^ 32 -> prp1 mod 4096 = 0 ->
    disjoint prp1 4096 (qs_cq qs) (16 * (qs_mask qs + 1)) ->
    load 64 (qs_sqe qs) m =
      io_sqe NVME_SQE_OPC_IO_READ cid io_nsid prp1 0 lba 1 ->
    let h1 := mmio_write32 h (qs_sq_dbl qs) (qs_next qs (qs_tail qs)) in
    exists n h2 m2 dw0 dw1 sqid,
      (n <= io_latency)%nat /\
      (forall k, (k < n)%nat -> mem_eq_except prp1 512 m (polls k h1 m).2) /\
      polls n h1 m = (h2, m2) /\
      (forall x, in_range prp1 512 x = false ->
                 in_range (qs_cqe qs) 16 x = false -> m2 x = m x) /\
      load 16 (qs_cqe qs) m2 =
        cqe_bytes dw0 dw1 (qs_next qs (qs_tail qs)) sqid cid
          (io_status h lba) (qs_phase qs) /\
      (io_status h lba = 0 -> load 512 prp1 m2 = io_data h lba) /\
      let h3 := mmio_write32 h2 (qs_cq_dbl qs) (qs_next qs (qs_head qs)) in
      io_idle h3 (qs_advance qs) /\
      (forall lba, io_data h3 lba = io_data h lba) /\
      (forall lba, io_status h3 lba = io_status h lba)
}.

(** ** The driver's side *)

(** The phase bit of completion slot [i]. *)
Definition slot_phase (m : mem) (qs : io_queues) (i : Z) : bool :=
  bool_of_Z (Z.land (ld32 (qs_cq qs + 16 * i + 12) m) NVME_CQE_DW3_P).

(** Slots at or after the head hold completions of the previous pass. *)
Definition cq_stale (m : mem) (qs : io_queues) : Prop :=
  forall i, 0 <= i <= qs_mask qs ->
    slot_phase m qs i =
      if i <? qs_head qs then qs_phase qs else negb (qs_phase qs).

Context `{!NvmeController}.

(** The I/O queues of controller structure [c] are [qs], in sound places, and
    the controller is idle. *)
Record io_ready (c : nvme_ctrl) (h : hw) (m : mem) (qs : io_queues) : Prop := {
  rdy_sq : io_sq c = mkSq (mkQueue (qs_sq_dbl qs) (qs_mask qs))
                       (sq_sqe (io_sq c)) Q_io (qs_tail qs) (qs_tail qs);
  rdy_cq : io_cq c = mkCq (mkQueue (qs_cq_dbl qs) (qs_mask qs))
                       (cq_cqe (io_cq c)) (qs_head qs) (qs_phase qs);
  rdy_sqe : 0 < sq_sqe (io_sq c) /\ virt_to_phys (sq_sqe (io_sq c)) = qs_sq qs;
  rdy_cqe : 0 < cq_cqe (io_cq c) /\ virt_to_phys (cq_cqe (io_cq c)) = qs_cq qs;
  rdy_sq_top : qs_sq qs + 64 * (qs_mask qs + 1) <= 2 ^ 32;
  rdy_cq_top : qs_cq qs + 16 * (qs_mask qs + 1) <= 2 ^ 32;
  rdy_rings : disjoint (qs_sq qs) (64 * (qs_mask qs + 1))
                (qs_cq qs) (16 * (qs_mask qs + 1));
  rdy_mask : exists k, 1 <= k <= 16 /\ qs_mask qs = 2 ^ k - 1;
  rdy_tail : 0 <= qs_tail qs <= qs_mask qs;
  rdy_head : 0 <= qs_head qs <= qs_mask qs;
  rdy_idle : io_idle h qs;
  rdy_stale : cq_stale m qs }.

(** ** Ring arithmetic *)

Lemma mask_next k i : 1 <= k -> 0 <= i <= 2 ^ k - 1 ->
  Z.land (i + 1) (2 ^ k - 1) = if i =? 2 ^ k - 1 then 0 else i + 1.
Proof.
  intros Hk Hi. rewrite land_ones_mod by lia.
  destruct (Z.eqb_spec i (2 ^ k - 1)) as [->|].
  - replace (2 ^ k - 1 + 1) with (2 ^ k) by lia. apply Z.mod_same. lia.
  - apply Z.mod_small. lia.
Qed.

Lemma qs_next_range c h m qs i :
  io_ready c h m qs -> 0 <= i <= qs_mask qs -> 0 <= qs_next qs i <= qs_mask qs.
Proof.
  intros Hr Hi. destruct (rdy_mask _ _ _ _ Hr) as (k & Hk & Hm).
  unfold qs_next. rewrite Hm in *. rewrite mask_next by lia.
  destruct (i =? 2 ^ k - 1) eqn:?; lia.
Qed.

(** ** Submission *)

(** The stores of [nvme_get_next_sqe] and [nvme_io_submit] into a slot. *)
Definition sqe_stores (a d0 nsid p1 p2 d10 d11 d12 : Z) (m : mem) : mem :=
  st32 (a + sqe_dword 12) d12 (st32 (a + sqe_dword 11) d11
    (st32 (a + sqe_dword 10) d10 (st32 (a + sqe_nsid) nsid
      (st64 (a + sqe_dptr_prp2) p2 (st64 (a + sqe_dptr_prp1) p1
        (st64 (a + sqe_mptr) 0 (st32 (a + sqe_cdw0) d0
          (fill a 0 sizeof_sqe m)))))))).

Lemma sqe_stores_load a d0 nsid p1 p2 d10 d11 d12 m :
  load 64 a (sqe_stores a d0 nsid p1 p2 d10 d11 d12 m) =
  le_split 4 d0 ++ le_split 4 nsid ++ replicate 16 0 ++ le_split 8 p1 ++
  le_split 8 p2 ++ le_split 4 d10 ++ le_split 4 d11 ++ le_split 4 d12 ++
  replicate 12 0.
Proof.
  unfold sqe_stores, st32, st64.
  change sqe_cdw0 with (Z.of_nat 0). change sqe_nsid with (Z.of_nat 4).
  change sqe_mptr with (Z.of_nat 16). change sqe_dptr_prp1 with (Z.of_nat 24).
  change sqe_dptr_prp2 with (Z.of_nat 32).
  change (sqe_dword 10) with (Z.of_nat 40).
  change (sqe_dword 11) with (Z.of_nat 44).
  change (sqe_dword 12) with (Z.of_nat 48).
  rewrite !(load_store_within 64) by (rewrite length_le_split; lia).
  rewrite load_fill_inside by (unfold sizeof_sqe; lia).
  reflexivity.
Qed.

Lemma sqe_stores_except a d0 nsid p1 p2 d10 d11 d12 m :
  mem_eq_except a 64 m (sqe_stores a d0 nsid p1 p2 d10 d11 d12 m).
Proof.
  intros x Hx. unfold sqe_stores, st32, st64.
  rewrite in_range_false in Hx.
  unfold store, fill. rewrite !length_le_split.
  repeat match goal with
  | |- context [in_range ?b ?n x] =>
      replace (in_range b n x) with false
        by (symmetry; apply in_range_false;
            unfold sqe_dword, sqe_nsid, sqe_dptr_prp1, sqe_dptr_prp2, sqe_mptr,
              sqe_cdw0, sizeof_sqe; lia)
  end.
  reflexivity.
Qed.

(** The world with new memory, hardware and controller structure. *)
Definition io_update (m : mem) (h : hw) (ctrl : Z) (c : nvme_ctrl) (w : world)
    : world :=
  set_w_mem m (set_w_hw h
    (set_w_nvme (set_nvme_ctrls (<[ctrl := c]> (nvme_ctrls (w_nvme w)))
                   (w_nvme w)) w)).

Context `{!Methods}.

Lemma io_cdw12 count : 1 <= count <= 65536 ->
  u32 (Z.lor (Z.shiftl 1 31) (count - 1)) = 2 ^ 31 + (count - 1).
Proof.
  intros Hc. rewrite Z.lor_comm, lor_shiftl_add by lia.
  rewrite u32_small by lia. lia.
Qed.

Lemma slot_phys c h m qs o :
  io_ready c h m qs -> 0 <= o < 64 ->
  virt_to_phys (sq_sqe (io_sq c) + 64 * qs_tail qs + o) = qs_sqe qs + o.
Proof.
  intros [_ _ [Hp Hv] _ Htop _ _ _ Ht _ _ _] Ho. unfold qs_sqe.
  rewrite <- Z.add_assoc, virt_to_phys_add; lia.
Qed.

Lemma wp_nvme_get_next_sqe ctrl c qs opc data data2 Q w :
  nvme_ctrls (w_nvme w) !! ctrl = Some c ->
  io_ready c (w_hw w) (w_mem w) qs ->
  Q (sq_sqe (io_sq c) + 64 * qs_tail qs)
    (set_w_mem
       (st64 (qs_sqe qs + sqe_dptr_prp2) (u32 data2)
         (st64 (qs_sqe qs + sqe_dptr_prp1) (u32 data)
           (st64 (qs_sqe qs + sqe_mptr) 0
             (st32 (qs_sqe qs + sqe_cdw0)
                (Z.lor opc (Z.shiftl (qs_tail qs) 16))
                (fill (qs_sqe qs) 0 sizeof_sqe (w_mem w)))))) w) ->
  wp (nvme_get_next_sqe ctrl Q_io opc NULL data data2) Q w.
Proof.
  intros Hc Hr HQ.
  pose proof Hr as [Hsq _ [Hp Hv] _ Htop _ _ (k & Hk & Hm) Ht _ _ _].
  unfold nvme_get_next_sqe, get_sq, get_ctrl. repeat wstep.
  unfold ctrl_sq. rewrite Hsq. wsimpl.
  rewrite Hm, mask_next by lia.
  assert (2 <= 2 ^ k) by (apply (Z.pow_le_mono_r 2 1 k); lia).
  replace (_ =? qs_tail qs) with false
    by (symmetry; destruct (qs_tail qs =? 2 ^ k - 1) eqn:?; lia).
  unfold sizeof_sqe in *.
  pose proof (fun o => slot_phys c _ _ qs o Hr) as Hslot.
  assert (Hslot0 : virt_to_phys (sq_sqe (io_sq c) + 64 * qs_tail qs) = qs_sqe qs)
    by (rewrite <- (Z.add_0_r (_ + 64 * _)), Hslot; lia).
  wp_prim. apply wp_memset; [lia|].
  wp_prim. apply wp_store32; [unfold sqe_cdw0; lia|].
  wp_prim. apply wp_store64; [unfold sqe_mptr; lia|].
  wp_prim. apply wp_store64; [unfold sqe_dptr_prp1; lia|].
  wp_prim. apply wp_store64; [unfold sqe_dptr_prp2; lia|].
  wp_prim. wsimpl. rewrite !Hslot, Hslot0 by (vm_compute; intuition congruence).
  exact HQ.
Qed.

Lemma wp_nvme_io_submit ns n c qs lba prp1 prp2 count (write : bool) Q w :
  nvme_nss (w_nvme w) !! ns = Some n ->
  nvme_ctrls (w_nvme w) !! ns_ctrl n = Some c ->
  io_ready c (w_hw w) (w_mem w) qs ->
  1 <= count <= 65536 -> 0 <= prp1 < 2 ^ 32 -> 0 <= prp2 < 2 ^ 32 ->
  (forall m', mem_eq_except (qs_sqe qs) 64 (w_mem w) m' ->
     load 64 (qs_sqe qs) m' =
       io_sqe (if write then NVME_SQE_OPC_IO_WRITE else NVME_SQE_OPC_IO_READ)
         (qs_tail qs) (ns_id n) prp1 prp2 lba count ->
     Q tt (io_update m'
             (mmio_write32 (w_hw w) (qs_sq_dbl qs) (qs_next qs (qs_tail qs)))
             (ns_ctrl n)
             (set_io_sq (set_sq_tail (qs_next qs (qs_tail qs)) (io_sq c)) c)
             w)) ->
  wp (nvme_io_submit ns lba prp1 prp2 count write) Q w.
Proof.
  intros Hn Hc Hr Hcount Hp1 Hp2 HQ. unfold nvme_io_submit, get_ns. repeat wstep.
  eapply wp_nvme_get_next_sqe; [eassumption..|].
  pose proof (fun o => slot_phys c _ _ qs o Hr) as Hslot.
  pose proof (qs_next_range _ _ _ _ _ Hr (rdy_tail _ _ _ _ Hr)) as Hnext.
  destruct Hr as [Hsq _ [Hp _] _ _ _ _ (k & Hk & Hm) Ht _ _ _].
  wp_prim. apply wp_via; [lia|]. apply wp_store32; [unfold sqe_nsid; lia|].
  do 3 (wp_prim; apply wp_store32; [unfold sqe_dword; lia|]).
  unfold nvme_commit_sqe, get_sq, put_sq, get_ctrl, put_ctrl, upd_nvme, writel.
  rewrite !Hslot by (vm_compute; intuition congruence).
  repeat wstep. unfold ctrl_sq, set_ctrl_sq.
  assert (Hd : q_dbl (sq_common (io_sq c)) = qs_sq_dbl qs) by (rewrite Hsq; done).
  assert (Htl : sq_tail (io_sq c) = qs_tail qs) by (rewrite Hsq; done).
  assert (Hmk : q_mask (sq_common (io_sq c)) = qs_mask qs) by (rewrite Hsq; done).
  rewrite Hd, Htl, Hmk. fold (qs_next qs (qs_tail qs)).
  assert (2 ^ k <= 2 ^ 16) by (apply Z.pow_le_mono_r; lia).
  rewrite u16_small, u32_small by lia.
  eapply (HQ (sqe_stores _ _ _ _ _ _ _ _ _)).
  - apply sqe_stores_except.
  - rewrite sqe_stores_load. unfold io_sqe.
    rewrite lor_shiftl_add by (destruct write; vm_compute; intuition congruence).
    rewrite io_cdw12, !le_split_u32, !u32_small by lia.
    rewrite Z.shiftr_div_pow2 by lia. reflexivity.
Qed.
(** ** Completion *)

(** Controller structure [c] polls completion slot [qs_head qs] of [qs]. *)
Record cq_at (c : nvme_ctrl) (qs : io_queues) : Prop := {
  at_sq_cq : sq_cq (io_sq c) = Q_io;
  at_cq : io_cq c = mkCq (mkQueue (qs_cq_dbl qs) (qs_mask qs))
                      (cq_cqe (io_cq c)) (qs_head qs) (qs_phase qs);
  at_cqe : 0 < cq_cqe (io_cq c) /\ virt_to_phys (cq_cqe (io_cq c)) = qs_cq qs;
  at_top : qs_cq qs + 16 * (qs_mask qs + 1) <= 2 ^ 32;
  at_head : 0 <= qs_head qs <= qs_mask qs }.

Lemma cqe_phys c qs o :
  cq_at c qs -> 0 <= o < 16 ->
  virt_to_phys (cq_cqe (io_cq c) + 16 * qs_head qs + o) = qs_cqe qs + o.
Proof.
  intros [_ _ [Hp Hv] Htop Hh] Ho. unfold qs_cqe.
  rewrite <- Z.add_assoc, virt_to_phys_add; lia.
Qed.

Lemma wp_nvme_poll_cq ctrl c qs Q w :
  nvme_ctrls (w_nvme w) !! ctrl = Some c -> cq_at c qs ->
  Q (Bool.eqb (slot_phase (w_mem w) qs (qs_head qs)) (qs_phase qs)) w ->
  wp (nvme_poll_cq ctrl Q_io) Q w.
Proof.
  intros Hc Ha HQ. pose proof (cqe_phys c qs 12 Ha ltac:(lia)) as Hphys.
  destruct Ha as [_ Hcq [Hp _] _ Hh].
  unfold nvme_poll_cq, get_cq, get_ctrl. repeat wstep. unfold ctrl_cq.
  rewrite Hcq. wsimpl. apply wp_load_at; [unfold sizeof_cqe; lia|].
  wp_prim. unfold sizeof_cqe. rewrite Hphys. exact HQ.
Qed.

(** The loop of [nvme_wait] polls the hardware until the phase changes. *)
Lemma wp_wait_polls ctrl c qs n k Q w :
  nvme_ctrls (w_nvme w) !! ctrl = Some c -> cq_at c qs ->
  (n < k)%nat ->
  (forall j, (j < n)%nat ->
     slot_phase (polls j (w_hw w) (w_mem w)).2 qs (qs_head qs)
       = negb (qs_phase qs)) ->
  slot_phase (polls n (w_hw w) (w_mem w)).2 qs (qs_head qs) = qs_phase qs ->
  Q tt (set_w_hw (polls n (w_hw w) (w_mem w)).1
          (set_w_mem (polls n (w_hw w) (w_mem w)).2 w)) ->
  wp (while k (sq <- get_sq ctrl Q_io ;;
               ready <- nvme_poll_cq ctrl (sq_cq sq) ;;
               ret (negb ready)) poll_hw) Q w.
Proof.
  intros Hc Ha. revert k w Hc. induction n as [|n IH]; intros k w Hc Hk Hbefore Hat HQ.
  all: destruct k as [|k]; [lia|]; apply wp_iterate_S; unfold get_sq, get_ctrl;
    repeat wstep; unfold ctrl_sq; rewrite (at_sq_cq _ _ Ha);
    eapply wp_nvme_poll_cq; [eassumption..|]; wp_prim.
  - cbn [polls] in *. wsimpl_in Hat. rewrite Hat, Bool.eqb_reflx. repeat wp_prim.
    destruct w; exact HQ.
  - pose proof (Hbefore 0%nat ltac:(lia)) as Hnow. cbn [polls snd] in Hnow.
    rewrite Hnow, Bool.eqb_negb1. cbn [negb].
    unfold poll_hw. repeat wp_prim. cbn [polls] in *.
    destruct (hw_poll (w_hw w) (w_mem w)) as [h' m'] eqn:E.
    apply IH; wsimpl; auto; [lia|]. intros j Hj.
    specialize (Hbefore (S j)). cbn [polls] in Hbefore. rewrite E in Hbefore.
    apply Hbefore. lia.
Qed.
(** ** Decoding a completion entry *)

Lemma ld32_load16 m a (i : nat) :
  (i <= 12)%nat ->
  ld32 (a + Z.of_nat i) m = le_combine (take 4 (drop i (load 16 a m))).
Proof. intros Hi. rewrite drop_load, take_load by lia. reflexivity. Qed.

Lemma le_combine_halves x y :
  le_combine (le_split 2 x ++ le_split 2 y) = u16 x + 65536 * u16 y.
Proof.
  rewrite le_combine_app, length_le_split, !le_combine_split. reflexivity.
Qed.

Section cqe.
Context (m : mem) (a dw0 dw1 sqh sqid cid status : Z) (phase : bool).
Hypothesis Hcqe : load 16 a m = cqe_bytes dw0 dw1 sqh sqid cid status phase.
Hypothesis Hsqh : 0 <= sqh < 65536.
Hypothesis Hstatus : 0 <= status < 256.

Lemma cqe_bytes_dw2 : ld32 (a + 8) m = sqh + 65536 * u16 sqid.
Proof.
  change (a + 8) with (a + Z.of_nat 8). rewrite ld32_load16, Hcqe by lia.
  change (take 4 _) with (le_split 2 sqh ++ le_split 2 sqid).
  rewrite le_combine_halves, u16_small by lia. reflexivity.
Qed.

Lemma cqe_bytes_dw3 : ld32 (a + 12) m = u16 cid + 65536 * (2 * status + Z_of_bool phase).
Proof.
  change (a + 12) with (a + Z.of_nat 12). rewrite ld32_load16, Hcqe by lia.
  change (take 4 _)
    with (le_split 2 cid ++ le_split 2 (2 * status + Z_of_bool phase)).
  rewrite le_combine_halves, (u16_small (_ + _)); [reflexivity|].
  destruct phase; cbn; lia.
Qed.

Lemma cqe_phase_bit :
  bool_of_Z (Z.land (ld32 (a + 12) m) NVME_CQE_DW3_P) = phase.
Proof.
  rewrite cqe_bytes_dw3. change NVME_CQE_DW3_P with (2 ^ 16).
  rewrite bool_of_Z_land_pow2 by lia.
  rewrite <- (Z.div_pow2_bits _ 16 0), Z.bit0_odd by lia.
  rewrite Z.add_comm, Z.mul_comm, Z.div_add_l by lia.
  rewrite (Z.div_small (u16 cid)), Z.add_0_r by apply u16_range.
  rewrite Z.add_comm, Z.odd_add_mul_2. destruct phase; reflexivity.
Qed.

Lemma cqe_success dw0' dw1' :
  nvme_is_cqe_success (mkCqe dw0' dw1' (ld32 (a + 8) m) (ld32 (a + 12) m))
  = (status =? 0).
Proof.
  unfold nvme_is_cqe_success, cqe_status. cbn [cqe_dw3]. rewrite cqe_bytes_dw3.
  rewrite !Z.shiftr_div_pow2 by lia.
  rewrite Z.add_comm, Z.mul_comm, Z.div_add_l by lia.
  rewrite (Z.div_small (u16 cid)), Z.add_0_r by apply u16_range.
  replace ((2 * status + Z_of_bool phase) / 2 ^ 1) with status
    by (destruct phase; cbn; dlia).
  change 0xff with (2 ^ 8 - 1). rewrite land_ones_mod, Z.mod_small by lia.
  reflexivity.
Qed.

Lemma cqe_sq_head_val dw0' dw1' dw3' :
  cqe_sq_head (mkCqe dw0' dw1' (ld32 (a + 8) m) dw3') = sqh.
Proof.
  unfold cqe_sq_head. cbn [cqe_dw2]. rewrite cqe_bytes_dw2.
  change 0xffff with (2 ^ 16 - 1). rewrite land_ones_mod by lia. dlia.
Qed.
End cqe.

(** The completion queue after its next entry is consumed. *)
Definition cq_consumed (c : nvme_ctrl) (qs : io_queues) : nvme_cq :=
  mkCq (mkQueue (qs_cq_dbl qs) (qs_mask qs)) (cq_cqe (io_cq c))
    (qs_head (qs_advance qs)) (qs_phase (qs_advance qs)).

Lemma wp_nvme_consume_cqe ctrl c qs dw0 dw1 sqh sqid cid status Q w :
  nvme_ctrls (w_nvme w) !! ctrl = Some c -> cq_at c qs ->
  0 <= qs_next qs (qs_head qs) < 65536 ->
  load 16 (qs_cqe qs) (w_mem w) =
    cqe_bytes dw0 dw1 sqh sqid cid status (qs_phase qs) ->
  0 <= sqh < 65536 -> 0 <= status < 256 ->
  (forall cqe, nvme_is_cqe_success cqe = (status =? 0) ->
     Q cqe (io_update (w_mem w)
              (mmio_write32 (w_hw w) (qs_cq_dbl qs) (qs_next qs (qs_head qs)))
              ctrl
              (set_io_cq (cq_consumed c qs)
                 (set_io_sq (set_sq_head sqh (io_sq c)) c)) w)) ->
  wp (nvme_consume_cqe ctrl Q_io) Q w.
Proof.
  intros Hc Ha Hnext Hcqe Hsqh Hst HQ.
  pose proof (fun o => cqe_phys c qs o Ha) as Hphys.
  pose proof Ha as [Hsc Hcq [Hp _] _ Hh].
  unfold nvme_consume_cqe, get_sq, get_ctrl. repeat wstep. unfold ctrl_sq.
  rewrite Hsc. eapply wp_nvme_poll_cq; [eassumption..|].
  assert (Hph : slot_phase (w_mem w) qs (qs_head qs) = qs_phase qs)
    by (eapply cqe_phase_bit; eassumption).
  rewrite Hph, Bool.eqb_reflx. cbn [negb]. unfold get_cq, get_ctrl. repeat wstep.
  unfold ctrl_cq.
  assert (Hhd : cq_head (io_cq c) = qs_head qs) by (rewrite Hcq; done).
  rewrite Hhd. unfold sizeof_cqe, load32.
  apply wp_load_at; [lia|]. do 3 (wp_prim; apply wp_load_at; [lia|]).
  rewrite !Hphys by lia.
  set (cqe := mkCqe _ _ _ _).
  assert (Hok : nvme_is_cqe_success cqe = (status =? 0))
    by (eapply cqe_success; eassumption).
  assert (Hsh : cqe_sq_head cqe = sqh) by (eapply cqe_sq_head_val; eassumption).
  rewrite Hsh. rewrite Hcq. wsimpl. fold (qs_next qs (qs_head qs)).
  rewrite u16_small by lia.
  unfold put_cq, put_sq, get_ctrl, put_ctrl, upd_nvme, writel.
  specialize (HQ cqe Hok). unfold io_update in HQ.
  destruct (Z.eqb_spec sqh (sq_head (io_sq c))) as [He|He]; repeat wstep.
  - replace (set_io_sq (set_sq_head sqh (io_sq c)) c) with c in HQ
      by (rewrite He; destruct c as [? ? ? ? ? ? ? [] ?]; reflexivity).
    rewrite u32_small by lia. exact HQ.
  - rewrite u32_small by lia. rewrite insert_insert_eq. exact HQ.
Qed.
(** ** One command *)

(** Memory changes at most in the submission slot, the data buffer and the
    completion slot. *)
Definition io_frame (qs : io_queues) (prp1 : Z) (m m' : mem) : Prop :=
  forall x, in_range (qs_sqe qs) 64 x = false -> in_range prp1 512 x = false ->
    in_range (qs_cqe qs) 16 x = false -> m' x = m x.

(** A page that the device may write: aligned and away from the rings. *)
Record io_buffer (qs : io_queues) (prp1 : Z) : Prop := {
  buf_range : 0 <= prp1 < 2 ^ 32;
  buf_aligned : prp1 mod 4096 = 0;
  buf_sq : disjoint prp1 4096 (qs_sq qs) (64 * (qs_mask qs + 1));
  buf_cq : disjoint prp1 4096 (qs_cq qs) (16 * (qs_mask qs + 1)) }.

Lemma io_buffer_advance qs prp1 :
  io_buffer qs prp1 -> io_buffer (qs_advance qs) prp1.
Proof. intros []; constructor; auto. Qed.

Lemma io_ready_cq_at c h m qs sq :
  io_ready c h m qs -> sq_cq sq = Q_io -> cq_at (set_io_sq sq c) qs.
Proof. intros [] ?. constructor; wsimpl; auto. Qed.

(** Slots other than those a command touches keep their phase. *)
Lemma slot_phase_frame c h m qs m' i :
  io_ready c h m qs -> 0 <= i <= qs_mask qs ->
  (forall x, in_range (qs_cq qs + 16 * i) 16 x = true -> m' x = m x) ->
  slot_phase m' qs i = slot_phase m qs i.
Proof.
  intros Hr Hi Hx. unfold slot_phase, ld32. do 3 f_equal.
  apply load_ext. intros x Hin. apply Hx, in_range_spec. lia.
Qed.

Lemma cq_stale_advance c h m qs prp1 m' :
  io_ready c h m qs -> io_buffer qs prp1 -> io_frame qs prp1 m m' ->
  slot_phase m' qs (qs_head qs) = qs_phase qs ->
  cq_stale m' (qs_advance qs).
Proof.
  intros Hr Hb Hf Hat i Hi. cbn [qs_mask qs_advance] in Hi.
  change (slot_phase m' (qs_advance qs) i) with (slot_phase m' qs i).
  pose proof (rdy_rings _ _ _ _ Hr) as Hrings. pose proof (buf_cq _ _ Hb) as Hbc.
  pose proof (rdy_tail _ _ _ _ Hr) as Ht. pose proof (rdy_head _ _ _ _ Hr) as Hh.
  assert (Hother : i <> qs_head qs -> slot_phase m' qs i =
    if i <? qs_head qs then qs_phase qs else negb (qs_phase qs)).
  { intros Hne. rewrite <- (rdy_stale _ _ _ _ Hr) by lia.
    eapply slot_phase_frame; [eassumption|lia|]. intros x Hx.
    rewrite in_range_spec in Hx. unfold disjoint in *.
    apply Hf; apply in_range_false; unfold qs_sqe, qs_cqe; lia. }
  destruct (rdy_mask _ _ _ _ Hr) as (k & Hk & Hm).
  cbn [qs_head qs_phase qs_advance]. unfold qs_next. rewrite Hm in *.
  rewrite mask_next by lia.
  destruct (Z.eqb_spec (qs_head qs) (2 ^ k - 1)) as [E|E].
  - replace (0 <? qs_head qs) with true by (symmetry; assert (2 <= 2 ^ k)
      by (apply (Z.pow_le_mono_r 2 1 k); lia); lia).
    rewrite negb_involutive. replace (i <? 0) with false by lia.
    destruct (Z.eq_dec i (qs_head qs)) as [->|Hne]; [done|].
    rewrite Hother by done. replace (i <? qs_head qs) with true by lia. done.
  - replace (qs_head qs + 1 <? qs_head qs) with false by lia.
    destruct (Z.eq_dec i (qs_head qs)) as [->|Hne].
    + replace (qs_head qs <? qs_head qs + 1) with true by lia. done.
    + rewrite Hother by done.
      replace (i <? qs_head qs + 1) with (i <? qs_head qs); [done|].
      destruct (i <? qs_head qs) eqn:?, (i <? qs_head qs + 1) eqn:?; lia.
Qed.

Lemma slot_phase_waiting c h m qs prp1 m1 mj :
  io_ready c h m qs -> io_buffer qs prp1 ->
  mem_eq_except (qs_sqe qs) 64 m m1 -> mem_eq_except prp1 512 m1 mj ->
  slot_phase mj qs (qs_head qs) = negb (qs_phase qs).
Proof.
  intros Hr Hb Hm1 Hj.
  pose proof (rdy_rings _ _ _ _ Hr) as Hrings. pose proof (buf_cq _ _ Hb) as Hbc.
  pose proof (rdy_tail _ _ _ _ Hr) as Ht. pose proof (rdy_head _ _ _ _ Hr) as Hh.
  erewrite slot_phase_frame; [|eassumption|lia|].
  - rewrite (rdy_stale _ _ _ _ Hr) by lia.
    replace (qs_head qs <? qs_head qs) with false by lia. done.
  - intros x Hx. rewrite in_range_spec in Hx. unfold disjoint in *.
    rewrite Hj, Hm1; [done|..]; apply in_range_false; unfold qs_sqe; lia.
Qed.

(** The controller structure after one command. *)
Definition ctrl_advance (c : nvme_ctrl) (qs : io_queues) : nvme_ctrl :=
  let c1 := set_io_sq (set_sq_tail (qs_next qs (qs_tail qs)) (io_sq c)) c in
  set_io_cq (cq_consumed c1 qs)
    (set_io_sq (set_sq_head (qs_next qs (qs_tail qs)) (io_sq c1)) c1).

Lemma io_ready_advance c h m qs prp1 h' m' :
  io_ready c h m qs -> io_buffer qs prp1 -> io_frame qs prp1 m m' ->
  slot_phase m' qs (qs_head qs) = qs_phase qs ->
  io_idle h' (qs_advance qs) ->
  io_ready (ctrl_advance c qs) h' m' (qs_advance qs).
Proof.
  intros Hr Hb Hf Hat Hidle.
  pose proof (cq_stale_advance _ _ _ _ _ _ Hr Hb Hf Hat) as Hstale.
  pose proof (qs_next_range _ _ _ _ _ Hr (rdy_tail _ _ _ _ Hr)) as Htl.
  pose proof (qs_next_range _ _ _ _ _ Hr (rdy_head _ _ _ _ Hr)) as Hhd.
  destruct Hr as [Hsq Hcq Hsqe Hcqe Hst Hct Hrings Hmask _ _ _ _].
  constructor; unfold ctrl_advance, cq_consumed; wsimpl; cbn [qs_advance qs_sq
    qs_cq qs_sq_dbl qs_cq_dbl qs_mask qs_tail qs_head qs_phase]; auto.
  rewrite Hsq. reflexivity.
Qed.

Lemma wp_nvme_io_command ns n c qs lba prp1 Q w :
  nvme_nss (w_nvme w) !! ns = Some n ->
  nvme_ctrls (w_nvme w) !! ns_ctrl n = Some c ->
  io_ready c (w_hw w) (w_mem w) qs -> io_buffer qs prp1 ->
  (io_latency < fuel)%nat -> ns_id n = io_nsid -> 0 <= lba < 2 ^ 64 ->
  (forall m' h' cqe,
     io_ready (ctrl_advance c qs) h' m' (qs_advance qs) ->
     (forall lba, io_data h' lba = io_data (w_hw w) lba) ->
     (forall lba, io_status h' lba = io_status (w_hw w) lba) ->
     nvme_is_cqe_success cqe = (io_status (w_hw w) lba =? 0) ->
     (io_status (w_hw w) lba = 0 -> load 512 prp1 m' = io_data (w_hw w) lba) ->
     io_frame qs prp1 (w_mem w) m' ->
     Q cqe (io_update m' h' (ns_ctrl n) (ctrl_advance c qs) w)) ->
  wp (nvme_io_command ns lba prp1 0 1 false) Q w.
Proof.
  intros Hn Hc Hr Hb Hfuel Hid Hlba HQ.
  pose proof (qs_next_range _ _ _ _ _ Hr (rdy_tail _ _ _ _ Hr)) as Htl.
  pose proof (qs_next_range _ _ _ _ _ Hr (rdy_head _ _ _ _ Hr)) as Hhd.
  destruct (rdy_mask _ _ _ _ Hr) as (k & Hk & Hm).
  assert (Hmk : qs_mask qs < 65536)
    by (assert (2 ^ k <= 2 ^ 16) by (apply Z.pow_le_mono_r; lia); lia).
  unfold nvme_io_command. wp_prim.
  eapply wp_nvme_io_submit; [eassumption..|lia|apply Hb|lia|].
  intros m1 Hm1 Hsqe. rewrite Hid in Hsqe.
  pose proof (rdy_tail _ _ _ _ Hr) as Ht.
  destruct (read_completes (w_hw w) qs m1 lba prp1 (qs_tail qs))
    as (np & h2 & m2 & dw0 & dw1 & sqid & Hnp & Hbefore & Hpolls & Hframe &
        Hcqe & Hdata & Hidle & Hd & Hs);
    [apply Hr|lia|lia|apply Hb|apply Hb|apply Hb|exact Hsqe|].
  set (c1 := set_io_sq (set_sq_tail (qs_next qs (qs_tail qs)) (io_sq c)) c).
  assert (Ha : cq_at c1 qs) by (eapply io_ready_cq_at; [eassumption|];
    wsimpl; rewrite (rdy_sq _ _ _ _ Hr); reflexivity).
  wp_prim. unfold get_ns. wstep. unfold nvme_wait. wp_prim.
  eapply (wp_wait_polls _ c1 qs np); [lk|exact Ha|lia|..].
  - intros j Hj. unfold io_update. wsimpl.
    eapply slot_phase_waiting; eauto.
  - unfold io_update. wsimpl. rewrite Hpolls. eapply cqe_phase_bit; [exact Hcqe|].
    apply io_status_range.
  - unfold io_update. wsimpl. rewrite Hpolls. wsimpl.
    eapply (wp_nvme_consume_cqe _ c1 qs); [lk|exact Ha|lia|exact Hcqe|lia|
      apply io_status_range|].
    intros cqe Hok. unfold io_update. wsimpl. rewrite insert_insert_eq.
    assert (Hf : io_frame qs prp1 (w_mem w) m2)
      by (intros x Hx1 Hx2 Hx3; rewrite Hframe, Hm1; auto).
    apply HQ; auto.
    eapply io_ready_advance; eauto.
    eapply cqe_phase_bit; [exact Hcqe|apply io_status_range].
Qed.
(** ** The transfer *)

Section xfer.
Context (ns : Z) (n : nvme_namespace) (lba prp1 : Z).
Hypothesis Hfuel : (io_latency < fuel)%nat.
Hypothesis Hid : ns_id n = io_nsid.
Hypothesis Hlba : 0 <= lba < 2 ^ 64.

(** The driver can issue commands on [qs] to the namespace. *)
Definition xfer_ready (c : nvme_ctrl) (qs : io_queues) (w : world) : Prop :=
  nvme_nss (w_nvme w) !! ns = Some n /\
  nvme_ctrls (w_nvme w) !! ns_ctrl n = Some c /\
  io_ready c (w_hw w) (w_mem w) qs /\ io_buffer qs prp1.

Lemma io_buffer_dword_aligned qs :
  io_buffer qs prp1 -> Z.land (u32 prp1) 0x3 = 0.
Proof.
  intros [Hrange Hal _ _]. rewrite u32_small by lia.
  change 0x3 with (2 ^ 2 - 1). rewrite land_ones_mod by lia. dlia.
Qed.

Lemma wp_nvme_io_xfer c qs Q w :
  xfer_ready c qs w -> io_status (w_hw w) lba = 0 ->
  (forall m' h',
     io_ready (ctrl_advance c qs) h' m' (qs_advance qs) ->
     (forall lba, io_data h' lba = io_data (w_hw w) lba) ->
     (forall lba, io_status h' lba = io_status (w_hw w) lba) ->
     load 512 prp1 m' = io_data (w_hw w) lba ->
     io_frame qs prp1 (w_mem w) m' ->
     Q 1 (io_update m' h' (ns_ctrl n) (ctrl_advance c qs) w)) ->
  wp (nvme_io_xfer ns lba prp1 0 1 false) Q w.
Proof.
  intros (Hn & Hc & Hr & Hb) Hst HQ. unfold nvme_io_xfer.
  rewrite (io_buffer_dword_aligned _ Hb). cbn [bool_of_Z negb orb].
  destruct fuel as [|k] eqn:Ek; [lia|]. apply wp_iterate_S. wp_prim.
  eapply wp_nvme_io_command; [eassumption..|rewrite Ek; exact Hfuel|
    exact Hid|exact Hlba|].
  intros m' h' cqe Hr' Hd Hs Hok Hdata Hf.
  rewrite Hok, Hst, Z.eqb_refl. cbn [negb]. repeat wp_prim. apply HQ; auto.
Qed.

(** A command that fails is issued again, without end. *)
Lemma io_xfer_spins k c qs w :
  xfer_ready c qs w -> io_status (w_hw w) lba <> 0 ->
  iterate k (fun _ : unit =>
    cqe <- nvme_io_command ns lba prp1 0 1 false ;;
    if negb (nvme_is_cqe_success cqe) then ret (inl tt)
    else ret (inr 1)) tt w = Spin.
Proof.
  revert c qs w. induction k as [|k IH]; intros c qs w Hx Hst; [reflexivity|].
  destruct Hx as (Hn & Hc & Hr & Hb).
  assert (Hw : wp (nvme_io_command ns lba prp1 0 1 false)
    (fun cqe w' => nvme_is_cqe_success cqe = false /\
       xfer_ready (ctrl_advance c qs) (qs_advance qs) w' /\
       io_status (w_hw w') lba <> 0) w).
  { eapply wp_nvme_io_command; [eassumption..|]. intros m' h' cqe Hr' _ Hs Hok _ _.
    rewrite Hok. unfold xfer_ready, io_update. wsimpl.
    rewrite Hs. split; [lia|]. split; [|done]. split; [done|].
    rewrite lookup_insert_eq. split; [done|].
    split; [done|]. apply io_buffer_advance, Hb. }
  apply wp_run in Hw. destruct Hw as (cqe & w' & E & Hf & Hx' & Hst').
  cbn [iterate]. unfold bind at 1 2. rewrite E, Hf. cbn [negb].
  eapply IH; eauto.
Qed.

(** C8. A read of one block whose status the controller reports as success:
    [nvme_io_xfer] builds the command, rings the doorbell, waits for the
    completion, consumes it and returns 1; the DMA page holds the block, both
    queues have advanced by one slot and are ready again, and no memory but
    the submission slot, the completion slot and the block of the page has
    changed. *)
Theorem nvme_io_xfer_reads_block c qs w :
  xfer_ready c qs w -> io_status (w_hw w) lba = 0 ->
  wp (nvme_io_xfer ns lba prp1 0 1 false)
    (fun rc w' =>
       rc = 1 /\ xfer_ready (ctrl_advance c qs) (qs_advance qs) w' /\
       load 512 prp1 (w_mem w') = io_data (w_hw w) lba /\
       io_frame qs prp1 (w_mem w) (w_mem w') /\
       forall l, io_data (w_hw w') l = io_data (w_hw w) l) w.
Proof.
  intros Hx Hst. eapply wp_nvme_io_xfer; [exact Hx|exact Hst|].
  intros m' h' Hr Hd _ Hl Hf. split_and!; auto.
  destruct Hx as (Hn & Hc & _ & Hb). split_and!; [exact Hn| |exact Hr|].
  - unfold io_update. wsimpl. apply lookup_insert_eq.
  - apply io_buffer_advance, Hb.
Qed.

(** C36. A read that the controller fails never returns: the driver issues the
    same command again and again, whatever the fuel. *)
Theorem nvme_io_xfer_retries_forever c qs w :
  xfer_ready c qs w -> io_status (w_hw w) lba <> 0 ->
  nvme_io_xfer ns lba prp1 0 1 false w = Spin.
Proof.
  intros Hx Hst. unfold nvme_io_xfer. destruct Hx as (Hn & Hc & Hr & Hb).
  rewrite (io_buffer_dword_aligned _ Hb). cbn [bool_of_Z negb orb].
  apply io_xfer_spins with c qs; [|exact Hst]. split_and!; auto.
Qed.
End xfer.
End contract.
