(* ===== verification/NvmeSpec.v ===== *)
(** * NvmeSpec

    Properties of the parts of the NVMe driver below the transfer of a block:
    ring arithmetic, the test for a full submission queue, the evaluation of
    completions, and writes. *)

From S2P Require Import Prelude.
From S2P Require Import Memory.
From S2P Require Import World.
From S2P Require Import Object.
From S2P Require Import Retry.
From S2P Require Import Malloc.
From S2P Require Import Pci.
From S2P Require Import Blockdev.
From S2P Require Import Nvme.
From S2P Require Import NvmeIo.

(** The third double word of a completion: command identifier, phase, status
    code and status code type. *)
Definition cqe_dword3 (cid : Z) (phase : bool) (sc sct : Z) : Z :=
  cid + Z_of_bool phase * 2 ^ 16 + sc * 2 ^ 17 + sct * 2 ^ 25.

(** The position after [i] in a queue, as [nvme_commit_sqe] and
    [nvme_consume_cqe] compute it. *)
Definition queue_next (q : nvme_queue) (i : Z) : Z := u16 (Z.land (i + 1) (q_mask q)).

(** A completion counts as a success exactly when its status code is
    zero, whatever its status code type: a command-specific error with code 0
    (such as "completion queue invalid") is taken for a success. *)
Theorem cqe_success_ignores_type dw0 dw1 dw2 cid phase sc sct :
  0 <= cid < 2 ^ 16 -> 0 <= sc < 256 -> 0 <= sct < 8 ->
  nvme_is_cqe_success (mkCqe dw0 dw1 dw2 (cqe_dword3 cid phase sc sct)) = (sc =? 0).
Proof.
  intros Hc Hsc Hsct. unfold nvme_is_cqe_success, cqe_status, cqe_dword3.
  cbn [cqe_dw3]. rewrite Z.shiftr_shiftr, Z.shiftr_div_pow2 by lia.
  change 0xff with (2 ^ 8 - 1). rewrite land_ones_mod by lia. f_equal.
  destruct phase; cbn [Z_of_bool]; change (2 ^ (16 + 1)) with 131072; dlia.
Qed.

(** Ring positions: in a queue whose length is a power of two, the
    positions run through the queue and wrap around at its end.  For other
    lengths, which CAP.MQES permits, they do not: in a queue of 100 entries
    position 3 is followed by position 0. *)
Theorem queue_positions c q_idx k i :
  1 <= k <= 16 -> 0 <= i < 2 ^ k ->
  queue_next (nvme_init_queue_common c q_idx (2 ^ k)) i
    = (if i + 1 =? 2 ^ k then 0 else i + 1) /\
  queue_next (nvme_init_queue_common c q_idx 100) 3 = 0.
Proof.
  intros Hk Hi. split; [|reflexivity].
  assert (2 <= 2 ^ k <= 2 ^ 16)
    by (split; [apply (Z.pow_le_mono_r 2 1)|apply Z.pow_le_mono_r]; lia).
  unfold queue_next, nvme_init_queue_common. cbn [q_mask].
  rewrite (u16_small (2 ^ k - 1)), mask_next by lia.
  destruct (Z.eqb_spec i (2 ^ k - 1)), (Z.eqb_spec (i + 1) (2 ^ k)); try lia;
    apply u16_small; lia.
Qed.

Section queues.
Context `{Platform} `{!Methods}.

Lemma wp_get_sq ctrl q c Q (w : world) :
  nvme_ctrls (w_nvme w) !! ctrl = Some c -> Q (ctrl_sq q c) w -> wp (get_sq ctrl q) Q w.
Proof. intros Hc HQ. unfold get_sq, get_ctrl. repeat wp_prim. exact HQ. Qed.

(** C37. The test for a full submission queue is the wrong way round.  With
    one command outstanding (the tail one past the head) the driver finds the
    queue full and gets NULL; with all slots but one taken (the head one past
    the tail), which is a full ring, it gets the slot at the tail. *)
Theorem sq_full_test_inverted ctrl q c k opc md d1 d2 (w : world) :
  nvme_ctrls (w_nvme w) !! ctrl = Some c -> 2 <= k <= 16 ->
  let sq := ctrl_sq q c in
  q_mask (sq_common sq) = 2 ^ k - 1 -> 0 < sq_sqe sq ->
  0 <= sq_head sq <= 2 ^ k - 1 -> 0 <= sq_tail sq <= 2 ^ k - 1 ->
  (sq_tail sq = Z.land (sq_head sq + 1) (2 ^ k - 1) ->
     nvme_get_next_sqe ctrl q opc md d1 d2 w = Ret NULL w) /\
  (sq_head sq = Z.land (sq_tail sq + 1) (2 ^ k - 1) ->
     wp (nvme_get_next_sqe ctrl q opc md d1 d2)
       (fun sqe _ => sqe = sq_sqe sq + sizeof_sqe * sq_tail sq /\ sqe <> NULL) w).
Proof.
  intros Hc Hk sq Hm Hp Hh Ht. split.
  - intros E. unfold nvme_get_next_sqe, get_sq, get_ctrl, bind, deref. rewrite Hc.
    cbn [ret]. fold sq. unfold ret. rewrite Hm, <- E, Z.eqb_refl. reflexivity.
  - intros E. assert (4 <= 2 ^ k) by (apply (Z.pow_le_mono_r 2 2 k); lia).
    unfold nvme_get_next_sqe. wp_prim. eapply wp_get_sq; [exact Hc|]. fold sq. rewrite Hm.
    replace (Z.land (sq_head sq + 1) (2 ^ k - 1) =? sq_tail sq) with false.
    2: { symmetry. apply Z.eqb_neq. rewrite mask_next in * by lia.
         destruct (Z.eqb_spec (sq_tail sq) (2 ^ k - 1)),
           (Z.eqb_spec (sq_head sq) (2 ^ k - 1)); lia. }
    assert (0 < sq_sqe sq + sizeof_sqe * sq_tail sq) by (unfold sizeof_sqe; lia).
    wp_prim. apply wp_memset; [lia|]. wp_prim. apply wp_store32; [unfold sqe_cdw0; lia|].
    wp_prim. apply wp_store64; [unfold sqe_mptr; lia|].
    wp_prim. apply wp_store64; [unfold sqe_dptr_prp1; lia|].
    wp_prim. apply wp_store64; [unfold sqe_dptr_prp2; lia|].
    wp_prim. unfold NULL. split; [done|lia].
Qed.
End queues.
