(* ===== verification/Controller.v ===== *)
(** * Controller

    An executable NVMe controller behind a PCI function, to run the program
    against: controller registers, one admin and one I/O queue pair, the
    Identify, Create I/O Completion/Submission Queue, Read and Write commands
    of the NVMe specification, one namespace of 512-byte blocks.  Each poll
    executes at most one command. *)

From S2P Require Import Prelude.
From S2P Require Import Memory.
From S2P Require Import World.
From S2P Require Import Malloc.
From S2P Require Import Nvme.
From S2P Require Import Biosint.
From S2P Require Import NvmeIo.

(** A queue pair: base addresses, sizes, the controller's positions and the
    phase of the next completion. *)
Record qpair : Type := mkQp {
  qp_sq : Z; qp_sq_size : Z; qp_cq : Z; qp_cq_size : Z;
  qp_head : Z; qp_tail : Z; qp_cq_tail : Z; qp_phase : bool }.

(** The controller: queue pairs, the registers written so far, the contents
    of the disk (byte by byte offset), its number of blocks, and a clock. *)
Record nvme_hw : Type := mkNvmeHw {
  h_admin : qpair; h_io : qpair;
  h_cc : Z; h_aqa : Z; h_asq : Z; h_acq : Z;
  h_disk : Z -> Z; h_blocks : Z;
  h_clock : Z; h_command : Z; h_bar : Z }.

Definition no_qp : qpair := mkQp 0 0 0 0 0 0 0 true.

Definition set_tail (t : Z) (q : qpair) : qpair :=
  mkQp (qp_sq q) (qp_sq_size q) (qp_cq q) (qp_cq_size q) (qp_head q) t
    (qp_cq_tail q) (qp_phase q).
Definition set_qp_cq (base size : Z) (q : qpair) : qpair :=
  mkQp (qp_sq q) (qp_sq_size q) base size (qp_head q) (qp_tail q) 0 true.
Definition set_qp_sq (base size : Z) (q : qpair) : qpair :=
  mkQp base size (qp_cq q) (qp_cq_size q) 0 0 (qp_cq_tail q) (qp_phase q).

Definition set_h_admin (q : qpair) (h : nvme_hw) : nvme_hw :=
  mkNvmeHw q (h_io h) (h_cc h) (h_aqa h) (h_asq h) (h_acq h) (h_disk h)
    (h_blocks h) (h_clock h) (h_command h) (h_bar h).
Definition set_h_io (q : qpair) (h : nvme_hw) : nvme_hw :=
  mkNvmeHw (h_admin h) q (h_cc h) (h_aqa h) (h_asq h) (h_acq h) (h_disk h)
    (h_blocks h) (h_clock h) (h_command h) (h_bar h).
Definition set_h_regs (cc aqa asq acq : Z) (h : nvme_hw) : nvme_hw :=
  mkNvmeHw (h_admin h) (h_io h) cc aqa asq acq (h_disk h)
    (h_blocks h) (h_clock h) (h_command h) (h_bar h).
Definition set_h_disk (d : Z -> Z) (h : nvme_hw) : nvme_hw :=
  mkNvmeHw (h_admin h) (h_io h) (h_cc h) (h_aqa h) (h_asq h) (h_acq h) d
    (h_blocks h) (h_clock h) (h_command h) (h_bar h).
Definition tick (h : nvme_hw) : nvme_hw :=
  mkNvmeHw (h_admin h) (h_io h) (h_cc h) (h_aqa h) (h_asq h) (h_acq h)
    (h_disk h) (h_blocks h) (h_clock h + 1) (h_command h) (h_bar h).
Definition set_h_command (c : Z) (h : nvme_hw) : nvme_hw :=
  mkNvmeHw (h_admin h) (h_io h) (h_cc h) (h_aqa h) (h_asq h) (h_acq h)
    (h_disk h) (h_blocks h) (h_clock h) c (h_bar h).
Definition set_h_bar (b : Z) (h : nvme_hw) : nvme_hw :=
  mkNvmeHw (h_admin h) (h_io h) (h_cc h) (h_aqa h) (h_asq h) (h_acq h)
    (h_disk h) (h_blocks h) (h_clock h) (h_command h) b.

(** ** Registers *)

Definition BAR0 : Z := 0xfe000000.
Definition CAP_lo : Z := 0xff.         (* MQES: 256 entries *)
Definition CAP_hi : Z := 0x20.         (* CSS: NVM command set; DSTRD: 0 *)
Definition VS : Z := 0x10400.

Definition hw_mmio_read (h : nvme_hw) (a : Z) : Z :=
  let off := a - BAR0 in
  if off =? reg_cap then CAP_lo
  else if off =? reg_cap + 4 then CAP_hi
  else if off =? reg_vs then VS
  else if off =? reg_csts then Z.land (h_cc h) 1
  else 0.

Definition put_lo32 (v r : Z) : Z := Z.lor (Z.shiftl (Z.shiftr r 32) 32) v.
Definition put_hi32 (v r : Z) : Z := Z.lor (Z.shiftl v 32) (Z.land r 0xffffffff).

(** Enabling the controller starts the admin queues afresh. *)
Definition hw_mmio_write (h : nvme_hw) (a v : Z) : nvme_hw :=
  let off := a - BAR0 in
  if off =? reg_cc then
    let h' := set_h_regs v (h_aqa h) (h_asq h) (h_acq h) h in
    set_h_admin
      (mkQp (h_asq h) (Z.land (h_aqa h) 0xffff + 1)
            (h_acq h) (Z.shiftr (h_aqa h) 16 + 1) 0 0 0 true)
      (set_h_io no_qp h')
  else if off =? reg_aqa then set_h_regs (h_cc h) v (h_asq h) (h_acq h) h
  else if off =? reg_asq then
    set_h_regs (h_cc h) (h_aqa h) (put_lo32 v (h_asq h)) (h_acq h) h
  else if off =? reg_asq + 4 then
    set_h_regs (h_cc h) (h_aqa h) (put_hi32 v (h_asq h)) (h_acq h) h
  else if off =? reg_acq then
    set_h_regs (h_cc h) (h_aqa h) (h_asq h) (put_lo32 v (h_acq h)) h
  else if off =? reg_acq + 4 then
    set_h_regs (h_cc h) (h_aqa h) (h_asq h) (put_hi32 v (h_acq h)) h
  else if off =? 0x1000 then set_h_admin (set_tail v (h_admin h)) h
  else if off =? 0x1008 then set_h_io (set_tail v (h_io h)) h
  else h.

(** ** Commands *)

Definition pad_to (n : nat) (l : list Z) : list Z :=
  l ++ replicate (n - length l) 0.

(** The Identify data structures: of a controller with one namespace and no
    limit on transfers, and of a namespace of [blocks] blocks of 512 bytes. *)
Definition identify_controller : list Z :=
  pad_to 4096 (replicate 516 0 ++ le_split 4 1).
Definition identify_namespace (blocks : Z) : list Z :=
  pad_to 4096
    (pad_to 128 (le_split 8 blocks) ++ [0; 0; 9; 0]).

Definition disk_bytes (h : nvme_hw) (lba count : Z) : list Z :=
  map (fun i => h_disk h (512 * lba + Z.of_nat i))
    (seq 0 (Z.to_nat (512 * count))).

Definition STATUS_INVALID_OPCODE : Z := 0x01.
Definition STATUS_LBA_OUT_OF_RANGE : Z := 0x80.

Definition sqe_dw (sqe : list Z) (i : nat) : Z :=
  le_combine (take 4 (drop (4 * i) sqe)).

(** The admin command in [sqe]: status, controller and memory. *)
Definition admin_command (h : nvme_hw) (m : mem) (sqe : list Z)
    : Z * nvme_hw * mem :=
  let prp1 := le_combine (take 8 (drop 24 sqe)) in
  let opc := Z.land (sqe_dw sqe 0) 0xff in
  if opc =? NVME_SQE_OPC_ADMIN_IDENTIFY then
    (0, h, store prp1 (if sqe_dw sqe 10 =? NVME_ADMIN_IDENTIFY_CNS_ID_CTRL
                       then identify_controller
                       else identify_namespace (h_blocks h)) m)
  else if opc =? NVME_SQE_OPC_ADMIN_CREATE_IO_CQ then
    (0, set_h_io (set_qp_cq prp1 (Z.shiftr (sqe_dw sqe 10) 16 + 1) (h_io h)) h, m)
  else if opc =? NVME_SQE_OPC_ADMIN_CREATE_IO_SQ then
    (0, set_h_io (set_qp_sq prp1 (Z.shiftr (sqe_dw sqe 10) 16 + 1) (h_io h)) h, m)
  else (STATUS_INVALID_OPCODE, h, m).

(** The I/O command in [sqe]; transfers stay within the page of PRP1. *)
Definition io_command (h : nvme_hw) (m : mem) (sqe : list Z)
    : Z * nvme_hw * mem :=
  let prp1 := le_combine (take 8 (drop 24 sqe)) in
  let opc := Z.land (sqe_dw sqe 0) 0xff in
  let lba := Z.lor (sqe_dw sqe 10) (Z.shiftl (sqe_dw sqe 11) 32) in
  let count := Z.land (sqe_dw sqe 12) 0xffff + 1 in
  if h_blocks h <? lba + count then (STATUS_LBA_OUT_OF_RANGE, h, m)
  else if opc =? NVME_SQE_OPC_IO_READ then
    (0, h, store prp1 (disk_bytes h lba count) m)
  else if opc =? NVME_SQE_OPC_IO_WRITE then
    (0, set_h_disk (store (512 * lba) (load (Z.to_nat (512 * count)) prp1 m)
                      (h_disk h)) h, m)
  else (STATUS_INVALID_OPCODE, h, m).

(** ** Queue processing *)

Definition next (i size : Z) : Z := if i + 1 =? size then 0 else i + 1.

(** Fetch, execute and complete the next command of a queue pair. *)
Definition run_queue (sqid : Z) (q : qpair)
    (exec : nvme_hw -> mem -> list Z -> Z * nvme_hw * mem)
    (h : nvme_hw) (m : mem) : qpair * nvme_hw * mem :=
  let sqe := load 64 (qp_sq q + 64 * qp_head q) m in
  let '(status, h, m) := exec h m sqe in
  let head := next (qp_head q) (qp_sq_size q) in
  let cqe := cqe_bytes 0 0 head sqid (le_combine (take 2 (drop 2 sqe))) status
               (qp_phase q) in
  let cq_tail := next (qp_cq_tail q) (qp_cq_size q) in
  (mkQp (qp_sq q) (qp_sq_size q) (qp_cq q) (qp_cq_size q) head (qp_tail q)
     cq_tail (if cq_tail =? 0 then negb (qp_phase q) else qp_phase q),
   h, store (qp_cq q + 16 * qp_cq_tail q) cqe m).

Definition nvme_hw_poll (h : nvme_hw) (m : mem) : nvme_hw * mem :=
  if negb (Z.testbit (h_cc h) 0) then (h, m)
  else if negb (qp_head (h_admin h) =? qp_tail (h_admin h)) then
    let '(q, h, m) := run_queue 0 (h_admin h) admin_command h m in
    (set_h_admin q h, m)
  else if negb (qp_head (h_io h) =? qp_tail (h_io h)) then
    let '(q, h, m) := run_queue 1 (h_io h) io_command h m in
    (set_h_io q h, m)
  else (h, m).

(** ** PCI configuration space

    A bridge to bus 1 at 00:00.0, and behind it the controller, with a 16 kB
    memory BAR, at 01:00.0. *)

Definition NVME_ADDRESS : Z := 0x100.

Definition hw_config_read (h : nvme_hw) (width dev reg : Z) : Z :=
  if dev =? NVME_ADDRESS then
    if reg =? 0x00 then 0x00101b36
    else if reg =? 0x04 then h_command h
    else if reg =? 0x08 then 0x01080202
    else if reg =? 0x10 then h_bar h
    else if reg =? 0x3c then 11
    else 0
  else if dev =? 0 then
    if reg =? 0x00 then 0x29448086
    else if reg =? 0x08 then 0x06040000
    else if reg =? 0x0e then 0x01
    else if reg =? 0x1a then 1
    else 0
  else 2 ^ 32 - 1.
Definition hw_config_write (h : nvme_hw) (width dev reg v : Z) : nvme_hw :=
  if negb (dev =? NVME_ADDRESS) then h
  else if reg =? 0x10 then set_h_bar (Z.land v (2 ^ 32 - 2 ^ 14)) h
  else if reg =? 0x04 then set_h_command v h else h.

(** The BIOS: INT 1A,B101 reports that bus 0 is the last one; other calls
    change nothing. *)
Definition example_bios (r : i386_all_regs) : i386_all_regs :=
  if ax r =? 0xb101 then put_flag CF false (set_ecx 0 r) else r.

(** The platform of a 32-bit build with this controller, on which the memory
    that [malloc] returns for [struct nvme_ctrl] holds [junk]. *)
Definition nvme_platform (junk : nvme_ctrl) : Platform := {|
  hw := nvme_hw;
  mmio_read32 := hw_mmio_read;
  mmio_write32 := hw_mmio_write;
  hw_poll := nvme_hw_poll;
  hw_ticks := h_clock;
  hw_advance := tick;
  pci_config_read := hw_config_read;
  pci_config_write := hw_config_write;
  pci_ioremap dev addr len := addr;
  virt_offset := 0x100000;
  sizeof_nvme_device := 96;
  sizeof_nvme_ctrl := 160;
  sizeof_nvme_namespace := 40;
  sizeof_san_device := 160;
  sizeof_san_path := 72;
  sizeof_int13_data := 24;
  sizeof_uri := 72;
  sizeof_pci_device := 120;
  junk_ctrl _ := junk;
  rm_cs := 0x9000;
  rm_ds := 0x9200;
  int13_wrapper_off := 0x100;
  int13_fdd_params_off := 0x20;
  eltorito_cmd_off := 0x40;
  eltorito_address_off := 0x60;
  xbftab_off := 0x100;
  bootsector_exec_fail := 0x80;
  bios_handler _ r h m := (example_bios r, h, m);
  cache_discarders := [] |}.

(** A controller structure of zeroes, or with the namespace pointer [ns]. *)
Definition blank_ctrl (ns : Z) : nvme_ctrl :=
  let cq := mkCq (mkQueue 0 0) 0 0 false in
  let sq := mkSq (mkQueue 0 0) 0 Q_admin 0 0 in
  mkCtrl 0 ns 0 0 sq cq 0 sq cq.

#[global] Instance example_platform : Platform := nvme_platform (blank_ctrl 0).

(** ** The controller keeps the contract of NvmeIo.v *)

Definition ctl_idle (h : nvme_hw) (qs : io_queues) : Prop :=
  Z.testbit (h_cc h) 0 = true /\
  qp_head (h_admin h) = qp_tail (h_admin h) /\
  h_io h = mkQp (qs_sq qs) (qs_mask qs + 1) (qs_cq qs) (qs_mask qs + 1)
             (qs_tail qs) (qs_tail qs) (qs_head qs) (qs_phase qs) /\
  qs_sq_dbl qs = BAR0 + 0x1008 /\ qs_cq_dbl qs = BAR0 + 0x100c /\
  (exists k, 1 <= k <= 16 /\ qs_mask qs = 2 ^ k - 1) /\
  0 <= qs_tail qs <= qs_mask qs /\ 0 <= qs_head qs <= qs_mask qs.

Definition ctl_status (h : nvme_hw) (lba : Z) : Z :=
  if h_blocks h <? lba + 1 then STATUS_LBA_OUT_OF_RANGE else 0.

Lemma next_land k i : 1 <= k -> 0 <= i <= 2 ^ k - 1 ->
  next i (2 ^ k - 1 + 1) = Z.land (i + 1) (2 ^ k - 1).
Proof.
  intros Hk Hi. rewrite mask_next by lia. unfold next.
  destruct (Z.eqb_spec (i + 1) (2 ^ k - 1 + 1)), (Z.eqb_spec i (2 ^ k - 1)); lia.
Qed.

(** Parsing the driver's read command. *)
Lemma io_command_read h m cid prp1 lba :
  0 <= prp1 < 2 ^ 32 -> 0 <= lba < 2 ^ 64 -> 0 <= cid < 2 ^ 16 ->
  io_command h m (io_sqe NVME_SQE_OPC_IO_READ cid 1 prp1 0 lba 1) =
  (ctl_status h lba, h,
   if h_blocks h <? lba + 1 then m else store prp1 (disk_bytes h lba 1) m).
Proof.
  intros Hp Hl Hc. set (sqe := io_sqe _ _ _ _ _ _ _).
  assert (H10 : sqe_dw sqe 10 = lba mod 2 ^ 32) by
    (unfold sqe_dw; change (take 4 _) with (le_split 4 lba);
     apply le_combine_split).
  assert (H11 : sqe_dw sqe 11 = lba / 2 ^ 32).
  { unfold sqe_dw. change (take 4 _) with (le_split 4 (lba / 2 ^ 32)).
    rewrite le_combine_split. apply Z.mod_small. dlia. }
  assert (H12 : sqe_dw sqe 12 = 2 ^ 31) by reflexivity.
  assert (H0 : Z.land (sqe_dw sqe 0) 0xff = NVME_SQE_OPC_IO_READ).
  { unfold sqe_dw. change (take 4 _)
      with (le_split 4 (NVME_SQE_OPC_IO_READ + cid * 2 ^ 16)).
    rewrite le_combine_split. change 0xff with (2 ^ 8 - 1).
    rewrite land_ones_mod by lia. unfold NVME_SQE_OPC_IO_READ.
    change (8 * Z.of_nat 4) with 32. dlia. }
  assert (Hprp : le_combine (take 8 (drop 24 sqe)) = prp1).
  { change (take 8 _) with (le_split 8 prp1). rewrite le_combine_split.
    apply Z.mod_small. lia. }
  unfold io_command. rewrite H0, H10, H11, H12, Hprp.
  change (Z.land (2 ^ 31) 0xffff + 1) with 1.
  rewrite lor_shiftl_add by dlia.
  replace (lba mod 2 ^ 32 + lba / 2 ^ 32 * 2 ^ 32) with lba by dlia.
  unfold ctl_status. destruct (h_blocks h <? lba + 1); reflexivity.
Qed.

Lemma length_disk_bytes h lba : length (disk_bytes h lba 1) = 512%nat.
Proof. unfold disk_bytes. rewrite length_map, length_seq. reflexivity. Qed.

Lemma length_cqe_bytes a b c d e f g : length (cqe_bytes a b c d e f g) = 16%nat.
Proof. reflexivity. Qed.

(** The doorbell writes and the poll in between, on an idle controller. *)
Lemma ctl_doorbell_poll h qs m tail :
  ctl_idle h qs -> tail <> qs_tail qs ->
  nvme_hw_poll (hw_mmio_write h (qs_sq_dbl qs) tail) m =
  let '(q, h', m') :=
    run_queue 1 (set_tail tail (h_io h)) io_command
      (set_h_io (set_tail tail (h_io h)) h) m in
  (set_h_io q h', m').
Proof.
  intros (Hcc & Hadm & Hio & Hdb & _) Hne. rewrite Hdb.
  change (hw_mmio_write h (BAR0 + 0x1008) tail)
    with (set_h_io (set_tail tail (h_io h)) h).
  unfold nvme_hw_poll. cbn [h_cc h_admin h_io set_h_io].
  rewrite Hcc, Hadm, Z.eqb_refl, Hio. cbn [negb set_tail qp_head qp_tail].
  rewrite (proj2 (Z.eqb_neq (qs_tail qs) tail)) by congruence. reflexivity.
Qed.

Lemma ctl_read_completes h qs m lba prp1 cid :
  ctl_idle h qs -> 0 <= lba < 2 ^ 64 -> 0 <= cid < 2 ^ 16 ->
  0 <= prp1 < 2 ^ 32 ->
  disjoint prp1 4096 (qs_cq qs) (16 * (qs_mask qs + 1)) ->
  load 64 (qs_sqe qs) m = io_sqe NVME_SQE_OPC_IO_READ cid 1 prp1 0 lba 1 ->
  let tail := qs_next qs (qs_tail qs) in
  let m' := if h_blocks h <? lba + 1 then m
            else store prp1 (disk_bytes h lba 1) m in
  let q' := mkQp (qs_sq qs) (qs_mask qs + 1) (qs_cq qs) (qs_mask qs + 1)
              tail tail (qs_head (qs_advance qs)) (qs_phase (qs_advance qs)) in
  nvme_hw_poll (hw_mmio_write h (qs_sq_dbl qs) tail) m =
  (set_h_io q' h,
   store (qs_cqe qs) (cqe_bytes 0 0 tail 1 cid (ctl_status h lba) (qs_phase qs)) m').
Proof.
  intros Hidle Hlba Hcid Hprp Hdis Hsqe tail m' q'.
  pose proof Hidle as (_ & _ & Hio & _ & _ & (k & Hk & Hm) & Ht & Hh).
  assert (2 <= 2 ^ k) by (apply (Z.pow_le_mono_r 2 1 k); lia).
  rewrite ctl_doorbell_poll; [|exact Hidle|].
  2:{ unfold tail, qs_next. rewrite Hm, mask_next by lia.
      destruct (Z.eqb_spec (qs_tail qs) (2 ^ k - 1)); lia. }
  rewrite Hio. unfold run_queue. cbn [set_tail qp_sq qp_head qp_sq_size qp_cq
    qp_cq_size qp_tail qp_cq_tail qp_phase].
  change (qs_sq qs + 64 * qs_tail qs) with (qs_sqe qs). rewrite Hsqe.
  rewrite io_command_read by assumption.
  assert (Hcid' : le_combine (take 2 (drop 2
    (io_sqe NVME_SQE_OPC_IO_READ cid 1 prp1 0 lba 1))) = cid).
  { change (take 2 _)
      with (le_split 2 ((NVME_SQE_OPC_IO_READ + cid * 2 ^ 16) / 256 / 256)).
    rewrite le_combine_split. unfold NVME_SQE_OPC_IO_READ.
    change (8 * Z.of_nat 2) with 16. dlia. }
  rewrite Hcid', Hm, !next_land by lia. rewrite <- Hm.
  fold (qs_next qs (qs_tail qs)) (qs_next qs (qs_head qs)). fold tail.
  change (qs_cq qs + 16 * qs_head qs) with (qs_cqe qs).
  f_equal. unfold q', set_h_io. cbn. do 2 f_equal.
  unfold qs_next. rewrite Hm, mask_next by lia.
  destruct (Z.eqb_spec (qs_head qs) (2 ^ k - 1)).
  - replace (0 <? qs_head qs) with true by lia. reflexivity.
  - replace (qs_head qs + 1 =? 0) with false by lia.
    replace (qs_head qs + 1 <? qs_head qs) with false by lia. reflexivity.
Qed.

Lemma ctl_read_memory h qs m lba prp1 bytes :
  length bytes = 16%nat ->
  disjoint prp1 4096 (qs_cq qs) (16 * (qs_mask qs + 1)) ->
  0 <= qs_head qs <= qs_mask qs ->
  let m1 := if h_blocks h <? lba + 1 then m
            else store prp1 (disk_bytes h lba 1) m in
  let m2 := store (qs_cqe qs) bytes m1 in
  (forall x, in_range prp1 512 x = false ->
             in_range (qs_cqe qs) 16 x = false -> m2 x = m x) /\
  load 16 (qs_cqe qs) m2 = bytes /\
  (ctl_status h lba = 0 -> load 512 prp1 m2 = disk_bytes h lba 1).
Proof.
  intros Hlen Hdis Hh m1 m2. unfold disjoint in Hdis.
  assert (Hout : forall x, in_range prp1 512 x = false -> m1 x = m x).
  { intros x Hx. unfold m1. destruct (_ <? _); [reflexivity|].
    apply (mem_eq_except_store prp1 (disk_bytes h lba 1) m prp1 512);
      [lia|rewrite length_disk_bytes; lia|exact Hx]. }
  split_and!.
  - intros x H1 H2. unfold m2, store. rewrite Hlen. change (Z.of_nat 16) with 16. rewrite H2. auto.
  - unfold m2. rewrite <- Hlen. apply load_store_same.
  - unfold ctl_status, m2, m1. destruct (_ <? _); [discriminate|]. intros _.
    rewrite load_store_disjoint by (rewrite Hlen; unfold disjoint, qs_cqe; lia).
    rewrite <- (length_disk_bytes h lba) at 1. apply load_store_same.
Qed.

#[global] Instance example_controller : NvmeController.
Proof.
  refine {| io_idle := ctl_idle; io_nsid := 1;
    io_data h lba := disk_bytes h lba 1; io_status := ctl_status;
    io_latency := 1%nat |}.
  - intros h lba. unfold ctl_status, STATUS_LBA_OUT_OF_RANGE.
    destruct (_ <? _); lia.
  - intros h qs H. exact H.
  - reflexivity.
  - reflexivity.
  - intros h. cbn. unfold tick, u32. cbn. dlia.
  - intros h qs m lba prp1 cid Hidle Hlba Hcid Hprp _ Hdis Hsqe h1.
    pose proof Hidle as (Hcc & Hadm & Hio & Hsdb & Hcdb & Hk & Ht & Hh).
    do 6 eexists. split; [exact (le_n 1)|].
    split; [intros k Hk'; assert (k = 0)%nat as -> by lia; apply mem_eq_except_refl|].
    split.
    { change (polls 1 h1 m) with (let '(h, m) := nvme_hw_poll h1 m in (h, m)).
      unfold h1. cbn [mmio_write32 example_platform nvme_platform].
      rewrite (ctl_read_completes h qs m lba prp1 cid) by assumption.
      reflexivity. }
    destruct (ctl_read_memory h qs m lba prp1
      (cqe_bytes 0 0 (qs_next qs (qs_tail qs)) 1 cid (ctl_status h lba)
         (qs_phase qs)) (length_cqe_bytes _ _ _ _ _ _ _) Hdis Hh)
      as (Hm & Hc & Hd).
    split; [exact Hm|]. split; [exact Hc|]. split; [exact Hd|].
    rewrite Hcdb. split; [|split; reflexivity].
    destruct Hk as (k & Hk & Hmask).
    assert (2 <= 2 ^ k) by (apply (Z.pow_le_mono_r 2 1 k); lia).
    split_and!; try assumption; try reflexivity; [by exists k|..];
      cbn [qs_advance qs_tail qs_head qs_mask]; unfold qs_next;
      rewrite Hmask, mask_next by lia; case Z.eqb_spec; lia.
Defined.
