(* ===== verification/System.v ===== *)
(** * System

    The components put together: calls through function pointers
    ([Methods] of Object.v) are tied to the methods the components
    register, and the driver, the PCI bus and the heap are registered in the
    tables of the program. *)

From stdpp Require Import strings.
From S2P Require Import Prelude.
From S2P Require Import Memory.
From S2P Require Import World.
From S2P Require Import Object.
From S2P Require Import Retry.
From S2P Require Import Malloc.
From S2P Require Import Pci.
From S2P Require Import Blockdev.
From S2P Require Import Nvme.
From S2P Require Import Sanboot.
From S2P Require Import Biosint.
From S2P Require Import PciBus.
From S2P Require Import Startup.
From S2P Require Import Int13.
From S2P Require Import Cstring.
From S2P Require Import Uri.

(** ** The methods *)

Definition nvme_scheme : cstring := cs "nvme".

Section system.
Context `{Platform}.

(** Methods that spin: the innermost level of the nesting of calls. *)
Definition methods_spin (fuel_ : nat) : Methods := {|
  fuel := fuel_;
  m_free _ _ := spin;
  m_intf_close _ _ _ := spin;
  m_block_read _ _ _ _ _ _ _ := spin;
  m_block_write _ _ _ _ _ _ _ := spin;
  m_block_read_capacity _ _ _ := spin;
  m_block_capacity _ _ _ := spin;
  m_edd_describe _ _ := spin;
  m_acpi_describe _ _ := spin;
  m_identify_device _ _ := spin;
  m_xfer_window _ _ := spin;
  m_xfer_window_changed _ _ := spin;
  m_intf_restart _ _ := spin;
  m_step _ _ := spin;
  m_expired _ _ := spin;
  m_open _ _ _ := spin;
  m_acpi_complete _ := spin;
  m_quiesce := spin;
  m_unquiesce := spin |}.

(** The registered methods, whose own calls through function pointers are
    those of [M]. *)
Definition methods_step (fuel_ : nat) (M : Methods) : Methods := {|
  fuel := fuel_;
  m_free fn r :=
    match fn, r with
    | free_refcnt, R_nvme a =>
        upd_nvme (fun s => set_nvme_devs (delete a (nvme_devs s)) s) ;; free a
    | sandev_free_fn, R_sandev s => sandev_free s
    | uri_free_fn, R_uri u => uri_free u
    | _, _ => undef
    end;
  m_intf_close desc dest rc :=
    match desc, dest with
    | null_intf_desc, _ => null_intf_close dest rc
    | nvme_block_desc, I_nvme_block a => nvme_close a rc
    | sandev_command_desc, I_sandev_command s => sandev_command_close s rc
    | sanpath_block_desc, I_sanpath_block s i => sanpath_block_close s i rc
    | _, _ => undef
    end;
  m_block_read desc dest data lba count buffer len :=
    match desc, dest with
    | nvme_block_desc, I_nvme_block a => nvme_read a data lba count buffer len
    | _, _ => undef
    end;
  m_block_write desc dest data lba count buffer len :=
    match desc, dest with
    | nvme_block_desc, I_nvme_block a => nvme_write a data lba count buffer len
    | _, _ => undef
    end;
  m_block_read_capacity desc dest data :=
    match desc, dest with
    | nvme_block_desc, I_nvme_block a => nvme_read_capacity a data
    | _, _ => undef
    end;
  m_block_capacity desc dest cap :=
    match desc, dest with
    | sandev_command_desc, I_sandev_command s => sandev_command_capacity s cap
    | _, _ => undef
    end;
  m_edd_describe desc dest :=
    match desc, dest with
    | nvme_block_desc, I_nvme_block a => nvme_edd_describe a
    | _, _ => undef
    end;
  (* No descriptor implements these two *)
  m_acpi_describe _ _ := undef;
  m_identify_device _ _ := undef;
  m_xfer_window desc dest :=
    match desc, dest with
    | sanpath_block_desc, I_sanpath_block s i => sanpath_block_window s i
    | _, _ => undef
    end;
  m_xfer_window_changed desc dest :=
    match desc, dest with
    | sanpath_block_desc, I_sanpath_block s i => sanpath_step s i
    | _, _ => undef
    end;
  m_intf_restart intf rc := intf_restart intf rc;
  m_step desc p :=
    match desc, p with
    | retry_process_desc, _ => retry_step
    | nvme_process_desc, P_nvme a => nvme_step a
    | sanpath_process_desc, P_sanpath s i => sanpath_step s i
    | _, _ => undef
    end;
  m_expired t over :=
    match t with T_sandev s => sandev_command_expired s over end;
  m_open scheme intf u :=
    if strcasecmp scheme nvme_scheme =? 0 then
      u <- get_uri u ;;
      rc <- nvme_open_uri intf (uri_opaque u) ;;
      ret (Some rc)
    else ret None;
  (* No ACPI descriptors exist *)
  m_acpi_complete _ := undef;
  (* No quiescers are linked in *)
  m_quiesce := ret tt;
  m_unquiesce := ret tt |}.

(** Methods whose calls nest at most [n] deep. *)
Fixpoint methods (fuel n : nat) : Methods :=
  match n with
  | O => methods_spin fuel
  | S n => methods_step fuel (methods fuel n)
  end.

(** ** Registration of the driver, of the PCI bus and of the heap *)

Context `{!Methods}.

Definition nvme_pci_ids_dummy : list pci_device_id := [mkPciId PCI_ANY_ID PCI_ANY_ID].
Definition nvme_driver : pci_driver :=
  mkPciDriver nvme_pci_ids_dummy
    (PCI_CLASS_ID PCI_CLASS_MASSSTORAGE PCI_CLASS_MASSSTORAGE_NVM PCI_ANY_ID)
    nvme_probe nvme_remove.

(** At most [n] addresses are scanned. *)
Definition pci_root_device (n : nat) : root_device :=
  mkRoot (upd_dev (set_pci_children [])) (pcibus_probe [nvme_driver] n) (pcibus_remove [nvme_driver]).

Definition heap_init_fn (heap_start : Z) : cprog unit := on_heap (init_heap heap_start).

End system.
