(* ===== verification/ReadPath.v ===== *)
(** * ReadPath

    The read path from INT 13 down to the controller: every command the SAN
    layer issues to a drive that is ready completes, and the caller's buffer
    holds the blocks. *)

From S2P Require Import Prelude.
From S2P Require Import Memory.
From S2P Require Import World.
From S2P Require Import Object.
From S2P Require Import Retry.
From S2P Require Import Malloc.
From S2P Require Import Pci.
From S2P Require Import Blockdev.
From S2P Require Import Nvme.
From S2P Require Import NvmeIo.
From S2P Require Import Sanboot.
From S2P Require Import Biosint.
From S2P Require Import Int13.
From S2P Require Import System.

(** Equality of reference counters. *)
Ltac counts :=
  unfold set_ref_count; wsimpl;
  match goal with
  | |- context [mkRefcnt ?x ?g] =>
      match goal with
      | |- context [mkRefcnt ?y g] =>
          assert_fails (constr_eq x y); replace x with y by lia
      end
  end; reflexivity.

Section readpath.
Context `{Platform} `{!NvmeController}.

(** ** The state of a drive *)

(** The driver side of a drive: device [nvme] with namespace structure [n] at
    [ns], DMA buffer [b], controller structure [c] and I/O queues [qs]. *)
Record drv_ready (nvme ns : Z) (n : nvme_namespace) (b : Z) (busy : bool)
    (c : nvme_ctrl) (qs : io_queues) (w : world) : Prop := {
  dr_dev : exists dv, nvme_devs (w_nvme w) !! nvme = Some dv /\
                      nvme_ctrl_ dv = ns_ctrl n;
  dr_ns : ctrl_ns c = ns /\ ns <> NULL;
  dr_blksize : block_size n = 512;
  dr_id : ns_id n = io_nsid;
  dr_buf : nvme_dma_buffer (w_nvme w) = b /\ 0 < b;
  dr_top : virt_to_phys b + 4096 <= 2 ^ 32;
  dr_busy : nvme_busy (w_nvme w) = busy;
  dr_xfer : xfer_ready ns n (virt_to_phys b) c qs w }.

(** The objects of path [i] of SAN device [s] and of the NVMe device behind
    it: interfaces, reference counts ([kn] and [ks] when no command is in
    flight), processes and the run queue. *)
Record san_links (s i nvme kn ks : Z) (inflight : bool) (w : world) : Prop := {
  sl_null : w_intfs w !! I_null =
    Some (mkIntf I_null None (Some null_intf_desc) (Some null_intf_desc));
  sl_dummy : w_intfs w !! I_dummy =
    Some (mkIntf (if inflight then I_sandev_command s else I_null) None
            (Some null_intf_desc) None);
  sl_command : w_intfs w !! I_sandev_command s =
    Some (mkIntf (if inflight then I_dummy else I_null) (Some (R_sandev s))
            (Some sandev_command_desc) (Some sandev_command_desc));
  sl_path : w_intfs w !! I_sanpath_block s i =
    Some (mkIntf (I_nvme_block nvme) (Some (R_sandev s))
            (Some sanpath_block_desc) (Some sanpath_block_desc));
  sl_block : w_intfs w !! I_nvme_block nvme =
    Some (mkIntf (I_sanpath_block s i) (Some (R_nvme nvme))
            (Some nvme_block_desc) (Some nvme_block_desc));
  sl_ref_nvme : w_refs w !! R_nvme nvme =
    Some (mkRefcnt (kn + if inflight then 2 else 0) free_refcnt);
  sl_ref_san : w_refs w !! R_sandev s =
    Some (mkRefcnt (ks + if inflight then 1 else 0) sandev_free_fn);
  sl_counts : 0 <= kn /\ 0 <= ks;
  sl_retry : w_procs w !! P_retry = Some (mkProc retry_process_desc None);
  sl_proc : w_procs w !! P_nvme nvme =
    Some (mkProc nvme_process_desc (Some (R_nvme nvme)));
  sl_runq : w_runq w = if inflight then [P_retry; P_nvme nvme] else [P_retry] }.

(** Nothing but memory, hardware, interfaces, reference counts, run queue and
    NVMe driver state differs. *)
Record same_rest (w w' : world) : Prop := {
  sr_heap : w_heap w' = w_heap w;
  sr_procs : w_procs w' = w_procs w;
  sr_tmrs : w_tmrs w' = w_tmrs w;
  sr_timers : w_timers w' = w_timers w;
  sr_uris : w_uris w' = w_uris w;
  sr_san : w_san w' = w_san w;
  sr_bios : w_bios w' = w_bios w;
  sr_dev : w_dev w' = w_dev w }.

(** Memory after a block is read into [buffer] through queues [qs] and DMA
    page [page]: the block is there, and nothing else changed but the queue
    slots and the page. *)
Record block_in_buffer (qs : io_queues) (page buffer : Z) (data : list Z)
    (m m' : mem) : Prop := {
  bb_data : load 512 buffer m' = data;
  bb_frame : forall x, in_range buffer 512 x = false ->
    in_range (qs_sqe qs) 64 x = false -> in_range page 512 x = false ->
    in_range (qs_cqe qs) 16 x = false -> m' x = m x }.

(** A caller's buffer: below 4 GB, away from the rings and the DMA page. *)
Record user_buffer (qs : io_queues) (page buffer len : Z) : Prop := {
  ub_range : 0 <= buffer /\ buffer + len < 2 ^ 32;
  ub_sq : disjoint buffer len (qs_sq qs) (64 * (qs_mask qs + 1));
  ub_cq : disjoint buffer len (qs_cq qs) (16 * (qs_mask qs + 1));
  ub_page : disjoint buffer len page 4096 }.

Section nvme_read.
Context `{!Methods}.

Lemma io_ready_copy c h m qs page buffer :
  io_ready c h m qs -> user_buffer qs page buffer 512 ->
  io_ready c h (copy buffer page 512 m) qs.
Proof.
  intros Hr [_ Hsq Hcq _]. pose proof (rdy_stale _ _ _ _ Hr) as Hstale.
  destruct Hr. constructor; auto. intros i Hi. rewrite <- Hstale by done.
  unfold slot_phase, ld32. do 3 f_equal.
  apply (load_eq_except _ _ buffer 512).
  - intros x Hx. unfold copy. rewrite Hx. reflexivity.
  - unfold disjoint in *. lia.
Qed.

Lemma wp_nvme_read s i nvme ns n b c qs lba buffer w kn ks Q :
  drv_ready nvme ns n b false c qs w ->
  san_links s i nvme kn ks false w ->
  (io_latency < fuel)%nat -> 0 <= lba < 2 ^ 64 ->
  io_status (w_hw w) lba = 0 ->
  user_buffer qs (virt_to_phys b) buffer 512 ->
  (forall w',
     drv_ready nvme ns n b true (ctrl_advance c qs) (qs_advance qs) w' ->
     san_links s i nvme kn ks true w' ->
     same_rest w w' ->
     (forall l, io_data (w_hw w') l = io_data (w_hw w) l) ->
     (forall l, io_status (w_hw w') l = io_status (w_hw w) l) ->
     block_in_buffer qs (virt_to_phys b) buffer (io_data (w_hw w) lba)
       (w_mem w) (w_mem w') ->
     Q 0 w') ->
  wp (nvme_read nvme (I_sandev_command s) lba 1 buffer 512) Q w.
Proof.
  intros [(dv & Hdv & Hct) [Hns Hnn] Hbs Hid [Hb Hb0] Htop Hbusy Hx] Hl Hfuel
    Hlba Hst Hub HQ.
  destruct Hl as [Hnull Hdummy Hcmd Hpath Hblock Hrn Hrs [Hkn Hks] Hretry Hproc
    Hrunq].
  pose proof Hx as (Hn & Hc & Hr & Hbf).
  unfold nvme_read, get_nvme, get_ctrl, get_ns.
  wstep. wstep. rewrite Hbusy. repeat wstep. rewrite Hct. repeat wstep.
  rewrite Hns, (proj2 (Z.eqb_neq ns NULL)) by done.
  change (1 =? 1) with true. cbn [negb]. repeat wstep. rewrite Hbs.
  change (512 =? 0) with false. change (512 mod 512 =? 0) with true. cbn [negb].
  repeat wstep. rewrite Hb.
  eapply wp_nvme_io_xfer; eauto. intros m' h' Hr' Hd' Hs' Hld Hfr.
  pose proof (ub_range _ _ _ _ Hub) as Hrange.
  unfold copy_to_user, upd_mem. wp_prim. apply wp_via; [lia|]. wp_prim. wsimpl.
  rewrite Z.add_0_r, u32_small by lia.
  unfold process_add, process_running, get_proc, intf_plug_plug, intf_plug,
    intf_get, intf_put, get_intf, put_intf, upd_nvme, io_update.
  repeat wstep. rewrite Hrunq.
  change (bool_decide (P_nvme nvme ∈ [P_retry])) with false.
  wsimpl.
  repeat wstep. apply HQ; wsimpl; auto.
  - constructor; wsimpl; eauto.
    unfold xfer_ready. wsimpl. rewrite lookup_insert_eq.
    split_and!; auto using io_buffer_advance, io_ready_copy.
    eapply io_ready_copy; [exact Hr'|]. destruct Hub; constructor; auto.
  - constructor; wsimpl; simplify_map_eq; auto; try counts.
    rewrite Hrunq. reflexivity.
  - constructor; reflexivity.
  - pose proof (ub_page _ _ _ _ Hub) as Hpg. constructor; wsimpl.
    + rewrite <- Hld. apply (load_copy 512). unfold disjoint in *. lia.
    + intros x Hx1 Hx2 Hx3 Hx4. unfold copy. rewrite Hx1. auto.
Qed.

(** C38. A write is accepted and dropped: whatever the block and the buffer,
    [nvme_write] reports success, starts the process that completes the
    command, and sends nothing to the controller. *)
Theorem nvme_write_drops_data s i nvme kn ks lba count buffer len (w : world) :
  san_links s i nvme kn ks false w ->
  wp (nvme_write nvme (I_sandev_command s) lba count buffer len)
    (fun rc w' => rc = 0 /\ w_hw w' = w_hw w /\ w_mem w' = w_mem w /\
                  san_links s i nvme kn ks true w') w.
Proof.
  intros [Hnull Hdummy Hcmd Hpath Hblock Hrn Hrs [Hkn Hks] Hretry Hproc Hrunq].
  unfold nvme_write, process_add, process_running, get_proc, intf_plug_plug, intf_plug,
    intf_get, intf_put, get_intf, put_intf, upd_nvme.
  repeat wstep. rewrite Hrunq. change (bool_decide (P_nvme nvme ∈ [P_retry])) with false.
  wsimpl. repeat wstep. split_and!; try reflexivity.
  constructor; wsimpl; simplify_map_eq; auto; try counts. rewrite Hrunq. reflexivity.
Qed.
End nvme_read.

(** ** Completion of a command *)

Lemma fuel_methods f d : @fuel _ (methods f d) = f.
Proof. induction d; auto. Qed.

Section completion.
Context (f : nat) (s i nvme kn ks : Z).

(** The first step runs the timer process, which finds no expired timer. *)
Lemma wp_step_retry d ks' t (w : world) Q :
  san_links s i nvme kn ks' true w ->
  w_timers w = [T_sandev s] -> w_tmrs w !! T_sandev s = Some t ->
  u32 (u32 (hw_ticks (w_hw w)) - tm_start t) < tm_timeout t ->
  Q tt (set_w_runq [P_nvme nvme; P_retry] (set_w_hw (hw_advance (w_hw w)) w)) ->
  wp (@step _ (methods f (S d))) Q w.
Proof.
  intros Hl Htm Ht Hused HQ. destruct Hl as [_ _ _ _ _ _ _ _ Hretry _ Hrunq].
  unfold step, get_proc. repeat wstep. rewrite Hrunq. repeat wstep.
  cbn [desc_reschedule m_step methods methods_step].
  unfold retry_step, retry_poll, currticks, get_timer. repeat wstep.
  rewrite Htm. repeat wstep.
  rewrite (proj2 (Z.leb_gt _ _)) by exact Hused. repeat wstep.
  rewrite Hrunq. exact HQ.
Qed.

(** What the end of a successful command does. *)
Record command_done (dd : san_device) (w w' : world) : Prop := {
  cd_links : san_links s i nvme kn ks false w';
  cd_timers : w_timers w' = [];
  cd_timer : exists t, w_tmrs w' !! T_sandev s = Some t /\
               tm_running t = false /\ tm_refcnt t = Some (R_sandev s);
  cd_san : w_san w' = set_sandevs (<[s := set_command_rc 0 dd]>
                                     (sandevs (w_san w))) (w_san w);
  cd_nvme : w_nvme w' = set_nvme_busy false (w_nvme w);
  cd_mem : w_mem w' = w_mem w;
  cd_hw : w_hw w' = hw_advance (w_hw w);
  cd_heap : w_heap w' = w_heap w;
  cd_uris : w_uris w' = w_uris w;
  cd_bios : w_bios w' = w_bios w;
  cd_dev : w_dev w' = w_dev w }.

(** The second step runs the driver's process, which closes the command. *)
Lemma wp_step_nvme d t dd (w : world) Q :
  0 <= ks -> san_links s i nvme kn (ks + 1) true w ->
  w_timers w = [T_sandev s] -> w_tmrs w !! T_sandev s = Some t ->
  tm_running t = true -> tm_refcnt t = Some (R_sandev s) ->
  sandevs (w_san w) !! s = Some dd -> (1 <= f)%nat ->
  (forall w', command_done dd w w' -> Q tt w') ->
  wp (@step _ (methods f (S (S (S d))))) Q (set_w_runq [P_nvme nvme; P_retry] w).
Proof.
  intros Hks Hl Htm Ht Hrun Href Hdd Hf HQ.
  destruct Hl as [Hnull Hdummy Hcmd Hpath Hblock Hrn Hrs [Hkn _] Hretry Hproc Hrunq].
  destruct f as [|f']; [lia|].
  unfold step, get_proc. repeat wstep.
  cbn [desc_reschedule m_step methods methods_step].
  unfold process_del, process_running, get_proc. repeat wstep.
  replace (bool_decide (P_nvme nvme ∈ [P_nvme nvme; P_retry])) with true
    by (symmetry; apply bool_decide_true; constructor).
  repeat wstep.
  unfold nvme_step. wopen. repeat wstep.
  cbn [m_intf_close methods methods_step].
  unfold sandev_command_close, stop_timer, currticks. wopen. repeat wstep.
  rewrite Hrun. cbn [negb]. repeat wstep. rewrite Href. repeat wstep.
  cbn [m_intf_close methods methods_step]. wopen. repeat wstep.
  unfold upd_sandev, get_sandev, put_sandev, upd_san. repeat wstep.
  rewrite list_del_gone. repeat wstep.
  unfold upd_nvme. repeat wstep.
  apply HQ. constructor; wsimpl; auto.
  - constructor; wsimpl; simplify_map_eq; auto; try counts.
    rewrite list_del_cons. reflexivity.
  - rewrite Htm, list_del_cons. reflexivity.
  - eexists. split; [lk|]. destruct (tm_count t =? 0); auto.
Qed.

(** The links only depend on some of the state. *)
Lemma san_links_ext kn' ks' b (w w' : world) :
  san_links s i nvme kn' ks' b w ->
  w_intfs w' = w_intfs w -> w_refs w' = w_refs w -> w_procs w' = w_procs w ->
  w_runq w' = w_runq w -> san_links s i nvme kn' ks' b w'.
Proof. intros [] H1 H2 H3 H4. constructor; rewrite ?H1, ?H2, ?H3, ?H4; auto. Qed.

Lemma san_links_nvme_ref kn' ks' b k (w : world) :
  san_links s i nvme kn' ks' b w -> 0 <= kn' + k ->
  san_links s i nvme (kn' + k) ks' b
    (set_w_refs (<[R_nvme nvme := mkRefcnt (kn' + k + if b then 2 else 0)
                                    free_refcnt]> (w_refs w)) w).
Proof.
  intros [Hnull Hdummy Hcmd Hpath Hblock Hrn Hrs [Hkn Hks] Hretry Hproc Hrunq] Hk.
  constructor; wsimpl; simplify_map_eq; auto.
Qed.

Lemma san_links_san_ref kn' ks' b k (w : world) :
  san_links s i nvme kn' ks' b w -> 0 <= ks' + k ->
  san_links s i nvme kn' (ks' + k) b
    (set_w_refs (<[R_sandev s := mkRefcnt (ks' + k + if b then 1 else 0)
                                   sandev_free_fn]> (w_refs w)) w).
Proof.
  intros [Hnull Hdummy Hcmd Hpath Hblock Hrn Hrs [Hkn Hks] Hretry Hproc Hrunq] Hk.
  constructor; wsimpl; simplify_map_eq; auto.
Qed.

Lemma drv_ready_ext ns n b busy c qs (w w' : world) :
  drv_ready nvme ns n b busy c qs w ->
  w_nvme w' = w_nvme w -> w_hw w' = w_hw w -> w_mem w' = w_mem w ->
  drv_ready nvme ns n b busy c qs w'.
Proof.
  intros [] H1 H2 H3. constructor; unfold xfer_ready in *; rewrite ?H1, ?H2, ?H3; auto.
Qed.

Lemma drv_ready_advance ns n b busy busy' c qs (w w' : world) :
  drv_ready nvme ns n b busy c qs w ->
  w_nvme w' = set_nvme_busy busy' (w_nvme w) ->
  (io_idle (w_hw w) qs -> io_idle (w_hw w') qs) -> w_mem w' = w_mem w ->
  drv_ready nvme ns n b busy' c qs w'.
Proof.
  intros [Hdv Hns Hbs Hid Hb Htop Hbusy (Hn & Hc & Hr & Hbf)] H1 H2 H3.
  constructor; unfold xfer_ready; rewrite ?H1, ?H3; wsimpl; auto.
  split_and!; auto. destruct Hr. constructor; auto.
Qed.


(** ** One command *)

(** A drive that is ready for commands: the NVMe device with an idle I/O
    queue pair, the links, a stopped timer and an active path. *)
Record drive_ready (ns : Z) (n : nvme_namespace) (b : Z) (c : nvme_ctrl)
    (qs : io_queues) (dd : san_device) (w : world) : Prop := {
  rd_drv : drv_ready nvme ns n b false c qs w;
  rd_links : san_links s i nvme kn ks false w;
  rd_timers : w_timers w = [];
  rd_timer : exists t, w_tmrs w !! T_sandev s = Some t /\
               tm_running t = false /\ tm_refcnt t = Some (R_sandev s);
  rd_san : sandevs (w_san w) !! s = Some dd;
  rd_active : active dd = Some i;
  rd_blksize : blksize (capacity dd) = 512 }.

Lemma wp_block_read d ns n b c qs lba buffer (w : world) Q :
  drv_ready nvme ns n b false c qs w -> san_links s i nvme kn ks false w ->
  (io_latency < f)%nat -> 0 <= lba < 2 ^ 64 -> io_status (w_hw w) lba = 0 ->
  user_buffer qs (virt_to_phys b) buffer 512 ->
  (forall w',
     drv_ready nvme ns n b true (ctrl_advance c qs) (qs_advance qs) w' ->
     san_links s i nvme kn ks true w' -> same_rest w w' ->
     (forall l, io_data (w_hw w') l = io_data (w_hw w) l) ->
     (forall l, io_status (w_hw w') l = io_status (w_hw w) l) ->
     block_in_buffer qs (virt_to_phys b) buffer (io_data (w_hw w) lba)
       (w_mem w) (w_mem w') -> Q 0 w') ->
  wp (@block_read _ (methods f (S d)) (I_sanpath_block s i)
        (I_sandev_command s) lba 1 buffer 512) Q w.
Proof.
  intros Hd Hl Hf Hlba Hst Hub HQ. pose proof (sl_counts _ _ _ _ _ _ _ Hl) as [Hkn Hks].
  unfold block_read.
  eapply wp_call_dest; [cbn; lia|apply Hl|apply Hl|reflexivity|]. wsimpl.
  eapply wp_ref_get; [apply Hl|]. wsimpl.
  change (bool_decide (op_block_read ∈ desc_op nvme_block_desc)) with true.
  cbn [m_block_read methods methods_step].
  eapply (@wp_nvme_read (methods f d) s i _ _ _ _ _ _ _ _ _ (kn + 1) ks).
  - eapply drv_ready_ext; [exact Hd|reflexivity..].
  - eapply san_links_ext; [exact (san_links_nvme_ref _ _ _ 1 _ Hl ltac:(lia))|
      wsimpl; try reflexivity..]. counts.
  - rewrite fuel_methods. exact Hf.
  - exact Hlba.
  - exact Hst.
  - exact Hub.
  - wsimpl. intros w' Hd' Hl' Hsr Hdata Hstat Hbb. unfold intf_put, get_intf.
    wp_prim. eapply wp_deref; [apply Hl'|]. wsimpl.
    eapply wp_ref_put; [apply Hl'|wsimpl; lia|]. apply HQ; wsimpl; auto.
    + eapply drv_ready_ext; [exact Hd'|reflexivity..].
    + replace kn with (kn + 1 + -1) by lia.
      eapply san_links_ext; [exact (san_links_nvme_ref _ _ _ (-1) _ Hl' ltac:(lia))|
        wsimpl; try reflexivity..]. counts.
    + destruct Hsr. constructor; auto.
Qed.

(** The rest of the state after commands that leave the SAN device as [dd]. *)
Record command_rest (dd : san_device) (w w' : world) : Prop := {
  cr_san : w_san w' = set_sandevs (<[s := dd]> (sandevs (w_san w))) (w_san w);
  cr_heap : w_heap w' = w_heap w;
  cr_uris : w_uris w' = w_uris w;
  cr_bios : w_bios w' = w_bios w;
  cr_dev : w_dev w' = w_dev w }.

(** Waiting for a command in flight, with the timer just started. *)
Lemma wp_command_wait d k t dd (w : world) Q :
  0 <= ks -> (3 <= k)%nat -> (1 <= f)%nat ->
  san_links s i nvme kn (ks + 1) true w ->
  w_timers w = [T_sandev s] -> w_tmrs w !! T_sandev s = Some t ->
  tm_running t = true -> tm_refcnt t = Some (R_sandev s) ->
  u32 (u32 (hw_ticks (w_hw w)) - tm_start t) < tm_timeout t ->
  sandevs (w_san w) !! s = Some dd ->
  (forall w', command_done dd (set_w_hw (hw_advance (w_hw w)) w) w' -> Q tt w') ->
  wp (while k (timer_running (T_sandev s))
        (@step _ (methods f (S (S (S d)))))) Q w.
Proof.
  intros Hks Hk Hf Hl Htms Ht Hrun Href Hclock Hdd HQ.
  destruct k as [|[|[|k]]]; [lia..|].
  unfold while, timer_running, get_timer. apply wp_iterate_S. repeat wstep.
  rewrite Hrun. wp_prim. eapply wp_step_retry; [eassumption..|].
  wp_prim. apply wp_iterate_S. repeat wstep. rewrite Hrun. wp_prim.
  change (set_w_runq [P_nvme nvme; P_retry] (set_w_hw (hw_advance (w_hw w)) w))
    with (set_w_runq [P_nvme nvme; P_retry] (set_w_hw (hw_advance (w_hw w)) w)).
  eapply wp_step_nvme; [eassumption|..|exact Ht|exact Hrun|exact Href|exact Hdd|exact Hf|].
  - eapply san_links_ext; [exact Hl|reflexivity..].
  - exact Htms.
  - intros w' Hcd. destruct (cd_timer _ _ _ Hcd) as (t' & Ht' & Hrun' & _).
    wp_prim. apply wp_iterate_S. repeat wstep. rewrite Hrun'. repeat wp_prim. auto.
Qed.

Lemma wp_sandev_command_try_read d ns n b c qs dd lba buffer retries (w : world) Q :
  drive_ready ns n b c qs dd w ->
  (io_latency < f)%nat -> (3 <= f)%nat ->
  0 <= lba < 2 ^ 64 -> io_status (w_hw w) lba = 0 ->
  user_buffer qs (virt_to_phys b) buffer 512 ->
  (forall w',
     drive_ready ns n b (ctrl_advance c qs) (qs_advance qs)
       (set_command_rc 0 dd) w' ->
     command_rest (set_command_rc 0 dd) w w' ->
     (forall l, io_data (w_hw w') l = io_data (w_hw w) l) ->
     (forall l, io_status (w_hw w') l = io_status (w_hw w) l) ->
     block_in_buffer qs (virt_to_phys b) buffer (io_data (w_hw w) lba)
       (w_mem w) (w_mem w') -> Q (inr tt) w') ->
  wp (@sandev_command_try _ (methods f (S (S (S d)))) s
        (@sandev_command_rw _ (methods f (S (S (S d))))
           (mkRw rw_read buffer lba 1)) retries) Q w.
Proof.
  intros [Hd Hl Htms (t & Ht & Hrun & Href) Hdd Hact Hblk] Hf Hf3 Hlba Hst Hub HQ.
  pose proof (sl_counts _ _ _ _ _ _ _ Hl) as [Hkn Hks].
  unfold sandev_command_try, sandev_needs_reopen, get_sandev. repeat wstep.
  rewrite Hact. repeat wstep. change (negb (0 =? 0)) with false. wsimpl.
  unfold sandev_command_rw, get_sandev. repeat wstep. rewrite Hact, Hblk.
  cbn [run_block_rw rw_op rw_lba rw_count rw_buffer].
  change (u32 (1 * 512)) with 512.
  eapply wp_block_read; [eassumption..|]. intros w1 Hd1 Hl1 Hsr Hda Hsa Hbb.
  change (negb (0 =? 0)) with false. wsimpl.
  rewrite <- (sr_tmrs _ _ Hsr) in Ht. rewrite <- (sr_timers _ _ Hsr) in Htms.
  rewrite <- (sr_san _ _ Hsr) in Hdd.
  pose proof (sl_ref_san _ _ _ _ _ _ _ Hl1) as Hrs1.
  unfold start_timer_fixed, currticks, get_timer, put_timer. repeat wstep.
  rewrite Hrun. repeat wstep. rewrite Href. repeat wstep.
  change (@fuel _ (methods f (S (S (S d))))) with f.
  eapply wp_command_wait with (t := set_tm_timeout SAN_COMMAND_TIMEOUT _);
    [exact Hks|exact Hf3|lia|..]; wsimpl.
  - eapply san_links_ext; [exact (san_links_san_ref _ _ _ 1 _ Hl1 ltac:(lia))|
      reflexivity..].
  - rewrite Htms. reflexivity.
  - lk.
  - reflexivity.
  - exact Href.
  - wsimpl. pose proof (clock_advance (w_hw w1)). rewrite u32_sub.
    unfold SAN_COMMAND_TIMEOUT, TICKS_PER_SEC. lia.
  - exact Hdd.
  - intros w2 [Hl2 Htms2 Ht2 Hsan2 Hnv2 Hm2 Hh2 Hheap2 Huris2 Hbios2 Hdev2]. wsimpl.
    wsimpl_in Hsan2. wsimpl_in Hnv2. wsimpl_in Hm2. wsimpl_in Hh2.
    wsimpl_in Hheap2. wsimpl_in Huris2. wsimpl_in Hbios2. wsimpl_in Hdev2.
    wp_prim. eapply wp_deref; [rewrite Hsan2; lk|]. wsimpl.
    change (negb (0 =? 0)) with false. repeat wp_prim. apply HQ.
    + constructor; auto; [|rewrite Hsan2; lk].
      eapply drv_ready_advance; [exact Hd1|exact Hnv2|rewrite Hh2|exact Hm2].
      auto using idle_advance.
    + constructor; rewrite ?Hsan2, ?Hheap2, ?Huris2, ?Hbios2, ?Hdev2,
        ?(sr_san _ _ Hsr);
        [reflexivity|apply Hsr..].
    + intros l. rewrite Hh2, !data_advance. apply Hda.
    + intros l. rewrite Hh2, !status_advance. apply Hsa.
    + rewrite Hm2. exact Hbb.
Qed.

Lemma wp_sandev_command_read d ns n b c qs dd lba buffer (w : world) Q :
  drive_ready ns n b c qs dd w ->
  (io_latency < f)%nat -> (3 <= f)%nat ->
  0 <= lba < 2 ^ 64 -> io_status (w_hw w) lba = 0 ->
  user_buffer qs (virt_to_phys b) buffer 512 ->
  (forall w',
     drive_ready ns n b (ctrl_advance c qs) (qs_advance qs)
       (set_command_rc 0 dd) w' ->
     command_rest (set_command_rc 0 dd) w w' ->
     (forall l, io_data (w_hw w') l = io_data (w_hw w) l) ->
     (forall l, io_status (w_hw w') l = io_status (w_hw w) l) ->
     block_in_buffer qs (virt_to_phys b) buffer (io_data (w_hw w) lba)
       (w_mem w) (w_mem w') -> Q 0 w') ->
  wp (@sandev_command _ (methods f (S (S (S d)))) s
        (@sandev_command_rw _ (methods f (S (S (S d))))
           (mkRw rw_read buffer lba 1))) Q w.
Proof.
  intros Hrd Hf Hf3 Hlba Hst Hub HQ. unfold sandev_command, unquiesce.
  change (@m_unquiesce _ (methods f (S (S (S d))))) with (ret (S := world) tt).
  change (@fuel _ (methods f (S (S (S d))))) with f.
  repeat wp_prim. apply wp_iterate_pos; [lia|]. wp_prim.
  eapply wp_sandev_command_try_read; [eassumption..|].
  intros w' Hrd' Hcr Hda Hsa Hbb. repeat wp_prim. auto.
Qed.

(** ** Reads of many blocks *)

(** The contents of [k] blocks from [lba]. *)
Definition blocks_data (h : hw) (lba : Z) (k : nat) : list Z :=
  concat (map (fun j => io_data h (lba + Z.of_nat j)) (seq 0 k)).

Lemma blocks_data_S h lba k :
  blocks_data h lba (S k) =
  blocks_data h lba k ++ io_data h (lba + Z.of_nat k).
Proof.
  unfold blocks_data. rewrite seq_S, map_app, concat_app. cbn.
  rewrite app_nil_r. reflexivity.
Qed.

(** The same rings, at some other position. *)
Definition same_rings (qs qs' : io_queues) : Prop :=
  qs_sq qs' = qs_sq qs /\ qs_cq qs' = qs_cq qs /\ qs_mask qs' = qs_mask qs.

(** Memory changes at most in the [len] bytes at [buffer], in the rings and in
    the DMA page. *)
Definition rw_frame (qs : io_queues) (page buffer len : Z) (m m' : mem) : Prop :=
  forall x, in_range buffer len x = false ->
    in_range (qs_sq qs) (64 * (qs_mask qs + 1)) x = false ->
    in_range (qs_cq qs) (16 * (qs_mask qs + 1)) x = false ->
    in_range page 4096 x = false -> m' x = m x.

(** Reading [k] blocks succeeded. *)
Record blocks_read ns n b qs dd lba k buffer (w w' : world) : Prop := {
  br_ready : exists c' qs', drive_ready ns n b c' qs' dd w' /\ same_rings qs qs';
  br_data : load (512 * k) buffer (w_mem w') = blocks_data (w_hw w) lba k;
  br_frame : rw_frame qs (virt_to_phys b) buffer (512 * Z.of_nat k)
               (w_mem w) (w_mem w');
  br_rest : command_rest dd w w';
  br_hw_data : forall l, io_data (w_hw w') l = io_data (w_hw w) l;
  br_hw_status : forall l, io_status (w_hw w') l = io_status (w_hw w) l }.

Lemma user_buffer_part qs qs' page buffer len k :
  user_buffer qs page buffer len -> same_rings qs qs' ->
  0 <= k -> 512 * k + 512 <= len ->
  user_buffer qs' page (buffer + 512 * k) 512.
Proof.
  intros [Hr Hsq Hcq Hpg] (E1 & E2 & E3) Hk Hlen. unfold disjoint in *.
  constructor; unfold disjoint; rewrite ?E1, ?E2, ?E3; lia.
Qed.

(** One more block. *)
Lemma blocks_read_step ns n b qs dd lba k len buffer w w1 w2 c1 qs1 :
  blocks_read ns n b qs dd lba k buffer w w1 ->
  drive_ready ns n b c1 qs1 dd w1 -> same_rings qs qs1 ->
  user_buffer qs (virt_to_phys b) buffer len -> 512 * Z.of_nat k + 512 <= len ->
  drive_ready ns n b (ctrl_advance c1 qs1) (qs_advance qs1)
    (set_command_rc 0 dd) w2 ->
  command_rest (set_command_rc 0 dd) w1 w2 ->
  (forall l, io_data (w_hw w2) l = io_data (w_hw w1) l) ->
  (forall l, io_status (w_hw w2) l = io_status (w_hw w1) l) ->
  block_in_buffer qs1 (virt_to_phys b) (buffer + 512 * Z.of_nat k)
    (io_data (w_hw w1) (lba + Z.of_nat k)) (w_mem w1) (w_mem w2) ->
  blocks_read ns n b qs (set_command_rc 0 dd) lba (S k) buffer w w2.
Proof.
  intros [_ Hd Hf Hr Hda Hsa] Hrd (E1 & E2 & E3) Hub Hlen Hrd2 Hr2 Hd2 Hs2 [Hbd Hbf].
  assert (Hpos : 0 <= qs_tail qs1 <= qs_mask qs /\ 0 <= qs_head qs1 <= qs_mask qs).
  { destruct Hrd as [[_ _ _ _ _ _ _ (_ & _ & Hio & _)]]. rewrite <- E3.
    split; apply Hio. }
  destruct Hub as [Hrange Hsq Hcq Hpg]. unfold disjoint in *.
  constructor.
  - eexists _, _. split; [exact Hrd2|]. done.
  - replace (512 * S k)%nat with (512 * k + 512)%nat by lia.
    rewrite load_app, blocks_data_S. f_equal.
    + rewrite <- Hd. apply load_ext. intros x Hx.
      apply Hbf; apply in_range_false; unfold qs_sqe, qs_cqe;
        rewrite ?E1, ?E2; lia.
    + rewrite <- Hda, <- Hbd. f_equal. lia.
  - intros x Hx1 Hx2 Hx3 Hx4. rewrite in_range_false in *.
    rewrite Hbf, Hf; auto; try (apply in_range_false; lia);
      apply in_range_false; unfold qs_sqe, qs_cqe; rewrite ?E1, ?E2; lia.
  - destruct Hr as [Hr_san Hr1 Hr3 Hr4], Hr2 as [Hr2_san Hr5 Hr6 Hr7].
    constructor; [|congruence..].
    rewrite Hr2_san, Hr_san. wsimpl. rewrite insert_insert_eq. reflexivity.
  - intros l. rewrite Hd2. apply Hda.
  - intros l. rewrite Hs2. apply Hsa.
Qed.

Lemma wp_sandev_rw_read d ns n b c qs dd lba (count : nat) buffer (w : world) Q :
  drive_ready ns n b c qs dd w ->
  blksize_shift dd = 0 -> max_count (capacity dd) = 1 ->
  (io_latency < f)%nat -> (3 <= f)%nat -> (count < f)%nat ->
  Z.of_nat count < 2 ^ 32 -> 0 <= lba -> lba + Z.of_nat count < 2 ^ 64 ->
  (forall j, (j < count)%nat -> io_status (w_hw w) (lba + Z.of_nat j) = 0) ->
  user_buffer qs (virt_to_phys b) buffer (512 * Z.of_nat count) ->
  (forall rc w',
     blocks_read ns n b qs (set_command_rc rc dd) lba count buffer w w' ->
     Q 0 w') ->
  wp (@sandev_rw _ (methods f (S (S (S d)))) s lba (Z.of_nat count) buffer
        rw_read) Q w.
Proof.
  intros Hrd Hsh Hmc Hf Hf3 Hfc Hc32 Hlba Htop Hst Hub HQ.
  unfold sandev_rw, get_sandev. wp_prim. eapply wp_deref; [apply Hrd|].
  rewrite Hsh, Hmc, !Z.shiftl_0_r, u64_small, u32_small by lia.
  change (@fuel _ (methods f (S (S (S d))))) with f.
  eapply (wp_iterate (fun k '(params, remaining) w1 =>
    exists j rc, (j + k = count)%nat /\ remaining = Z.of_nat k /\
      params = mkRw rw_read (buffer + 512 * Z.of_nat j) (lba + Z.of_nat j) 1 /\
      blocks_read ns n b qs (set_command_rc rc dd) lba j buffer w w1));
    [|exact Hfc|].
  - intros k [params remaining] w1 (j & rc & Hj & -> & -> & Hbr).
    cbn [rw_op rw_buffer rw_lba rw_count].
    destruct (Z.eqb_spec (Z.of_nat k) 0) as [Hk|Hk].
    { wp_prim. apply (HQ rc). replace count with j by lia. exact Hbr. }
    replace (Z.of_nat k <? 1) with false by lia.
    pose proof Hbr as [(c1 & qs1 & Hrd1 & Hrings) _ _ _ Hda Hsa].
    wp_prim. eapply wp_sandev_command_read; [exact Hrd1|exact Hf|exact Hf3|lia|
      rewrite Hsa; apply Hst; lia|
      eapply user_buffer_part; [exact Hub|exact Hrings|lia..]|].
    intros w2 Hrd2 Hcr2 Hda2 Hsa2 Hbb. change (negb (0 =? 0)) with false. wsimpl.
    wp_prim. eapply wp_deref; [apply Hrd2|]. wsimpl.
    pose proof (rd_blksize _ _ _ _ _ _ _ Hrd2) as Hblk. wsimpl_in Hblk.
    rewrite Hblk. change (u32 (512 * 1)) with 512. wp_prim.
    pose proof (ub_range _ _ _ _ Hub) as Hrange.
    rewrite u32_small, u64_small by lia.
    exists (pred k). split; [lia|]. exists (S j), 0. split_and!; [lia..| |].
    + f_equal; lia.
    + exact (blocks_read_step _ _ _ _ _ _ _ _ _ _ _ _ _ _ Hbr Hrd1 Hrings Hub
        ltac:(lia) Hrd2 Hcr2 Hda2 Hsa2 Hbb).
  - exists 0%nat, (command_rc dd). rewrite !Z.add_0_r. split_and!; [lia|lia|done|].
    replace (set_command_rc (command_rc dd) dd) with dd by (destruct dd; done).
    constructor; auto; try done.
    + eexists _, _. split; [exact Hrd|done].
    + constructor; try done. pose proof (rd_san _ _ _ _ _ _ _ Hrd) as Hdd.
      rewrite insert_id by exact Hdd. destruct (w_san w); done.
Qed.
End completion.
End readpath.
