(* ===== verification/Int13Read.v ===== *)
(** * Int13Read

    INT 13 reads, from the registers of the caller to the contents of its
    buffer: the extended read of function 42 and the cylinder/head/sector read
    of function 02, through the handler and its assembly wrapper. *)

From S2P Require Import Prelude.
From S2P Require Import Memory.
From S2P Require Import World.
From S2P Require Import Object.
From S2P Require Import Retry.
From S2P Require Import Malloc.
From S2P Require Import Pci.
From S2P Require Import Blockdev.
From S2P Require Import Nvme.
From S2P Require Import NvmeIo.
From S2P Require Import Sanboot.
From S2P Require Import Biosint.
From S2P Require Import Int13.
From S2P Require Import Int13Spec.
From S2P Require Import System.
From S2P Require Import ReadPath.

(** A 16-byte disk address packet. *)
Definition dap (count segment offset lba : Z) : list Z :=
  [16; 0; count; 0] ++ le_split 2 offset ++ le_split 2 segment ++
  le_split 8 lba.

Section packet.
Context (count segment offset lba : Z).
Hypothesis Hcount : 0 <= count <= 0x7f.
Hypothesis Hseg : 0 <= segment < 65536.
Hypothesis Hoff : 0 <= offset < 65536.
Hypothesis Hlba : 0 <= lba < 2 ^ 64.
Hypothesis Hreal : segment <> 0xffff \/ offset <> 0xffff.

Definition dap_addr : list Z := dap count segment offset lba ++ replicate 16 0.

Lemma dap_count : addr_count dap_addr = count.
Proof. unfold addr_count, field. change (take 1 _) with [count]. cbn. lia. Qed.

Lemma dap_lba : addr_lba dap_addr = lba.
Proof.
  unfold addr_lba, field. change (take 8 _) with (le_split 8 lba).
  rewrite le_combine_split. apply Z.mod_small. exact Hlba.
Qed.

Lemma dap_blocks : addr_blocks dap_addr = Some count.
Proof.
  unfold addr_blocks. rewrite dap_count.
  replace (count <=? 0x7f) with true by lia. reflexivity.
Qed.

Lemma dap_buffer : addr_buffer dap_addr = real_to_user segment offset.
Proof.
  unfold addr_buffer. rewrite dap_count. unfold field.
  change (take 2 (drop 6 dap_addr)) with (le_split 2 segment).
  change (take 2 (drop 4 dap_addr)) with (le_split 2 offset).
  rewrite !le_combine_split, !Z.mod_small by lia.
  replace (count =? 0xff) with false by lia.
  destruct (Z.eqb_spec segment 0xffff), (Z.eqb_spec offset 0xffff);
    cbn [andb orb]; auto. lia.
Qed.
End packet.

Section int13_read.
Context `{Platform} `{!NvmeController}.
Context (f : nat) (s i nvme kn ks ns : Z) (n : nvme_namespace) (b : Z).
Hypothesis Hlat : (io_latency < f)%nat.

(** The effect of a successful INT 13 read on registers and memory. *)
Record int13_read_done (qs : io_queues) (dd : san_device) (lba : Z) (k : nat)
    (buffer : Z) (r' : i386_all_regs) (w w' : world) : Prop := {
  ird_ah : ah r' = 0;
  ird_cf : flag CF r' = false;
  ird_of : flag OF r' = true;
  ird_data : load (512 * k) buffer (w_mem w') = blocks_data (w_hw w) lba k;
  ird_frame : rw_frame qs (virt_to_phys b) buffer (512 * Z.of_nat k)
                (w_mem w) (w_mem w');
  ird_ready : exists c' qs' rc',
    let dd' := set_priv (set_last_status 0 (priv dd)) (set_command_rc rc' dd) in
    drive_ready s i nvme kn ks ns n b c' qs' dd' w' /\ same_rings qs qs' /\
    w_san w' = set_sandevs (<[s := dd']> (sandevs (w_san w))) (w_san w);
  ird_bios : w_bios w' = w_bios w;
  ird_dev : w_dev w' = w_dev w;
  ird_disk : (forall l, io_data (w_hw w') l = io_data (w_hw w) l) /\
             (forall l, io_status (w_hw w') l = io_status (w_hw w) l) }.

Lemma drive_ready_priv c qs dd p (w : world) :
  drive_ready s i nvme kn ks ns n b c qs dd w ->
  drive_ready s i nvme kn ks ns n b c qs (set_priv p dd)
    (set_w_san (set_sandevs (<[s := set_priv p dd]> (sandevs (w_san w)))
                  (w_san w)) w).
Proof.
  intros [Hd Hl Htms Ht Hdd Hact Hblk]. constructor; auto; [..|lk].
  - eapply drv_ready_ext; [exact Hd|reflexivity..].
  - eapply san_links_ext; [exact Hl|reflexivity..].
Qed.

(** The drive stays ready when other memory than the completion queue
    changes. *)
Lemma drive_ready_mem c qs dd a k m bios (w : world) :
  drive_ready s i nvme kn ks ns n b c qs dd w -> mem_eq_except a k (w_mem w) m ->
  disjoint a k (qs_cq qs) (16 * (qs_mask qs + 1)) ->
  drive_ready s i nvme kn ks ns n b c qs dd (set_w_bios bios (set_w_mem m w)).
Proof.
  clear Hlat. intros [[] Hl] Hm Hd. constructor; auto.
  2: eapply san_links_ext; [exact Hl|reflexivity..].
  constructor; auto. destruct dr_xfer as (H1 & H2 & Hio & H3). split_and!; auto.
  pose proof (rdy_stale _ _ _ _ Hio) as Hst. destruct Hio. constructor; auto.
  intros j Hj. rewrite <- Hst by done. unfold slot_phase, ld32. do 3 f_equal.
  apply (load_eq_except _ _ a k); [exact Hm|]. wsimpl. unfold disjoint in *. lia.
Qed.

(** What is left to do of a call once its blocks are read. *)
Lemma wp_int13_finish qs rc dd lba k buffer r w w' Q :
  blocks_read s i nvme kn ks ns n b qs (set_command_rc rc dd) lba k buffer w w' ->
  (forall w'', int13_read_done qs dd lba k buffer (int13_result 0 r) w w'' ->
     Q (int13_result 0 r) w'') ->
  wp (upd_priv s (set_last_status 0))
    (fun _ w'' => wp (ret (int13_result 0 r)) Q w'') w'.
Proof.
  intros [(c' & qs' & Hrd & Hrings) Hdata Hfr Hrest Hhd Hhs] HQ.
  unfold upd_priv, upd_sandev, get_sandev, put_sandev, upd_san.
  wp_prim. eapply wp_deref; [apply Hrd|]. repeat wp_prim.
  apply HQ. destruct (int13_result_ok r) as (H1 & H2 & H3).
  constructor; auto; [|apply Hrest..].
  eexists c', qs', rc. split_and!; [apply drive_ready_priv, Hrd|apply Hrings..|].
  wsimpl. rewrite (cr_san _ _ _ _ Hrest). wsimpl. rewrite insert_insert_eq.
  reflexivity.
Qed.

(** The drive can read [count] blocks from [lba] into [buffer]. *)
Record read_possible (c : nvme_ctrl) (qs : io_queues) (dd : san_device)
    (lba : Z) (count : nat) (buffer : Z) (w : world) : Prop := {
  rp_ready : drive_ready s i nvme kn ks ns n b c qs dd w;
  rp_shift : blksize_shift dd = 0;
  rp_max : max_count (capacity dd) = 1;
  rp_fuel : (3 <= f)%nat /\ (count < f)%nat;
  rp_count : Z.of_nat count < 2 ^ 32;
  rp_lba : 0 <= lba /\ lba + Z.of_nat count < 2 ^ 64;
  rp_status : forall j, (j < count)%nat ->
    io_status (w_hw w) (lba + Z.of_nat j) = 0;
  rp_buffer : user_buffer qs (virt_to_phys b) buffer (512 * Z.of_nat count) }.

(** What could be read can be read later on, if the drive is ready. *)
Lemma read_possible_later c qs dd c' qs' p rc lba count buffer (w w' : world) :
  let dd' := set_priv p (set_command_rc rc dd) in
  read_possible c qs dd lba count buffer w ->
  drive_ready s i nvme kn ks ns n b c' qs' dd' w' -> same_rings qs qs' ->
  (forall l, io_status (w_hw w') l = io_status (w_hw w) l) ->
  read_possible c' qs' dd' lba count buffer w'.
Proof.
  clear Hlat. intros dd' [] Hrd (E1 & E2 & E3) Hst. constructor; auto.
  - intros j Hj. rewrite Hst. auto.
  - destruct rp_buffer0. constructor; rewrite ?E1, ?E2, ?E3; auto.
Qed.

Lemma wp_sandev_read d c qs dd lba count buffer (w : world) Q :
  read_possible c qs dd lba count buffer w ->
  (forall rc w', blocks_read s i nvme kn ks ns n b qs (set_command_rc rc dd) lba
                   count buffer w w' -> Q 0 w') ->
  wp (@sandev_read _ (methods f (S (S (S d)))) s lba (Z.of_nat count) buffer) Q w.
Proof.
  intros [] HQ. unfold sandev_read. eapply wp_sandev_rw_read; eauto; tauto.
Qed.

Lemma wp_int13_extended_read l l' d r c qs dd count seg off lba (w : world) Q :
  bda_in_sync w -> san_devices (w_san w) = l ++ s :: l' -> passes w r l ->
  drive dd = dl r -> int13_is_fdd dd = false -> ah r = INT13_EXTENDED_READ ->
  0 <= seg < 65536 -> 0 <= off < 65536 -> seg <> 0xffff \/ off <> 0xffff ->
  (count <= 127)%nat ->
  load 16 (real_to_user (seg_ds r) (si r)) (w_mem w)
    = dap (Z.of_nat count) seg off lba ->
  read_possible c qs dd lba count (real_to_user seg off) w ->
  (forall w', int13_read_done qs dd lba count (real_to_user seg off)
                (int13_result 0 r) w w' -> Q (int13_result 0 r) w') ->
  wp (@int13 _ (methods f (S (S (S d)))) r) Q w.
Proof.
  intros Hb Hl Hps Hdl Hfdd Hah Hseg Hoff Hreal Hcount Hdap Hrp HQ.
  pose proof (rp_lba _ _ _ _ _ _ _ Hrp) as Hlba.
  pose proof (rd_san _ _ _ _ _ _ _ _ _ _ _ _ (rp_ready _ _ _ _ _ _ _ Hrp)) as Hdd.
  eapply (wp_int13_on_drive l l'); [exact Hb|exact Hl|exact Hps|exact Hdd|
    unfold executes; by rewrite Hdl, Z.eqb_refl|].
  unfold int13_execute. rewrite Hah. wp_prim.
  set (M := methods f (S (S (S d)))).
  change (int13_function INT13_EXTENDED_READ s r)
    with (int13_extended_rw s r rw_read).
  unfold int13_extended_rw, get_sandev, get_real, copy_from_real.
  wp_prim. eapply wp_deref; [exact Hdd|]. rewrite Hfdd. repeat wp_prim.
  rewrite <- (take_load 1 16), Hdap by lia.
  change (le_combine (take 1 (dap _ _ _ _))) with 16.
  change (16 <? addr_buffer_phys) with false.
  change (Z.of_nat sizeof_addr <? 16) with false.
  change (Z.to_nat 16) with 16%nat. cbn iota. repeat wp_prim. rewrite Hdap.
  change (dap (Z.of_nat count) seg off lba ++ replicate (sizeof_addr - 16) 0)
    with (dap_addr (Z.of_nat count) seg off lba).
  rewrite dap_blocks, dap_lba, dap_buffer by lia.
  wp_prim. eapply wp_sandev_read; [exact Hrp|]. intros rc w' Hbr.
  change (negb (0 =? 0)) with false. cbn iota. repeat wp_prim.
  eapply wp_int13_finish; [exact Hbr|]. exact HQ.
Qed.

Lemma wp_int13_read_sectors l l' d r c qs dd (count : nat) (w : world) Q :
  bda_in_sync w -> san_devices (w_san w) = l ++ s :: l' -> passes w r l ->
  drive dd = dl r -> ah r = INT13_READ_SECTORS -> al r = Z.of_nat count ->
  chs_in_range (priv dd) (rw_cylinder r) (rw_head r) (rw_sector r) = true ->
  let lba := chs_to_lba (priv dd) (rw_cylinder r) (rw_head r) (rw_sector r) in
  let buffer := real_to_user (seg_es r) (bx r) in
  read_possible c qs dd lba count buffer w ->
  (forall w', int13_read_done qs dd lba count buffer (int13_result 0 r) w w' ->
     Q (int13_result 0 r) w') ->
  wp (@int13 _ (methods f (S (S (S d)))) r) Q w.
Proof.
  intros Hb Hl Hps Hdl Hah Hal Hchs lba buffer Hrp HQ.
  pose proof (rp_ready _ _ _ _ _ _ _ Hrp) as Hrd.
  pose proof (rd_san _ _ _ _ _ _ _ _ _ _ _ _ Hrd) as Hdd.
  pose proof (rd_blksize _ _ _ _ _ _ _ _ _ _ _ _ Hrd) as Hblk.
  eapply (wp_int13_on_drive l l'); [exact Hb|exact Hl|exact Hps|exact Hdd|
    unfold executes; by rewrite Hdl, Z.eqb_refl|].
  unfold int13_execute. rewrite Hah. wp_prim.
  set (M := methods f (S (S (S d)))).
  change (int13_function INT13_READ_SECTORS s r)
    with (int13_rw_sectors s r rw_read).
  unfold int13_rw_sectors, get_sandev. wp_prim. eapply wp_deref; [exact Hdd|].
  unfold sandev_blksize. rewrite Hblk, (rp_shift _ _ _ _ _ _ _ Hrp).
  change (negb (u32 (Z.shiftl 512 0) =? INT13_BLKSIZE)) with false.
  rewrite Hchs, Hal. cbn [negb]. wp_prim.
  eapply wp_sandev_read; [exact Hrp|]. intros rc w' Hbr.
  change (negb (0 =? 0)) with false. cbn iota. repeat wp_prim.
  eapply wp_int13_finish; [exact Hbr|]. exact HQ.
Qed.


Lemma read_done_set_dl qs dd lba k buffer r v (w w' : world) :
  int13_read_done qs dd lba k buffer r w w' -> int13_read_done qs dd lba k buffer (set_dl v r) w w'.
Proof. intros []. constructor; auto. Qed.

(** C1. An INT 13,42 (extended read) of up to 127 blocks on a ready drive
    returns with AH clear and carry clear; the caller's buffer holds exactly
    the blocks of the disk that the packet asked for, memory changes nowhere
    but in that buffer, the queues and the DMA page, DL is preserved, and the
    drive is ready for the next call.  The fuel is that of the bound on the
    controller's latency and of the number of blocks. *)
Theorem int13_42_reads_blocks l l' d r c qs dd count seg off lba (w : world) :
  bda_in_sync w -> san_devices (w_san w) = l ++ s :: l' ->
  passes w (wrapper_regs r) l ->
  drive dd = dl r -> int13_is_fdd dd = false -> ah r = INT13_EXTENDED_READ ->
  0 <= seg < 65536 -> 0 <= off < 65536 -> seg <> 0xffff \/ off <> 0xffff ->
  (count <= 127)%nat ->
  load 16 (real_to_user (seg_ds r) (si r)) (w_mem w) = dap (Z.of_nat count) seg off lba ->
  read_possible c qs dd lba count (real_to_user seg off) w ->
  wp (@int13_wrapper _ (methods f (S (S (S d)))) r)
    (fun r' w' => int13_read_done qs dd lba count (real_to_user seg off) r' w w' /\
                  dl r' = dl r) w.
Proof.
  intros Hb Hl Hp Hdl Hfdd Hah Hs Ho Hreal Hc Hdap Hrp.
  apply wp_int13_wrapper; [rewrite Hah; done..|].
  eapply (wp_int13_extended_read l l'); [exact Hb|exact Hl|exact Hp|exact Hdl|
    exact Hfdd|exact Hah|exact Hs|exact Ho|exact Hreal|exact Hc|exact Hdap|exact Hrp|]. intros w' Hd. split; [apply Hd|].
  split; [apply read_done_set_dl, Hd|apply dl_set_dl].
Qed.

(** C2. An INT 13,02 (read sectors) with a cylinder, head and sector within
    the geometry of a ready drive reads AL blocks from the linear address they
    denote into ES:BX, with the same guarantees. *)
Theorem int13_02_reads_blocks l l' d r c qs dd (count : nat) (w : world) :
  bda_in_sync w -> san_devices (w_san w) = l ++ s :: l' ->
  passes w (wrapper_regs r) l ->
  drive dd = dl r -> ah r = INT13_READ_SECTORS -> al r = Z.of_nat count ->
  chs_in_range (priv dd) (rw_cylinder r) (rw_head r) (rw_sector r) = true ->
  let lba := chs_to_lba (priv dd) (rw_cylinder r) (rw_head r) (rw_sector r) in
  let buffer := real_to_user (seg_es r) (bx r) in
  read_possible c qs dd lba count buffer w ->
  wp (@int13_wrapper _ (methods f (S (S (S d)))) r)
    (fun r' w' => int13_read_done qs dd lba count buffer r' w w' /\ dl r' = dl r) w.
Proof.
  intros Hb Hl Hp Hdl Hah Hal Hchs lba buffer Hrp.
  apply wp_int13_wrapper; [rewrite Hah; done..|].
  eapply (wp_int13_read_sectors l l'); [exact Hb|exact Hl|exact Hp|exact Hdl|
    exact Hah|exact Hal|exact Hchs|exact Hrp|]. intros w' Hd. split; [apply Hd|].
  split; [apply read_done_set_dl, Hd|apply dl_set_dl].
Qed.

(** C7. [sandev_read] of any number of blocks on a ready drive returns 0 with
    the blocks in the buffer and the drive ready again: every command completes
    through the scheduler, the timer and the driver. *)
Theorem sandev_read_correct d c qs dd lba count buffer (w : world) :
  read_possible c qs dd lba count buffer w ->
  wp (@sandev_read _ (methods f (S (S (S d)))) s lba (Z.of_nat count) buffer)
    (fun rc w' => rc = 0 /\ exists rc',
       blocks_read s i nvme kn ks ns n b qs (set_command_rc rc' dd) lba count buffer w w') w.
Proof. intros Hrp. eapply wp_sandev_read; [exact Hrp|]. eauto. Qed.

(** The registers with which [int13_load_mbr] reads the boot sector. *)
Definition mbr_regs (drive_ : Z) : i386_all_regs :=
  put_flag CF true (mkRegs 0x0201 0x7c00 1 drive_ 0 0 rm_ds 0 0).

(** INT 13 is hooked. *)
Definition int13_hooked (w : world) : Prop :=
  segoff_of_bytes (load 4 (real_to_user 0 (0x13 * 4)) (w_mem w)) = (rm_cs, int13_wrapper_off).

Lemma wp_int13_load_mbr l l' d c qs dd (w : world) Q :
  int13_hooked w -> bda_in_sync w -> san_devices (w_san w) = l ++ s :: l' ->
  passes w (wrapper_regs (mbr_regs (drive dd))) l -> 0 <= drive dd < 256 ->
  0 < cylinders (priv dd) -> 0 < heads (priv dd) -> 0 < sectors_per_track (priv dd) ->
  read_possible c qs dd 0 1 0x7c00 w ->
  le_combine (take 2 (drop 510 (io_data (w_hw w) 0))) = INT13_MBR_MAGIC ->
  (forall r' w', load 512 0x7c00 (w_mem w') = io_data (w_hw w) 0 ->
     int13_read_done qs dd 0 1 0x7c00 r' w w' -> Q (0, (0, 0x7c00)) w') ->
  wp (@int13_load_mbr _ (methods f (S (S (S d)))) (drive dd)) Q w.
Proof.
  intros Hv Hb Hl Hp Hd Hc Hh Hs Hrp Hmagic HQ. set (M := methods f (S (S (S d)))).
  unfold int13_load_mbr, int13_status, int_0x13, get_vector, copy_from_real.
  repeat wp_prim. fold (mbr_regs (drive dd)). rewrite Hv.
  rewrite bool_decide_true by reflexivity.
  assert (Hdl : drive dd = dl (mbr_regs (drive dd))).
  { change (drive dd = lo8 (drive dd)). unfold lo8. change 0xff with (2 ^ 8 - 1).
    rewrite land_ones_mod, Z.mod_small by lia. done. }
  assert (Hhd : rw_head (mbr_regs (drive dd)) = 0).
  { change (hi8 (drive dd) = 0). unfold hi8.
    rewrite Z.shiftr_div_pow2, Z.div_small by lia. reflexivity. }
  assert (Hah : ah (mbr_regs (drive dd)) = 2) by reflexivity.
  assert (Hal : al (mbr_regs (drive dd)) = 1) by reflexivity.
  set (r := wrapper_regs (mbr_regs (drive dd))).
  assert (Hcyl : rw_cylinder r = 0) by reflexivity.
  assert (Hsec : rw_sector r = 1) by reflexivity.
  assert (Hbuf : real_to_user (seg_es r) (bx r) = 0x7c00) by reflexivity.
  assert (Elba : chs_to_lba (priv dd) (rw_cylinder r) (rw_head r) (rw_sector r) = 0)
    by (rewrite Hcyl, Hsec; change (rw_head r) with (rw_head (mbr_regs (drive dd)));
        rewrite Hhd; reflexivity).
  apply wp_int13_wrapper; [lia..|]. fold r.
  eapply (wp_int13_read_sectors l l' d r c qs dd 1);
    [exact Hb|exact Hl|exact Hp|exact Hdl|exact Hah|exact Hal|rewrite ?Elba, ?Hbuf..].
  - change (rw_head r) with (rw_head (mbr_regs (drive dd))). rewrite Hcyl, Hsec, Hhd.
    unfold chs_in_range. lia.
  - exact Hrp.
  - intros w' Hdone. pose proof Hdone as [_ Hcf Hof Hdata _ _ _ _ _]. split; [exact Hof|]. wp_prim.
    change (flag CF (set_dl _ (int13_result 0 r))) with (flag CF (int13_result 0 r)).
    rewrite Hcf. change (negb (0 =? 0)) with false. cbn iota.
    unfold get_real, copy_from_real. repeat wp_prim.
    replace (blocks_data (w_hw w) 0 1) with (io_data (w_hw w) 0) in Hdata
      by (symmetry; apply app_nil_r).
    assert (E : load 2 (0x7c00 + 510) (w_mem w') = take 2 (drop 510 (io_data (w_hw w) 0))).
    { rewrite <- Hdata, drop_load, take_load by lia. reflexivity. }
    change (real_to_user 0 (0x7c00 + 510)) with (0x7c00 + 510). rewrite E, Hmagic.
    change (negb (INT13_MBR_MAGIC =? INT13_MBR_MAGIC)) with false. cbn iota. wp_prim.
    eapply HQ; [exact Hdata|exact Hdone].
Qed.

(** Booting from a ready drive whose boot sector ends in 0x55 0xAA loads that
    sector at 0000:7C00 and jumps there with the drive number. *)
Lemma wp_int13_boot l l' d c qs dd call_bootsector Q (w : world) :
  int13_hooked w -> bda_in_sync w -> san_devices (w_san w) = l ++ s :: l' ->
  passes w (wrapper_regs (mbr_regs (drive dd))) l -> 0 <= drive dd < 256 ->
  0 < cylinders (priv dd) -> 0 < heads (priv dd) -> 0 < sectors_per_track (priv dd) ->
  read_possible c qs dd 0 1 0x7c00 w ->
  le_combine (take 2 (drop 510 (io_data (w_hw w) 0))) = INT13_MBR_MAGIC ->
  (forall r' w', load 512 0x7c00 (w_mem w') = io_data (w_hw w) 0 ->
     int13_read_done qs dd 0 1 0x7c00 r' w w' ->
     wp (call_bootsector 0 0x7c00 (drive dd))
       (fun rc w'' => Q (if rc =? 0 then - ECANCELED else rc) w'') w') ->
  wp (@int13_boot _ (methods f (S (S (S d)))) call_bootsector (drive dd)) Q w.
Proof.
  intros Hv Hb Hl Hp Hd Hc Hh Hs Hrp Hmagic HQ. unfold int13_boot. wp_prim.
  eapply wp_int13_load_mbr; [exact Hv|exact Hb|exact Hl|exact Hp|exact Hd|exact Hc|
    exact Hh|exact Hs|exact Hrp|exact Hmagic|].
  intros r' w' Hdata Hdone. change (negb (0 =? 0)) with false. cbn iota. wp_prim. wp_prim.
  cbn [fst snd]. change (negb (0 =? 0)) with false. cbn iota. wp_prim.
  eapply wp_mono; [exact (HQ r' w' Hdata Hdone)|]. cbn beta.
  intros rc w'' Hq. destruct (rc =? 0); exact Hq.
Qed.
End int13_read.
