(* ===== verification/Disk.v ===== *)
(** * Disk

    What the hooked drive is to the programs that use it.  The abstract drive
    is an array of blocks with a geometry and the status of the last call; its
    user is any program that loads and stores in conventional memory and calls
    INT 13.  The machine with a ready drive runs every such program as the
    abstract drive does. *)

From S2P Require Import Prelude.
From S2P Require Import Memory.
From S2P Require Import World.
From S2P Require Import Object.
From S2P Require Import Malloc.
From S2P Require Import Pci.
From S2P Require Import Nvme.
From S2P Require Import NvmeIo.
From S2P Require Import Sanboot.
From S2P Require Import Biosint.
From S2P Require Import Int13.
From S2P Require Import Geometry.
From S2P Require Import Int13Spec.
From S2P Require Import System.
From S2P Require Import ReadPath.
From S2P Require Import Int13Read.

(** ** The abstract drive *)

Record disk : Type := mkDisk {
  dk_number : Z;
  dk_cylinders : Z;
  dk_heads : Z;
  dk_sectors : Z;
  dk_blocks : Z;
  dk_block : Z -> list Z }.

(** What its user sees: memory, and the status of the last call (negative for
    an error). *)
Record user : Type := mkUser { us_mem : mem; us_status : Z }.

(** Conventional memory, from the end of the BIOS data area on. *)
Definition user_area (a len : Z) : bool := (0x500 <=? a) && (a + len <=? 0x100000).

(** The answer to a call: AH and the carry flag. *)
Definition answer (status : Z) : Z * bool := (Z.abs status, status <? 0).

Definition disk_data (D : disk) (lba : Z) (k : nat) : list Z :=
  concat (map (fun j => dk_block D (lba + Z.of_nat j)) (seq 0 k)).

Section spec.
Context (D : disk).

Definition spec_fail (status : Z) (u : user) : option ((Z * bool) * user) :=
  Some (answer status, mkUser (us_mem u) status).

(** Reading past the end of the disk or outside conventional memory is not
    specified. *)
Definition spec_read (lba : Z) (k : nat) (buffer : Z) (u : user)
    : option ((Z * bool) * user) :=
  if (0 <=? lba) && (lba + Z.of_nat k <=? dk_blocks D) &&
     user_area buffer (512 * Z.of_nat k)
  then Some (answer 0, mkUser (store buffer (disk_data D lba k) (us_mem u)) 0)
  else None.

(** INT 13,02: CL holds the sector and the high bits of the cylinder, CH its
    low bits, DH the head. *)
Definition spec_read_sectors (r : i386_all_regs) (u : user)
    : option ((Z * bool) * user) :=
  let cylinder := 256 * (cl r / 64) + ch r in
  let head := dh r in
  let sector := cl r mod 64 in
  if (cylinder <? dk_cylinders D) && (head <? dk_heads D) &&
     (1 <=? sector) && (sector <=? dk_sectors D)
  then spec_read ((cylinder * dk_heads D + head) * dk_sectors D + sector - 1)
         (Z.to_nat (al r)) (real_to_user (seg_es r) (bx r)) u
  else spec_fail (-1) u.

(** INT 13,42: DS:SI points to a packet. *)
Definition spec_extended_read (r : i386_all_regs) (u : user)
    : option ((Z * bool) * user) :=
  let p := real_to_user (seg_ds r) (si r) in
  let packet := load 16 p (us_mem u) in
  let count := nth 2 packet 0 in
  let offset := le_combine (take 2 (drop 4 packet)) in
  let segment := le_combine (take 2 (drop 6 packet)) in
  let lba := le_combine (drop 8 packet) in
  if user_area p 16 && bool_decide (packet = dap count segment offset lba) &&
     (0 <=? count) && (count <=? 127) && (0 <=? segment) && (segment <? 65536) &&
     (0 <=? offset) && (offset <? 65536) &&
     negb ((segment =? 0xffff) && (offset =? 0xffff))
  then spec_read lba (Z.to_nat count) (real_to_user segment offset) u
  else None.

(** A call for the drive: INT 13,01, 02, 42 and functions that do not
    exist. *)
Definition spec_call (r : i386_all_regs) (u : user) : option ((Z * bool) * user) :=
  if negb (dl r =? dk_number D) then None
  else if ah r =? 0x01 then Some (answer (us_status u), u)
  else if ah r =? 0x02 then spec_read_sectors r u
  else if ah r =? 0x42 then spec_extended_read r u
  else if bool_decide (ah r ∈ int13_supported) then None
  else spec_fail (-1) u.
End spec.

(** ** Users *)

(** A program that uses the drive; what it does next may depend on what it
    loaded and on the answers it got. *)
Inductive client (A : Type) : Type :=
| Finish (a : A)
| Store (a : Z) (bs : list Z) (k : client A)
| Load (a : Z) (n : nat) (k : list Z -> client A)
| Call (r : i386_all_regs) (k : Z * bool -> client A).

Arguments Finish {A} a.
Arguments Store {A} a bs k.
Arguments Load {A} a n k.
Arguments Call {A} r k.

(** The client run on the abstract drive, as long as it keeps to what is
    specified. *)
Fixpoint run_spec {A} (D : disk) (c : client A) (u : user) : option (A * user) :=
  match c with
  | Finish a => Some (a, u)
  | Store a bs k =>
      if user_area a (Z.of_nat (length bs))
      then run_spec D k (mkUser (store a bs (us_mem u)) (us_status u)) else None
  | Load a n k =>
      if user_area a (Z.of_nat n) then run_spec D (k (load n a (us_mem u))) u else None
  | Call r k => '(ans, u) ← spec_call D r u; run_spec D (k ans) u
  end.

(** The client run on the machine. *)
Fixpoint run_client `{Platform} `{!Methods} {A} (c : client A) : cprog A :=
  match c with
  | Finish a => ret a
  | Store a bs k => modify (fun w => set_w_mem (store a bs (w_mem w)) w) ;; run_client k
  | Load a n k => bs <- gets (fun w => load n a (w_mem w)) ;; run_client (k bs)
  | Call r k => r' <- int13_wrapper r ;; run_client (k (ah r', flag CF r'))
  end.

(** ** The machine implements the drive *)

Section refinement.
Context `{Platform} `{!NvmeController}.
Context (f : nat) (s i nvme kn ks ns : Z) (n : nvme_namespace) (b : Z).
Hypothesis Hlat : (io_latency < f)%nat.
Hypothesis Hfuel : (256 <= f)%nat.
Context (D : disk).

(** The rings and the DMA page are outside conventional memory. *)
Record rings_high (qs : io_queues) : Prop := {
  rh_sq : 0x100000 <= qs_sq qs;
  rh_cq : 0x100000 <= qs_cq qs;
  rh_mask : 0 <= qs_mask qs;
  rh_page : 0x100000 <= virt_to_phys b }.

Record implements_with (c : nvme_ctrl) (qs : io_queues) (dd : san_device) (u : user) (w : world)
    : Prop := {
  im_ready : drive_ready s i nvme kn ks ns n b c qs dd w;
  im_rings : rings_high qs;
  im_number : drive dd = dk_number D;
  im_hdd : int13_is_fdd dd = false;
  im_geometry : geometry_ok (priv dd);
  im_cylinders : cylinders (priv dd) = dk_cylinders D;
  im_heads : heads (priv dd) = dk_heads D;
  im_sectors : sectors_per_track (priv dd) = dk_sectors D;
  im_shift : blksize_shift dd = 0;
  im_max : max_count (capacity dd) = 1;
  im_last : last_status (priv dd) = us_status u;
  im_bda : bda_in_sync w;
  im_first : exists l, san_devices (w_san w) = s :: l;
  im_data : forall l, 0 <= l < dk_blocks D ->
    io_data (w_hw w) l = dk_block D l /\ io_status (w_hw w) l = 0;
  im_mem : forall x, 0x500 <= x < 0x100000 -> w_mem w x = us_mem u x }.

Definition implements (u : user) (w : world) : Prop :=
  dk_blocks D < 2 ^ 63 /\ -256 < us_status u < 256 /\
  exists c qs dd, implements_with c qs dd u w.

(** Registers after a call that was executed. *)
Lemma answered status r :
  -256 < status < 256 -> flag CF r = true ->
  (ah (int13_result status r), flag CF (int13_result status r)) = answer status.
Proof.
  intros Hs Hcf. rewrite ah_int13_result, cf_int13_result, u8_small by (done || lia). done.
Qed.

Lemma cf_wrapper_regs r : flag CF (wrapper_regs r) = true.
Proof. by apply flag_put_flag. Qed.

(** A call that is executed and only records its status. *)
Lemma wp_call_status d r u status w :
  implements u w -> dl r = dk_number D -> ah r <> 0x15 -> ah r <> 0x08 -> -256 < status < 256 ->
  (forall c qs dd, implements_with c qs dd u w ->
     @int13_function _ (methods f d) (ah r) s (wrapper_regs r) w = Ret (status, wrapper_regs r) w) ->
  wp (@int13_wrapper _ (methods f d) r)
    (fun r' w' => (ah r', flag CF r') = answer status /\
                  implements (mkUser (us_mem u) status) w') w.
Proof.
  intros (Hbl & _ & c & qs & dd & Him) Hdl H15 H08 Hst Hfn. specialize (Hfn c qs dd Him).
  destruct Him. destruct im_first0 as (l & Hl).
  pose proof (rd_san _ _ _ _ _ _ _ _ _ _ _ _ im_ready0) as Hdd.
  apply wp_int13_wrapper; [done..|].
  eapply (wp_int13_on_drive []); [exact im_bda0|exact Hl|constructor|exact Hdd| |].
  { unfold executes. change (dl (wrapper_regs r)) with (dl r).
    by rewrite Hdl, im_number0, Z.eqb_refl. }
  apply wp_int13_execute. change (ah (wrapper_regs r)) with (ah r).
  eapply wp_Ret; [exact Hfn|]. exists dd. split; [exact Hdd|].
  split; [apply of_int13_result|].
  split; [apply (answered status (wrapper_regs r)); [done|apply cf_wrapper_regs]|].
  split; [done|]. split; [done|]. exists c, qs, (set_priv (set_last_status status (priv dd)) dd).
  constructor; eauto.
  - by apply drive_ready_priv.
  - by destruct im_geometry0.
Qed.

(** What can be read. *)
Lemma implements_read c qs dd u w lba k buffer :
  dk_blocks D < 2 ^ 63 -> implements_with c qs dd u w -> (k < 256)%nat -> 0 <= lba ->
  lba + Z.of_nat k <= dk_blocks D -> user_area buffer (512 * Z.of_nat k) = true ->
  read_possible f s i nvme kn ks ns n b c qs dd lba k buffer w.
Proof.
  clear Hlat. intros Hbl [] Hk Hl Hlk Hu. unfold user_area in Hu. destruct im_rings0.
  constructor; auto; [lia..| |].
  - intros j Hj. apply im_data0. lia.
  - constructor; unfold disjoint; lia.
Qed.

Lemma implements_data c qs dd u w lba k :
  implements_with c qs dd u w -> 0 <= lba -> lba + Z.of_nat k <= dk_blocks D ->
  blocks_data (w_hw w) lba k = disk_data D lba k.
Proof.
  intros [] Hl Hk. unfold blocks_data, disk_data. f_equal. apply map_ext_in. intros j Hj%in_seq.
  apply im_data0. lia.
Qed.

(** The state after a read. *)
Lemma implements_done c qs dd u w w' r' lba k buffer :
  dk_blocks D < 2 ^ 63 -> implements_with c qs dd u w -> 0 <= lba ->
  lba + Z.of_nat k <= dk_blocks D -> user_area buffer (512 * Z.of_nat k) = true ->
  int13_read_done s i nvme kn ks ns n b qs dd lba k buffer r' w w' ->
  implements (mkUser (store buffer (disk_data D lba k) (us_mem u)) 0) w'.
Proof.
  intros Hbl Him Hl Hlk Hu Hdone. pose proof (implements_data _ _ _ _ _ _ _ Him Hl Hlk) as Ed.
  destruct Hdone as [_ _ _ Hdata Hfr (c' & qs' & rc & Hrd & Hrings & Hsan) Hbios _ [Hd Hs]].
  destruct Him. split; [done|]. split; [cbn; lia|]. unfold user_area in Hu.
  assert (Hlow : forall x, x < 0x100000 -> in_range buffer (512 * Z.of_nat k) x = false ->
    w_mem w' x = w_mem w x).
  { intros x Hx Hb. destruct im_rings0. apply Hfr; [exact Hb|apply in_range_false; lia..]. }
  assert (Hbda : forall j a, a + Z.of_nat j <= 0x500 -> load j a (w_mem w') = load j a (w_mem w)).
  { intros j a Ha. apply load_ext. intros x Hx. apply Hlow; [lia|]. apply in_range_false. lia. }
  exists c', qs', (set_priv (set_last_status 0 (priv dd)) (set_command_rc rc dd)).
  constructor; auto.
  - destruct im_rings0, Hrings as (E1 & E2 & E3). constructor; congruence || lia.
  - by destruct im_geometry0.
  - destruct im_bda0 as [H1 H2]. destruct bda_addresses as [A1 A2].
    split; rewrite Hbios, ?A1, ?A2, Hbda by lia; rewrite <- ?A1, <- ?A2; assumption.
  - destruct im_first0 as (l & E). exists l. by rewrite Hsan.
  - intros l Hll. rewrite Hd, Hs. by apply im_data0.
  - intros x Hx. cbn [us_mem]. rewrite <- Ed, <- Hdata. unfold store. rewrite length_load.
    rewrite Nat2Z.inj_mul. change (Z.of_nat 512) with 512.
    destruct (in_range buffer (512 * Z.of_nat k) x) eqn:E.
    + apply in_range_spec in E. rewrite nth_load by lia. f_equal. lia.
    + rewrite Hlow by (done || lia). by apply im_mem0.
Qed.

(** The answer of a call that has read. *)
Lemma done_answer qs dd lba k buffer r' (w w' : world) :
  int13_read_done s i nvme kn ks ns n b qs dd lba k buffer r' w w' -> (ah r', flag CF r') = answer 0.
Proof. intros [Eah Ecf _ _ _ _ _ _ _]. by rewrite Eah, Ecf. Qed.

Lemma chs_of_regs r :
  rw_cylinder r = 256 * (cl r / 64) + ch r /\ rw_head r = dh r /\ rw_sector r = cl r mod 64.
Proof.
  pose proof (lo8_range (ecx r)) as Hcl. pose proof (hi8_range (ecx r)) as Hch.
  unfold rw_cylinder, rw_head, rw_sector. split_and!; [|done|].
  - change 0xc0 with (Z.shiftl 3 6). rewrite land_shiftl_mask by lia.
    rewrite Z.shiftl_shiftl by lia. change (6 + 2) with 8. rewrite Z.lor_comm, lor_shiftl_add by (unfold ch; lia).
    change 3 with (2 ^ 2 - 1). rewrite land_ones_mod, Z.shiftr_div_pow2 by lia.
    unfold cl. rewrite Z.mod_small by dlia. change (2 ^ 8) with 256. change (2 ^ 6) with 64. lia.
  - change 0x3f with (2 ^ 6 - 1). by rewrite land_ones_mod by lia.
Qed.

Lemma wp_call_read_sectors d r u ans u' w :
  implements u w -> dl r = dk_number D -> ah r = 0x02 -> spec_read_sectors D r u = Some (ans, u') ->
  wp (@int13_wrapper _ (methods f (S (S (S d)))) r)
    (fun r' w' => (ah r', flag CF r') = ans /\ implements u' w') w.
Proof.
  intros Him Hdl Hah Hspec. pose proof (chs_of_regs r) as (Ec & Eh & Es).
  pose proof (lo8_range (ecx r)). pose proof (hi8_range (ecx r)). pose proof (hi8_range (edx r)).
  pose proof (lo8_range (eax r)) as Hal. fold (al r) in Hal.
  unfold spec_read_sectors in Hspec. rewrite <- Ec, <- Eh, <- Es in Hspec.
  destruct (_ && _) eqn:Hin in Hspec.
  - unfold spec_read in Hspec. destruct (_ && _) eqn:Hok in Hspec; [|done]. simplify_eq.
    destruct Him as (Hbl & _ & c & qs & dd & Him). pose proof Him as [].
    destruct im_first0 as (l & Hl).
    assert (Hchs : chs_in_range (priv dd) (rw_cylinder r) (rw_head r) (rw_sector r) = true)
      by (apply chs_in_range_spec; lia).
    assert (Elba : chs_to_lba (priv dd) (rw_cylinder r) (rw_head r) (rw_sector r) =
      (rw_cylinder r * dk_heads D + rw_head r) * dk_sectors D + rw_sector r - 1).
    { rewrite chs_to_lba_flat, im_heads0, im_sectors0; auto; unfold rw_head, dh, cl, ch in *;
        dlia || lia. }
    rewrite <- Elba in *.
    apply andb_prop in Hok as [[Hl0 Hlk]%andb_prop Hu].
    apply wp_int13_wrapper; [lia..|].
    eapply (wp_int13_read_sectors f s i nvme kn ks ns n b Hlat [] l d (wrapper_regs r) c qs dd
      (Z.to_nat (al r))); auto; [constructor|by rewrite im_number0|rewrite Z2Nat.id by lia; done| |].
    + eapply implements_read; eauto; [lia|by apply Z.leb_le..].
    + intros w' Hdone. split; [apply Hdone|]. apply (read_done_set_dl _ _ _ _ _ _ _ _ _ _ _ _ _ _ (dl r)) in Hdone.
      split; [by eapply done_answer|]. eapply implements_done; eauto; by apply Z.leb_le.
  - unfold spec_fail in Hspec. simplify_eq. apply wp_call_status; auto; try lia.
    intros c qs dd []. rewrite Hah. set (M := methods f _).
    change (int13_function 2 s (wrapper_regs r)) with (int13_rw_sectors s (wrapper_regs r) rw_read).
    unfold int13_rw_sectors, get_sandev, bind, deref.
    rewrite (rd_san _ _ _ _ _ _ _ _ _ _ _ _ im_ready0).
    unfold sandev_blksize. rewrite (rd_blksize _ _ _ _ _ _ _ _ _ _ _ _ im_ready0), im_shift0.
    change (negb (u32 (Z.shiftl 512 0) =? INT13_BLKSIZE)) with false. cbn iota.
    replace (chs_in_range _ _ _ _) with false; [done|].
    symmetry. apply not_true_iff_false. rewrite chs_in_range_spec.
    change (~ (rw_cylinder r < cylinders (priv dd) /\ rw_head r < heads (priv dd) /\
               1 <= rw_sector r <= sectors_per_track (priv dd))). lia.
Qed.

Lemma wp_call_extended_read d r u ans u' w :
  implements u w -> dl r = dk_number D -> ah r = 0x42 -> spec_extended_read D r u = Some (ans, u') ->
  wp (@int13_wrapper _ (methods f (S (S (S d)))) r)
    (fun r' w' => (ah r', flag CF r') = ans /\ implements u' w') w.
Proof.
  intros (Hbl & _ & c & qs & dd & Him) Hdl Hah Hspec. unfold spec_extended_read in Hspec.
  pose proof Him as []. destruct im_first0 as (l & Hl).
  destruct (user_area (real_to_user (seg_ds r) (si r)) 16) eqn:Hp; [|done].
  rewrite andb_true_l in Hspec.
  assert (Hload : load 16 (real_to_user (seg_ds r) (si r)) (w_mem w)
    = load 16 (real_to_user (seg_ds r) (si r)) (us_mem u)).
  { apply load_ext. intros x Hx. apply im_mem0. unfold user_area in Hp. lia. }
  set (packet := load 16 _ (us_mem u)) in *.
  set (count := nth 2 packet 0) in *. set (off := le_combine (take 2 (drop 4 packet))) in *.
  set (seg := le_combine (take 2 (drop 6 packet))) in *. set (lba := le_combine (drop 8 packet)) in *.
  destruct (bool_decide_reflect (packet = dap count seg off lba)) as [Hdap|]; [|done].
  clearbody count off seg lba. rewrite andb_true_l in Hspec.
  destruct (_ && _) eqn:Hok in Hspec; [|done]. unfold spec_read in Hspec.
  destruct (_ && _) eqn:Hrd in Hspec; [|done]. injection Hspec as <- <-.
  apply andb_prop in Hrd as [[Hl0 Hlk]%andb_prop Hu].
  apply wp_int13_wrapper; [lia..|].
  eapply (wp_int13_extended_read f s i nvme kn ks ns n b Hlat [] l d (wrapper_regs r) c qs dd
    (Z.to_nat count) seg off lba); [done|done|constructor|by rewrite im_number0|done|done|lia..| | |].
  - rewrite Z2Nat.id by lia. etrans; [exact Hload|exact Hdap].
  - eapply implements_read; eauto; [lia|by apply Z.leb_le..].
  - intros w' Hdone. split; [apply Hdone|]. apply (read_done_set_dl _ _ _ _ _ _ _ _ _ _ _ _ _ _ (dl r)) in Hdone.
    split; [by eapply done_answer|]. eapply implements_done; eauto; by apply Z.leb_le.
Qed.

(** Every call. *)
Lemma wp_call d r u ans u' w :
  implements u w -> spec_call D r u = Some (ans, u') ->
  wp (@int13_wrapper _ (methods f (S (S (S d)))) r)
    (fun r' w' => (ah r', flag CF r') = ans /\ implements u' w') w.
Proof.
  intros Him Hspec. unfold spec_call in Hspec.
  destruct (Z.eqb_spec (dl r) (dk_number D)) as [Hdl|]; [|done]. cbn [negb] in Hspec.
  destruct (Z.eqb_spec (ah r) 0x01) as [Hah|H01].
  { simplify_eq. replace u' with (mkUser (us_mem u') (us_status u')) by by destruct u'.
    apply wp_call_status; auto; [lia|lia|apply Him|]. intros c qs dd []. rewrite Hah.
    set (M := methods f _).
    change (int13_function 1 s (wrapper_regs r)) with (int13_get_last_status s (wrapper_regs r)).
    unfold int13_get_last_status, get_sandev, bind, deref.
    rewrite (rd_san _ _ _ _ _ _ _ _ _ _ _ _ im_ready0). by rewrite im_last0. }
  destruct (Z.eqb_spec (ah r) 0x02) as [Hah|H02]; [by apply (wp_call_read_sectors _ _ u)|].
  destruct (Z.eqb_spec (ah r) 0x42) as [Hah|H42]; [by apply (wp_call_extended_read _ _ u)|].
  case_bool_decide as Hin; [done|]. unfold spec_fail in Hspec. simplify_eq.
  assert (Hne : forall k, In k int13_supported -> (ah r =? k) = false).
  { intros k Hk. apply Z.eqb_neq. intros E. subst k. apply Hin. by apply list_elem_of_In. }
  apply wp_call_status; auto; [apply Z.eqb_neq, Hne; cbn; tauto..|lia|].
  intros c qs dd _. unfold int13_function. by rewrite !Hne by (cbn; tauto).
Qed.

(** Stores of the user. *)
Lemma implements_store u w a bs :
  implements u w -> user_area a (Z.of_nat (length bs)) = true ->
  implements (mkUser (store a bs (us_mem u)) (us_status u)) (set_w_mem (store a bs (w_mem w)) w).
Proof.
  clear Hlat Hfuel. intros (Hbl & Hst & c & qs & dd & []) Ha. unfold user_area in Ha.
  split; [done|]. split; [done|]. exists c, qs, dd. constructor; auto.
  - replace (set_w_mem _ w) with (set_w_bios (w_bios w) (set_w_mem (store a bs (w_mem w)) w))
      by by destruct w.
    eapply drive_ready_mem; [done|by apply (mem_eq_except_store a bs _ a (Z.of_nat (length bs)))|].
    destruct im_rings0. unfold disjoint. lia.
  - destruct im_bda0 as [H1 H2]. destruct bda_addresses as [A1 A2].
    split; wsimpl; rewrite ?A1, ?A2, load_store_disjoint in * by (unfold disjoint; lia); done.
  - intros x Hx. wsimpl. cbn [us_mem]. unfold store. by rewrite im_mem0.
Qed.

(** C3. The drive refines its specification: for every program that loads
    and stores in conventional memory and calls INT 13 on the drive, if the
    abstract drive runs it to a result, then the machine runs it to the same
    result, with the same answers on the way, and ends in a state that again
    implements the abstract one.  In particular no such program meets undefined
    behaviour or hangs in a call. *)
Theorem client_refines {A} (c : client A) d u a u' w :
  implements u w -> run_spec D c u = Some (a, u') ->
  wp (@run_client _ (methods f (S (S (S d)))) _ c)
    (fun a' w' => a' = a /\ implements u' w') w.
Proof.
  revert u w. induction c as [a0|ad bs c IH|ad k c IH|r c IH]; intros u w Him Hrun;
    cbn [run_spec] in Hrun; cbn [run_client].
  - injection Hrun as <- <-. by wp_prim.
  - destruct (user_area _ _) eqn:Ha; [|done]. repeat wp_prim.
    eapply IH; [|exact Hrun]. by apply implements_store.
  - destruct (user_area _ _) eqn:Ha; [|done]. repeat wp_prim.
    replace (load k ad (w_mem w)) with (load k ad (us_mem u)); [by eapply IH|].
    destruct Him as (_ & _ & c' & qs & dd & []). apply load_ext. intros x Hx.
    symmetry. apply im_mem0. unfold user_area in Ha. lia.
  - destruct (spec_call D r u) as [[ans u1]|] eqn:Hc; [|done]. wp_prim.
    eapply wp_mono; [by eapply wp_call|]. intros r' w' [E Him']. rewrite E. by eapply IH.
Qed.
End refinement.
