(* ===== verification/Boot.v ===== *)
(** * Boot

    A machine with the controller of Controller.v, from power-on to a hooked
    drive: the driver's probe, the opening of the SAN device by [int13_hook]
    and INT 13 calls, all run on the executable definitions.  The state after
    the hook satisfies the hypotheses of the read path. *)

From stdpp Require Import strings.
From S2P Require Import Prelude.
From S2P Require Import Memory.
From S2P Require Import World.
From S2P Require Import Object.
From S2P Require Import Retry.
From S2P Require Import Malloc.
From S2P Require Import Pci.
From S2P Require Import Blockdev.
From S2P Require Import Nvme.
From S2P Require Import NvmeIo.
From S2P Require Import Cstring.
From S2P Require Import Uri.
From S2P Require Import Sanboot.
From S2P Require Import Biosint.
From S2P Require Import PciBus.
From S2P Require Import Startup.
From S2P Require Import Int13.
From S2P Require Import Autoboot.
From S2P Require Import Int13Spec.
From S2P Require Import Controller.
From S2P Require Import System.
From S2P Require Import ReadPath.
From S2P Require Import AutobootSpec.
From S2P Require Import Int13Read.

(** Low memory as a BIOS leaves it: one hard disk, the equipment word and an
    interrupt vector for INT 13; and a packet of the program that will call
    INT 13, at 0000:0600, that asks for three blocks from block 5. *)
Definition packet : list Z := dap 3 0x0000 0x8000 5.

Definition boot_mem : mem :=
  store 0x600 packet
    (fun a => if a =? 0x475 then 1 else if a =? 0x410 then 0x21
              else if a =? 0x4e then 0xf0 else 0).

Definition boot_disk (a : Z) : Z :=
  if a <? 510 then 0 else if a =? 510 then 0x55 else if a =? 511 then 0xaa
  else u8 (a / 512 + a).

Definition boot_hw (blocks : Z) : nvme_hw :=
  mkNvmeHw no_qp no_qp 0 0 0 0 boot_disk blocks 0 0 BAR0.

Definition boot_heap_start : Z := 0x10000.

Definition null_intf : interface :=
  mkIntf I_null None (Some null_intf_desc) (Some null_intf_desc).

Section machine.
Context (junk : nvme_ctrl) (blocks : Z) (null_page : bool).

#[local] Instance machine : Platform := nvme_platform junk.
#[local] Instance machine_methods : Methods := methods 200 8.

(** The data segment: the null interface, the driver's [dummy] interface
    (all zero: no initialiser) and the permanent timer process.  With
    [null_page], memory at address NULL can be read and holds zeroes. *)
Definition machine_power_on : world :=
  mkWorld boot_mem (boot_hw blocks) (mkHeap [] 0 0 0) ∅
    (<[I_null := null_intf]> (<[I_dummy := mkIntf I_NULL None None None]>
      (if null_page then <[I_NULL := mkIntf I_NULL None None None]> ∅ else ∅)))
    (<[P_retry := mkProc retry_process_desc None]> ∅) [P_retry] ∅ [] ∅
    (mkNvmeState [] ∅ ∅ ∅ 0 false) (mkSanState ∅ [] 10 [])
    (mkBios (0, 0) 0 0 0 0 0 0 (0, 0) (0, 0)) (mkDevState 0 0 ∅ [] [] false).

(** The tables of the program: the heap is initialised, the devices on the PCI
    bus (at most 600 addresses) are probed. *)
Definition init_fns : list (cprog unit) := [heap_init_fn boot_heap_start].
Definition startup_fns : list startup_fn := [startup_devices [pci_root_device 600]].

(** The program up to the drive it boots from; no ACPI table models are linked
    in. *)
Definition machine_start : cprog (Z + Z) :=
  initialise init_fns ;; startup startup_fns ;; ipxe_open [].
End machine.

(** A machine with 20000 blocks and zeroed memory, and its state after the
    drive is hooked. *)
#[local] Instance boot_methods : Methods := methods 200 8.
Definition power_on : world := machine_power_on (blank_ctrl 0) 20000 true.
Definition start : cprog (Z + Z) := machine_start (blank_ctrl 0).
Definition booted : world :=
  match start power_on with Ret _ w => w | _ => power_on end.

(** The objects of the booted machine. *)
Definition boot_sandev : Z := nth 0 (san_devices (w_san booted)) 0.
Definition boot_nvme : Z := nth 0 (nvme_devices (w_nvme booted)) 0.
Definition boot_dev : nvme_device :=
  default (mkNvme false 0 0) (nvme_devs (w_nvme booted) !! boot_nvme).
Definition boot_ctrl : nvme_ctrl :=
  default (junk_ctrl 0) (nvme_ctrls (w_nvme booted) !! nvme_ctrl_ boot_dev).
Definition boot_ns : nvme_namespace :=
  default (mkNs 0 0 0 0 0 0) (nvme_nss (w_nvme booted) !! ctrl_ns boot_ctrl).
Definition boot_dd : san_device :=
  default (mkSandev 0 0 0 (mkCap 0 0 0) 0 false (mkInt13 0 0 0 0 0 0) 0 None
             [] [] []) (sandevs (w_san booted) !! boot_sandev).
Definition boot_qs : io_queues :=
  mkQs (virt_to_phys (sq_sqe (io_sq boot_ctrl)))
    (virt_to_phys (cq_cqe (io_cq boot_ctrl)))
    (q_dbl (sq_common (io_sq boot_ctrl))) (q_dbl (cq_common (io_cq boot_ctrl)))
    (q_mask (sq_common (io_sq boot_ctrl))) (sq_tail (io_sq boot_ctrl))
    (cq_head (io_cq boot_ctrl)) (cq_phase (io_cq boot_ctrl)).
Definition boot_buffer : Z := nvme_dma_buffer (w_nvme booted).

Lemma boot_latency : (io_latency < 200)%nat.
Proof. cbn [io_latency example_controller]. lia. Qed.

Lemma boot_stale : cq_stale (w_mem booted) boot_qs.
Proof.
  assert (E : forallb (fun k => let i := Z.of_nat k in
    Bool.eqb (slot_phase (w_mem booted) boot_qs i)
      (if i <? qs_head boot_qs then qs_phase boot_qs
       else negb (qs_phase boot_qs))) (seq 0 256) = true)
    by (vm_compute; reflexivity).
  intros i Hi. rewrite forallb_forall in E.
  assert (Hm : qs_mask boot_qs = 255) by (vm_compute; reflexivity).
  specialize (E (Z.to_nat i)). rewrite in_seq in E. cbv zeta in E.
  rewrite Z2Nat.id in E by lia. apply eqb_prop, E. lia.
Qed.

Lemma boot_io_ready : io_ready boot_ctrl (w_hw booted) (w_mem booted) boot_qs.
Proof.
  pose proof boot_stale as Hst.
  assert (Hio : h_io (w_hw booted) = mkQp 0x114000 256 0x113000 256 5 5 5 true)
    by (vm_compute; reflexivity).
  assert (Hcc : Z.testbit (h_cc (w_hw booted)) 0 = true) by (vm_compute; reflexivity).
  assert (Had : qp_head (h_admin (w_hw booted)) = qp_tail (h_admin (w_hw booted)))
    by (vm_compute; reflexivity).
  let t := eval vm_compute in boot_qs in
    assert (Hqs : boot_qs = t) by (vm_compute; reflexivity).
  let t := eval vm_compute in boot_ctrl in
    assert (Hc : boot_ctrl = t) by (vm_compute; reflexivity).
  rewrite Hqs in *. rewrite Hc. constructor; try exact Hst; try reflexivity.
  all: try (cbn; unfold disjoint; cbn; lia).
  all: try (exists 8; cbn; lia).
  1,2: split; reflexivity.
  split_and!; try assumption; try reflexivity; try (cbn; lia).
  exists 8; cbn; lia.
Qed.

(** The drive is ready for commands. *)
Lemma boot_drive_ready :
  drive_ready boot_sandev 0 boot_nvme 1 1 (ctrl_ns boot_ctrl) boot_ns boot_buffer
    boot_ctrl boot_qs boot_dd booted.
Proof.
  pose proof boot_io_ready as Hio. constructor.
  - constructor; [| | | | | | |split_and!; [..|exact Hio|]].
    + exists boot_dev. split; vm_compute; reflexivity.
    + split; [reflexivity|vm_compute; discriminate].
    + vm_compute; reflexivity.
    + vm_compute; reflexivity.
    + split; vm_compute; reflexivity.
    + vm_compute; discriminate.
    + vm_compute; reflexivity.
    + vm_compute; reflexivity.
    + vm_compute; reflexivity.
    + constructor; [split; vm_compute; (discriminate || reflexivity)|
        vm_compute; reflexivity|right; vm_compute; discriminate..].
  - constructor; try (split; vm_compute; discriminate); vm_compute; reflexivity.
  - vm_compute; reflexivity.
  - eexists. split; [vm_compute; reflexivity|]. split; reflexivity.
  - vm_compute; reflexivity.
  - vm_compute; reflexivity.
  - vm_compute; reflexivity.
Qed.

(** It can read any blocks it has into low memory. *)
Lemma boot_read_possible lba count buffer :
  0 <= lba -> lba + Z.of_nat count <= 20000 -> (count < 200)%nat ->
  0 <= buffer -> buffer + 512 * Z.of_nat count < 0x100000 ->
  read_possible 200 boot_sandev 0 boot_nvme 1 1 (ctrl_ns boot_ctrl) boot_ns
    boot_buffer boot_ctrl boot_qs boot_dd lba count buffer booted.
Proof.
  intros Hl Hlc Hc Hb Hbc.
  let t := eval vm_compute in boot_qs in
    assert (Hqs : boot_qs = t) by (vm_compute; reflexivity).
  assert (Hpage : virt_to_phys boot_buffer = 0x119000) by (vm_compute; reflexivity).
  assert (Hblocks : h_blocks (w_hw booted) = 20000) by (vm_compute; reflexivity).
  constructor; [exact boot_drive_ready|vm_compute; reflexivity..|lia|lia|lia| |].
  - intros j Hj. cbn [io_status example_controller]. unfold ctl_status.
    rewrite Hblocks. replace (20000 <? _) with false by lia. reflexivity.
  - rewrite Hqs, Hpage. constructor; [lia|left; cbn; lia..].
Qed.

Definition is_undef {S A} (o : outcome S A) : bool :=
  match o with Undef => true | _ => false end.

Lemma is_undef_true {S A} (o : outcome S A) : is_undef o = true -> o = Undef.
Proof. by destruct o. Qed.

Lemma ret_of_match {A} (o : outcome world A) a d :
  match o with Ret a _ => Some a | _ => None end = Some a ->
  o = Ret a (match o with Ret _ w => w | _ => d end).
Proof. destruct o; congruence. Qed.

Lemma boot_start : start power_on = Ret (inr 0x80) booted.
Proof. unfold booted. apply ret_of_match. vm_compute. reflexivity. Qed.

(** ** The claims *)


(** The namespace pointer is used uninitialised: when the controller's
    namespace has no blocks, it is never set, the controller is nevertheless
    taken into use, and with anything but zeroes in the memory allocated for
    the controller structure, reading the capacity follows a wild pointer. *)
Theorem empty_namespace_wild_pointer :
  machine_start (blank_ctrl 0x5a5a5a5a) (machine_power_on (blank_ctrl 0x5a5a5a5a) 0 true)
    = Undef.
Proof. apply is_undef_true. vm_compute. reflexivity. Qed.

(** The driver's dummy interface is used before it is ever initialised:
    on a machine where no interface structure can be read at address NULL,
    hooking a drive dereferences NULL. *)
Theorem dummy_interface_uninitialised :
  machine_start (blank_ctrl 0) (machine_power_on (blank_ctrl 0) 20000 false) = Undef.
Proof. apply is_undef_true. vm_compute. reflexivity. Qed.
