(* ===== verification/Main.v ===== *)
(** * Main

    The whole program on the machine of Boot.v: initialisation and startup, the
    scan of the PCI bus, the probe of the driver, the boot sector and back. *)

From S2P Require Import Prelude.
From S2P Require Import Memory.
From S2P Require Import World.
From S2P Require Import Object.
From S2P Require Import Malloc.
From S2P Require Import Pci.
From S2P Require Import Nvme.
From S2P Require Import NvmeIo.
From S2P Require Import Sanboot.
From S2P Require Import Biosint.
From S2P Require Import PciBus.
From S2P Require Import Startup.
From S2P Require Import Int13.
From S2P Require Import Autoboot.
From S2P Require Import Int13Spec.
From S2P Require Import AutobootSpec.
From S2P Require Import Controller.
From S2P Require Import System.
From S2P Require Import ReadPath.
From S2P Require Import Int13Read.
From S2P Require Import Boot.

(** ** Booting from a ready drive *)

Section san_boot.
Context `{Platform} `{!NvmeController}.
Context (f : nat) (s i nvme kn ks ns : Z) (n : nvme_namespace) (b : Z).
Hypothesis Hlat : (io_latency < f)%nat.
Hypothesis Hcs : 0 <= rm_cs < 65536.
Hypothesis Hfail : 0 <= bootsector_exec_fail < 65536.

(** The state in which the boot sector of a drive starts. *)
Definition mbr_started (qs : io_queues) (dd : san_device) (w w1 : world) : Prop :=
  exists r' w', load 512 0x7c00 (w_mem w') = io_data (w_hw w) 0 /\
    int13_read_done s i nvme kn ks ns n b qs dd 0 1 0x7c00 r' w w' /\ booting w' w1.

Lemma wp_san_boot l l' d c qs dd run_bootsector R (w : world) :
  int13_hooked w -> bda_in_sync w -> san_devices (w_san w) = l ++ s :: l' ->
  passes w (wrapper_regs (mbr_regs (drive dd))) l -> 0 <= drive dd < 256 ->
  0 < cylinders (priv dd) -> 0 < heads (priv dd) -> 0 < sectors_per_track (priv dd) ->
  read_possible f s i nvme kn ks ns n b c qs dd 0 1 0x7c00 w ->
  le_combine (take 2 (drop 510 (io_data (w_hw w) 0))) = INT13_MBR_MAGIC ->
  user_buffer qs (virt_to_phys b) 0x60 8 -> Forall is_byte (load 8 0x60 (w_mem w)) ->
  int18_vector (w_bios w) = (0, 0) -> int19_vector (w_bios w) = (0, 0) ->
  0 <= hooked_bios_interrupts (w_bios w) < 65534 ->
  (forall w1, mbr_started qs dd w w1 ->
     wp (run_bootsector (0, 0x7c00) (bootsector_regs (drive dd)))
       (fun _ w2 => gave_up w1 w2 /\ R w2) w1) ->
  wp (@san_boot _ (methods f (S (S (S d)))) run_bootsector (drive dd))
    (fun rc w3 => rc = - ECANCELED /\
       vector 0x18 w3 = vector 0x18 w /\ vector 0x19 w3 = vector 0x19 w /\
       w_bios w3 = w_bios w /\ w_dev w3 = w_dev w /\
       exists w2, R w2 /\ mem_eq_except 0x60 8 (w_mem w2) (w_mem w3)) w.
Proof.
  intros Hv Hb Hl Hp Hd Hc Hh Hs Hrp Hmagic Hub Hbytes H18 H19 Hk Hrun.
  unfold san_boot. eapply wp_int13_boot; eauto. intros r' w' Hdata Hdone.
  assert (Hivt : forall k a, 0x60 <= a -> a + Z.of_nat k <= 0x68 ->
    load k a (w_mem w') = load k a (w_mem w)).
  { intros k a Ha Hk'. apply load_ext. intros x Hx. destruct Hub. unfold disjoint in *.
    apply (ird_frame _ _ _ _ _ _ _ _ _ _ _ _ _ _ _ _ Hdone); apply in_range_false; lia. }
  pose proof (ird_bios _ _ _ _ _ _ _ _ _ _ _ _ _ _ _ _ Hdone) as Hbios.
  eapply wp_mono; [apply (wp_call_bootsector Hcs Hfail run_bootsector 0 0x7c00 (drive dd) R)|];
    rewrite ?Hbios, ?Hivt by lia; auto.
  - intros w1 Hw1. apply Hrun. exists r', w'. auto.
  - intros rc w3 (-> & E18 & E19 & Eb & Ed & HR). change (- ECANCELED =? 0) with false. cbn iota.
    unfold vector in *. rewrite Hivt in E18, E19 by lia. rewrite Eb, Ed.
    split_and!; auto; apply Hdone.
Qed.
End san_boot.

(** ** The machine *)

#[local] Instance main_methods : Methods := methods 200 8.

(** Drive 0x80 can read any of its blocks into low memory. *)
Definition drive_80_reads (w : world) : Prop :=
  exists c qs dd,
    drive dd = 0x80 /\ same_rings boot_qs qs /\
    forall lba count buffer,
      0 <= lba -> lba + Z.of_nat count <= 20000 -> (count < 200)%nat ->
      0 <= buffer -> buffer + 512 * Z.of_nat count < 0x100000 ->
      read_possible 200 boot_sandev 0 boot_nvme 1 1 (ctrl_ns boot_ctrl) boot_ns
        boot_buffer c qs dd lba count buffer w.

(** The machine as a boot sector finds it: the sector is at 0000:7C00,
    interrupt 0x13 leads to our handler, 0x18 and 0x19 to our restart point,
    and drive 0x80 is ready. *)
Record at_boot (w : world) : Prop := {
  ab_sector : load 512 0x7c00 (w_mem w) = io_data (w_hw booted) 0;
  ab_int13 : vector 0x13 w = (rm_cs, int13_wrapper_off);
  ab_int18 : vector 0x18 w = (rm_cs, bootsector_exec_fail);
  ab_int19 : vector 0x19 w = (rm_cs, bootsector_exec_fail);
  ab_low : forall n a, a + Z.of_nat n <= 0x60 \/ 0x68 <= a /\ a + Z.of_nat n <= 0x7c00 ->
    load n a (w_mem w) = load n a (w_mem booted);
  ab_drives : bda_in_sync w /\ san_devices (w_san w) = [boot_sandev];
  ab_disk : forall l, io_data (w_hw w) l = io_data (w_hw booted) l;
  ab_reads : drive_80_reads w }.

Lemma boot_rings :
  boot_qs = ltac:(let t := eval vm_compute in boot_qs in exact t) /\
  virt_to_phys boot_buffer = 0x119000.
Proof. split; vm_compute; reflexivity. Qed.

(** Low memory outside the boot sector is as it was before the sector was
    loaded. *)
Lemma boot_frame m' n a :
  rw_frame boot_qs (virt_to_phys boot_buffer) 0x7c00 512 (w_mem booted) m' ->
  a + Z.of_nat n <= 0x7c00 -> load n a m' = load n a (w_mem booted).
Proof.
  intros Hf Ha. apply load_ext. intros x Hx. destruct boot_rings as [Hqs Hpage].
  rewrite Hqs, Hpage in Hf. apply Hf; apply in_range_false; cbn; lia.
Qed.

Lemma boot_drive_80 : drive boot_dd = 0x80.
Proof. vm_compute. reflexivity. Qed.

Lemma boot_cs : 0 <= rm_cs < 65536.
Proof. split; vm_compute; [discriminate|reflexivity]. Qed.

Lemma boot_fail : 0 <= bootsector_exec_fail < 65536.
Proof. split; vm_compute; [discriminate|reflexivity]. Qed.

Lemma boot_byte_vectors : Forall is_byte (load 8 0x60 (w_mem booted)).
Proof. unfold is_byte. vm_compute. repeat constructor; intros [=]. Qed.

Lemma drive_settled p rc dd : drive (set_priv p (set_command_rc rc dd)) = drive dd.
Proof. done. Qed.

(** The machine after the boot sector has been loaded and interrupts 0x18 and
    0x19 have been hooked. *)
Lemma started_at_boot w1 :
  mbr_started boot_sandev 0 boot_nvme 1 1 (ctrl_ns boot_ctrl) boot_ns boot_buffer
    boot_qs boot_dd booted w1 -> at_boot w1.
Proof.
  intros (r' & w' & Hsec &
    [_ _ _ _ Hframe (c' & qs' & rc' & Hready & Hrings & Hsan) Hbios _ [Hdata Hstatus]] & Hw1).
  destruct Hw1 as [H18 H19 Hmem (m & k & v & v' & ->)]. wsimpl.
  assert (Hlow : forall n a, (a + Z.of_nat n <= 0x60 \/ 0x68 <= a) ->
    load n a m = load n a (w_mem w')).
  { intros n a Ha. apply (load_eq_except _ _ 0x60 8); [exact Hmem|]. unfold disjoint. lia. }
  constructor; try assumption; unfold vector; wsimpl.
  - by rewrite Hlow by lia.
  - rewrite Hlow, (boot_frame _ _ _ Hframe) by lia. vm_compute. reflexivity.
  - intros n a Ha. rewrite Hlow by lia. apply (boot_frame _ _ _ Hframe). lia.
  - split; [split; wsimpl|rewrite Hsan].
    + rewrite Hbios. change (real_to_user _ _) with 0x410.
      rewrite Hlow, (boot_frame _ _ _ Hframe) by lia. vm_compute. reflexivity.
    + rewrite Hbios. change (real_to_user _ _) with 0x475.
      rewrite Hlow, (boot_frame _ _ _ Hframe) by lia. vm_compute. reflexivity.
    + vm_compute. reflexivity.
  - eexists c', qs', _. split_and!; [|exact Hrings|].
    2: { intros lba count buffer Hl Hlc Hc Hb Hbc.
         eapply read_possible_later; [by apply boot_read_possible|
           eapply drive_ready_mem; [exact Hready|exact Hmem|]|exact Hrings|exact Hstatus].
         destruct Hrings as (_ & E2 & E3). rewrite E2, E3, (proj1 boot_rings).
         unfold disjoint. cbn. lia. }
    rewrite drive_settled. exact boot_drive_80.
Qed.

Lemma start_eq :
  (initialise (init_fns (blank_ctrl 0)) ;; startup (startup_fns (blank_ctrl 0)) ;;
   @ipxe_open _ (methods 200 8) []) = start.
Proof. reflexivity. Qed.

(** The program on this machine: [main], with the tables of Boot.v and the
    code of a boot sector. *)
Definition machine_main (run_bootsector : Z * Z -> i386_all_regs -> cprog unit) : cprog Z :=
  main (init_fns (blank_ctrl 0)) (startup_fns (blank_ctrl 0))
    (@ipxe _ (methods 200 8) run_bootsector []).

Lemma main_opened run_bootsector Q :
  wp (@san_boot _ (methods 200 8) run_bootsector 0x80)
    (fun rc w => wp (shutdown_exit (startup_fns (blank_ctrl 0)) ;; ret rc) Q w) booted ->
  wp (machine_main run_bootsector) Q power_on.
Proof.
  intros HQ. unfold machine_main, ipxe. apply wp_main.
  pose proof boot_start as E. rewrite <- start_eq in E. eapply wp_Ret; [exact E|]. exact HQ.
Qed.

Lemma boot_startup : startup_fns (blank_ctrl 0) = [startup_devices [pci_root_device 600]].
Proof. reflexivity. Qed.

Lemma boot_started : started (w_dev booted) = true.
Proof. vm_compute. reflexivity. Qed.

Lemma boot_keep : device_keep_count (w_bios booted) <> 0.
Proof. vm_compute. discriminate. Qed.

Lemma boot_roots : 0%nat ∈ devices (w_dev booted).
Proof.
  assert (E : devices (w_dev booted) = [0%nat]) by (vm_compute; reflexivity).
  rewrite E. constructor.
Qed.

(** The end of the program once the boot sector has given up. *)
Lemma shut_down v18 v19 (R : world -> Prop) rc w3 :
  rc = - ECANCELED /\ vector 0x18 w3 = v18 /\ vector 0x19 w3 = v19 /\
  w_bios w3 = w_bios booted /\ w_dev w3 = w_dev booted /\
  (exists w2, R w2 /\ mem_eq_except 0x60 8 (w_mem w2) (w_mem w3)) ->
  wp (shutdown_exit (startup_fns (blank_ctrl 0)) ;; ret rc)
    (fun rc w3 => rc = - ECANCELED /\ vector 0x18 w3 = v18 /\ vector 0x19 w3 = v19 /\
       w_dev w3 = set_started false (w_dev booted) /\
       exists w2, R w2 /\ mem_eq_except 0x60 8 (w_mem w2) (w_mem w3)) w3.
Proof.
  intros (-> & <- & <- & Eb & Ed & HR). wp_prim.
  eapply wp_shutdown_kept; [exact boot_startup|rewrite Ed; exact boot_started|
    rewrite Eb; exact boot_keep|].
  wp_prim. wsimpl. rewrite Ed. auto.
Qed.

