(* ===== verification/Witness.v ===== *)
(** * Witness

    The theorems at work: each is applied here at a concrete input, on the
    booted machine of Boot.v wherever it needs a machine. *)

From stdpp Require Import strings.
From S2P Require Import Prelude.
From S2P Require Import Memory.
From S2P Require Import World.
From S2P Require Import Cstring.
From S2P Require Import Printf.
From S2P Require Import PrintfSpec.
From S2P Require Import Uri.
From S2P Require Import UriSpec.
From S2P Require Import UriParse.
From S2P Require Import Object.
From S2P Require Import ObjectSpec.
From S2P Require Import Retry.
From S2P Require Import Malloc.
From S2P Require Import MallocSpec.
From S2P Require Import MallocTrace.
From S2P Require Import Pci.
From S2P Require Import Blockdev.
From S2P Require Import Nvme.
From S2P Require Import NvmeIo.
From S2P Require Import NvmeSpec.
From S2P Require Import Sanboot.
From S2P Require Import Biosint.
From S2P Require Import PciBus.
From S2P Require Import PciBusSpec.
From S2P Require Import Startup.
From S2P Require Import Acpi.
From S2P Require Import AcpiSpec.
From S2P Require Import Int13.
From S2P Require Import Xbft.
From S2P Require Import Geometry.
From S2P Require Import Int13Spec.
From S2P Require Import Controller.
From S2P Require Import System.
From S2P Require Import ReadPath.
From S2P Require Import Int13Read.
From S2P Require Import Disk.
From S2P Require Import Boot.
From S2P Require Import Autoboot.
From S2P Require Import AutobootSpec.
From S2P Require Import Main.

#[local] Instance witness_methods : Methods := methods 200 8.

(** ** Reads on the booted machine *)

(** INT 13,42 with the packet at 0000:0600; INT 13,02 of three sectors from
    cylinder 0, head 0, sector 2, to 0000:8000. *)
Definition regs_42 : i386_all_regs := mkRegs 0x4200 0 0 0x80 0x600 0 0 0 0.
Definition regs_02 : i386_all_regs := mkRegs 0x0203 0x8000 0x0002 0x80 0 0 0 0 0.

Lemma boot_fuel : (io_latency < fuel)%nat.
Proof. exact boot_latency. Qed.

Lemma boot_bda : bda_in_sync booted.
Proof. split; vm_compute; reflexivity. Qed.

Lemma boot_devices : san_devices (w_san booted) = [boot_sandev].
Proof. vm_compute. reflexivity. Qed.

Lemma boot_drive : drive boot_dd = 0x80.
Proof. vm_compute. reflexivity. Qed.

Lemma boot_lookup : sandevs (w_san booted) !! boot_sandev = Some boot_dd.
Proof. eapply rd_san. exact boot_drive_ready. Qed.

Lemma boot_packet : load 16 0x600 (w_mem booted) = packet.
Proof. vm_compute. reflexivity. Qed.

Lemma int13_42_witness :
  wp (int13_wrapper regs_42)
    (fun r' w' => int13_read_done boot_sandev 0 boot_nvme 1 1 (ctrl_ns boot_ctrl) boot_ns
       boot_buffer boot_qs boot_dd 5 3 0x8000 r' booted w' /\ dl r' = 0x80) booted.
Proof.
  apply (int13_42_reads_blocks 200 boot_sandev 0 boot_nvme 1 1 (ctrl_ns boot_ctrl) boot_ns
    boot_buffer boot_latency [] [] 5 regs_42 boot_ctrl boot_qs boot_dd 3 0 0x8000 5 booted).
  - exact boot_bda.
  - exact boot_devices.
  - constructor.
  - exact boot_drive.
  - unfold int13_is_fdd. rewrite boot_drive. reflexivity.
  - reflexivity.
  - lia.
  - lia.
  - left. lia.
  - lia.
  - exact boot_packet.
  - change (real_to_user 0 0x8000) with 0x8000. apply boot_read_possible; lia.
Defined.

Lemma boot_chs :
  chs_in_range (priv boot_dd) (rw_cylinder regs_02) (rw_head regs_02) (rw_sector regs_02) = true
  /\ chs_to_lba (priv boot_dd) (rw_cylinder regs_02) (rw_head regs_02) (rw_sector regs_02) = 1.
Proof. split; vm_compute; reflexivity. Qed.

Lemma int13_02_witness :
  wp (int13_wrapper regs_02)
    (fun r' w' => int13_read_done boot_sandev 0 boot_nvme 1 1 (ctrl_ns boot_ctrl) boot_ns
       boot_buffer boot_qs boot_dd 1 3 0x8000 r' booted w' /\ dl r' = 0x80) booted.
Proof.
  rewrite <- (proj2 boot_chs).
  apply (int13_02_reads_blocks 200 boot_sandev 0 boot_nvme 1 1 (ctrl_ns boot_ctrl) boot_ns
    boot_buffer boot_latency [] [] 5 regs_02 boot_ctrl boot_qs boot_dd 3 booted).
  - exact boot_bda.
  - exact boot_devices.
  - constructor.
  - exact boot_drive.
  - reflexivity.
  - reflexivity.
  - apply boot_chs.
  - rewrite (proj2 boot_chs). change (real_to_user _ _) with 0x8000.
    apply boot_read_possible; lia.
Defined.

Lemma sandev_read_witness :
  wp (sandev_read boot_sandev 19990 10 0x8000)
    (fun rc w' => rc = 0 /\ exists rc', blocks_read boot_sandev 0 boot_nvme 1 1
       (ctrl_ns boot_ctrl) boot_ns boot_buffer boot_qs (set_command_rc rc' boot_dd) 19990 10
       0x8000 booted w') booted.
Proof.
  apply (sandev_read_correct 200 boot_sandev 0 boot_nvme 1 1 (ctrl_ns boot_ctrl) boot_ns
    boot_buffer boot_latency 5 boot_ctrl boot_qs boot_dd 19990 10 0x8000 booted).
  apply boot_read_possible; lia.
Defined.

(** A boot sector that reads three blocks from block 5 of the drive in DL to
    0000:8000 by INT 13,42 and gives up. *)
Definition reading_bootsector (_ : Z * Z) (r : i386_all_regs) : cprog unit :=
  _ <- int13_wrapper (mkRegs 0x4200 0 0 (dl r) 0x600 0 0 0 0) ;; ret tt.

Definition blocks_5_to_7_read (w : world) : Prop :=
  load (512 * 3) 0x8000 (w_mem w) = blocks_data (w_hw booted) 5 3.

Lemma reading_bootsector_reads r w1 :
  at_boot w1 -> dl r = 0x80 ->
  wp (reading_bootsector (0, 0x7c00) r)
    (fun _ w2 => gave_up w1 w2 /\ blocks_5_to_7_read w2) w1.
Proof.
  intros [_ _ _ _ Hlow [Hbda Hdevs] Hdisk (c & qs & dd & Hdrive & Hrings & Hreads)].
  assert (Hrp := Hreads 5 3%nat 0x8000 ltac:(lia) ltac:(lia) ltac:(lia) ltac:(lia) ltac:(lia)).
  intros Hdl. unfold reading_bootsector. rewrite Hdl. fold regs_42.
  wp_prim. apply wp_int13_wrapper; [done..|].
  eapply (wp_int13_extended_read 200 boot_sandev 0 boot_nvme 1 1 (ctrl_ns boot_ctrl) boot_ns
    boot_buffer boot_latency [] [] 5 _ c qs dd 3 0 0x8000 5 w1);
    [exact Hbda|exact Hdevs|constructor|exact Hdrive| | |lia|lia|left; lia|lia| |exact Hrp|].
  - unfold int13_is_fdd. rewrite Hdrive. reflexivity.
  - reflexivity.
  - rewrite Hlow by (right; vm_compute; split; discriminate). exact boot_packet.
  - intros w2 Hdone. split; [apply Hdone|]. wp_prim. destruct Hdone as [_ _ _ Hdata Hframe _ Hb Hdv _].
    change (real_to_user 0 0x8000) with 0x8000 in *.
    assert (Hivt : forall x, x < 0x68 -> w_mem w2 x = w_mem w1 x).
    { intros x Hx. destruct Hrings as (E1 & E2 & E3).
      apply Hframe; rewrite ?E1, ?E2, ?E3, ?(proj1 boot_rings), ?(proj2 boot_rings);
        apply in_range_false; cbn; lia. }
    assert (Hv : forall n, n < 26 -> vector n w2 = vector n w1).
    { intros n Hn. unfold vector. f_equal. apply load_ext. intros x Hx. apply Hivt. lia. }
    split; [constructor; [by apply Hv..|exact Hb|exact Hdv]|].
    unfold blocks_5_to_7_read. rewrite Hdata. unfold blocks_data. f_equal. apply map_ext.
    intros j. apply Hdisk.
Qed.



Lemma boot_xfer :
  xfer_ready (ctrl_ns boot_ctrl) boot_ns (virt_to_phys boot_buffer) boot_ctrl boot_qs booted.
Proof. apply boot_drive_ready. Qed.

Lemma boot_nsid : ns_id boot_ns = io_nsid.
Proof. vm_compute. reflexivity. Qed.

Lemma boot_blocks : h_blocks (w_hw booted) = 20000.
Proof. vm_compute. reflexivity. Qed.

Lemma nvme_io_xfer_witness :
  wp (nvme_io_xfer (ctrl_ns boot_ctrl) 7 (virt_to_phys boot_buffer) 0 1 false)
    (fun rc w' => rc = 1 /\
       xfer_ready (ctrl_ns boot_ctrl) boot_ns (virt_to_phys boot_buffer)
         (ctrl_advance boot_ctrl boot_qs) (qs_advance boot_qs) w' /\
       load 512 (virt_to_phys boot_buffer) (w_mem w') = io_data (w_hw booted) 7 /\
       io_frame boot_qs (virt_to_phys boot_buffer) (w_mem booted) (w_mem w') /\
       forall l, io_data (w_hw w') l = io_data (w_hw booted) l) booted.
Proof.
  apply (nvme_io_xfer_reads_block (ctrl_ns boot_ctrl) boot_ns 7 (virt_to_phys boot_buffer)
    boot_fuel boot_nsid ltac:(lia) boot_ctrl boot_qs booted boot_xfer).
  cbn [io_status example_controller]. unfold ctl_status. rewrite boot_blocks. reflexivity.
Defined.

(** Block 20000 is the first past the end. *)
Lemma nvme_io_xfer_retries_witness :
  nvme_io_xfer (ctrl_ns boot_ctrl) 20000 (virt_to_phys boot_buffer) 0 1 false booted = Spin.
Proof.
  apply (nvme_io_xfer_retries_forever (ctrl_ns boot_ctrl) boot_ns 20000
    (virt_to_phys boot_buffer) boot_fuel boot_nsid ltac:(lia) boot_ctrl boot_qs booted boot_xfer).
  cbn [io_status example_controller]. unfold ctl_status. rewrite boot_blocks. discriminate.
Defined.

Lemma nvme_write_witness :
  wp (nvme_write boot_nvme (I_sandev_command boot_sandev) 7 1 0x8000 512)
    (fun rc w' => rc = 0 /\ w_hw w' = w_hw booted /\ w_mem w' = w_mem booted /\
       san_links boot_sandev 0 boot_nvme 1 1 true w') booted.
Proof.
  apply (nvme_write_drops_data boot_sandev 0 boot_nvme 1 1 7 1 0x8000 512 booted).
  apply boot_drive_ready.
Defined.

(** ** The allocator *)

Definition small_heap : heap := mkHeap [(0x10080, 0x80)] 0x80 0x80 0x80.

Lemma small_heap_ok : heap_ok 0x10000 0x10100 small_heap.
Proof. constructor; cbn; unfold unit_aligned; cbn; repeat split; lia. Qed.

Lemma small_allocated p n :
  0x10000 <= p -> p + n <= 0x10080 -> p mod 16 = 0 -> 16 <= n -> n mod 16 = 0 ->
  allocated 0x10000 0x10100 p n (free_blocks small_heap).
Proof.
  intros H1 H2 H3 H4 H5. constructor; try lia.
  - unfold unit_aligned. change virt_offset with 0x100000. dlia.
  - intros x Hx. apply in_range_spec in Hx. cbn. rewrite orb_false_r.
    apply in_range_false. lia.
Qed.

Lemma init_heap_witness :
  wp (init_heap 0x10000)
    (fun _ h => heap_ok 0x10000 (0x10000 + HEAP_SIZE) h /\
       usedmem h = 0 /\ freemem h = HEAP_SIZE /\
       forall x, is_free (free_blocks h) x = in_range 0x10000 HEAP_SIZE x) (mkHeap [] 0 0 0).
Proof. apply (init_heap_ok 0x10000); [lia|reflexivity|reflexivity]. Defined.

(** 40 bytes at a multiple of 64 fit the free block, 200 do not. *)
Lemma alloc_memblock_witness :
  wp (alloc_memblock 1 40 (2 ^ 6) 0)
    (fun p h' =>
       (heap_ok 0x10000 0x10100 h' /\
        block_taken 0x10000 0x10100 p (actual_size 40) small_heap h' /\
        40 <= actual_size 40 < 40 + 16 /\ (virt_to_phys p - 0) mod 2 ^ 6 = 0) \/
       (p = NULL /\ h' = small_heap /\
        forall q, aligned_at (Z.max 6 4) 0 q ->
          exists x, q <= x < q + actual_size 40 /\
                    is_free (free_blocks small_heap) x = false)) small_heap.
Proof.
  apply (alloc_memblock_correct 0x10000 0x10100 0 6 40 0 small_heap);
    [exact small_heap_ok|lia|lia|reflexivity|reflexivity].
Defined.

Lemma alloc_free_witness :
  wp (p <- alloc_memblock 1 40 (2 ^ 6) 0 ;; free_memblock p 40)
    (fun _ h' => free_blocks h' = [(0x10080, 0x80)] /\ freemem h' = 0x80 /\
                 usedmem h' = 0x80) small_heap.
Proof.
  apply (alloc_free_roundtrip 0x10000 0x10100 0 6 40 0 small_heap);
    [exact small_heap_ok|lia|lia|reflexivity|reflexivity].
Defined.

Lemma free_commute_witness :
  exists h1 h2,
    (free_memblock 0x10000 20 ;; free_memblock 0x10060 32) small_heap = Ret tt h1 /\
    (free_memblock 0x10060 32 ;; free_memblock 0x10000 20) small_heap = Ret tt h2 /\
    heap_ok 0x10000 0x10100 h1 /\ free_blocks h1 = free_blocks h2.
Proof.
  apply (free_memblock_commute 0x10000 0x10100 0x10000 0x10060 20 32 small_heap);
    [exact small_heap_ok|lia|lia|..].
  - apply small_allocated; (lia || reflexivity || discriminate).
  - apply small_allocated; (lia || reflexivity || discriminate).
  - left. discriminate.
Defined.


(** ** Geometry *)

Definition full_geometry : int13_data := mkInt13 0x80 1024 255 63 0 0.

Lemma chs_roundtrip_witness :
  geometry_ok full_geometry /\
  lba_to_chs full_geometry (chs_to_lba full_geometry 1023 254 63) = (1023, 254, 63).
Proof.
  assert (G : geometry_ok full_geometry) by (constructor; cbn; lia).
  split; [exact G|].
  apply (proj2 (chs_lba_roundtrip full_geometry G)); [lia|lia|reflexivity].
Defined.

Lemma get_parameters_witness :
  wp (int13_get_parameters boot_sandev regs_02)
    (fun '(status, r') w' =>
       let c := rw_cylinder r' in
       let h := rw_head r' in
       let sec := rw_sector r' in
       status = 0 /\ w' = booted /\ dl r' = u8 (num_drives (w_bios booted)) /\
       chs_in_range (priv boot_dd) c h sec = true /\
       chs_to_lba (priv boot_dd) c h sec =
         cylinders (priv boot_dd) * heads (priv boot_dd) * sectors_per_track (priv boot_dd) - 1)
    booted.
Proof.
  apply (get_parameters_last_sector boot_sandev boot_dd regs_02 booted).
  - exact boot_lookup.
  - constructor; split; vm_compute; discriminate.
  - vm_compute. reflexivity.
  - vm_compute. reflexivity.
Defined.

(** A drive of 20000 blocks with no geometry yet. *)
Definition blank_drive : san_device :=
  set_priv (mkInt13 0x80 0 0 0 0 0) (set_capacity (mkCap 20000 512 1) empty_sandev).


Lemma guess_geometry_bounds_witness :
  1 <= (guess_geometry_mbr wrapping_mbr).1 <= 256 /\
  1 <= (guess_geometry_mbr wrapping_mbr).2 < 2 ^ 32.
Proof.
  apply (guess_geometry_bounds wrapping_mbr).
  apply (bool_decide_unpack _). vm_compute. exact I.
Defined.

Lemma divides_by_zero_witness :
  (guess_geometry_mbr wrapping_mbr).2 = 16777216 /\
  apply_geometry blank_drive (guess_geometry_mbr wrapping_mbr) = None.
Proof. apply (guess_geometry_divides_by_zero blank_drive). reflexivity. Defined.

(** ** Timers and PCI *)

Lemma smooth_timeout_witness :
  (4 * 20 <= 256 -> 4 * 20 <= smooth_timeout 256 20 <= 256) /\
  (256 <= 4 * 20 -> 256 <= smooth_timeout 256 20 <= 4 * 20).
Proof. apply (smooth_timeout_tracks_rtt 256 20); lia. Defined.

Lemma backoff_witness :
  let t := Nat.iter 6 (fun t => (backoff 10240 t).1) 256 in
  t = Z.min (256 * 2 ^ Z.of_nat 6) 10240 /\
  (backoff 10240 t).2 = (10240 <? 256 * 2 ^ Z.of_nat 7).
Proof. apply (backoff_doubles 10240 256 6); lia. Defined.

Lemma pci_bar_size_witness :
  wp (pci_bar_size 0x100 PCI_BASE_ADDRESS_0)
    (fun size w' => size = 2 ^ 14 /\
       u32 (pci_config_read (w_hw w') 4 0x100 PCI_BASE_ADDRESS_0) =
       u32 (pci_config_read (w_hw power_on) 4 0x100 PCI_BASE_ADDRESS_0)) power_on.
Proof.
  apply (pci_bar_size_correct 0x100 PCI_BASE_ADDRESS_0 14 0 BAR0 power_on);
    [lia|lia|reflexivity|reflexivity|..].
  - intros h v. change (u32 (Z.land v (2 ^ 32 - 2 ^ 14)) = Z.lor (Z.land v (2 ^ 32 - 2 ^ 14)) 0).
    rewrite Z.lor_0_r. apply u32_small. apply (land_range v _ 32); lia.
  - reflexivity.
Defined.

Lemma iso9660_shift_witness :
  exists k, iso9660_shift 512 power_on = Ret (512 * 2 ^ k, k) power_on /\ 0 <= k <= 11 /\
    ISO9660_BLKSIZE <= 512 * 2 ^ k /\ (0 < k -> 512 * 2 ^ (k - 1) < ISO9660_BLKSIZE).
Proof. apply (iso9660_shift_correct 512 power_on); [cbn; lia|lia]. Defined.

(** ** The INT 13 handler on the booted machine *)

Definition regs_ah_dl (ah_ dl_ : Z) : i386_all_regs := mkRegs (ah_ * 256) 0 0 dl_ 0 0 0 0 0.

Lemma unsupported_witness :
  wp (int13_wrapper (regs_ah_dl 0x99 0x80))
    (fun r' w' =>
       ah r' = INT13_STATUS_INVALID /\ flag CF r' = true /\ dl r' = 0x80 /\
       w' = set_w_san (set_sandevs
              (<[boot_sandev := set_priv (set_last_status (- INT13_STATUS_INVALID)
                                            (priv boot_dd)) boot_dd]>
                 (sandevs (w_san booted))) (w_san booted)) booted) booted.
Proof.
  apply (int13_unsupported [] [] boot_sandev (regs_ah_dl 0x99 0x80) boot_dd booted).
  - exact boot_bda.
  - exact boot_devices.
  - constructor.
  - exact boot_lookup.
  - symmetry. exact boot_drive.
  - change (ah (regs_ah_dl 0x99 0x80)) with 0x99. apply (bool_decide_unpack _).
    vm_compute. exact I.
Defined.

Lemma boot_natural : natural_drive (priv boot_dd) = 0x81.
Proof. vm_compute. reflexivity. Qed.

(** Reset of floppy 0, and of the drive that the BIOS knows as 0x80. *)
Lemma passes_on_witness :
  int13_wrapper (regs_ah_dl 0 0) booted =
  Ret (set_dl 0 (wrapper_regs (regs_ah_dl 0 0)))
    (set_w_hw (w_hw booted) (set_w_mem (w_mem booted) booted)).
Proof.
  apply (int13_passes_on (regs_ah_dl 0 0) (wrapper_regs (regs_ah_dl 0 0)) (w_hw booted)
    (w_mem booted) booted).
  - exact boot_bda.
  - rewrite boot_devices. repeat constructor. exists boot_dd. split; [exact boot_lookup|].
    unfold executes, remaps. rewrite boot_drive, boot_natural. split; reflexivity.
  - discriminate.
  - discriminate.
  - reflexivity.
Defined.

Lemma remap_witness :
  int13_wrapper (regs_ah_dl 0 0x81) booted =
  Ret (set_dl 0x81 (set_dl (drive boot_dd) (wrapper_regs (regs_ah_dl 0 0x81))))
    (set_w_hw (w_hw booted) (set_w_mem (w_mem booted) booted)).
Proof.
  apply (int13_remaps_natural_drive [] [] boot_sandev boot_dd (regs_ah_dl 0 0x81)
    (set_dl (drive boot_dd) (wrapper_regs (regs_ah_dl 0 0x81))) (w_hw booted)
    (w_mem booted) booted).
  - exact boot_bda.
  - exact boot_devices.
  - constructor.
  - exact boot_lookup.
  - rewrite boot_natural. reflexivity.
  - rewrite boot_drive. discriminate.
  - discriminate.
  - discriminate.
  - reflexivity.
Defined.

(** INT 13,01 after INT 13,41 without its signature, which fails. *)
Definition regs_cf (ah_ : Z) : i386_all_regs := wrapper_regs (regs_ah_dl ah_ 0x80).

Definition after_41 : world :=
  match int13_execute boot_sandev (regs_cf 0x41) booted with
  | Ret _ w => w
  | _ => booted
  end.

Lemma last_status_witness :
  wp (int13_execute boot_sandev (regs_cf 0x01))
    (fun r2' _ => ah r2' = 1 /\ flag CF r2' = true) after_41.
Proof.
  apply (int13_last_status boot_sandev (regs_cf 0x41) (regs_cf 0x01)
    (int13_result (- INT13_STATUS_INVALID) (regs_cf 0x41)) booted after_41).
  - reflexivity.
  - reflexivity.
  - reflexivity.
  - unfold after_41. apply ret_of_match. vm_compute. reflexivity.
Defined.

(** A fresh machine with one SAN drive, number 0x82. *)
Definition one_drive : world :=
  set_w_san (mkSanState (<[1 := set_drive 0x82 (set_priv (mkInt13 0x83 0 0 0 0 0) empty_sandev)]> ∅)
               [1] 10 []) power_on.

Lemma boot_mem_bytes : byte_mem boot_mem.
Proof.
  apply byte_mem_store.
  - apply (bool_decide_unpack _). vm_compute. exact I.
  - intros x. unfold is_byte. repeat (destruct (_ =? _); [lia|]). lia.
Qed.

Lemma sync_num_drives_witness :
  wp int13_sync_num_drives
    (fun _ w' =>
       bda_in_sync w' /\ w_san w' = w_san one_drive /\
       (forall s d, s ∈ san_devices (w_san one_drive) ->
          sandevs (w_san one_drive) !! s = Some d ->
          counted (num_fdds (w_bios w'), num_drives (w_bios w')) d) /\
       equipment_fdds (ld16 0x410 (w_mem one_drive)) <= num_fdds (w_bios w') /\
       ld8 0x475 (w_mem one_drive) <= num_drives (w_bios w') < 256 /\
       (num_fdds (w_bios w') <= 4 ->
        equipment_fdds (equipment_word (w_bios w')) = num_fdds (w_bios w'))) one_drive.
Proof.
  apply (sync_num_drives_correct one_drive); [exact boot_mem_bytes|].
  repeat constructor. eexists. split; [reflexivity|]. repeat split; cbn; lia.
Defined.

Lemma hook_unhook_witness :
  wp (hook_bios_interrupt 0x13 0x100 (0, 0))
    (fun v w1 =>
       segoff_of_bytes (load 4 0x4c (w_mem w1)) = (0x9000, 0x100) /\
       v = segoff_of_bytes (load 4 0x4c boot_mem) /\
       wp (unhook_bios_interrupt 0x13 0x100 v)
         (fun '(rc, v') w2 => rc = 0 /\ v' = (0, 0) /\ w_bios w2 = w_bios power_on /\
            forall x, w_mem w2 x = boot_mem x) w1 /\
       (forall w3, segoff_of_bytes (load 4 0x4c (w_mem w3)) <> (0x9000, 0x100) ->
          unhook_bios_interrupt 0x13 0x100 v w3 = Ret (- EBUSY, v) w3)) power_on.
Proof.
  apply (hook_unhook_roundtrip 0x13 0x100 power_on);
    [exact boot_mem_bytes|lia|lia|cbn; lia|cbn; lia].
Defined.

Lemma edd_dpi_witness :
  let dpi := edd_dpi 0x100 EDD_INTF_TYPE_RAID (replicate 16 0) in
  length dpi = 44%nat /\ field 0 2 dpi = EDD_DEVICE_PATH_INFO_KEY /\
  field 2 1 dpi = Z.of_nat (length dpi) /\ sum_bytes dpi = 0.
Proof. apply (edd_dpi_correct 0x100 EDD_INTF_TYPE_RAID (replicate 16 0)). reflexivity. Defined.

(** A table of 36 bytes at 0x500. *)
Definition table_mem : mem := store 0x504 [36; 0; 0; 0; 7] boot_mem.

(** ** Queues and interfaces *)

Lemma cqe_success_witness :
  nvme_is_cqe_success (mkCqe 0 0 0 (cqe_dword3 3 true 0 1)) = (0 =? 0).
Proof. apply (cqe_success_ignores_type 0 0 0 3 true 0 1); lia. Defined.

Lemma queue_positions_witness :
  queue_next (nvme_init_queue_common boot_ctrl 2 (2 ^ 8)) 255
    = (if 255 + 1 =? 2 ^ 8 then 0 else 255 + 1) /\
  queue_next (nvme_init_queue_common boot_ctrl 2 100) 3 = 0.
Proof. apply (queue_positions boot_ctrl 2 8 255); lia. Defined.

Lemma sq_full_test_witness :
  let sq := ctrl_sq Q_io boot_ctrl in
  (sq_tail sq = Z.land (sq_head sq + 1) (2 ^ 8 - 1) ->
     nvme_get_next_sqe (nvme_ctrl_ boot_dev) Q_io 2 0 0 0 booted = Ret NULL booted) /\
  (sq_head sq = Z.land (sq_tail sq + 1) (2 ^ 8 - 1) ->
     wp (nvme_get_next_sqe (nvme_ctrl_ boot_dev) Q_io 2 0 0 0)
       (fun sqe _ => sqe = sq_sqe sq + sizeof_sqe * sq_tail sq /\ sqe <> NULL) booted).
Proof.
  apply (sq_full_test_inverted (nvme_ctrl_ boot_dev) Q_io boot_ctrl 8 2 0 0 0 booted).
  - vm_compute. reflexivity.
  - lia.
  - vm_compute. reflexivity.
  - vm_compute. reflexivity.
  - vm_compute. split; discriminate.
  - vm_compute. split; discriminate.
Defined.

(** Two objects with one unplugged interface each. *)
Definition pair_intf (desc : intf_desc) (r : refid) : interface :=
  mkIntf I_null (Some r) (Some desc) (Some desc).
Definition pair_a : interface := pair_intf nvme_block_desc (R_nvme 1).
Definition pair_b : interface := pair_intf sanpath_block_desc (R_sandev 2).
Definition pair_ra : refcnt := mkRefcnt 0 free_refcnt.
Definition pair_rb : refcnt := mkRefcnt 3 sandev_free_fn.
Definition pair_world : world :=
  set_w_refs (<[R_nvme 1 := pair_ra]> (<[R_sandev 2 := pair_rb]> ∅))
    (set_w_intfs (<[I_nvme_block 1 := pair_a]> (<[I_sanpath_block 2 0 := pair_b]>
       (w_intfs power_on))) power_on).

Lemma plug_unplug_witness :
  wp (intf_plug_plug (I_nvme_block 1) (I_sanpath_block 2 0))
    (fun _ w1 =>
       w_intfs w1 !! I_nvme_block 1 = Some (set_intf_dest (I_sanpath_block 2 0) pair_a) /\
       w_intfs w1 !! I_sanpath_block 2 0 = Some (set_intf_dest (I_nvme_block 1) pair_b) /\
       w_refs w1 !! R_nvme 1 = Some (set_ref_count (0 + 1) pair_ra) /\
       w_refs w1 !! R_sandev 2 = Some (set_ref_count (3 + 1) pair_rb) /\
       wp (intf_unplug (I_nvme_block 1) ;; intf_unplug (I_sanpath_block 2 0))
         (fun _ w2 => w_intfs w2 = w_intfs pair_world /\ w_refs w2 = w_refs pair_world) w1)
    pair_world.
Proof.
  apply (plug_unplug_roundtrip (I_nvme_block 1) (I_sanpath_block 2 0) (R_nvme 1) (R_sandev 2)
    pair_a pair_b pair_ra pair_rb pair_world).
  constructor; repeat split; try discriminate.
  exists null_intf. split; reflexivity.
Defined.

(** ** ACPI tables *)

(** An RSDT at 0x1000 that lists an SSDT, an FADT with a bad checksum and
    another SSDT. *)
Definition acpi_mem : mem :=
  acpi_fix_checksum 0x4000 (store 0x4000 (cs "SSDT" ++ le_split 4 40 ++ [1])
  (store 0x3000 (cs "FACP" ++ le_split 4 40 ++ [1])
  (acpi_fix_checksum 0x2000 (store 0x2000 (cs "SSDT" ++ le_split 4 36 ++ [2])
  (store 0x1000 (cs "RSDT" ++ le_split 4 48)
  (store 0x1024 (le_split 4 0x2000 ++ le_split 4 0x3000 ++ le_split 4 0x4000)
  (fun _ => 0))))))).

Lemma acpi_find_witness :
  acpi_find_via_rsdt 0x1000 SSDT_SIGNATURE 1 acpi_mem = 0x4000 /\
  acpi_find_via_rsdt 0x1000 FADT_SIGNATURE 0 acpi_mem = 0.
Proof.
  split; (rewrite acpi_find_via_rsdt_correct; [vm_compute; reflexivity|lia]).
Defined.

(** An iBFT at physical address 0x110000, to be installed first. *)
Definition ibft : list Z := cs "iBFT" ++ le_split 4 48 ++ [1] ++ replicate 39 7.
Definition describing : world :=
  set_w_mem (store 0x110000 ibft (fun _ => 0)) power_on.

Lemma describing_ok : xbftab_ok [] describing.
Proof.
  split; [|reflexivity]. apply byte_mem_store; [|intros x; unfold is_byte; lia].
  unfold ibft, is_byte. vm_compute. repeat constructor; intros [=].
Qed.

Lemma describing_table :
  ld32 (virt_to_phys 0x10000 + acpi_length) (w_mem describing) = 48 /\
  xbftab_used (w_bios describing) = 0.
Proof. split; vm_compute; reflexivity. Qed.

Lemma int13_install_witness :
  wp (int13_install 0x10000) (fun rc w' => rc = 0 /\ xbftab_ok [48] w') describing.
Proof.
  destruct describing_table as [El Eu].
  pose proof (int13_install_appends [] 0x10000 describing describing_ok) as Hi.
  cbv zeta in Hi. rewrite El, Eu in Hi.
  eapply wp_mono; [apply Hi; (lia || (vm_compute; reflexivity || discriminate))|].
  intros rc w' (-> & Hok & _). split; [done|exact Hok].
Defined.

(** ** URIs *)

Lemma uri_decode_inplace_witness : uri_decode_inplace (cs "a%20b%00c") = cs "a b".
Proof.
  destruct (uri_decode_inplace_correct (cs "a%20b%00c")) as [E _];
    [repeat constructor; discriminate|]. rewrite E. reflexivity.
Defined.

Lemma uri_encode_decode_witness :
  uri_decode_inplace (cstr_at (uri_encode_string URI_USER (cs "me:or/you@%") (replicate 40 0x55)
    0 40).1 0) = cs "me:or/you@%".
Proof.
  pose proof (uri_encode_decode URI_USER (cs "me:or/you@%") (replicate 40 0x55)) as H.
  destruct (uri_encode_string _ _ _ _ _). apply H; [apply Nat.ltb_lt; reflexivity| |].
  - repeat constructor; vm_compute; discriminate.
  - apply Nat.ltb_lt. reflexivity.
Defined.

(** An e with an acute accent, in Latin-1. *)
Lemma uri_encode_nonascii_witness :
  (uri_encode_string URI_PATH [0xe9] (replicate 16 0) 0 16).2 = 9%nat.
Proof.
  pose proof (uri_encode_nonascii URI_PATH 0xe9 (replicate 16 0)) as H.
  destruct (uri_encode_string _ _ _ _ _). apply H; [lia|apply Nat.ltb_lt; reflexivity].
Defined.

(** http://me%40home:pw@[::1]:8080/a%20b?q=1#top *)
Definition net_uri : uri :=
  mkUri (Some (cs "http")) None (Some (cs "me@home")) (Some (cs "pw")) (Some (cs "[::1]"))
    (Some (cs "8080")) (Some (cs "/a b")) (Some (cs "/a%20b")) (Some (cs "q=1"))
    (Some (cs "top")).

Ltac chars := repeat constructor; (vm_compute; discriminate) || (vm_compute; reflexivity).

Lemma net_uri_wf : uri_wf net_uri.
Proof.
  change net_uri with
    (mkUri (Some (cs "http")) None (Some (cs "me@home")) (Some (cs "pw")) (Some (cs "[::1]"))
      (Some (cs "8080")) (uri_decode_inplace <$> Some (cs "/a%20b")) (Some (cs "/a%20b"))
      (Some (cs "q=1")) (Some (cs "top"))).
  apply wf_net; cbn [from_option].
  - chars.
  - chars.
  - chars.
  - discriminate.
  - chars.
  - chars.
  - vm_compute. discriminate.
  - split; [|reflexivity]. split_and!; [chars| | |discriminate];
      intros H%list_elem_of_In; vm_compute in H; intuition discriminate.
  - split; [chars|]. intros H%list_elem_of_In; vm_compute in H; intuition discriminate.
  - chars.
Qed.

Lemma parse_format_witness :
  let buf := (format_uri (Some net_uri) (replicate 64 0x55)).1 in
  cstr_at buf 0 = cs "http://me%40home:pw@[::1]:8080/a%20b?q=1#top" /\
  parse_fields (cstr_at buf 0) = net_uri.
Proof.
  intros buf. split; [vm_compute; reflexivity|].
  apply (parse_format_roundtrip net_uri (replicate 64 0x55)); [exact net_uri_wf| |].
  - vm_compute. reflexivity.
  - vm_compute. lia.
Defined.

(** ** Formatted printing *)

Lemma format_decimal_witness :
  exists text, format_decimal (-42) 2 ZPAD = Some text /\ text = 0x2d :: cs "2".
Proof. apply (format_decimal_strtoul (-42) 2 ZPAD). lia. Defined.

(** "%s at %#04x: 100%%, %05d" *)
Definition example_pieces : list piece :=
  [Str 1; Text (cs " at "); Hex true true true 4 false 0xf0; Text (cs ": 100"); Percent;
   Text (cs ", "); Dec true 5 (-7)].

Lemma vcprintf_pieces_witness :
  vcprintf (fun _ => cs "disk") (fun _ => []) (cs "%s at %#04x: 100%%, %05d") [1; 0xf0; u32 (-7)]
    = Some (cs "disk at 0x00f0: 100%, -0007") /\
  forall args, vcprintf (fun _ => cs "disk") (fun _ => [])
    (flat_map piece_format example_pieces ++ cs "%") (flat_map piece_args example_pieces ++ args)
    = None.
Proof.
  apply (vcprintf_pieces (fun _ => cs "disk") (fun _ => []) example_pieces).
  repeat constructor; cbn; try lia;
    intros H%list_elem_of_In; vm_compute in H; intuition discriminate.
Defined.

(** ** The PCI bus and startup *)

Lemma example_bios_reports : pci_bios_reports 0.
Proof.
  intros v r h m Hax. exists (put_flag CF false (set_ecx 0 r)).
  split; [cbn [bios_handler example_platform nvme_platform]; unfold example_bios; by rewrite Hax|].
  split; [by apply flag_put_flag|reflexivity].
Qed.

(** From address 1 on, the search reaches the end of bus 0 and finds nothing:
    it does not know yet of the bus behind the bridge. *)
Lemma pci_find_next_witness :
  wp (pci_find_next 300 0x5000 1)
    (fun '(rc, b') w' => exists s, w' = set_w_dev s power_on /\
       ((rc = - ENODEV /\ forall x, 1 <= x < 256 -> present (w_hw power_on) x = false) \/
        (rc = 0 /\ 1 <= b' < 256 /\ present (w_hw power_on) b' = true /\
         (forall x, 1 <= x < b' -> present (w_hw power_on) x = false) /\ range_ok s /\
         (exists io mb, pci_devs s !! 0x5000 = Some (device_at (w_hw power_on) b' io mb)) /\
         search_end 0 s = if is_bridge (w_hw power_on) b'
                          then Z.max 256 (bridge_end (w_hw power_on) b') else 256))) power_on.
Proof.
  apply (pci_find_next_correct 0 ltac:(lia) example_bios_reports 300 0x5000 1 power_on);
    [constructor; cbn; lia|lia|apply Nat.ltb_lt; vm_compute; reflexivity].
Defined.

Lemma restart_witness :
  (shutdown (startup_fns (blank_ctrl 0)) 0 ;; startup (startup_fns (blank_ctrl 0))) booted
  = Undef.
Proof.
  apply (restart_corrupts_devices [pci_root_device 600] (startup_fns (blank_ctrl 0)) 0 booted).
  - exact boot_startup.
  - exact boot_started.
  - exact boot_keep.
  - exact boot_roots.
  - discriminate.
Defined.

(** ** The drive as a disk *)

Definition boot_disk_spec : disk :=
  mkDisk 0x80 (cylinders (priv boot_dd)) (heads (priv boot_dd)) (sectors_per_track (priv boot_dd))
    20000 (io_data (w_hw booted)).
Definition boot_user : user := mkUser (w_mem booted) (last_status (priv boot_dd)).

Lemma boot_rings_high : rings_high boot_buffer boot_qs.
Proof.
  destruct boot_rings as [E1 E2]. constructor; rewrite ?E2, ?E1; vm_compute; discriminate.
Qed.

Lemma boot_geometry : geometry_ok (priv boot_dd).
Proof. constructor; vm_compute; split; (reflexivity || discriminate). Qed.

Lemma boot_implements :
  implements boot_sandev 0 boot_nvme 1 1 (ctrl_ns boot_ctrl) boot_ns boot_buffer boot_disk_spec
    boot_user booted.
Proof.
  split; [vm_compute; reflexivity|]. split; [vm_compute; split; reflexivity|].
  exists boot_ctrl, boot_qs, boot_dd. constructor.
  - exact boot_drive_ready.
  - exact boot_rings_high.
  - exact boot_drive_80.
  - vm_compute. reflexivity.
  - exact boot_geometry.
  - exact eq_refl.
  - exact eq_refl.
  - exact eq_refl.
  - vm_compute. reflexivity.
  - vm_compute. reflexivity.
  - exact eq_refl.
  - split; vm_compute; reflexivity.
  - exists []. exact boot_devices.
  - intros l Hl. split; [reflexivity|]. cbn [io_status example_controller]. unfold ctl_status.
    rewrite boot_blocks. change (dk_blocks boot_disk_spec) with 20000 in Hl.
    by replace (20000 <? _) with false by lia.
  - intros x _. exact eq_refl.
Qed.

(** A program that reads block 7 through a packet that it builds, tries a
    function that does not exist and asks for the last status. *)
Definition example_client : client (list Z * list (Z * bool)) :=
  Store 0x700 (dap 1 0x0900 0x0000 7)
    (Call (mkRegs 0x4200 0 0 0x80 0x700 0 0 0 0) (fun a1 =>
     Load 0x9000 4 (fun bs =>
     Call (mkRegs 0x9900 0 0 0x80 0 0 0 0 0) (fun a2 =>
     Call (mkRegs 0x0100 0 0 0x80 0 0 0 0 0) (fun a3 =>
     Finish (bs, [a1; a2; a3])))))).

Definition example_result : list Z * list (Z * bool) :=
  (take 4 (io_data (w_hw booted) 7), [(0, false); (1, true); (1, true)]).

Lemma example_runs :
  exists u', run_spec boot_disk_spec example_client boot_user = Some (example_result, u').
Proof.
  assert (E : fst <$> run_spec boot_disk_spec example_client boot_user = Some example_result)
    by (vm_compute; reflexivity).
  destruct (run_spec _ _ _) as [[a u']|]; [|done]. injection E as ->. by exists u'.
Qed.

Lemma client_refines_witness :
  exists u', wp (@run_client _ (methods 300 8) _ example_client)
    (fun a w' => a = example_result /\
       implements boot_sandev 0 boot_nvme 1 1 (ctrl_ns boot_ctrl) boot_ns boot_buffer
         boot_disk_spec u' w') booted.
Proof.
  destruct example_runs as (u' & E). exists u'.
  apply (client_refines 300 boot_sandev 0 boot_nvme 1 1 (ctrl_ns boot_ctrl) boot_ns boot_buffer
    ltac:(pose proof boot_latency; lia) ltac:(lia) boot_disk_spec example_client 5 boot_user
    example_result u' booted);
    [exact boot_implements|exact E].
Defined.

(** ** A heap at work *)

(** After its initialisation, and after an allocation of 100 bytes, one of a
    page on a page boundary, and the release of the first block. *)
Definition heap_after {A} (m : prog heap A) (h : heap) : heap :=
  match m h with Ret _ h' => h' | _ => h end.
Definition heap_0 : heap := heap_after (init_heap 0x10000) (mkHeap [] 0 0 0).
Definition heap_1 : heap := heap_after (alloc_memblock 1 100 (2 ^ 0) 0) heap_0.
Definition heap_2 : heap := heap_after (alloc_memblock 1 4096 (2 ^ 12) 0) heap_1.
Definition heap_3 : heap := heap_after (free_memblock 0x10000 100) heap_2.

Lemma heap_3_reached : rtc heap_step (heap_0, []) (heap_3, [(0x11000, 4096)]).
Proof.
  eapply rtc_l; [apply (step_alloc 0 0 100 0 0x10000 heap_0 heap_1 []); [lia|lia|reflexivity|vm_compute; reflexivity]|].
  eapply rtc_l; [apply (step_alloc 0 12 4096 0 0x11000 heap_1 heap_2); [lia|lia|reflexivity|vm_compute; reflexivity]|].
  eapply rtc_l; [apply (step_free 0x10000 100 heap_2 heap_3 [(0x11000, 4096)] []); vm_compute; reflexivity|].
  apply rtc_refl.
Qed.

