(* ===== verification/WitnessLib.v ===== *)
(** * WitnessLib

    The theorems about the string, checksum, time and memory map routines and
    about the type of INT 13, each applied at a concrete input. *)

From S2P Require Import Prelude.
From S2P Require Import Memory.
From S2P Require Import Cmem.
From S2P Require Import CmemSpec.
From S2P Require Import Chksum.
From S2P Require Import ChksumSpec.
From S2P Require Import Utf8.
From S2P Require Import World.
From S2P Require Import Biosint.
From S2P Require Import E820.
From S2P Require Import E820Spec.
From S2P Require Import Memmap.
From S2P Require Import MemmapSpec.
From S2P Require Import Umalloc.
From S2P Require Import UmallocSpec.
From S2P Require Import Timer.
From S2P Require Import TimerSpec.
From S2P Require Import Object.
From S2P Require Import Int13.
From S2P Require Import Int13Type.
From S2P Require Import Controller.
From S2P Require Import System.
From S2P Require Import Boot.

(** ** Library routines *)

(** Eight bytes moved up by one place, from memory that holds addresses. *)
Lemma memory_routines_correct_witness :
  memmove true false 0x101 0x100 8 (fun a => a mod 256) ≡m
    copy 0x101 0x100 8 (fun a => a mod 256) /\
  generic_memmove 0x101 0x100 8 (fun a => a mod 256) 0x108 = 7.
Proof.
  destruct (memory_routines_correct true false 0x101 0x100 0 8 (fun a => a mod 256) ltac:(lia))
    as (H1 & H2 & _).
  split; [exact H1|]. change 8%nat with (Z.to_nat 8). rewrite H2. reflexivity.
Defined.

(** The checksum of five bytes, in full and over the first two and the rest. *)
Lemma tcpip_chksum_correct_witness :
  let data := [0x45; 0x00; 0xff; 0xfe; 0x12] in
  tcpip_continue_chksum 0xffff 3 data = generic_tcpip_continue_chksum 0xffff data /\
  tcpip_continue_chksum (tcpip_continue_chksum 0xffff 3 [0x45; 0x00]) 5 [0xff; 0xfe; 0x12]
  = tcpip_continue_chksum 0xffff 3 data.
Proof.
  cbv zeta.
  destruct (tcpip_chksum_correct 0xffff 3 [0x45; 0x00; 0xff; 0xfe; 0x12]
    ltac:(repeat constructor; lia) ltac:(lia)) as (H1 & _).
  destruct (tcpip_chksum_correct 0xffff 3 [0x45; 0x00] ltac:(repeat constructor; lia) ltac:(lia))
    as (_ & H2 & _).
  split; [exact H1|]. apply H2; [repeat constructor; lia|reflexivity].
Defined.

(** An incomplete sequence, then an euro sign. *)
Lemma utf8_decode_correct_witness :
  (utf8_decode (utf8_decode (mkUtf8 0 0 0) [0xe2; 0x41]).2 [0xe2; 0x82; 0xac]).1 = [0x20ac].
Proof.
  destruct (utf8_decode_correct (mkUtf8 0 0 0) [0xe2; 0x41] ltac:(reflexivity)
    ltac:(repeat constructor; lia)) as (H1 & _).
  apply (H1 [0x20ac]). repeat constructor; lia.
Defined.

(** ** Timers *)

(** Counters that advance by one each time they are read, and interrupts that
    advance the BIOS time to two ticks past midnight. *)
#[local] Instance example_ports : Ports := {|
  io := Z;
  port_in _ _ t := (t + 1, t + 1);
  port_out _ _ _ t := t;
  tsc t := (t + 1, t + 1);
  irq t m := (t, store (real_to_user BDA_SEG BDA_TICKS) [2; 0; 0; 0; 1] m);
  cpuid_flag := true;
  cpuid _ := (0, 0) |}.

Definition example_time : @io example_ports -> Z := fun t => t.

(** Three ticks before midnight. *)
Definition before_midnight : timer_state :=
  mkTimerState (0 : io) (store (real_to_user BDA_SEG BDA_TICKS) (le_split 4 (BIOS_TICKS_PER_DAY - 3) ++ [0])
    (fun _ => 0)) 0 0 0 0 0x408 2 0 0.

Lemma bios_currticks_continuous_witness :
  wp bios_currticks (fun ticks s' =>
    ticks = u32 (u32 (bios_time before_midnight + 5) * TICKS_PER_BIOS_TICK) /\
    bda_midnight (t_mem s') = 0) before_midnight.
Proof.
  eapply wp_mono; [apply (bios_currticks_continuous 5 before_midnight)|].
  - vm_compute. reflexivity.
  - vm_compute. split; [split; [discriminate|reflexivity]|right; split; [reflexivity|discriminate]].
  - cbv beta. intros ticks s' (-> & -> & Hm). split; [reflexivity|exact Hm].
Defined.

Lemma example_counter bits read : 0 <= bits <= 32 ->
  (forall s, read s = Ret (u32 (example_time (t_io s) + 1)) (set_t_io (example_time (t_io s) + 1) s)) ->
  counter bits 1 read example_time.
Proof.
  intros Hb Hr s. unfold wp. rewrite Hr. set (t := example_time (t_io s)).
  change (example_time (t_io (set_t_io (t + 1 : @io example_ports) s))) with (t + 1).
  split; [|split; [lia|done]].
  assert (E : 2 ^ 32 = 2 ^ bits * 2 ^ (32 - bits)).
  { rewrite <- Z.pow_add_r by lia. f_equal. lia. }
  unfold u32. change 4294967296 with (2 ^ 32). rewrite E, Z.rem_mul_r by lia.
  rewrite (Z.mul_comm (2 ^ bits)), Z.mod_add, Z.mod_mod by lia. done.
Qed.

Lemma mdelay_waits_witness :
  wp (mdelay (Some (acpi_timer 5000)) 7)
    (fun _ s' => 0 + 7 * 3579 <= example_time (t_io s')) before_midnight /\
  wp (mdelay (Some (rdtsc_timer 5000)) 7)
    (fun _ s' => 0 + 7 * (1000 * 2) <= example_time (t_io s')) before_midnight.
Proof.
  destruct (mdelay_waits 5000 1 7 example_time before_midnight ltac:(lia)) as [H1 H2].
  change (tsc_per_us before_midnight) with 2 in H2.
  split; [apply H1|apply H2]; try lia; apply example_counter; lia || reflexivity.
Defined.

(** ** The memory map *)

(** A BIOS with base memory, a reserved hole and 31MB of extended memory, whose
    entries have no extended attributes. *)
Definition example_entry (start len type : Z) : list Z :=
  le_split 8 start ++ le_split 8 len ++ le_split 4 type.
Definition example_e820 : list (list Z) :=
  [example_entry 0 0x9fc00 1; example_entry 0xf0000 0x10000 2; example_entry 0x100000 0x1f00000 1].
Definition example_cont (i : nat) : Z := if (i <? 3)%nat then Z.of_nat i else 0.
Definition example_int15 (ebx size : Z) : e820_out :=
  match example_e820 !! Z.to_nat ebx with
  | Some e => mkOut false SMAP (example_cont (S (Z.to_nat ebx))) (Z.min size 20)
                (take (Z.to_nat (Z.min size 20)) e)
  | None => mkOut true 0 0 0 []
  end.

Lemma example_entry_ok start len type :
  length (example_entry start len type) = 20%nat /\ Forall is_byte (example_entry start len type).
Proof. split; [done|]. unfold example_entry. rewrite !Forall_app. auto using le_split_bytes. Qed.

Lemma example_int15_ok : e820_bios example_int15 example_e820 20 example_cont.
Proof.
  split; try done; try lia.
  - intros i Hi. change (length example_e820) with 3%nat in Hi. unfold example_cont.
    destruct (Nat.ltb_spec i 3); lia.
  - intros i e He.
    assert (G : Forall (fun e => length e = 20%nat /\ Forall is_byte e) example_e820).
    { repeat (constructor; [apply example_entry_ok|]). constructor. }
    rewrite Forall_lookup in G. eauto.
  - intros i e size He Hs. pose proof (lookup_lt_Some _ _ _ He) as Hi.
    change (length example_e820) with 3%nat in Hi. unfold example_int15.
    replace (Z.to_nat (example_cont i)) with i; [by rewrite He|].
    unfold example_cont. destruct (Nat.ltb_spec i 3); lia.
Qed.

Lemma example_e820_ends : Forall (fun e => e820_start e + e820_len e < 2 ^ 64) example_e820.
Proof. repeat constructor; vm_compute; reflexivity. Qed.

(** iPXE at the top of the extended memory, and the last 3kB of base memory. *)
Definition example_hidden : hidden :=
  mkHidden (0x9f000, 0xa0000) (0x1f00000, 0x1f00000) (0x1f00000, 0x2000000).

Lemma example_hidden_ok : hidden_ok example_hidden.
Proof. vm_compute. repeat split; discriminate || reflexivity. Qed.

Definition empty_cache : e820_cache := mkCache 0xffff 0 [] 0.

(** Base memory is in the map that is read; the memory of iPXE is not. *)
Lemma e820_hides_witness :
  wp (e820_read example_int15 20 (windows example_hidden) 0x100 20 20 20 0) (fun map _ =>
    (exists e, In e map /\ covers e 0x1000 /\ drop 16 e = [1; 0; 0; 0]) /\
    ~ (exists e, In e map /\ covers e 0x1f80000)) empty_cache.
Proof.
  eapply wp_mono; [apply (e820_hides example_int15 example_e820 20 example_cont 20 example_hidden
    0x100 empty_cache 20 20 20 example_int15_ok ltac:(lia) example_e820_ends example_hidden_ok
    ltac:(lia) ltac:(reflexivity)); cbn; lia|].
  cbv beta. intros map _ Hmap. split.
  - apply (Hmap 0x1000 [1; 0; 0; 0]); [lia|]. split.
    + exists (example_entry 0 0x9fc00 1). split; [by left|]. by vm_compute.
    + unfold is_hidden. cbn. lia.
  - intros (e & He & Hc).
    destruct (proj1 (Hmap 0x1f80000 (drop 16 e) ltac:(lia))) as [_ Hn]; [by exists e|].
    apply Hn. right. right. cbn. lia.
Defined.

Lemma memmap_excludes_hidden_witness :
  wp (meme820 (get_mangled_e820 example_int15 (windows example_hidden) 0x100 20 20) 20 false
        empty_map)
    (fun r _ => (count r.2 <= MAX_MEMORY_REGIONS)%nat /\
       forall i, (i < count r.2)%nat -> ~ (region i r.2).1 <= 0x1f80000 < (region i r.2).2)
    empty_cache.
Proof.
  eapply wp_mono; [apply (memmap_excludes_hidden example_int15 example_e820 20 example_cont
    example_int15_ok example_e820_ends example_hidden example_hidden_ok 0x100 ltac:(lia) 20 20 20
    empty_cache ltac:(reflexivity)); cbn; lia|].
  cbv beta. intros r _ [Hn Hr]. split; [exact Hn|]. intros i Hi Ha.
  apply (Hr i 0x1f80000 Hi Ha). right. right. cbn. lia.
Defined.

(** 640kB of base memory less 4kB, and iPXE at 31MB. *)
Lemma hide_etherboot_correct_witness : 
  wp (hide_etherboot 0x1f00000 0x1f80000 0x1000 0x2000 0x40 initial_hidden (0xf000, 0xf859))
    (fun r _ => hidden_ok r.1 /\ is_hidden r.1 0x1f12345 /\ is_hidden r.1 0x9f400)
    (set_w_mem (store (real_to_user BDA_SEG BDA_FBMS) (le_split 2 636) (fun _ => 0)) power_on).
Proof.
  set (w := set_w_mem _ power_on).
  assert (Hf : le_combine (load 2 (real_to_user BDA_SEG BDA_FBMS) (w_mem w)) = 636) by reflexivity.
  eapply wp_mono; [apply (hide_etherboot_correct 0x1f00000 0x1f80000 0x1000 0x2000 0x40
    (0xf000, 0xf859) w ltac:(lia) ltac:(lia)); rewrite Hf; lia|].
  rewrite Hf. cbv beta. intros r _ (Hok & Hin & _). split; [exact Hok|]. split; apply Hin; lia.
Defined.

(** iPXE at 2MB moves to the end of the extended memory. *)
Lemma relocate_correct_witness :
  let m := mkMap ((0, 0x9fc00) :: (0x100000, 0x2000000) :: replicate 6 (0, 0)) 2 in
  exists edi, relocate m 0x200000 0x280000 0xffffffff = (0x200000, edi, 0x80000) /\
    edi mod 4096 = 0 /\ 0x2000000 - 4096 < edi + 0x80000 <= 0x2000000.
Proof.
  cbv zeta. set (m := mkMap _ _).
  destruct (relocate_correct m 0x200000 0x280000 0xffffffff ltac:(lia) ltac:(done) ltac:(lia))
    as (edi & E & Ha & Hs & Hw & Hmax).
  { repeat constructor; vm_compute; done. }
  exists edi. split; [exact E|]. split; [rewrite Ha; reflexivity|].
  assert (Hv : 0x2000000 < edi + 2 * 0x80000 + 4096).
  { apply (Hmax (0x100000, 0x2000000)); [right; by left|]. vm_compute. done. }
  destruct Hw as [->|(r & Hin & _ & Hr & _)]; [lia|].
  unfold usable_end, MAX_ADDR in Hr.
  destruct Hin as [<-|[<-|[]]]; cbn [fst snd] in Hr; lia.
Defined.

(** ** The external heap *)

(** An allocation of 100 bytes from a heap that is still empty. *)
Lemma umalloc_correct_witness :
  let memmap := mkMap ((0x100000, 0x2000000) :: replicate 7 (0, 0)) 1 in
  wp (memtop_urealloc 9 memmap UNULL 100) (fun p s' => exists size,
    p mod EM_ALIGN = 0 /\ 100 <= size < 100 + 4096 /\
    heap_ok 0x100000 s' [(p, size, true)])
  (mkEheap (fun _ => 0) 0 0 0 initial_hidden).
Proof.
  cbv zeta. set (memmap := mkMap _ _). set (s := mkEheap _ _ _ _ _).
  assert (Hok : heap_ok 0x100000 (ready memmap s) [])
    by (vm_compute; repeat split; discriminate || reflexivity).
  destruct (umalloc_correct 9 0x100000 memmap s [] Hok ltac:(cbn; lia)) as [Hu _].
  eapply wp_mono; [apply (Hu 100); [lia|]|].
  - change (heap_size (ready memmap s)) with 0x1f00000. unfold sizeof_extmem. lia.
  - cbv beta. intros p s' (size & H1 & H2 & _ & H3 & _). eauto.
Defined.

(** ** Registers *)

(** INT 13,08, at power-on of the example machine. *)
Definition regs_08 : i386_all_regs := mkRegs 0xdead0800 0 0 0x80 0x12345678 0 0x40 0 0x202.

Lemma int13_preserves_types_witness :
  match int13_wrapper (H0 := methods 200 8) regs_08 power_on with
  | Ret r' _ => regs_typed r'
  | _ => True
  end.
Proof.
  destruct (int13_preserves_types (H0 := methods 200 8) ltac:(by vm_compute) regs_08) as (_ & Hw & _).
  { vm_compute. repeat split; discriminate || reflexivity. }
  apply Hw. clear. intros v r h m Hr. cbn [bios_handler example_platform nvme_platform fst].
  unfold example_bios. destruct (ax r =? 0xb101); [|done].
  assert (Hc : regs_typed (set_ecx 0 r))
    by (unfold regs_typed in *; cbn in *; assert (is_u32 0) by done; tauto).
  by apply (put_flag_calls (set_ecx 0 r)).
Defined.
