(* ===== verification/WitnessZbin.v ===== *)
(** * WitnessZbin

    An encoder that makes a stream of literals out of any data, which shows that
    the format leaves no data out, and the theorems about the images at concrete
    inputs. *)

From stdpp Require Import strings.
From S2P Require Import Prelude.
From S2P Require Import Memory.
From S2P Require Import World.
From S2P Require Import Unlzma.
From S2P Require Import RangeCoder.
From S2P Require Import UnlzmaSpec.
From S2P Require Import Zbin.
From S2P Require Import Bcj.
From S2P Require Import ZbinSpec.

Definition literal_encode (data : list Z) (space : Z) : option (list Z) :=
  let '(low, _, k) := interval (fun _ => 1024) (2 ^ 32 - 1) (coded start (map Literal data)) in
  let packed := 0 :: rev (le_split (4 + k) low) in
  if Z.of_nat (length packed) <=? space then Some packed else None.

Lemma literals_valid data : Forall is_byte data -> forall h, all_valid h (map Literal data).
Proof. induction 1; intros h; cbn; auto. Qed.

Lemma expand_literals data : forall h, h_data (fold_left step (map Literal data) h) = h_data h ++ data.
Proof.
  induction data as [|b data IH]; intros h; cbn [map fold_left]; [by rewrite app_nil_r|].
  rewrite IH. cbn [step h_data]. by rewrite <- app_assoc.
Qed.

Lemma literal_encoder_ok : encoder_ok literal_encode.
Proof.
  intros data space packed Hb Hlen. unfold literal_encode.
  assert (Hok : Forall decision_ok (coded start (map Literal data))).
  { apply coded_ok; try done; [by apply literals_valid|]. rewrite expand_literals. exact Hlen. }
  assert (Hp : probs_ok (fun _ => 1024)) by (intros x _; unfold prob_ok; lia).
  pose proof (interval_ok _ Hok _ (2 ^ 32 - 1) Hp ltac:(unfold range_ok; lia)) as Hi.
  destruct (interval _ _ _) as [[low width] k] eqn:Ei. destruct Hi as (Hl & Hw & Hle).
  destruct (Z.leb_spec (Z.of_nat (length (0 :: rev (le_split (4 + k) low)))) space) as [Hsp|]; [|done].
  intros E. apply Some_inj in E. subst packed. split; [|exact Hsp].
  exists (map Literal data), 0, (rev (le_split (4 + k) low)). split; [done|]. split.
  { apply Forall_cons_2; [done|]. apply Forall_rev, le_split_bytes. }
  split; [by apply literals_valid|]. split; [unfold expand; apply expand_literals|]. rewrite Ei.
  rewrite length_rev, length_le_split. split; [done|]. unfold be_combine. rewrite rev_involutive, le_combine_split.
  rewrite Z.mod_small; [lia|]. split; [done|].
  replace (8 * Z.of_nat (4 + k)) with (32 + 8 * Z.of_nat k) by lia. rewrite Z.pow_add_r, (Z.pow_mul_r 2 8) by lia.
  change (2 ^ 8) with 256. assert (0 < 256 ^ Z.of_nat k) by lia. nia.
Qed.

(** A program of seven bytes with a jump. *)
Definition program : list Z := [0x90; 0xe8; 0x01; 0x00; 0x00; 0x00; 0xf4].

Definition program_files : files :=
  mkFiles (mkInput (store 0 program (fun _ => 0)) 7) (mkOutput (fun _ => 0xff) 3 0 64).

(** PACK, at offset 0, 7 bytes, aligned to 16 bytes. *)
Definition program_zinfo : zinfo_record :=
  cs "PACK" ++ le_split 4 0 ++ le_split 4 7 ++ le_split 4 16.

(** The encoder takes 17 bytes for the filtered program. *)
Lemma pack_unpack_witness :
  encoder_ok literal_encode /\
  option_map (@length Z) (literal_encode (filtered program) 44) = Some 17%nat /\
  wp (process_zinfo_pack literal_encode program_zinfo) (fun rc s' =>
    rc = 0 /\ o_len (output s') = 41 /\
    forall m, byte_mem m -> load 25 0x1000 m = load 25 16 (o_buf (output s')) ->
      wp (decompress 8 0x1000 0x100000) (fun '(esi', edi', cf) m' =>
        cf = false /\ esi' = 0x1019 /\ edi' = 0x100007 /\ load 7 0x100000 m' = program) m) program_files.
Proof.
  split; [exact literal_encoder_ok|]. split; [vm_compute; reflexivity|].
  eapply wp_mono.
  - apply (pack_unpack literal_encode program_zinfo program_files literal_encoder_ok).
    + repeat constructor; by vm_compute.
    + apply byte_mem_store; [|intros x; done]. repeat constructor; by vm_compute.
    + by vm_compute.
    + by vm_compute.
    + by vm_compute.
    + by vm_compute.
  - cbv zeta. change (align _ _) with 16. change (zinfo_len program_zinfo) with 7.
    change (load _ (zinfo_offset program_zinfo) _) with program.
    change (max_len (output program_files) - 16 - 4) with 44. intros rc s' H.
    assert (E : exists packed, literal_encode (filtered program) 44 = Some packed /\ length packed = 17%nat)
      by (eexists; split; [vm_compute; reflexivity|reflexivity]).
    destruct E as (packed & E & Hlen). rewrite E in H. rewrite Hlen in H. cbn iota in H.
    change (max_len (output program_files) <? 16 + 8 + Z.of_nat 17) with false in H. cbn iota in H.
    destruct H as (-> & Hsize & _ & H). split; [done|]. split; [lia|]. intros m Hm Hload.
    replace (o_len (output s') - 16) with 25 in H by lia.
    eapply wp_mono; [apply (H 8%nat 0x1000 0x100000 m Hm Hload); lia|].
    intros [[esi' edi'] cf] m' (H1 & H2 & H3 & H4 & _). split; [exact H1|]. split; [lia|]. split; [lia|exact H4].
Defined.

(** A byte of 0x10 that is increased by 41 bytes in units of four: 11. *)
Lemma process_zinfo_add_correct_witness :
  let s := mkFiles (mkInput (fun _ => 0) 0) (mkOutput (fun _ => 0x10) 41 0 64) in
  wp (process_zinfo_add 41 (cs "ADDB" ++ le_split 4 2 ++ le_split 4 4 ++ le_split 4 0) 0 1)
    (fun rc s' => rc = 0 /\ ld8 2 (o_buf (output s')) = 27) s.
Proof.
  intros s. eapply wp_mono.
  - apply (process_zinfo_add_correct 41 (cs "ADDB" ++ le_split 4 2 ++ le_split 4 4 ++ le_split 4 0) 0 1 2 s);
      try lia; try (by vm_compute). repeat constructor; by vm_compute.
  - intros rc s' H. cbv beta zeta in H. match type of H with if ?b then _ else _ => change b with true in H end.
    cbn iota in H. destruct H as (-> & m' & -> & Hv & _). split; [done|].
    change (ld8 2 m' = 27). change (le_combine [m' 2] = 27) in Hv. cbn [le_combine] in Hv. unfold ld8. lia.
Defined.

Lemma process_zinfo_safe_witness : wp (process_zinfo literal_encode program_zinfo) processed program_files.
Proof.
  apply (process_zinfo_safe literal_encode).
  - intros data space packed. unfold literal_encode. destruct (interval _ _ _) as [[low width] k].
    destruct (Z.leb_spec (Z.of_nat (length (0 :: rev (le_split (4 + k) low)))) space) as [Hle|]; [|done].
    intros E. apply Some_inj in E. by subst packed.
  - unfold files_ok. split; [apply byte_mem_store; [repeat constructor; by vm_compute|done]|]. cbn. lia.
  - repeat constructor; by vm_compute.
  - by vm_compute.
  - by vm_compute.
Defined.

(** An image that liblzma made, with matches of all kinds and two jumps. *)
Definition liblzma_image : list Z :=
  [0x38; 0x0; 0x0; 0x0; 0x0; 0x34; 0x94; 0xa8; 0x5f; 0xbb; 0xd1; 0xb; 0x64; 0x50; 0x9d; 0xb2; 0xa5;
   0xf2; 0x4c; 0x52; 0xad; 0x2a; 0xb1; 0x6; 0x6b; 0x72; 0x9e; 0x2e; 0x67; 0x2e; 0x79; 0x1f; 0xe4; 0xb3;
   0xe1; 0x98; 0xaa; 0x95; 0xe; 0x41; 0xa0; 0x13; 0xd9; 0xfd; 0x19; 0x3f; 0xcd; 0xb3; 0x9c; 0xbe; 0xf6;
   0xbf; 0xfe; 0xee; 0x68; 0x0; 0xe0; 0xc5; 0x7a; 0x6f].

Definition liblzma_data : list Z :=
  [0x69; 0x50; 0x58; 0x45; 0x20; 0x4e; 0x56; 0x4d; 0x65; 0x20; 0x49; 0x4e; 0x54; 0x31; 0x33; 0x68;
   0x20; 0x62; 0x6f; 0x6f; 0x74; 0x20; 0x62; 0x6f; 0x6f; 0x74; 0x20; 0x62; 0x6f; 0x6f; 0x74; 0x0; 0xe8;
   0x10; 0x0; 0x0; 0x0; 0x41; 0x42; 0x43; 0x41; 0x42; 0x43; 0x41; 0x42; 0x43; 0x41; 0x42; 0x43; 0x58;
   0x42; 0x43; 0x41; 0x42; 0x43; 0xe9; 0xf0; 0xff; 0xff; 0xff; 0x69; 0x50; 0x58; 0x45; 0x20; 0x4e;
   0x56; 0x4d; 0x65].

Example decompress_liblzma :
  match decompress 80 0x1000 0x2000 (store 0x1000 liblzma_image (fun _ => 0)) with
  | Ret (esi, edi, cf) m =>
      (esi =? 0x103c) && (edi =? 0x2045) && negb cf && bool_decide (load 69 0x2000 m = liblzma_data)
  | _ => false
  end = true.
Proof. vm_compute. reflexivity. Qed.
