(* ===== verification/WitnessRom.v ===== *)
(** * WitnessRom

    The theorems about the option ROM and the installation, at concrete
    inputs. *)

From stdpp Require Import strings.
From S2P Require Import Prelude.
From S2P Require Import Memory.
From S2P Require Import World.
From S2P Require Import Unlzma.
From S2P Require Import UnlzmaSpec.
From S2P Require Import Zbin.
From S2P Require Import ZbinSpec.
From S2P Require Import Libprefix.
From S2P Require Import LibprefixSpec.
From S2P Require Import Romprefix.
From S2P Require Import RomprefixSpec.
From S2P Require Import WitnessZbin.

(** 640kB of base memory, of which 32kB and 16kB are taken and given back. *)
Lemma basemem_roundtrip_witness :
  wp (alloc_basemem 0x800 0x400) (fun '(cs, ds) m' => cs = 0x9400 /\ ds = 0x9c00 /\ ld16 FBMS m' <= 592 /\
    wp (free_basemem 0x800 0x400 cs 0 0) (fun _ m3 => ld16 FBMS m3 = 640) m') (store FBMS [0x80; 0x02] (fun _ => 0)).
Proof.
  assert (Hm : byte_mem (store FBMS [0x80; 0x02] (fun _ => 0)))
    by (apply byte_mem_store; [repeat constructor; by vm_compute|done]).
  pose proof (basemem_roundtrip 0x800 0x400 ltac:(lia) ltac:(lia) _ 0 0 Hm
    ltac:(by vm_compute) ltac:(by vm_compute)) as H.
  change (ld16 FBMS (store FBMS [0x80; 0x02] (fun _ => 0))) with 640 in H.
  eapply wp_mono; [exact H|]. intros [cs ds] m' (H1 & H2 & H3 & _ & H5).
  split; [lia|]. split; [lia|]. split; [lia|].
  eapply wp_mono; [apply (H5 m' eq_refl)|]. intros ax m3 (_ & E & _). exact E.
Defined.

(** A ROM of 512 bytes that is initialised in low memory. *)
Definition small_rom : rom :=
  mkRom 6 0x30 0x40 0x44 0x4a 0x60 0x64 0x80 0x84 0x88 0x8c 0x90 0x94 0x98 0x9c 0xa0 0xa4 0xa8 0xac 0xb0 0x2000.

Definition small_rom_memory : mem :=
  store 0x10002 [1] (store 0x10030 [1; 0] (fun x => x mod 256)).

Lemma small_rom_bytes : byte_mem small_rom_memory.
Proof.
  apply byte_mem_store; [repeat constructor; by vm_compute|].
  apply byte_mem_store; [repeat constructor; by vm_compute|]. intros x. unfold is_byte. dlia.
Qed.


Lemma rom_64k_not_copied_witness :
  let m := store 0x10002 [128] (fun _ => 0) in
  wp (copy_to_runtime small_rom 0x1000 0xc800) (fun _ s' => p_mem s' = m) (mkPrefix m []).
Proof. intros m. apply (rom_64k_not_copied small_rom 0x1000 0xc800 (mkPrefix m [])). by vm_compute. Defined.

(** ** Installation *)

(** Four sections with the same contents, which the ROM has in a block that it
    took from PMM. *)
Definition program_packed : list Z := default [] (literal_encode (filtered program) 44).

Definition small_layout : layout := mkLayout 0x200 7 16 7 16 7 32 7 32 1.

Definition install_memory : mem :=
  store 0xc0200 (image program_packed) (store 0x200220 (image program_packed)
    (store 0x200240 (image program_packed) (store 0x200260 (image program_packed) (fun _ => 0)))).

Definition small_plans : list plan :=
  [ mkPlan 0xc0200 program program_packed 0x90000 16; mkPlan 0x200220 program program_packed 0x90010 16;
    mkPlan 0x200240 program program_packed 0x91000 7; mkPlan 0x200260 program program_packed 0x300000 32 ].

Lemma program_block a : load 25 a install_memory = image program_packed ->
  block install_memory a program program_packed.
Proof.
  assert (E : literal_encode (filtered program) 44 = Some program_packed) by (vm_compute; reflexivity).
  intros H. constructor.
  - refine (proj1 (literal_encoder_ok _ _ _ _ _ E)); [repeat constructor; by vm_compute|by vm_compute].
  - change (length program) with 7%nat. lia.
  - repeat constructor; by vm_compute.
  - change (length (image program_packed)) with 25%nat. exact H.
Qed.

Lemma install_memory_bytes : byte_mem install_memory.
Proof.
  assert (Hb : Forall is_byte (image program_packed)).
  { unfold image. apply Forall_app. split; [apply le_split_bytes|].
    apply Forall_app. split; [|apply le_split_bytes].
    destruct (bk_stream _ _ _ _ (program_block 0xc0200 ltac:(vm_compute; reflexivity))) as (? & ? & ? & _ & H & _).
    exact H. }
  repeat (apply byte_mem_store; [exact Hb|]). done.
Qed.

Lemma small_plans_ok : Forall (plan_ok 8 install_memory) small_plans.
Proof.
  repeat apply Forall_cons_2; [..|constructor];
    (split; [apply program_block; vm_compute; reflexivity|]);
    unfold data_size, src_size, image_size; cbn [pl_src pl_data pl_packed pl_dst pl_size];
    change (length (image program_packed)) with 25%nat; change (length program) with 7%nat; lia.
Qed.

Lemma small_plans_apart : plans_apart small_plans.
Proof.
  assert (Hsize : forall p, In p small_plans -> src_size p = 25).
  { apply List.Forall_forall. repeat constructor; by vm_compute. }
  split.
  - unfold small_plans. repeat constructor; unfold dst_apart, disjoint; cbn; lia.
  - intros p q Hp Hq. unfold src_apart, disjoint. rewrite (Hsize p Hp). clear Hsize.
    cbn in Hp, Hq. destruct Hp as [<-|[<-|[<-|[<-|[]]]]], Hq as [<-|[<-|[<-|[<-|[]]]]]; cbn; lia.
Qed.

Lemma install_sections_correct_witness :
  wp (install_sections small_layout 0 (ret false) (ret 0) 8 0xc000 0x9000 0x9100 0x200000 0x300000) (fun edi' s' =>
    edi' = 0x300000 /\ load 16 0x90000 (p_mem s') = program ++ replicate 9 0 /\
    load 16 0x90010 (p_mem s') = program ++ replicate 9 0 /\
    load 32 0x91000 (p_mem s') = program ++ replicate 25 0 /\
    load 32 0x300000 (p_mem s') = program ++ replicate 25 0) (mkPrefix install_memory []).
Proof.
  eapply wp_mono.
  - apply (install_sections_correct small_layout 0 (ret false) (ret 0) 8 0xc000 0x9000 0x9100 0x200000 0x300000
      (mkPlan 0xc0200 program program_packed 0x90000 16) (mkPlan 0x200220 program program_packed 0x90010 16)
      (mkPlan 0x200240 program program_packed 0x91000 7) (mkPlan 0x200260 program program_packed 0x300000 32)
      install_memory).
    1-9: vm_compute; reflexivity.
    1-5: by vm_compute.
    + repeat apply Forall_cons_2; [..|by apply Forall_nil_2];
        first [left; by vm_compute|right; by vm_compute].
    + exact small_plans_apart.
    + exact install_memory_bytes.
    + exact small_plans_ok.
    + intros s. by wp_prim.
    + intros s. unfold temporary_area. cbn [Z.eqb negb]. by wp_prim.
    + reflexivity.
  - cbv zeta. intros edi' s' (E & Hin & Hbss & _). split; [exact E|].
    apply Forall_cons_1 in Hin as [H1 Hin]. apply Forall_cons_1 in Hin as [H2 Hin].
    apply Forall_cons_1 in Hin as [_ Hin]. apply Forall_cons_1 in Hin as [H4 _].
    split; [exact H1|]. split; [exact H2|]. split; [exact Hbss|exact H4].
Defined.
